(* ===== verification/_CoqProject ===== *)
-Q . S2P
Prelude.v
HevList.v
HevRBTree.v
HevRBTreeProofs.v
HevRBTreeInsert.v
HevRBTreeErase.v
HevRBTreeRemove.v
HevRBTreeFrame.v
HevRBTreeSpec.v
MappedDNS.v
MappedDNSProofs.v
MappedDNSHandle.v
MappedDNSQuery.v
RingBuffer.v
SessionTCP.v
SessionTCPProofs.v
Socks5Addr.v
Socks5Io.v
Descriptors.v
Socks5Client.v
Socks5Server.v
Socks5ServerLife.v
SessionTCPLife.v
SessionTCPLifeProofs.v
Socks5Handshake.v
Socks5Interop.v
Socks5Session.v
Socks5ClientTrace.v
Authenticator.v
TunnelPacket.v
TunnelPacketProofs.v
Config.v
ConfigProofs.v
TunnelLife.v
TunnelLifeProofs.v
Socks5UDP.v
Socks5UDPProofs.v
Socks5UDPServer.v
Socks5UDPServerProofs.v
SessionUDP.v
SessionUDPProofs.v
TunnelSessions.v
TunnelSessionsProofs.v
MappedConnection.v
TunnelTasks.v
TunnelTasksProofs.v
TunnelDevice.v
TunnelDeviceProofs.v
TunnelDeviceBSD.v
TunnelDeviceFreeBSD.v
TunnelDeviceNetBSD.v
TunnelDeviceMacOS.v
TunnelDeviceBSDProofs.v
TunnelDeviceWindows.v
TunnelDeviceWindowsProofs.v
SocketOps.v
SocketOpsProofs.v
TunnelJni.v
TunnelJniProofs.v
Logger.v
Socks5AddrText.v
HevExec.v
HevJni.v
Main.v
MainProofs.v
