(* ===== verification/Prelude.v ===== *)
(** * Verification of the native tunnel of TZVPN

    TZVPN is an Android VPN application.  Its native part, in C, is a SOCKS5 tunnel: it reads
    IP packets from a device, lets a network stack make TCP connections and UDP flows of
    them, and carries each of these as a session to a SOCKS5 proxy.  This library models that
    part and proves what makes it correct.  Paths below are relative to
    src/app/src/main/cpp/hev-socks5-tunnel-src/src unless they begin with a directory of cpp.

    ** How the program is put together

    - Java calls the native methods of hev-socks5-tunnel/hev_jni.c, which run the program in a
      thread of its own: hev-main.c reads the configuration (hev-config.c), sets up the loggers
      and the task system and runs the tunnel (hev-socks5-tunnel.c).
    - The tunnel is three tasks of a cooperative task system and one task for each session.
      The reader gives packets to the network stack, whose handlers create sessions; the
      timer task drives the stack; the event task waits for the stop.
    - A session (hev-socks5-session{,-tcp,-udp}.c) is a SOCKS5 client (core/src) with a
      relay: it connects to the proxy, does the handshake and copies data between a socket
      and a connection of the stack.  core/src has the server of the same protocol too.
    - DNS queries for the mapped DNS (hev-mapped-dns.c) are answered with addresses of a
      reserved network that stand for names; the sessions translate them back.
    - Below all this are a list, a red-black tree and a ring buffer (misc, core/src).
    - socket_ops/socket_ops_jni.c has socket primitives the application calls by itself.

    ** The files

    A file [X.v] has one module [X] with the data and the operations of a part, in the order
    of the source and under its names; [XProofs.v] holds the proofs where they are long.
    - [Prelude]: machine integers, memory blocks, C strings, the state monad [M] with its
      logic [wp], and the lemmas all parts share.
    - [HevList], [RingBuffer]: misc/hev-list.c, misc/hev-ring-buffer.c.
    - [HevRBTree]: core/src/hev-rbtree.c.  [HevRBTreeProofs] (trees, zippers, rotations, searching),
      [HevRBTreeInsert], [HevRBTreeErase], [HevRBTreeRemove] prove the operations,
      [HevRBTreeFrame] that they neither allocate nor free, and [HevRBTreeSpec] states the
      contract that [MappedDNS] and [Authenticator] use.
    - [MappedDNS]: hev-mapped-dns.c, over the list and the tree.  [MappedDNSProofs] (the cache),
      [MappedDNSHandle] (any request), [MappedDNSQuery] (well-formed ones).
    - [SessionTCP], [SessionTCPLife]: hev-socks5-session-tcp.c, the copying and the life of the
      object with the callbacks of its connection.
    - [Socks5Addr]: the conversions of addresses, core/src/hev-socks5-misc.c, misc/hev-utils.c.
    - [Socks5Io]: core/src/hev-socks5.c and what client and server share: programs that make
      calls whose answers are not known, with the logic [wpp] for one program and the steps
      [nstep] of two programs connected by streams.  [Descriptors]: the logic for who closes
      what.
    - [Socks5Client], [Socks5Server], [Socks5ServerLife]: core/src/hev-socks5-client*.c,
      hev-socks5-server.c, hev-socks5-tcp.c.  [Socks5Handshake], [Socks5Interop] (the two
      together), [Socks5ClientTrace] (the client against any proxy), [Socks5Session]
      (hev-socks5-session.c, the whole life of a client).
    - [Authenticator]: core/src/hev-socks5-{user,authenticator}.c; it implements the class that
      the server's theorems assume.
    - [Socks5UDP], [Socks5UDPServer]: core/src/hev-socks5-udp.c, the framing and the server's relay.
    - [SessionUDP]: hev-socks5-session-udp.c.
    - [TunnelPacket] (the reader), [TunnelLife] (initialisation and finalisation),
      [TunnelSessions] (the set of sessions), [TunnelTasks] (the tasks, with the states of the
      task system): hev-socks5-tunnel.c.
    - [MappedConnection]: no code of its own; a name from its query through the cache and the
      session to the proxy, by the lemmas of the parts on the way.
    - [TunnelDevice]: hev-tunnel-linux.c, hev-tunnel.h and what the tunnel wants of any device,
      which [TunnelDeviceProofs] states as the class [DeviceOk].  [TunnelDeviceBSD] has what the
      BSD systems share, [TunnelDeviceFreeBSD], [TunnelDeviceNetBSD], [TunnelDeviceMacOS] their
      devices, [TunnelDeviceWindows] the one of Windows.
    - [Socks5AddrText]: addresses as text for the log, of core/src/hev-socks5-misc.c.
    - [Config]: hev-config.c.  [Logger]: misc/hev-logger.c, core/src/hev-socks5-logger.c.
      [Main]: hev-main.c and the process-wide part of misc/hev-utils.c, over the three.
    - [SocketOps]: socket_ops/socket_ops_jni.c.  [TunnelJni]: hev-socks5-tunnel/hev_jni.c.
    - [HevJni]: hev-jni.c, which the build for Android leaves out for hev_jni.c.  [HevExec]: the
      processes of the scripts, misc/hev-exec.c.

    ** How C is modelled

    The targets are 64-bit and little-endian.  An integer is a [Z] and its wrap-around is
    written out; memory is a list of bytes with checked accesses; objects that are linked live
    in a heap ([gmap]).  An access outside, a use of what was freed, a double free or close,
    an [abort] and undefined arithmetic are [None] or [Crash], so that a theorem that a
    function returns says that none of these happens.  Whatever the system, the stack or the
    other side answers is an argument, a list of arguments or an oracle, and the theorems
    hold for all of them; where they must be sensible, a class says how ([ResolverOk],
    [GoodHeap], [KernelOk], [Socks5Io.possible]), with an instance next to the witnesses.
    Callbacks and other tasks run where a task yields: the steps they take there are an
    argument as well.

    Loops over lists and trees run on fuel, and the operations start with enough: one round for
    each node of the heap, and one more; the theorems say that they return, so the fuel
    suffices.  Loops over what arrives from outside run over the list of what arrives; their
    theorems hold for every such list.

    ** What is shown

    - Data structures: the list and the ring buffer refine sequences; insertion into and
      erasure from the tree keep it a balanced search tree without touching other memory.
    - Sessions: both directions of a TCP session are copied faithfully and completely, UDP
      datagrams travel in order with their addresses, no buffer is lost, and each session,
      client or server, closes what it opened and survives its connection.
    - The protocol: client and server agree, with the right verdict, however their steps are
      interleaved; addresses and both framings of datagrams round-trip; whatever the other
      side sends is safe.
    - The mapped DNS: the cache is a bounded LRU map, its answers are well formed and stay
      valid as long as the cache promises, any request is safe; and, over all parts, a
      connection to the address that was answered for a name asks the proxy for that name.
    - The tunnel: packets are filtered by the policy and none is lost, starting and stopping
      releases what was acquired, the set of sessions is a queue with a limit, no task wakes one
      that does not run, and a stop ends all tasks in at most four of their steps once the
      event task has seen it.
    - The edges: any configuration leaves well-formed settings or is refused; a start returns
      a code that says what went wrong and leaves nothing behind; the native methods and the
      tunnel's thread do not get in each other's way; the socket primitives exchange the bytes
      of a sent segment and undo everything on failure; the devices get the configured
      settings and no descriptor is lost.

    Where the code does not do what it means to do, a theorem of the part's file says what it
    does instead, for instance [hev_socks5_tunnel_insert_session_aborts] (a limit of one
    session ends the process), [session_terminate_forgotten], [nativeStop_hangs],
    [signal_handler_leaves_zombie] and
    [hev_mapped_dns_handle_reads_past_request].

    ** Not modelled

    - third-part: the network stack (lwip), the YAML parser and the task system are other
      projects.  What the code uses of them is a parameter; of the task system the states of
      tasks, waking and joining are modelled ([TunnelSessions], [TunnelTasks]), not its
      scheduler's order, its reactor and its stacks.  The mutex of the tunnel is left out:
      tasks are cooperative and none yields while it holds it.
    - The generated resolvers/resolvers_data.h, which no C code uses; the registration of the
      native methods; [main], its signal handler and its help text, which belong to the stand-alone program;
      the index of the interface as text, for the scripts; the singleton pointer of the mapped
      DNS; tables of classes, getters, and texts of log messages; the Kotlin part of the
      application. *)

From Stdlib Require Import String.
From Stdlib Require Export ZArith Lia.
From stdpp Require Export gmap.
From stdpp Require Export prelude.

#[export] Set Warnings "-level-tolerance,-clear-no-such-hyp".

Open Scope Z_scope.

(** ** Machine integers

    A C integer is a [Z]; the wrap-around of its type is written out. *)

Definition u8 (z : Z) : Z := z mod 2 ^ 8.
Definition u16 (z : Z) : Z := z mod 2 ^ 16.
Definition u32 (z : Z) : Z := z mod 2 ^ 32.
Definition u64 (z : Z) : Z := z mod 2 ^ 64.
Definition s32 (z : Z) : Z := (z + 2 ^ 31) mod 2 ^ 32 - 2 ^ 31.

Definition is_u8 (z : Z) : Prop := 0 <= z < 2 ^ 8.
Definition is_u16 (z : Z) : Prop := 0 <= z < 2 ^ 16.
Definition is_u32 (z : Z) : Prop := 0 <= z < 2 ^ 32.
Definition is_s32 (z : Z) : Prop := - 2 ^ 31 <= z < 2 ^ 31.

(** The targets are little-endian, so the network order conversions swap. *)
Definition swap16 (v : Z) : Z := (v mod 2 ^ 8) * 2 ^ 8 + (v / 2 ^ 8) mod 2 ^ 8.
Definition htons (v : Z) : Z := swap16 (u16 v).
Definition ntohs (v : Z) : Z := swap16 (u16 v).
Definition swap32 (v : Z) : Z :=
  (v mod 2 ^ 8) * 2 ^ 24 + (v / 2 ^ 8) mod 2 ^ 8 * 2 ^ 16
  + (v / 2 ^ 16) mod 2 ^ 8 * 2 ^ 8 + (v / 2 ^ 24) mod 2 ^ 8.
Definition ntohl (v : Z) : Z := swap32 (u32 v).
Definition htonl (v : Z) : Z := swap32 (u32 v).

(** ** Memory

    A block of memory is the list of its bytes; an access outside it is [None]. *)

Abbreviation bytes := (list Z).

Definition bytes_ok (m : bytes) : Prop := Forall is_u8 m.

Definition rd8 (m : bytes) (off : Z) : option Z :=
  if decide (0 <= off) then m !! Z.to_nat off else None.

Definition rd (m : bytes) (off len : Z) : option bytes :=
  if decide (0 <= off ∧ 0 <= len ∧ off + len <= Z.of_nat (length m)) then
    Some (take (Z.to_nat len) (drop (Z.to_nat off) m))
  else None.

Definition wr (m : bytes) (off : Z) (v : bytes) : option bytes :=
  if decide (0 <= off ∧ off + Z.of_nat (length v) <= Z.of_nat (length m)) then
    Some (take (Z.to_nat off) m ++ v ++ drop (Z.to_nat off + length v) m)
  else None.

(** The memory image of a 16-bit value, and a 16-bit load. *)
Definition le16 (v : Z) : bytes := [v mod 2 ^ 8; (v / 2 ^ 8) mod 2 ^ 8].
Definition of_le16 (b : bytes) : Z :=
  match b with [x; y] => x + 2 ^ 8 * y | _ => 0 end.

(** The image of a big-endian 16-bit field on the wire. *)
Definition be16 (v : Z) : bytes := [(v / 2 ^ 8) mod 2 ^ 8; v mod 2 ^ 8].

(** ** C strings

    A C string is the list of its bytes before the terminating NUL. *)

(** The C string literals of the program. *)
Definition lit (s : String.string) : bytes :=
  (fun a => Z.of_nat (Ascii.nat_of_ascii a)) <$> String.list_ascii_of_string s.
Arguments lit s%_string.

Definition cstr_ok (s : bytes) : Prop := Forall (fun b => 0 < b < 2 ^ 8) s.

(** The string that starts at the head of a block: [None] when no NUL ends it. *)
Fixpoint cstr_of (m : bytes) : option bytes :=
  match m with
  | [] => None
  | b :: m' => if decide (b = 0) then Some [] else cons b <$> cstr_of m'
  end.

Fixpoint strcmp (a b : bytes) : Z :=
  match a, b with
  | [], [] => 0
  | [], y :: _ => - y
  | x :: _, [] => x
  | x :: a', y :: b' => if decide (x = y) then strcmp a' b' else x - y
  end.

(** [memcmp] of two blocks over their first [n] bytes. *)
Fixpoint memcmp (a b : bytes) (n : nat) : Z :=
  match n, a, b with
  | S n', x :: a', y :: b' => if decide (x = y) then memcmp a' b' n' else x - y
  | _, _, _ => 0
  end.

(** The [n] bytes that [strncpy] stores: the string, then NUL padding. *)
Definition strncpy (s : bytes) (n : nat) : bytes :=
  take n s ++ replicate (n - length s) 0.

(** ** Pointers and stateful code

    A pointer is [None] (NULL) or a location.  Code that updates a state is a
    function from the state to a result and the new state; [None] stands for an
    access through an invalid pointer (or for exhausted loop fuel), so a theorem
    that a function returns [Some] shows that it is memory safe and terminates. *)

Abbreviation loc := positive.
Abbreviation ptr := (option positive).

Definition M (S A : Type) : Type := S -> option (A * S).

#[export] Instance M_ret {S} : MRet (M S) := fun A a s => Some (a, s).
#[export] Instance M_bind {S} : MBind (M S) := fun A B f m s =>
  match m s with Some (a, s') => f a s' | None => None end.

#[export] Instance M_fmap {S} : FMap (M S) := fun A B f m s =>
  match m s with Some (a, s') => Some (f a, s') | None => None end.

Definition mfail {S A} : M S A := fun _ => None.
Definition mget {S A} (f : S -> option A) : M S A :=
  fun s => match f s with Some a => Some (a, s) | None => None end.
Definition mput {S} (f : S -> option S) : M S unit :=
  fun s => match f s with Some s' => Some (tt, s') | None => None end.

Definition mwhen {S} (b : bool) (m : M S unit) : M S unit :=
  if b then m else mret tt.

(** [wp m s Q]: running [m] from [s] returns, and its result satisfies [Q]. *)
Definition wp {S A} (m : M S A) (s : S) (Q : A -> S -> Prop) : Prop :=
  match m s with Some (a, s') => Q a s' | None => False end.

Section WpRules.
Context {S : Type}.

Lemma wp_ret {A} (a : A) (s : S) (Q : A -> S -> Prop) : Q a s -> wp (mret a) s Q.
Proof. done. Qed.

Lemma wp_bind {A B} (m : M S A) (f : A -> M S B) s Q :
  wp m s (fun a s' => wp (f a) s' Q) -> wp (m ≫= f) s Q.
Proof. unfold wp, mbind, M_bind. by destruct (m s) as [[]|]. Qed.

Lemma wp_fmap {A B} (g : A -> B) (m : M S A) s Q :
  wp m s (fun a s' => Q (g a) s') -> wp (g <$> m) s Q.
Proof. unfold wp, fmap, M_fmap. by destruct (m s) as [[]|]. Qed.

Lemma wp_mono {A} (m : M S A) s (P Q : A -> S -> Prop) :
  wp m s P -> (forall a s', P a s' -> Q a s') -> wp m s Q.
Proof. unfold wp. destruct (m s) as [[]|]; auto. Qed.

Lemma wp_get {A} (f : S -> option A) s a (Q : A -> S -> Prop) :
  f s = Some a -> Q a s -> wp (mget f) s Q.
Proof. unfold wp, mget. by intros ->. Qed.

Lemma wp_put (f : S -> option S) s s' (Q : unit -> S -> Prop) :
  f s = Some s' -> Q tt s' -> wp (mput f) s Q.
Proof. unfold wp, mput. by intros ->. Qed.

(** A bind whose head is itself a sequence can be entered through that sequence. *)
Lemma wp_assoc {A B C} (m : M S A) (f : A -> M S B) (g : B -> M S C) s (P : B -> S -> Prop) Q :
  wp (a ← m; f a) s P -> (forall b s', P b s' -> wp (g b) s' Q) ->
  wp (a ← m; b ← f a; g b) s Q.
Proof.
  unfold wp, mbind, M_bind. destruct (m s) as [[a s1]|]; [|done].
  destruct (f a s1) as [[b s2]|]; [|done]. intros Hp Hg. by apply Hg.
Qed.

Lemma wp_elim {A} (m : M S A) s Q :
  wp m s Q -> exists a s', m s = Some (a, s') ∧ Q a s'.
Proof. unfold wp. destruct (m s) as [[a s']|]; [eauto | done]. Qed.

Lemma wp_intro {A} (m : M S A) s Q a s' :
  m s = Some (a, s') -> Q a s' -> wp m s Q.
Proof. unfold wp. by intros ->. Qed.

(** Running a first step whose outcome is known. *)
Lemma bind_some {A B} (m : M S A) (f : A -> M S B) s a s' :
  m s = Some (a, s') -> (m ≫= f) s = f a s'.
Proof. unfold mbind, M_bind. by intros ->. Qed.
End WpRules.

(** ** Shared lemmas *)

Lemma NoDup_middle {A} (l1 l2 : list A) x :
  NoDup (l1 ++ x :: l2) ↔ x ∉ l1 ∧ x ∉ l2 ∧ NoDup (l1 ++ l2).
Proof.
  rewrite <- Permutation_middle, NoDup_cons, not_elem_of_app. tauto.
Qed.

Lemma NoDup_snoc {A} (l : list A) x : NoDup (l ++ [x]) ↔ x ∉ l ∧ NoDup l.
Proof.
  rewrite NoDup_middle, app_nil_r. split; [tauto|]. intros []. split_and!; [done| |done].
  apply not_elem_of_nil.
Qed.

Lemma strcmp_eq a b : cstr_ok a -> cstr_ok b -> strcmp a b = 0 ↔ a = b.
Proof.
  unfold cstr_ok. revert b. induction a as [|x a IH]; intros [|y b] Ha Hb; simpl.
  - done.
  - apply Forall_cons in Hb. split; [lia | done].
  - apply Forall_cons in Ha. split; [lia | done].
  - apply Forall_cons in Ha, Hb. destruct (decide (x = y)) as [->|].
    + rewrite IH by tauto. split; congruence.
    + split; [lia | congruence].
Qed.

Lemma strcmp_sym a b : strcmp b a = - strcmp a b.
Proof.
  revert b. induction a as [|x a IH]; intros [|y b]; simpl; try lia.
  destruct (decide (y = x)) as [->|]; [by rewrite decide_True|].
  rewrite decide_False by congruence. lia.
Qed.

Lemma strcmp_trans a b c :
  cstr_ok a -> cstr_ok b -> cstr_ok c ->
  strcmp a b < 0 -> strcmp b c < 0 -> strcmp a c < 0.
Proof.
  unfold cstr_ok. revert b c.
  induction a as [|x a IH]; intros b c Ha Hb Hc.
  - destruct c as [|z c]; [by destruct b; simpl; intros; lia|].
    apply Forall_cons in Hc. simpl. lia.
  - destruct b as [|y b]; [apply Forall_cons in Ha; simpl; lia|].
    apply Forall_cons in Ha, Hb.
    destruct c as [|z c]; [simpl; lia|]. apply Forall_cons in Hc. simpl.
    repeat case_decide; try lia. apply IH; tauto.
Qed.

Lemma cstr_of_app s m : cstr_ok s -> cstr_of (s ++ 0 :: m) = Some s.
Proof.
  induction s as [|b s IH]; intros Hs; simpl; [done|].
  apply Forall_cons in Hs as [Hb Hs]. case_decide; [lia|]. by rewrite IH.
Qed.

Lemma swap16_involutive v : is_u16 v -> swap16 (swap16 v) = v.
Proof. unfold swap16, is_u16. intros. Z.div_mod_to_equations. lia. Qed.

Lemma swap16_range v : is_u16 (swap16 v).
Proof. unfold swap16, is_u16. Z.div_mod_to_equations. lia. Qed.

Lemma u16_id v : is_u16 v -> u16 v = v.
Proof. apply Z.mod_small. Qed.

Lemma ntohs_htons v : is_u16 v -> ntohs (htons v) = v.
Proof.
  intros H. unfold ntohs, htons. rewrite (u16_id v H), (u16_id _ (swap16_range v)).
  by apply swap16_involutive.
Qed.

Lemma le16_htons v : is_u16 v -> le16 (htons v) = be16 v.
Proof.
  intros H. unfold le16, htons, be16. rewrite (u16_id v H). unfold swap16, is_u16 in *.
  f_equal; [|f_equal]; Z.div_mod_to_equations; lia.
Qed.

Lemma of_le16_le16 v : is_u16 v -> of_le16 (le16 v) = v.
Proof. unfold of_le16, le16, is_u16. intros. Z.div_mod_to_equations. lia. Qed.

Lemma length_wr m off v m' : wr m off v = Some m' -> length m' = length m.
Proof.
  unfold wr. case_decide; [|done]. intros [= <-].
  rewrite !length_app, length_take, length_drop. lia.
Qed.

Lemma length_strncpy s n : length (strncpy s n) = n.
Proof. unfold strncpy. rewrite length_app, length_take, length_replicate. lia. Qed.

(** ** Memory accesses in bounds *)

Lemma rd8_lookup m off : 0 <= off -> rd8 m off = m !! Z.to_nat off.
Proof. intros. unfold rd8. by rewrite decide_True. Qed.

Lemma rd8_bound m off : 0 <= off < Z.of_nat (length m) -> exists b, rd8 m off = Some b.
Proof.
  intros H. rewrite rd8_lookup by lia.
  destruct (lookup_lt_is_Some_2 m (Z.to_nat off)) as [b Hb]; [lia | by exists b].
Qed.

Lemma bytes_ok_lookup m i b : bytes_ok m -> m !! i = Some b -> is_u8 b.
Proof. unfold bytes_ok. rewrite Forall_forall. intros H ?%list_elem_of_lookup_2. auto. Qed.

Lemma wr_bound m off v :
  0 <= off -> off + Z.of_nat (length v) <= Z.of_nat (length m) ->
  wr m off v = Some (take (Z.to_nat off) m ++ v ++ drop (Z.to_nat off + length v) m).
Proof. intros. unfold wr. by rewrite decide_True. Qed.

Lemma wr_byte m off b :
  0 <= off < Z.of_nat (length m) -> wr m off [b] = Some (<[Z.to_nat off := b]> m).
Proof.
  intros H. rewrite wr_bound by (simpl; lia). simpl length.
  rewrite insert_take_drop by lia. simpl. by replace (Z.to_nat off + 1)%nat with (S (Z.to_nat off)) by lia.
Qed.

Lemma rd_bound m off len :
  0 <= off -> 0 <= len -> off + len <= Z.of_nat (length m) ->
  rd m off len = Some (take (Z.to_nat len) (drop (Z.to_nat off) m)).
Proof. intros. unfold rd. by rewrite decide_True. Qed.

Lemma length_rd m off len v : rd m off len = Some v -> Z.of_nat (length v) = len.
Proof.
  unfold rd. case_decide; [|done]. intros [= <-]. rewrite length_take, length_drop. lia.
Qed.

Lemma bytes_ok_take n m : bytes_ok m -> bytes_ok (take n m).
Proof. apply Forall_take. Qed.
Lemma bytes_ok_drop n m : bytes_ok m -> bytes_ok (drop n m).
Proof. apply Forall_drop. Qed.
Lemma bytes_ok_app m1 m2 : bytes_ok (m1 ++ m2) ↔ bytes_ok m1 ∧ bytes_ok m2.
Proof. apply Forall_app. Qed.

Lemma bytes_ok_wr m off v m' : bytes_ok m -> bytes_ok v -> wr m off v = Some m' -> bytes_ok m'.
Proof.
  unfold wr. intros Hm Hv. case_decide; [|done]. intros [= <-].
  rewrite !bytes_ok_app. eauto using bytes_ok_take, bytes_ok_drop.
Qed.

Lemma u8_ok z : is_u8 (u8 z).
Proof. apply Z.mod_pos_bound. lia. Qed.

Lemma le16_ok v : bytes_ok (le16 v).
Proof.
  apply Forall_cons; split; [|apply Forall_cons; split; [|constructor]]; by apply Z.mod_pos_bound.
Qed.

(** A block that holds a NUL holds a C string. *)
Lemma cstr_of_nul m : 0 ∈ m -> exists s, cstr_of m = Some s.
Proof.
  induction m as [|b m IH]; [by intros ?%elem_of_nil|].
  intros [<-|Hm]%elem_of_cons; simpl; [by exists []|]. case_decide; [by exists []|].
  destruct (IH Hm) as [s ->]. by exists (b :: s).
Qed.

Lemma cstr_of_ok m s : bytes_ok m -> cstr_of m = Some s -> cstr_ok s.
Proof.
  unfold bytes_ok, cstr_ok. revert s. induction m as [|b m IH]; intros s; simpl; [done|].
  intros [Hb Hm]%Forall_cons. case_decide as H0; [intros [= <-]; constructor|].
  destruct (cstr_of m) as [s'|]; simpl; [|done]. intros [= <-]. unfold is_u8 in Hb.
  apply Forall_cons. split; [lia | by apply IH].
Qed.

Lemma lor_bound n a b : 0 <= n -> 0 <= a < 2 ^ n -> 0 <= b < 2 ^ n -> 0 <= Z.lor a b < 2 ^ n.
Proof.
  intros Hn Ha Hb. assert (0 <= Z.lor a b) as H0 by (apply Z.lor_nonneg; lia).
  split; [done|]. rewrite <- (Z.mod_small a (2 ^ n)), <- (Z.mod_small b (2 ^ n)) by done.
  rewrite <- !Z.land_ones, <- Z.land_lor_distr_l, Z.land_ones by lia.
  apply Z.mod_pos_bound. lia.
Qed.

Lemma land_bound n a b : 0 <= n -> 0 <= a < 2 ^ n -> 0 <= b -> 0 <= Z.land a b < 2 ^ n.
Proof.
  intros Hn Ha Hb. rewrite <- (Z.mod_small a (2 ^ n)) by done.
  rewrite <- Z.land_ones, <- Z.land_assoc, (Z.land_comm _ b), Z.land_assoc, Z.land_ones by lia.
  apply Z.mod_pos_bound. lia.
Qed.

(** A 16-bit value built from its bytes, and its bytes. *)
Lemma lor_shift_8 a b : 0 <= a -> is_u8 b -> Z.lor (Z.shiftl a 8) b = a * 2 ^ 8 + b.
Proof.
  intros Ha Hb. rewrite <- Z.add_lor_land, Z.shiftl_mul_pow2 by lia.
  assert (Z.land (a * 2 ^ 8) b = 0) as ->; [|lia].
  apply Z.bits_inj'. intros n Hn. rewrite Z.land_spec, Z.bits_0.
  destruct (decide (n < 8)).
  - by rewrite Z.mul_pow2_bits_low by lia.
  - rewrite (Z.bits_above_log2 b); [by rewrite andb_false_r | apply Hb |].
    destruct (decide (b = 0)) as [->|]; [simpl; lia|].
    apply Z.log2_lt_pow2; [unfold is_u8 in Hb; lia|].
    unfold is_u8 in Hb. eapply Z.lt_le_trans; [apply Hb|]. apply Z.pow_le_mono_r; lia.
Qed.


Lemma be16_bytes v : [Z.land (Z.shiftr v 8) 255; Z.land v 255] = be16 v.
Proof.
  change 255 with (Z.ones 8). rewrite !Z.land_ones, Z.shiftr_div_pow2 by lia. done.
Qed.

(** Accesses at the end of a known prefix. *)
Lemma wr_app pre rest m off v :
  m = pre ++ rest -> off = Z.of_nat (length pre) -> (length v <= length rest)%nat ->
  wr m off v = Some (pre ++ v ++ drop (length v) rest).
Proof.
  intros -> -> Hv. rewrite wr_bound by (rewrite ?length_app; lia). rewrite Nat2Z.id.
  rewrite take_app_length, drop_app_ge by lia. do 4 f_equal. lia.
Qed.

Lemma rd_app pre v rest m off len :
  m = pre ++ v ++ rest -> off = Z.of_nat (length pre) -> len = Z.of_nat (length v) ->
  rd m off len = Some v.
Proof.
  intros -> -> ->. rewrite rd_bound by (rewrite ?length_app; lia). rewrite !Nat2Z.id.
  by rewrite drop_app_length, take_app_length.
Qed.

Lemma rd8_app pre b rest m off :
  m = pre ++ b :: rest -> off = Z.of_nat (length pre) -> rd8 m off = Some b.
Proof.
  intros -> ->. rewrite rd8_lookup by lia. rewrite Nat2Z.id. by rewrite lookup_app_r, Nat.sub_diag.
Qed.

Lemma length_be16 v : length (be16 v) = 2%nat.
Proof. done. Qed.

Lemma be16_inj v w : is_u16 v -> is_u16 w -> be16 v = be16 w -> v = w.
Proof. unfold is_u16, be16. intros Hv Hw [= H1 H2]. Z.div_mod_to_equations. lia. Qed.

Lemma be16_ok v : bytes_ok (be16 v).
Proof.
  apply Forall_cons; split; [|apply Forall_cons; split; [|constructor]]; by apply Z.mod_pos_bound.
Qed.

Lemma htons_of_be16 v : is_u16 v -> of_le16 (be16 v) = htons v.
Proof. intros H. unfold of_le16, be16, htons. rewrite (u16_id v H). unfold swap16, is_u16 in *. lia. Qed.

Lemma ntohs_of_be16 v : is_u16 v -> ntohs (of_le16 (be16 v)) = v.
Proof. intros H. rewrite (htons_of_be16 v H). by apply ntohs_htons. Qed.

Lemma wr_0 rest v : (length v <= length rest)%nat -> wr rest 0 v = Some (v ++ drop (length v) rest).
Proof. by apply (wr_app []). Qed.

Lemma rd_0 m len : 0 <= len <= Z.of_nat (length m) -> rd m 0 len = Some (take (Z.to_nat len) m).
Proof. intros. rewrite rd_bound by lia. by rewrite drop_0. Qed.

Lemma strncpy_short s n : (length s < n)%nat ->
  strncpy s n = s ++ 0 :: replicate (n - length s - 1) 0.
Proof.
  intros Hs. unfold strncpy. rewrite take_ge by lia. f_equal.
  destruct (n - length s)%nat as [|k] eqn:Hk; [lia|]. by rewrite Nat.sub_succ, Nat.sub_0_r.
Qed.
