(* ===== verification/HevList.v ===== *)
(** * The intrusive doubly linked list of src/misc/hev-list.c

    Nodes live in a heap; the list record holds the head and tail pointers.  The
    operations are the C code statement by statement.  [dl_repr] relates a heap and
    a list record to the sequence of its nodes, and the operations refine
    appending to and removing from that sequence. *)

From S2P Require Import Prelude.

Module HevList.

(** ** Data and operations *)

Record HevListNode := mk_node { next : ptr; prev : ptr }.

(** The list record [HevList] (head, tail) with the memory its nodes live in. *)
Record state := mk_state { head : ptr; tail : ptr; nodes : gmap loc HevListNode }.

Definition empty_list : state := mk_state None None ∅.

Definition load (p : ptr) : M state HevListNode :=
  mget (fun s => p ≫= fun l => nodes s !! l).
Definition store (p : ptr) (f : HevListNode -> HevListNode) : M state unit :=
  mput (fun s => l ← p; n ← nodes s !! l;
                 Some (mk_state (head s) (tail s) (<[l := f n]> (nodes s)))).
Definition set_head (p : ptr) : M state unit :=
  mput (fun s => Some (mk_state p (tail s) (nodes s))).
Definition set_tail (p : ptr) : M state unit :=
  mput (fun s => Some (mk_state (head s) p (nodes s))).
Definition get_tail : M state ptr := mget (fun s => Some (tail s)).

Definition set_next (v : ptr) (n : HevListNode) := mk_node v (prev n).
Definition set_prev (v : ptr) (n : HevListNode) := mk_node (next n) v.

Definition hev_list_node_prev (node : loc) : M state ptr := prev <$> load (Some node).
Definition hev_list_node_next (node : loc) : M state ptr := next <$> load (Some node).
Definition hev_list_first : M state ptr := mget (fun s => Some (head s)).
Definition hev_list_last : M state ptr := mget (fun s => Some (tail s)).

Definition hev_list_add_tail (new_ : loc) : M state unit :=
  t ← get_tail;
  store (Some new_) (set_prev t);;
  store (Some new_) (set_next None);;
  (match t with
   | Some _ => store t (set_next (Some new_))
   | None => set_head (Some new_)
   end);;
  set_tail (Some new_).

Definition hev_list_del (node : loc) : M state unit :=
  n ← load (Some node);
  (match prev n with
   | Some _ => store (prev n) (set_next (next n))
   | None => set_head (next n)
   end);;
  n' ← load (Some node);
  (match next n' with
   | Some _ => store (next n') (set_prev (prev n'))
   | None => set_tail (prev n')
   end).

(** Allocation of a zeroed node, the part of the owner's [hev_malloc0] that the
    list code later touches. *)
Definition alloc_node (l : loc) : M state unit :=
  mput (fun s => match nodes s !! l with
                 | Some _ => None
                 | None => Some (mk_state (head s) (tail s) (<[l := mk_node None None]> (nodes s)))
                 end).

Definition free_node (l : loc) : M state unit :=
  mput (fun s => match nodes s !! l with
                 | Some _ => Some (mk_state (head s) (tail s) (delete l (nodes s)))
                 | None => None
                 end).

(** ** The sequence a list holds *)

Definition head_or (l : list loc) (n : ptr) : ptr :=
  match l with [] => n | x :: _ => Some x end.
Definition last_or (p : ptr) (l : list loc) : ptr :=
  match last l with None => p | Some x => Some x end.

Fixpoint seg (h : gmap loc HevListNode) (p : ptr) (l : list loc) (n : ptr) : Prop :=
  match l with
  | [] => True
  | x :: l' => h !! x = Some (mk_node (head_or l' n) p) ∧ seg h (Some x) l' n
  end.

Definition dl_repr (s : state) (l : list loc) : Prop :=
  NoDup l ∧ head s = head_or l None ∧ tail s = last_or None l
  ∧ seg (nodes s) None l None.

Lemma last_or_snoc p l x : last_or p (l ++ [x]) = Some x.
Proof. unfold last_or. by rewrite last_snoc. Qed.

Lemma last_or_cons p x l : last_or p (x :: l) = last_or (Some x) l.
Proof. unfold last_or. rewrite last_cons. by destruct (last l). Qed.

Lemma last_or_app p l1 l2 : last_or p (l1 ++ l2) = last_or (last_or p l1) l2.
Proof. unfold last_or. rewrite last_app. by destruct (last l2). Qed.

Lemma head_or_app l1 l2 n : head_or (l1 ++ l2) n = head_or l1 (head_or l2 n).
Proof. by destruct l1. Qed.

Lemma seg_app h p l1 l2 n :
  seg h p (l1 ++ l2) n ↔ seg h p l1 (head_or l2 n) ∧ seg h (last_or p l1) l2 n.
Proof.
  revert p. induction l1 as [|x l1 IH]; intros p; simpl; [by unfold last_or; simpl; tauto|].
  rewrite head_or_app, IH, last_or_cons. tauto.
Qed.

Lemma seg_frame h p l n x v : x ∉ l -> seg (<[x := v]> h) p l n ↔ seg h p l n.
Proof.
  revert p. induction l as [|y l IH]; intros p Hx; simpl; [done|].
  apply not_elem_of_cons in Hx as [Hxy Hx].
  rewrite lookup_insert_ne by done. by rewrite IH.
Qed.

Lemma seg_frame_delete h p l n x : x ∉ l -> seg (delete x h) p l n ↔ seg h p l n.
Proof.
  revert p. induction l as [|y l IH]; intros p Hx; simpl; [done|].
  apply not_elem_of_cons in Hx as [Hxy Hx].
  rewrite lookup_delete_ne by done. by rewrite IH.
Qed.

(** Redirecting the link out of, or into, a segment. *)
Lemma seg_set_last h p l y n n' :
  y ∉ l -> seg h p (l ++ [y]) n ->
  seg (<[y := mk_node n' (last_or p l)]> h) p (l ++ [y]) n'.
Proof.
  intros Hy. rewrite !seg_app. simpl. intros (H1 & H2 & _).
  rewrite seg_frame, lookup_insert_eq by done. done.
Qed.

Lemma seg_set_head h p p' y l n :
  y ∉ l -> seg h p (y :: l) n ->
  seg (<[y := mk_node (head_or l n) p']> h) p' (y :: l) n.
Proof. intros Hy [H1 H2]. simpl. by rewrite lookup_insert_eq, seg_frame. Qed.

Lemma dl_repr_empty : dl_repr empty_list [].
Proof. split; [constructor | done]. Qed.

Lemma seg_lookup h p l n x : seg h p l n -> x ∈ l -> is_Some (h !! x).
Proof.
  revert p. induction l as [|y l IH]; intros p; simpl; [by intros _ ?%elem_of_nil|].
  intros [H1 H2] [->|Hx]%elem_of_cons; eauto.
Qed.

(** ** Correctness of the operations *)

Section Steps.
Context (s : state).

Lemma wp_list_load {l n} (Q : HevListNode -> state -> Prop) :
  nodes s !! l = Some n -> Q n s -> wp (load (Some l)) s Q.
Proof. intros H. by apply wp_get. Qed.

Lemma wp_list_store {l n} f (Q : unit -> state -> Prop) :
  nodes s !! l = Some n ->
  Q tt (mk_state (head s) (tail s) (<[l := f n]> (nodes s))) ->
  wp (store (Some l) f) s Q.
Proof. intros H. apply wp_put. simpl. by rewrite H. Qed.

Lemma wp_set_head p (Q : unit -> state -> Prop) :
  Q tt (mk_state p (tail s) (nodes s)) -> wp (set_head p) s Q.
Proof. done. Qed.

Lemma wp_set_tail p (Q : unit -> state -> Prop) :
  Q tt (mk_state (head s) p (nodes s)) -> wp (set_tail p) s Q.
Proof. done. Qed.
End Steps.

Lemma wp_first s l : dl_repr s l -> wp hev_list_first s (fun r s' => r = head_or l None ∧ s' = s).
Proof. intros (_ & H & _). eapply wp_get; eauto. Qed.

Lemma wp_node_next s l1 x l2 :
  dl_repr s (l1 ++ x :: l2) ->
  wp (hev_list_node_next x) s (fun r s' => r = head_or l2 None ∧ s' = s).
Proof.
  intros (_ & _ & _ & H). apply seg_app in H as [_ [H _]].
  apply wp_fmap. by eapply wp_list_load.
Qed.

(** Appending an allocated node that is not in the list. *)
Lemma wp_add_tail s l x :
  dl_repr s l -> is_Some (nodes s !! x) -> x ∉ l ->
  wp (hev_list_add_tail x) s (fun _ s' => dl_repr s' (l ++ [x]) ∧ dom (nodes s') = dom (nodes s)).
Proof.
  intros (Hnd & Hh & Ht & Hseg) [n Hn] Hx. unfold hev_list_add_tail.
  pose proof (elem_of_dom_2 _ _ _ Hn) as Hdx.
  assert (Hnd' : NoDup (l ++ [x])) by by apply NoDup_snoc.
  apply wp_bind. eapply wp_get; [done|].
  apply wp_bind. eapply wp_list_store; [done|].
  apply wp_bind. eapply wp_list_store; [apply lookup_insert_eq|]. simpl.
  rewrite insert_insert_eq. unfold set_next, set_prev; simpl. rewrite Ht.
  destruct l as [|y l _] using rev_ind; simpl.
  - apply wp_bind, wp_set_head, wp_set_tail. simpl. split; [|set_solver].
    split_and!; try done. simpl. by rewrite lookup_insert_eq.
  - rewrite last_or_snoc. apply NoDup_snoc in Hnd as [Hy _].
    apply not_elem_of_app in Hx as [Hx Hxy%not_elem_of_cons].
    destruct Hxy as [Hxy _].
    pose proof Hseg as [_ [Hny _]]%seg_app; simpl in Hny.
    pose proof (elem_of_dom_2 _ _ _ Hny) as Hdy.
    apply wp_bind. eapply wp_list_store; [by simpl; rewrite lookup_insert_ne|]. simpl.
    apply wp_set_tail. simpl. split; [|set_solver].
    split_and!; try done; [by rewrite Hh; destruct l | by rewrite last_or_snoc |].
    apply seg_app. simpl. split.
    + rewrite insert_insert_ne by done. apply seg_frame; [set_solver|].
      by apply seg_set_last with None.
    + rewrite last_or_snoc. simpl. by rewrite lookup_insert_ne, lookup_insert_eq by done.
Qed.

(** Removing a node of the list; the node itself stays allocated. *)
Lemma wp_del s l1 x l2 :
  dl_repr s (l1 ++ x :: l2) ->
  wp (hev_list_del x) s (fun _ s' => dl_repr s' (l1 ++ l2) ∧ dom (nodes s') = dom (nodes s)).
Proof.
  intros (Hnd & Hh & Ht & Hseg). unfold hev_list_del.
  apply NoDup_middle in Hnd as (Hx1 & Hx2 & Hnd).
  apply seg_app in Hseg as [Hs1 [Hnx Hs2]]. simpl in Hs1.
  rewrite last_or_app, last_or_cons in Ht. rewrite head_or_app in Hh. simpl in Hh.
  apply wp_bind. eapply wp_list_load; [done|]. simpl.
  apply wp_bind.
  apply wp_mono with (P := fun _ s' =>
    head s' = head_or l1 (head_or l2 None) ∧ tail s' = tail s ∧
    nodes s' !! x = Some (mk_node (head_or l2 None) (last_or None l1)) ∧
    seg (nodes s') None l1 (head_or l2 None) ∧ seg (nodes s') (Some x) l2 None ∧
    dom (nodes s') = dom (nodes s)).
  { destruct l1 as [|y l1 _] using rev_ind; simpl.
    - apply wp_set_head. done.
    - rewrite last_or_snoc in *. apply not_elem_of_app in Hx1 as [Hx1 Hxy%not_elem_of_cons].
      destruct Hxy as [Hxy _]. rewrite <- app_assoc in Hnd. simpl in Hnd.
      apply NoDup_middle in Hnd as (Hy1 & Hy2 & _).
      pose proof Hs1 as [_ [Hny _]]%seg_app. simpl in Hny.
      pose proof (elem_of_dom_2 _ _ _ Hny) as Hdy.
      eapply wp_list_store; [done|]. simpl. unfold set_next; simpl.
      rewrite lookup_insert_ne, (seg_frame _ (Some x)) by done.
      split_and!; try done; [by rewrite Hh; destruct l1 | | set_solver].
      by apply seg_set_last with (Some x). }
  intros _ s' (Hh' & Ht' & Hnx' & Hs1' & Hs2' & Hd).
  apply wp_bind. eapply wp_list_load; [done|]. simpl.
  destruct l2 as [|z l2]; simpl.
  - apply wp_set_tail. simpl. rewrite app_nil_r in *. by split_and!.
  - apply not_elem_of_cons in Hx2 as [Hxz Hx2].
    apply NoDup_middle in Hnd as Hz. destruct Hz as (Hz1 & Hz2 & _).
    pose proof (elem_of_dom_2 _ _ _ (proj1 Hs2')) as Hdz.
    eapply wp_list_store; [apply Hs2'|]. unfold set_prev; simpl. split; [|set_solver].
    split_and!; simpl; [done|by rewrite head_or_app | by rewrite last_or_app, last_or_cons, Ht', Ht, last_or_cons |].
    apply seg_app. rewrite seg_frame by done. split; [done|].
    by eapply seg_set_head.
Qed.

(** Moving a node to the tail, as the users of the list do on every access. *)
Lemma wp_move_tail s l1 x l2 :
  dl_repr s (l1 ++ x :: l2) ->
  wp (hev_list_del x;; hev_list_add_tail x) s
    (fun _ s' => dl_repr s' (l1 ++ l2 ++ [x]) ∧ dom (nodes s') = dom (nodes s)).
Proof.
  intros Hl. pose proof Hl as (Hnd & _ & _ & Hseg). apply wp_bind.
  eapply wp_mono; [by apply wp_del|]. intros _ s1 [H1 Hd1].
  apply NoDup_middle in Hnd as (Hx1 & Hx2 & _).
  eapply wp_mono; [apply wp_add_tail; [exact H1| |set_solver]|].
  - rewrite <- elem_of_dom, Hd1, elem_of_dom. eapply seg_lookup; [exact Hseg|set_solver].
  - intros _ s2 [H2 Hd2]. rewrite <- app_assoc in H2. by rewrite Hd2, Hd1.
Qed.

Lemma dl_repr_agree s s' l :
  head s' = head s -> tail s' = tail s ->
  (forall x, x ∈ l -> nodes s' !! x = nodes s !! x) -> dl_repr s l -> dl_repr s' l.
Proof.
  intros Hh Ht Ha (Hnd & H1 & H2 & Hseg). split_and!; [done | congruence | congruence |].
  clear Hnd H1 H2. revert Hseg Ha. generalize (None : ptr) at 1 3 as p.
  induction l as [|x l IH]; intros p; simpl; [done|]. intros [Hx Hl] Ha. split.
  - rewrite Ha; [done | set_solver].
  - apply IH; [done|]. intros y Hy. apply Ha. set_solver.
Qed.

Lemma wp_list_alloc s l x :
  nodes s !! x = None -> dl_repr s l ->
  wp (alloc_node x) s (fun _ s' => dl_repr s' l ∧ nodes s' = <[x := mk_node None None]> (nodes s)
    ∧ x ∉ l).
Proof.
  intros Hx Hl. assert (x ∉ l) as Hnx.
  { intros Hin. destruct Hl as (_ & _ & _ & Hs). destruct (seg_lookup _ _ _ _ _ Hs Hin). congruence. }
  eapply wp_put; [by rewrite Hx|]. split_and!; [|done|done].
  apply (dl_repr_agree s); [done|done| |done]. intros y Hy. apply lookup_insert_ne. by intros ->.
Qed.

Lemma wp_list_free s l x :
  is_Some (nodes s !! x) -> x ∉ l -> dl_repr s l ->
  wp (free_node x) s (fun _ s' => dl_repr s' l ∧ nodes s' = delete x (nodes s)).
Proof.
  intros [n Hx] Hnx Hl. eapply wp_put; [by rewrite Hx|]. split; [|done].
  apply (dl_repr_agree s); [done|done| |done]. intros y Hy. apply lookup_delete_ne. by intros ->.
Qed.

(** ** The properties of the list *)

(** Hev_list_add_tail appends an allocated node that is not in the list. *)
Theorem hev_list_add_tail_ok s l x :
  dl_repr s l -> is_Some (nodes s !! x) -> x ∉ l ->
  exists s', hev_list_add_tail x s = Some (tt, s') ∧ dl_repr s' (l ++ [x])
    ∧ dom (nodes s') = dom (nodes s).
Proof.
  intros Hs Hn Hx. destruct (wp_elim _ _ _ (wp_add_tail _ _ _ Hs Hn Hx)) as ([] & s' & ? & ?).
  by exists s'.
Qed.

(** Hev_list_del removes a node of the list, wherever it is; a node that is deleted
    and added again is the last one of the list, the others keep their order. *)
Theorem hev_list_del_ok s l1 x l2 :
  dl_repr s (l1 ++ x :: l2) ->
  (exists s', hev_list_del x s = Some (tt, s') ∧ dl_repr s' (l1 ++ l2))
  ∧ (exists s', (hev_list_del x;; hev_list_add_tail x) s = Some (tt, s')
       ∧ dl_repr s' (l1 ++ l2 ++ [x])).
Proof.
  intros Hs. split.
  - destruct (wp_elim _ _ _ (wp_del _ _ _ _ Hs)) as ([] & s' & ? & ? & _). by exists s'.
  - destruct (wp_elim _ _ _ (wp_move_tail _ _ _ _ Hs)) as ([] & s' & ? & ? & _). by exists s'.
Qed.

(** A list with the one node 1; node 2 is allocated. *)
Definition example_list : state :=
  mk_state (Some 1%positive) (Some 1%positive)
    (<[2%positive := mk_node None None]> {[1%positive := mk_node None None]}).

Lemma example_list_repr : dl_repr example_list [1%positive].
Proof. split; [apply NoDup_singleton | done]. Qed.

Lemma hev_list_add_tail_ok_witness :
  exists s', hev_list_add_tail 2 example_list = Some (tt, s') ∧ dl_repr s' [1%positive; 2%positive].
Proof.
  destruct (hev_list_add_tail_ok example_list [1%positive] 2) as (s' & H1 & H2 & _);
    [exact example_list_repr | by eexists | by intros ?%list_elem_of_singleton | by exists s'].
Defined.

Lemma hev_list_del_ok_witness :
  exists s', hev_list_del 1 example_list = Some (tt, s') ∧ dl_repr s' [].
Proof. apply (hev_list_del_ok example_list [] 1 []). exact example_list_repr. Defined.

End HevList.
