(* ===== verification/HevRBTree.v ===== *)
(** * The intrusive red-black tree of src/core/src/hev-rbtree.c

    The model: the node records in a heap, the word [__parent_color] that packs the
    parent pointer with the colour, and every operation of the file statement by
    statement.  The proofs are in [HevRBTreeProofs]. *)

From S2P Require Import Prelude.

Module HevRBTree.

(** ** Data *)

Record HevRBTreeNode := mk_node { parent_color : Z; right : ptr; left : ptr }.

(** The tree record [HevRBTree] (its root) with the memory its nodes live in. *)
Record state := mk_state { root : ptr; nodes : gmap loc HevRBTreeNode }.

Definition empty_tree : state := mk_state None ∅.

Definition HEV_RBTREE_RED : Z := 0.
Definition HEV_RBTREE_BLACK : Z := 1.

(** Addresses: NULL is 0, nodes are aligned to four bytes at least, so the two low
    bits of a node address are free. *)
Definition addr (p : ptr) : Z := match p with None => 0 | Some l => 4 * Z.pos l end.
Definition of_addr (a : Z) : ptr := if decide (a = 0) then None else Some (Z.to_pos (a / 4)).

Definition load (p : ptr) : M state HevRBTreeNode :=
  mget (fun s => p ≫= fun l => nodes s !! l).
Definition store (p : ptr) (f : HevRBTreeNode -> HevRBTreeNode) : M state unit :=
  mput (fun s => l ← p; n ← nodes s !! l; Some (mk_state (root s) (<[l := f n]> (nodes s)))).
Definition get_root : M state ptr := mget (fun s => Some (root s)).
Definition set_root (p : ptr) : M state unit :=
  mput (fun s => Some (mk_state p (nodes s))).

Definition set_left (v : ptr) (n : HevRBTreeNode) := mk_node (parent_color n) (right n) v.
Definition set_right (v : ptr) (n : HevRBTreeNode) := mk_node (parent_color n) v (left n).
Definition set_pc (v : Z) (n : HevRBTreeNode) := mk_node v (right n) (left n).

Definition get_left (p : ptr) : M state ptr := left <$> load p.
Definition get_right (p : ptr) : M state ptr := right <$> load p.
Definition get_pc (p : ptr) : M state Z := parent_color <$> load p.

(** [if (p) m] *)
Definition if_set (p : ptr) (m : M state unit) : M state unit :=
  match p with Some _ => m | None => mret tt end.

(** ** Inline helpers *)

Definition hev_rbtree_node_empty (node : loc) : M state bool :=
  pc ← get_pc (Some node); mret (bool_decide (pc = addr (Some node))).

Definition _hev_rbtree_node_is_black (pc : Z) : bool := bool_decide (Z.land pc 1 ≠ 0).
Definition _hev_rbtree_node_parent (pc : Z) : ptr := of_addr (Z.land pc (Z.lnot 3)).

Definition hev_rbtree_node_color (node : ptr) : M state Z :=
  pc ← get_pc node; mret (Z.land pc 1).
Definition hev_rbtree_node_is_red (node : ptr) : M state bool :=
  c ← hev_rbtree_node_color node; mret (bool_decide (Z.land c HEV_RBTREE_BLACK = 0)).
Definition hev_rbtree_node_is_black (node : ptr) : M state bool :=
  c ← hev_rbtree_node_color node; mret (bool_decide (Z.land c HEV_RBTREE_BLACK ≠ 0)).
Definition hev_rbtree_node_parent (node : ptr) : M state ptr :=
  _hev_rbtree_node_parent <$> get_pc node.

(** The cast of a whole [__parent_color] word to a pointer is only meaningful when
    the word is an address, that is when the node is red. *)
Definition hev_rbtree_node_red_parent (node : ptr) : M state ptr :=
  pc ← get_pc node;
  if decide (Z.land pc 3 = 0) then mret (of_addr pc) else mfail.

Definition hev_rbtree_node_set_black (node : ptr) : M state unit :=
  store node (fun n => set_pc (Z.lor (parent_color n) HEV_RBTREE_BLACK) n).
Definition hev_rbtree_node_set_parent (node parent : ptr) : M state unit :=
  c ← hev_rbtree_node_color node;
  store node (set_pc (Z.lor c (addr parent))).
Definition hev_rbtree_node_set_parent_color (node parent : ptr) (color : Z) : M state unit :=
  store node (set_pc (Z.lor (addr parent) color)).

(** A link is the cell a [HevRBTreeNode **] points to. *)
Inductive link := link_root | link_left (p : loc) | link_right (p : loc).

Definition read_link (k : link) : M state ptr :=
  match k with
  | link_root => get_root
  | link_left p => get_left (Some p)
  | link_right p => get_right (Some p)
  end.
Definition write_link (k : link) (v : ptr) : M state unit :=
  match k with
  | link_root => set_root v
  | link_left p => store (Some p) (set_left v)
  | link_right p => store (Some p) (set_right v)
  end.

Definition hev_rbtree_node_link (node : loc) (parent : ptr) (k : link) : M state unit :=
  store (Some node) (set_pc (addr parent));;
  store (Some node) (fun n => set_left None (set_right None n));;
  write_link k (Some node).

Definition hev_rbtree_change_child (old new parent : ptr) : M state unit :=
  match parent with
  | Some _ =>
      l ← get_left parent;
      if decide (l = old) then store parent (set_left new) else store parent (set_right new)
  | None => set_root new
  end.

Definition hev_rbtree_rotate_set_parents (old new : ptr) (color : Z) : M state unit :=
  parent ← hev_rbtree_node_parent old;
  pc ← get_pc old;
  store new (set_pc pc);;
  hev_rbtree_node_set_parent_color old new color;;
  hev_rbtree_change_child old new parent.

(** ** Traversal

    The loops run on fuel; a tree holds at most as many nodes as its heap, which is
    the fuel the operations start with. *)

Definition heap_fuel : M state nat := mget (fun s => Some (S (size (nodes s)))).

(** [while (n->left) n = n->left] and its mirror image *)
Fixpoint leftmost (fuel : nat) (n : ptr) : M state ptr :=
  match fuel with
  | O => mfail
  | S fuel => l ← get_left n; match l with Some _ => leftmost fuel l | None => mret n end
  end.
Fixpoint rightmost (fuel : nat) (n : ptr) : M state ptr :=
  match fuel with
  | O => mfail
  | S fuel => r ← get_right n; match r with Some _ => rightmost fuel r | None => mret n end
  end.

Definition hev_rbtree_first : M state ptr :=
  n ← get_root;
  match n with
  | None => mret None
  | Some _ => fuel ← heap_fuel; leftmost fuel n
  end.
Definition hev_rbtree_last : M state ptr :=
  n ← get_root;
  match n with
  | None => mret None
  | Some _ => fuel ← heap_fuel; rightmost fuel n
  end.

(** [while ((parent = parent (node)) && node == side (parent)) node = parent] *)
Fixpoint climb (side : ptr -> M state ptr) (fuel : nat) (node : ptr) : M state ptr :=
  match fuel with
  | O => mfail
  | S fuel =>
      parent ← hev_rbtree_node_parent node;
      match parent with
      | None => mret None
      | Some _ =>
          c ← side parent;
          if decide (node = c) then climb side fuel parent else mret parent
      end
  end.

Definition hev_rbtree_node_prev (node : loc) : M state ptr :=
  e ← hev_rbtree_node_empty node;
  if e : bool then mret None else
  fuel ← heap_fuel;
  l ← get_left (Some node);
  match l with
  | Some _ => rightmost fuel l
  | None => climb get_left fuel (Some node)
  end.

Definition hev_rbtree_node_next (node : loc) : M state ptr :=
  e ← hev_rbtree_node_empty node;
  if e : bool then mret None else
  fuel ← heap_fuel;
  r ← get_right (Some node);
  match r with
  | Some _ => leftmost fuel r
  | None => climb get_right fuel (Some node)
  end.

(** ** Insertion fix-up *)

(** [tmp && hev_rbtree_node_is_red (tmp)] *)
Definition set_and_red (p : ptr) : M state bool :=
  match p with None => mret false | Some _ => hev_rbtree_node_is_red p end.

Fixpoint insert_color_loop (fuel : nat) (node parent : ptr) : M state unit :=
  match fuel with
  | O => mfail
  | S fuel =>
    match parent with
    | None => hev_rbtree_node_set_parent_color node None HEV_RBTREE_BLACK
    | Some _ =>
      b ← hev_rbtree_node_is_black parent;
      if b : bool then mret tt else
      gparent ← hev_rbtree_node_red_parent parent;
      tmp ← get_right gparent;
      if decide (parent ≠ tmp) then
        r ← set_and_red tmp;
        if r : bool then
          (* case 1: colour flips *)
          hev_rbtree_node_set_parent_color tmp gparent HEV_RBTREE_BLACK;;
          hev_rbtree_node_set_parent_color parent gparent HEV_RBTREE_BLACK;;
          parent' ← hev_rbtree_node_parent gparent;
          hev_rbtree_node_set_parent_color gparent parent' HEV_RBTREE_RED;;
          insert_color_loop fuel gparent parent'
        else
          tmp ← get_right parent;
          '(parent, tmp) ←
            (if decide (node = tmp) then
               (* case 2: left rotate at parent *)
               tmp ← get_left node;
               store parent (set_right tmp);;
               store node (set_left parent);;
               if_set tmp (hev_rbtree_node_set_parent_color tmp parent HEV_RBTREE_BLACK);;
               hev_rbtree_node_set_parent_color parent node HEV_RBTREE_RED;;
               tmp ← get_right node;
               mret (node, tmp)
             else mret (parent, tmp));
          (* case 3: right rotate at gparent *)
          store gparent (set_left tmp);;
          store parent (set_right gparent);;
          if_set tmp (hev_rbtree_node_set_parent_color tmp gparent HEV_RBTREE_BLACK);;
          hev_rbtree_rotate_set_parents gparent parent HEV_RBTREE_RED
      else
        tmp ← get_left gparent;
        r ← set_and_red tmp;
        if r : bool then
          hev_rbtree_node_set_parent_color tmp gparent HEV_RBTREE_BLACK;;
          hev_rbtree_node_set_parent_color parent gparent HEV_RBTREE_BLACK;;
          parent' ← hev_rbtree_node_parent gparent;
          hev_rbtree_node_set_parent_color gparent parent' HEV_RBTREE_RED;;
          insert_color_loop fuel gparent parent'
        else
          tmp ← get_left parent;
          '(parent, tmp) ←
            (if decide (node = tmp) then
               tmp ← get_right node;
               store parent (set_left tmp);;
               store node (set_right parent);;
               if_set tmp (hev_rbtree_node_set_parent_color tmp parent HEV_RBTREE_BLACK);;
               hev_rbtree_node_set_parent_color parent node HEV_RBTREE_RED;;
               tmp ← get_left node;
               mret (node, tmp)
             else mret (parent, tmp));
          store gparent (set_right tmp);;
          store parent (set_left gparent);;
          if_set tmp (hev_rbtree_node_set_parent_color tmp gparent HEV_RBTREE_BLACK);;
          hev_rbtree_rotate_set_parents gparent parent HEV_RBTREE_RED
    end
  end.

Definition hev_rbtree_insert_color (node : loc) : M state unit :=
  parent ← hev_rbtree_node_red_parent (Some node);
  fuel ← heap_fuel;
  insert_color_loop fuel (Some node) parent.

(** ** Replacement *)

Definition hev_rbtree_replace (victim new : loc) : M state unit :=
  parent ← hev_rbtree_node_parent (Some victim);
  v ← load (Some victim);
  store (Some new) (fun _ => v);;
  l ← get_left (Some victim);
  if_set l (hev_rbtree_node_set_parent l (Some new));;
  r ← get_right (Some victim);
  if_set r (hev_rbtree_node_set_parent r (Some new));;
  hev_rbtree_change_child (Some victim) (Some new) parent.

(** ** Erasure *)

(** [do { parent = successor; successor = tmp; tmp = tmp->left; } while (tmp)] *)
Fixpoint find_successor (fuel : nat) (successor tmp : ptr) : M state (ptr * ptr) :=
  match fuel with
  | O => mfail
  | S fuel =>
      tmp' ← get_left tmp;
      match tmp' with
      | Some _ => find_successor fuel tmp tmp'
      | None => mret (successor, tmp)
      end
  end.

Definition _hev_rbtree_erase (node : ptr) : M state ptr :=
  child ← get_right node;
  tmp ← get_left node;
  match tmp with
  | None =>
      (* case 1: at most one child, the right one *)
      pc ← get_pc node;
      let parent := _hev_rbtree_node_parent pc in
      hev_rbtree_change_child node child parent;;
      match child with
      | Some _ => store child (set_pc pc);; mret None
      | None => mret (if _hev_rbtree_node_is_black pc then parent else None)
      end
  | Some _ =>
    match child with
    | None =>
        (* still case 1, the child is node->left *)
        pc ← get_pc node;
        store tmp (set_pc pc);;
        let parent := _hev_rbtree_node_parent pc in
        hev_rbtree_change_child node tmp parent;;
        mret None
    | Some _ =>
        let successor := child in
        tmp ← get_left child;
        '(parent, successor, child2) ←
          match tmp with
          | None =>
              (* case 2: the successor is the right child *)
              child2 ← get_right successor;
              mret (successor, successor, child2)
          | Some _ =>
              (* case 3: the successor is leftmost under the right child *)
              fuel ← heap_fuel;
              '(parent, successor) ← find_successor fuel successor tmp;
              child2 ← get_right successor;
              store parent (set_left child2);;
              store successor (set_right child);;
              hev_rbtree_node_set_parent child successor;;
              mret (parent, successor, child2)
          end;
        tmp ← get_left node;
        store successor (set_left tmp);;
        hev_rbtree_node_set_parent tmp successor;;
        pc ← get_pc node;
        let tmp := _hev_rbtree_node_parent pc in
        hev_rbtree_change_child node successor tmp;;
        rebalance ←
          match child2 with
          | Some _ =>
              hev_rbtree_node_set_parent_color child2 parent HEV_RBTREE_BLACK;;
              mret None
          | None =>
              b ← hev_rbtree_node_is_black successor;
              mret (if b : bool then parent else None)
          end;
        store successor (set_pc pc);;
        mret rebalance
    end
  end.

(** [!tmp || hev_rbtree_node_is_black (tmp)] *)
Definition null_or_black (p : ptr) : M state bool :=
  match p with None => mret true | Some _ => hev_rbtree_node_is_black p end.

(** The two halves of the loop body once the sibling is black: cases 2 to 4, with
    [rec] for the [continue] of case 2. *)
Definition erase_fix_left (rec : ptr -> ptr -> M state unit) (parent sibling : ptr)
  : M state unit :=
  tmp1 ← get_right sibling;
  b1 ← null_or_black tmp1;
  tmp2 ← (if b1 : bool then get_left sibling else mret None);
  b2 ← (if b1 : bool then null_or_black tmp2 else mret false);
  if b2 : bool then
    (* case 2: sibling colour flip *)
    hev_rbtree_node_set_parent_color sibling parent HEV_RBTREE_RED;;
    pr ← hev_rbtree_node_is_red parent;
    if pr : bool then hev_rbtree_node_set_black parent
    else
      parent' ← hev_rbtree_node_parent parent;
      match parent' with
      | Some _ => rec parent parent'
      | None => mret tt
      end
  else
    '(sibling, tmp1) ←
      (if b1 : bool then
         (* case 3: right rotate at sibling *)
         tmp1 ← get_right tmp2;
         store sibling (set_left tmp1);;
         store tmp2 (set_right sibling);;
         store parent (set_right tmp2);;
         if_set tmp1 (hev_rbtree_node_set_parent_color tmp1 sibling HEV_RBTREE_BLACK);;
         mret (tmp2, sibling)
       else mret (sibling, tmp1));
    (* case 4: left rotate at parent and colour flips *)
    tmp2 ← get_left sibling;
    store parent (set_right tmp2);;
    store sibling (set_left parent);;
    hev_rbtree_node_set_parent_color tmp1 sibling HEV_RBTREE_BLACK;;
    if_set tmp2 (hev_rbtree_node_set_parent tmp2 parent);;
    hev_rbtree_rotate_set_parents parent sibling HEV_RBTREE_BLACK.

Definition erase_fix_right (rec : ptr -> ptr -> M state unit) (parent sibling : ptr)
  : M state unit :=
  tmp1 ← get_left sibling;
  b1 ← null_or_black tmp1;
  tmp2 ← (if b1 : bool then get_right sibling else mret None);
  b2 ← (if b1 : bool then null_or_black tmp2 else mret false);
  if b2 : bool then
    (* case 2: sibling colour flip *)
    hev_rbtree_node_set_parent_color sibling parent HEV_RBTREE_RED;;
    pr ← hev_rbtree_node_is_red parent;
    if pr : bool then hev_rbtree_node_set_black parent
    else
      parent' ← hev_rbtree_node_parent parent;
      match parent' with
      | Some _ => rec parent parent'
      | None => mret tt
      end
  else
    '(sibling, tmp1) ←
      (if b1 : bool then
         (* case 3: left rotate at sibling *)
         tmp1 ← get_left tmp2;
         store sibling (set_right tmp1);;
         store tmp2 (set_left sibling);;
         store parent (set_left tmp2);;
         if_set tmp1 (hev_rbtree_node_set_parent_color tmp1 sibling HEV_RBTREE_BLACK);;
         mret (tmp2, sibling)
       else mret (sibling, tmp1));
    (* case 4: right rotate at parent and colour flips *)
    tmp2 ← get_right sibling;
    store parent (set_left tmp2);;
    store sibling (set_right parent);;
    hev_rbtree_node_set_parent_color tmp1 sibling HEV_RBTREE_BLACK;;
    if_set tmp2 (hev_rbtree_node_set_parent tmp2 parent);;
    hev_rbtree_rotate_set_parents parent sibling HEV_RBTREE_BLACK.

Fixpoint erase_color_loop (fuel : nat) (node parent : ptr) : M state unit :=
  match fuel with
  | O => mfail
  | S fuel =>
    sibling ← get_right parent;
    if decide (node ≠ sibling) then
      r ← hev_rbtree_node_is_red sibling;
      sibling ←
        (if r : bool then
           (* case 1: left rotate at parent *)
           tmp1 ← get_left sibling;
           store parent (set_right tmp1);;
           store sibling (set_left parent);;
           hev_rbtree_node_set_parent_color tmp1 parent HEV_RBTREE_BLACK;;
           hev_rbtree_rotate_set_parents parent sibling HEV_RBTREE_RED;;
           mret tmp1
         else mret sibling);
      erase_fix_left (erase_color_loop fuel) parent sibling
    else
      sibling ← get_left parent;
      r ← hev_rbtree_node_is_red sibling;
      sibling ←
        (if r : bool then
           (* case 1: right rotate at parent *)
           tmp1 ← get_right sibling;
           store parent (set_left tmp1);;
           store sibling (set_right parent);;
           hev_rbtree_node_set_parent_color tmp1 parent HEV_RBTREE_BLACK;;
           hev_rbtree_rotate_set_parents parent sibling HEV_RBTREE_RED;;
           mret tmp1
         else mret sibling);
      erase_fix_right (erase_color_loop fuel) parent sibling
  end.

Definition _hev_rbtree_erase_color (parent : ptr) : M state unit :=
  fuel ← heap_fuel;
  erase_color_loop fuel None parent.

Definition hev_rbtree_erase (node : loc) : M state unit :=
  rebalance ← _hev_rbtree_erase (Some node);
  match rebalance with
  | Some _ => _hev_rbtree_erase_color rebalance
  | None => mret tt
  end.

(** ** Search

    The descent every client writes as
    [while ( *new ) { res = cmp (this, key); parent = new-cell; ... }]:
    [cmp n] is the comparison of node [n] with the key, a negative result goes left
    and a positive one right.  The result is the node found, or the parent and the
    link where a new node goes. *)

Fixpoint descend (cmp : loc -> option Z) (fuel : nat) (k : link) (parent : ptr)
  : M state (loc + ptr * link) :=
  match fuel with
  | O => mfail
  | S fuel =>
      n ← read_link k;
      match n with
      | None => mret (inr (parent, k))
      | Some this =>
          res ← mget (fun _ => cmp this);
          if decide (res < 0) then descend cmp fuel (link_left this) (Some this)
          else if decide (res > 0) then descend cmp fuel (link_right this) (Some this)
          else mret (inl this)
      end
  end.

Definition search (cmp : loc -> option Z) : M state (loc + ptr * link) :=
  fuel ← heap_fuel; descend cmp fuel link_root None.

Definition alloc_node (l : loc) : M state unit :=
  mput (fun s => match nodes s !! l with
                 | Some _ => None
                 | None => Some (mk_state (root s) (<[l := mk_node 0 None None]> (nodes s)))
                 end).
Definition free_node (l : loc) : M state unit :=
  mput (fun s => match nodes s !! l with
                 | Some _ => Some (mk_state (root s) (delete l (nodes s)))
                 | None => None
                 end).

End HevRBTree.
