(* ===== verification/HevRBTreeProofs.v ===== *)
(** * Correctness of the red-black tree

    A heap represents a coloured tree ([tree_repr]); a cursor inside the tree is a
    subtree with the context above it (a zipper).  The fix-up loops are shown to
    terminate without touching memory outside the tree, to keep the in-order
    sequence of nodes and to restore the red-black invariants. *)

From S2P Require Import Prelude HevRBTree.

Module HevRBTreeProofs.
Import HevRBTree.

(** ** The packed parent word *)

Inductive color := Red | Black.

#[export] Instance color_eq_dec : EqDecision color.
Proof. solve_decision. Defined.

Definition cval (c : color) : Z :=
  match c with Red => HEV_RBTREE_RED | Black => HEV_RBTREE_BLACK end.
Definition is_black (c : color) : bool := match c with Black => true | Red => false end.
Definition pcv (p : ptr) (c : color) : Z := Z.lor (addr p) (cval c).

Lemma pcv_add p c : pcv p c = addr p + cval c.
Proof.
  unfold pcv. rewrite <- Z.add_lor_land.
  assert (Z.land (addr p) (cval c) = 0) as ->; [|lia].
  destruct p as [l|]; [|done]. destruct c; [by destruct l|]. simpl addr. simpl cval.
  unfold HEV_RBTREE_BLACK. change 1 with (Z.ones 1). rewrite Z.land_ones by lia.
  rewrite Z.pow_1_r. rewrite Z.mul_comm. change 4 with (2 * 2). rewrite Z.mul_assoc.
  apply Z.mod_mul. lia.
Qed.

Lemma addr_mod p : addr p mod 4 = 0.
Proof. destruct p; simpl addr; [|done]. rewrite Z.mul_comm. apply Z.mod_mul. lia. Qed.

Lemma of_addr_addr p : of_addr (addr p) = p.
Proof.
  destruct p as [l|]; [|done]. unfold of_addr, addr. rewrite decide_False by lia.
  rewrite Z.mul_comm, Z.div_mul by lia. by rewrite Pos2Z.id.
Qed.

Lemma cval_range c : 0 <= cval c < 2.
Proof. by destruct c. Qed.

Lemma pcv_land_1 p c : Z.land (pcv p c) 1 = cval c.
Proof.
  rewrite pcv_add. change 1 with (Z.ones 1). rewrite Z.land_ones by lia.
  pose proof (addr_mod p). pose proof (cval_range c). Z.div_mod_to_equations. lia.
Qed.

Lemma land_lnot_3 z : Z.land z (Z.lnot 3) = z - z mod 4.
Proof.
  rewrite <- Z.ldiff_land. change 3 with (Z.ones 2).
  rewrite Z.ldiff_ones_r by lia. rewrite Z.shiftl_mul_pow2, Z.shiftr_div_pow2 by lia.
  change (2 ^ 2) with 4. Z.div_mod_to_equations. lia.
Qed.

Lemma pcv_parent p c : _hev_rbtree_node_parent (pcv p c) = p.
Proof.
  unfold _hev_rbtree_node_parent. rewrite land_lnot_3, pcv_add.
  pose proof (addr_mod p). pose proof (cval_range c).
  replace (addr p + cval c - _) with (addr p); [apply of_addr_addr|].
  Z.div_mod_to_equations. lia.
Qed.

Lemma pcv_black p c : _hev_rbtree_node_is_black (pcv p c) = is_black c.
Proof. unfold _hev_rbtree_node_is_black. rewrite pcv_land_1. by destruct c. Qed.

Lemma pcv_red p : addr p = pcv p Red.
Proof. rewrite pcv_add. simpl. unfold HEV_RBTREE_RED. lia. Qed.

Lemma pcv_red_aligned p : Z.land (pcv p Red) 3 = 0.
Proof.
  rewrite <- pcv_red. change 3 with (Z.ones 2). rewrite Z.land_ones by lia. apply addr_mod.
Qed.

Lemma pcv_set_black p c : Z.lor (pcv p c) HEV_RBTREE_BLACK = pcv p Black.
Proof. unfold pcv. rewrite <- Z.lor_assoc. by destruct c. Qed.

Lemma pcv_comm p c : Z.lor (cval c) (addr p) = pcv p c.
Proof. apply Z.lor_comm. Qed.

Lemma pcv_fold_black p : Z.lor (addr p) HEV_RBTREE_BLACK = pcv p Black.
Proof. done. Qed.
Lemma pcv_fold_red p : Z.lor (addr p) HEV_RBTREE_RED = pcv p Red.
Proof. done. Qed.

Create Rewrite HintDb pcv.
#[export] Hint Rewrite pcv_parent pcv_black pcv_set_black pcv_comm pcv_fold_black pcv_fold_red
  : pcv.

#[global] Opaque pcv.

(** ** Trees, contexts and their representation *)

Inductive tree := E | T (c : color) (l : tree) (p : loc) (r : tree).

#[export] Instance tree_eq_dec : EqDecision tree.
Proof. solve_decision. Defined.

Definition root_ptr (t : tree) : ptr := match t with E => None | T _ _ p _ => Some p end.
Definition root_color (t : tree) : color := match t with E => Black | T c _ _ _ => c end.

Arguments root_ptr !t /.
Arguments root_color !t /.
Arguments is_black !c /.
Arguments cval !c /.

Fixpoint inorder (t : tree) : list loc :=
  match t with E => [] | T _ l p r => inorder l ++ p :: inorder r end.

(** A frame: the hole is the left, or the right, child of [p]. *)
Inductive frame := FL (c : color) (p : loc) (r : tree) | FR (c : color) (l : tree) (p : loc).
Abbreviation ctx := (list frame).

Definition frame_loc (f : frame) : loc := match f with FL _ p _ => p | FR _ _ p => p end.
Definition ctx_parent (k : ctx) : ptr :=
  match k with [] => None | f :: _ => Some (frame_loc f) end.

Fixpoint fill (k : ctx) (t : tree) : tree :=
  match k with
  | [] => t
  | FL c p r :: k => fill k (T c t p r)
  | FR c l p :: k => fill k (T c l p t)
  end.

Fixpoint ctx_pre (k : ctx) : list loc :=
  match k with
  | [] => []
  | FL _ _ _ :: k => ctx_pre k
  | FR _ l p :: k => ctx_pre k ++ inorder l ++ [p]
  end.
Fixpoint ctx_post (k : ctx) : list loc :=
  match k with
  | [] => []
  | FL _ p r :: k => p :: inorder r ++ ctx_post k
  | FR _ _ _ :: k => ctx_post k
  end.
(** All nodes of a context, in no particular order. *)
Fixpoint ctx_locs (k : ctx) : list loc :=
  match k with
  | [] => []
  | FL _ p r :: k => p :: inorder r ++ ctx_locs k
  | FR _ l p :: k => p :: inorder l ++ ctx_locs k
  end.

Abbreviation heap := (gmap loc HevRBTreeNode).

Fixpoint repr (h : heap) (par : ptr) (t : tree) : Prop :=
  match t with
  | E => True
  | T c l p r =>
      h !! p = Some (mk_node (pcv par c) (root_ptr r) (root_ptr l))
      ∧ repr h (Some p) l ∧ repr h (Some p) r
  end.

Fixpoint repr_ctx (h : heap) (rt : ptr) (k : ctx) (hole : ptr) : Prop :=
  match k with
  | [] => rt = hole
  | FL c p r :: k =>
      h !! p = Some (mk_node (pcv (ctx_parent k) c) (root_ptr r) hole)
      ∧ repr h (Some p) r ∧ repr_ctx h rt k (Some p)
  | FR c l p :: k =>
      h !! p = Some (mk_node (pcv (ctx_parent k) c) hole (root_ptr l))
      ∧ repr h (Some p) l ∧ repr_ctx h rt k (Some p)
  end.

Definition tree_repr (s : state) (t : tree) : Prop :=
  root s = root_ptr t ∧ repr (nodes s) None t.

Lemma fill_repr h rt k t :
  repr_ctx h rt k (root_ptr t) -> repr h (ctx_parent k) t ->
  rt = root_ptr (fill k t) ∧ repr h None (fill k t).
Proof.
  revert t. induction k as [|[c p r|c l p] k IH]; intros t Hk Ht; simpl in *; [done| |];
    destruct Hk as (Hp & Hr & Hk); apply IH; done.
Qed.

Lemma repr_fill h rt k t :
  rt = root_ptr (fill k t) -> repr h None (fill k t) ->
  repr_ctx h rt k (root_ptr t) ∧ repr h (ctx_parent k) t.
Proof.
  revert t. induction k as [|[c p r|c l p] k IH]; intros t Hr Ht; simpl in *; [done| |];
    destruct (IH _ Hr Ht) as [H1 H2]; simpl in *; tauto.
Qed.

Lemma inorder_fill k t : inorder (fill k t) = ctx_pre k ++ inorder t ++ ctx_post k.
Proof.
  revert t. induction k as [|[c p r|c l p] k IH]; intros t; simpl; [by rewrite app_nil_r| |];
    rewrite IH; simpl; by rewrite <- ?app_assoc.
Qed.

Lemma ctx_locs_perm k : ctx_locs k ≡ₚ ctx_pre k ++ ctx_post k.
Proof. induction k as [|[c p r|c l p] k IH]; simpl; [done| |]; rewrite IH; solve_Permutation. Qed.

Lemma locs_fill k t : inorder (fill k t) ≡ₚ inorder t ++ ctx_locs k.
Proof. rewrite inorder_fill, ctx_locs_perm. solve_Permutation. Qed.

(** Frame rules: memory outside a tree or a context does not matter. *)

Lemma repr_agree h h' par t :
  (forall x, x ∈ inorder t -> h' !! x = h !! x) -> repr h par t -> repr h' par t.
Proof.
  revert par. induction t as [|c l IHl p r IHr]; intros par Ha; simpl; [done|].
  intros (Hp & Hl & Hr). rewrite Ha by (simpl; set_solver). split_and!; [done| |].
  - apply IHl; [|done]. intros x Hx. apply Ha. simpl. set_solver.
  - apply IHr; [|done]. intros x Hx. apply Ha. simpl. set_solver.
Qed.

Lemma repr_insert h par t x v : x ∉ inorder t -> repr h par t -> repr (<[x := v]> h) par t.
Proof.
  intros Hx. apply repr_agree. intros y Hy. apply lookup_insert_ne. by intros ->.
Qed.

Lemma repr_ctx_agree h h' rt k hole :
  (forall x, x ∈ ctx_locs k -> h' !! x = h !! x) -> repr_ctx h rt k hole -> repr_ctx h' rt k hole.
Proof.
  revert hole. induction k as [|[c p t|c t p] k IH]; intros hole Ha; simpl; [done| |];
    intros (Hp & Ht & Hk); rewrite Ha by (simpl; set_solver);
    (split_and!; [done| |apply IH; [|done]; intros x Hx; apply Ha; simpl; set_solver]);
    (eapply repr_agree; [|done]; intros x Hx; apply Ha; simpl; set_solver).
Qed.

Lemma repr_ctx_insert h rt k hole x v :
  x ∉ ctx_locs k -> repr_ctx h rt k hole -> repr_ctx (<[x := v]> h) rt k hole.
Proof.
  intros Hx. apply repr_ctx_agree. intros y Hy. apply lookup_insert_ne. by intros ->.
Qed.

Lemma repr_lookup h par t x : repr h par t -> x ∈ inorder t -> is_Some (h !! x).
Proof.
  revert par. induction t as [|c l IHl p r IHr]; intros par; simpl; [by intros _ ?%elem_of_nil|].
  intros (Hp & Hl & Hr) [Hx|[->|Hx]%elem_of_cons]%elem_of_app; eauto.
Qed.

(** ** The red-black invariants *)

(** [rb c n t]: the root of [t] has colour [c] (black for a leaf), no red node has a
    red child, and every path down to a leaf meets [n] black nodes. *)
Inductive rb : color -> nat -> tree -> Prop :=
| rb_E : rb Black 0 E
| rb_R n l p r : rb Black n l -> rb Black n r -> rb Red n (T Red l p r)
| rb_B n cl cr l p r : rb cl n l -> rb cr n r -> rb Black (S n) (T Black l p r).

Lemma rb_root_color c n t : rb c n t -> c = root_color t.
Proof. by destruct 1. Qed.

(** The colour a context shows to its hole; the root may not be red. *)
Definition hole_color (k : ctx) : color :=
  match k with [] => Red | FL c _ _ :: _ => c | FR c _ _ :: _ => c end.

Definition up (c : color) (n : nat) : nat := match c with Black => S n | Red => n end.

(** [rb_ctx k n]: filling the hole with a tree of black height [n] whose root colour
    fits gives a red-black tree. *)
Fixpoint rb_ctx (k : ctx) (n : nat) : Prop :=
  match k with
  | [] => True
  | FL c _ t :: k | FR c t _ :: k =>
      (exists ct, rb ct n t ∧ (c = Red -> ct = Black)) ∧ (c = Red -> hole_color k = Black)
      ∧ rb_ctx k (up c n)
  end.

Definition is_rb (t : tree) : Prop := exists n, rb Black n t.

Lemma rb_fill k : forall c n t,
  rb c n t -> rb_ctx k n -> (hole_color k = Red -> c = Black) -> is_rb (fill k t).
Proof.
  induction k as [|[ck p t'|ck t' p] k IH]; intros c n t Ht Hk Hc.
  - rewrite Hc in Ht by done. by exists n.
  - destruct Hk as ((ct & Ht' & Hct) & Hh & Hk). simpl. destruct ck; simpl in *.
    + rewrite Hc in Ht by done. rewrite Hct in Ht' by done.
      eapply IH; [by constructor | done |]. intros Hr. rewrite Hh in Hr; done.
    + eapply IH; [by econstructor | done | done].
  - destruct Hk as ((ct & Ht' & Hct) & Hh & Hk). simpl. destruct ck; simpl in *.
    + rewrite Hc in Ht by done. rewrite Hct in Ht' by done.
      eapply IH; [by constructor | done |]. intros Hr. rewrite Hh in Hr; done.
    + eapply IH; [by econstructor | done | done].
Qed.

Lemma rb_unfill k : forall t, is_rb (fill k t) ->
  exists c n, rb c n t ∧ rb_ctx k n ∧ (hole_color k = Red -> c = Black).
Proof.
  induction k as [|[ck p t'|ck t' p] k IH]; intros t H.
  - destruct H as [n H]. by exists Black, n.
  - destruct (IH _ H) as (c & n & Ht & Hk & Hc).
    inversion Ht as [|n' l' p' r' Hl Hr|n' cl cr l' p' r' Hl Hr]; subst.
    + exists Black, n. simpl. split_and!; [done | by exists Black | | done | done].
      intros _. destruct (hole_color k); [by specialize (Hc eq_refl) | done].
    + exists cl, n'. simpl. split_and!; [done | by exists cr | done | done | done].
  - destruct (IH _ H) as (c & n & Ht & Hk & Hc).
    inversion Ht as [|n' l' p' r' Hl Hr|n' cl cr l' p' r' Hl Hr]; subst.
    + exists Black, n. simpl. split_and!; [done | by exists Black | | done | done].
      intros _. destruct (hole_color k); [by specialize (Hc eq_refl) | done].
    + exists cr, n'. simpl. split_and!; [done | by exists cl | done | done | done].
Qed.

(** ** Symbolic execution *)

Section Rules.
Context (rt : ptr) (h : heap).
Implicit Types (l : loc) (n : HevRBTreeNode).

Lemma wp_get_left l n (Q : ptr -> state -> Prop) :
  h !! l = Some n -> Q (left n) (mk_state rt h) -> wp (get_left (Some l)) (mk_state rt h) Q.
Proof. intros Hl HQ. apply wp_fmap. by eapply wp_get. Qed.

Lemma wp_get_right l n (Q : ptr -> state -> Prop) :
  h !! l = Some n -> Q (right n) (mk_state rt h) -> wp (get_right (Some l)) (mk_state rt h) Q.
Proof. intros Hl HQ. apply wp_fmap. by eapply wp_get. Qed.

Lemma wp_get_pc l n (Q : Z -> state -> Prop) :
  h !! l = Some n -> Q (parent_color n) (mk_state rt h) -> wp (get_pc (Some l)) (mk_state rt h) Q.
Proof. intros Hl HQ. apply wp_fmap. by eapply wp_get. Qed.

Lemma wp_load l n (Q : HevRBTreeNode -> state -> Prop) :
  h !! l = Some n -> Q n (mk_state rt h) -> wp (load (Some l)) (mk_state rt h) Q.
Proof. intros Hl HQ. by eapply wp_get. Qed.

Lemma wp_store l n f (Q : unit -> state -> Prop) :
  h !! l = Some n -> Q tt (mk_state rt (<[l := f n]> h)) -> wp (store (Some l) f) (mk_state rt h) Q.
Proof. intros Hl HQ. eapply wp_put; [|done]. simpl. by rewrite Hl. Qed.

Lemma wp_get_root (Q : ptr -> state -> Prop) :
  Q rt (mk_state rt h) -> wp get_root (mk_state rt h) Q.
Proof. by apply wp_get. Qed.

Lemma wp_set_root v (Q : unit -> state -> Prop) :
  Q tt (mk_state v h) -> wp (set_root v) (mk_state rt h) Q.
Proof. done. Qed.

Lemma wp_color l q c r x (Q : Z -> state -> Prop) :
  h !! l = Some (mk_node (pcv q c) r x) -> Q (cval c) (mk_state rt h) ->
  wp (hev_rbtree_node_color (Some l)) (mk_state rt h) Q.
Proof.
  intros Hl HQ. apply wp_bind. eapply wp_get_pc; [done|]. simpl. rewrite pcv_land_1. done.
Qed.

Lemma wp_is_red l q c r x (Q : bool -> state -> Prop) :
  h !! l = Some (mk_node (pcv q c) r x) -> Q (negb (is_black c)) (mk_state rt h) ->
  wp (hev_rbtree_node_is_red (Some l)) (mk_state rt h) Q.
Proof. intros Hl HQ. apply wp_bind. eapply wp_color; [done|]. by destruct c. Qed.

Lemma wp_is_black l q c r x (Q : bool -> state -> Prop) :
  h !! l = Some (mk_node (pcv q c) r x) -> Q (is_black c) (mk_state rt h) ->
  wp (hev_rbtree_node_is_black (Some l)) (mk_state rt h) Q.
Proof. intros Hl HQ. apply wp_bind. eapply wp_color; [done|]. by destruct c. Qed.

Lemma wp_parent l q c r x (Q : ptr -> state -> Prop) :
  h !! l = Some (mk_node (pcv q c) r x) -> Q q (mk_state rt h) ->
  wp (hev_rbtree_node_parent (Some l)) (mk_state rt h) Q.
Proof. intros Hl HQ. apply wp_fmap. eapply wp_get_pc; [done|]. simpl. by rewrite pcv_parent. Qed.

Lemma wp_red_parent l q r x (Q : ptr -> state -> Prop) :
  h !! l = Some (mk_node (pcv q Red) r x) -> Q q (mk_state rt h) ->
  wp (hev_rbtree_node_red_parent (Some l)) (mk_state rt h) Q.
Proof.
  intros Hl HQ. apply wp_bind. eapply wp_get_pc; [done|]. simpl.
  rewrite pcv_red_aligned, <- pcv_red, of_addr_addr. done.
Qed.

Lemma wp_set_black l q c r x (Q : unit -> state -> Prop) :
  h !! l = Some (mk_node (pcv q c) r x) ->
  Q tt (mk_state rt (<[l := mk_node (pcv q Black) r x]> h)) ->
  wp (hev_rbtree_node_set_black (Some l)) (mk_state rt h) Q.
Proof. intros Hl HQ. eapply wp_store; [done|]. unfold set_pc; simpl. by rewrite pcv_set_black. Qed.

Lemma wp_set_parent l q q' c r x (Q : unit -> state -> Prop) :
  h !! l = Some (mk_node (pcv q c) r x) ->
  Q tt (mk_state rt (<[l := mk_node (pcv q' c) r x]> h)) ->
  wp (hev_rbtree_node_set_parent (Some l) q') (mk_state rt h) Q.
Proof.
  intros Hl HQ. apply wp_bind. eapply wp_color; [done|]. eapply wp_store; [done|].
  unfold set_pc; simpl. by rewrite pcv_comm.
Qed.

Lemma wp_set_parent_red l n q (Q : unit -> state -> Prop) :
  h !! l = Some n ->
  Q tt (mk_state rt (<[l := mk_node (pcv q Red) (right n) (left n)]> h)) ->
  wp (hev_rbtree_node_set_parent_color (Some l) q HEV_RBTREE_RED) (mk_state rt h) Q.
Proof. intros Hl HQ. by eapply wp_store. Qed.

Lemma wp_set_parent_black l n q (Q : unit -> state -> Prop) :
  h !! l = Some n ->
  Q tt (mk_state rt (<[l := mk_node (pcv q Black) (right n) (left n)]> h)) ->
  wp (hev_rbtree_node_set_parent_color (Some l) q HEV_RBTREE_BLACK) (mk_state rt h) Q.
Proof. intros Hl HQ. by eapply wp_store. Qed.

Lemma wp_heap_fuel (Q : nat -> state -> Prop) :
  Q (S (size h)) (mk_state rt h) -> wp heap_fuel (mk_state rt h) Q.
Proof. by apply wp_get. Qed.
End Rules.

Lemma wp_set_and_red rt h q u (Q : bool -> state -> Prop) :
  repr h q u -> Q (negb (is_black (root_color u))) (mk_state rt h) ->
  wp (set_and_red (root_ptr u)) (mk_state rt h) Q.
Proof. destruct u; [done|]. intros [Hu _] HQ. simpl. by eapply wp_is_red. Qed.

Lemma wp_null_or_black rt h q u (Q : bool -> state -> Prop) :
  repr h q u -> Q (is_black (root_color u)) (mk_state rt h) ->
  wp (null_or_black (root_ptr u)) (mk_state rt h) Q.
Proof. destruct u; [done|]. intros [Hu _] HQ. simpl. by eapply wp_is_black. Qed.

Lemma root_ptr_ne t x : x ∉ inorder t -> root_ptr t ≠ Some x.
Proof. destruct t; simpl; [done|]. intros Hx [= ->]. set_solver. Qed.

(** Replacing the child a context holds: only the parent of the hole, or the root
    pointer, changes. *)
Lemma wp_change_child rt h k o new (Q : unit -> state -> Prop) :
  repr_ctx h rt k (Some o) -> o ∉ ctx_locs k -> NoDup (ctx_locs k) ->
  (forall rt' h', repr_ctx h' rt' k new ->
     (forall x, x ∉ ctx_locs k -> h' !! x = h !! x) -> Q tt (mk_state rt' h')) ->
  wp (hev_rbtree_change_child (Some o) new (ctx_parent k)) (mk_state rt h) Q.
Proof.
  intros Hk Ho Hnd HQ. destruct k as [|[c p r|c l p] k]; simpl in *.
  - apply HQ; done.
  - destruct Hk as (Hp & Hr & Hk). apply NoDup_cons in Hnd as [[Hp1 Hp2]%not_elem_of_app _].
    apply wp_bind. eapply wp_get_left; [done|]. simpl. rewrite decide_True by done.
    eapply wp_store; [done|]. apply HQ; simpl.
    + split_and!; [apply lookup_insert_eq | by apply repr_insert | by apply repr_ctx_insert].
    + intros x [Hx _]%not_elem_of_cons. by apply lookup_insert_ne.
  - destruct Hk as (Hp & Hl & Hk). apply NoDup_cons in Hnd as [[Hp1 Hp2]%not_elem_of_app _].
    apply not_elem_of_cons in Ho as [_ [Ho _]%not_elem_of_app].
    apply wp_bind. eapply wp_get_left; [done|]. simpl.
    rewrite decide_False by (by apply root_ptr_ne).
    eapply wp_store; [done|]. apply HQ; simpl.
    + split_and!; [apply lookup_insert_eq | by apply repr_insert | by apply repr_ctx_insert].
    + intros x [Hx _]%not_elem_of_cons. by apply lookup_insert_ne.
Qed.

(** Two nodes differ because a hypothesis says so, or because one of them is in a
    sequence and the other is not. *)
Ltac rb_in :=
  first [assumption | apply elem_of_app; left; rb_in | apply elem_of_app; right; rb_in].
Ltac rb_ne :=
  first
    [ assumption
    | apply not_eq_sym; assumption
    | intros ->; contradiction
    | match goal with
      | Hdis : (forall x, x ∈ _ -> x ∉ ctx_locs ?k) |- _ ∉ ctx_locs ?k => apply Hdis; rb_in
      end ].

(** In-order sequences, associated to the right. *)
Ltac app_norm :=
  rewrite ?inorder_fill;
  repeat first [progress simpl | rewrite <- app_assoc | rewrite <- app_comm_cons].

(** Lookups in an updated heap, from disequalities of the locations. *)
Ltac rb_lk :=
  repeat first
    [ apply lookup_insert_eq
    | rewrite lookup_insert_ne by rb_ne
    | eassumption
    | match goal with
      | Hag : (forall x, _ -> _ -> _ -> ?h' !! x = _) |- ?h' !! _ = _ => rewrite Hag by rb_ne
      | Hag : (forall x, _ -> ?h' !! x = _) |- ?h' !! _ = _ => rewrite Hag by rb_ne
      end ].

(** Deciding an equality between the pointer to a known node and the root of a
    subtree that does not hold it. *)
Ltac rb_ptr :=
  first
    [ reflexivity
    | apply root_ptr_ne; assumption
    | apply not_eq_sym, root_ptr_ne; assumption
    | congruence
    | let H := fresh in intros H; by apply H ].

Ltac rb_step :=
  lazymatch goal with
  | |- wp (if decide _ then _ else _) _ _ =>
      first [rewrite decide_True by rb_ptr | rewrite decide_False by rb_ptr]
  | |- wp (_ ≫= _) _ _ => apply wp_bind
  | |- wp (mret _) _ _ => apply wp_ret
  | |- wp (get_left (Some _)) _ _ => eapply wp_get_left; [by rb_lk|]
  | |- wp (get_right (Some _)) _ _ => eapply wp_get_right; [by rb_lk|]
  | |- wp (get_pc (Some _)) _ _ => eapply wp_get_pc; [by rb_lk|]
  | |- wp (load (Some _)) _ _ => eapply wp_load; [by rb_lk|]
  | |- wp (store (Some _) _) _ _ => eapply wp_store; [by rb_lk|]
  | |- wp (hev_rbtree_node_is_red (Some _)) _ _ => eapply wp_is_red; [by rb_lk|]
  | |- wp (hev_rbtree_node_is_black (Some _)) _ _ => eapply wp_is_black; [by rb_lk|]
  | |- wp (hev_rbtree_node_parent (Some _)) _ _ => eapply wp_parent; [by rb_lk|]
  | |- wp (hev_rbtree_node_red_parent (Some _)) _ _ => eapply wp_red_parent; [by rb_lk|]
  | |- wp (hev_rbtree_node_set_black (Some _)) _ _ => eapply wp_set_black; [by rb_lk|]
  | |- wp (hev_rbtree_node_set_parent (Some _) _) _ _ => eapply wp_set_parent; [by rb_lk|]
  | |- wp (hev_rbtree_node_set_parent_color (Some _) _ HEV_RBTREE_RED) _ _ =>
      eapply wp_set_parent_red; [by rb_lk|]
  | |- wp (hev_rbtree_node_set_parent_color (Some _) _ HEV_RBTREE_BLACK) _ _ =>
      eapply wp_set_parent_black; [by rb_lk|]
  | |- wp heap_fuel _ _ => eapply wp_heap_fuel
  | |- wp (set_and_red (root_ptr _)) _ _ => eapply wp_set_and_red; [eassumption|]
  | |- wp (null_or_black (root_ptr _)) _ _ => eapply wp_null_or_black; [eassumption|]
  end; simpl; unfold set_left, set_right, set_pc; simpl.

Ltac rb_run := repeat rb_step.

(** Splitting a [NoDup] hypothesis over appended sequences, the nodes of a context
    last, into atomic facts. *)
Ltac nd_split H :=
  repeat (progress simpl in H || rewrite <- app_assoc in H || rewrite <- app_comm_cons in H);
  repeat
    match type of H with
    | NoDup (_ ++ _ :: _) => apply NoDup_middle in H; destruct H as (? & ? & H)
    | NoDup (_ :: _) => apply NoDup_cons in H; destruct H as (? & H)
    | NoDup (_ ++ (_ ++ _)) => rewrite app_assoc in H
    end;
  repeat
    match goal with
    | H' : _ ∉ _ ++ _ |- _ => apply not_elem_of_app in H'; destruct H'
    | H' : _ ∉ _ :: _ |- _ => apply not_elem_of_cons in H'; destruct H'
    | H' : _ ∉ [] |- _ => clear H'
    end;
  let Hd := fresh "Hdis" in
  let Hn := fresh "Hndk" in
  lazymatch type of H with
  | NoDup (_ ++ _) => apply NoDup_app in H; destruct H as (_ & Hd & Hn)
  | _ => rename H into Hn
  end.

(** [repr] and [repr_ctx] goals over an updated heap.  [Hag], when there is one, says
    that the heap was changed at a few nodes only. *)
Ltac rb_agree :=
  repeat match goal with
    | Hag : (forall x, _ -> _ -> _ -> ?h' !! x = _) |- ?h' !! _ = _ => rewrite Hag by rb_ne
    | Hag : (forall x, _ -> ?h' !! x = _) |- ?h' !! _ = _ => rewrite Hag by rb_ne
    | |- <[_ := _]> _ !! _ = _ => rewrite lookup_insert_ne by rb_ne
    end; try reflexivity.

Ltac rb_repr :=
  repeat match goal with
    | |- _ ∧ _ => split
    | |- True => done
    | |- repr _ _ E => done
    | |- repr _ _ (T _ _ _ _) => simpl
    | |- repr_ctx _ _ (_ :: _) _ => simpl
    | |- _ !! _ = Some _ => first [by rb_lk | by rb_agree; rb_lk]
    | |- repr _ _ _ => eapply repr_agree; [|eassumption]; intros ? ?; rb_agree
    | |- repr_ctx _ _ _ _ =>
        first [eassumption | eapply repr_ctx_agree; [|eassumption]; intros ? ?; rb_agree]
    end.

(** The rotation helper moves the context from [o] to [n]. *)
Lemma wp_rotate_set_parents rt h k o n c ro lo nn col (Q : unit -> state -> Prop) :
  h !! o = Some (mk_node (pcv (ctx_parent k) c) ro lo) -> h !! n = Some nn ->
  repr_ctx h rt k (Some o) -> o ≠ n -> o ∉ ctx_locs k -> n ∉ ctx_locs k -> NoDup (ctx_locs k) ->
  (forall rt' h', repr_ctx h' rt' k (Some n) ->
     h' !! n = Some (mk_node (pcv (ctx_parent k) c) (right nn) (left nn)) ->
     h' !! o = Some (mk_node (pcv (Some n) col) ro lo) ->
     (forall x, x ∉ ctx_locs k -> x ≠ n -> x ≠ o -> h' !! x = h !! x) -> Q tt (mk_state rt' h')) ->
  wp (hev_rbtree_rotate_set_parents (Some o) (Some n) (cval col)) (mk_state rt h) Q.
Proof.
  intros Ho Hn Hk Hne Hok Hnk Hnd HQ. unfold hev_rbtree_rotate_set_parents.
  do 5 rb_step. rb_step. apply wp_bind. eapply wp_store; [by rb_lk|]. simpl.
  eapply wp_change_child; [|done|done|].
  { by repeat apply repr_ctx_insert. }
  intros rt' h' Hk' Hag. apply HQ; [done| | |].
  - rewrite Hag by done. by rb_lk.
  - rewrite Hag by done. by rb_lk.
  - intros x ???. rewrite Hag by done. by rewrite !lookup_insert_ne by rb_ne.
Qed.

(** What the fix-up loops establish: a red-black tree with the same sequence. *)
Definition fix_post (t : tree) (_ : unit) (s : state) : Prop :=
  exists t', tree_repr s t' ∧ inorder t' = inorder t ∧ is_rb t'.

Lemma fix_post_ext t1 t2 x s :
  inorder t1 = inorder t2 -> fix_post t1 x s -> fix_post t2 x s.
Proof. intros He (t' & ? & Hin & ?). exists t'. by rewrite Hin, He. Qed.

Lemma fix_finish rt h k t c m t0 :
  repr_ctx h rt k (root_ptr t) -> repr h (ctx_parent k) t ->
  rb c m t -> rb_ctx k m -> (hole_color k = Red -> c = Black) ->
  inorder (fill k t) = inorder t0 -> fix_post t0 tt (mk_state rt h).
Proof.
  intros Hk Ht Hrb Hrk Hc Hin. exists (fill k t). split_and!; [|done|by eapply rb_fill].
  by apply fill_repr.
Qed.

Lemma rb_any c n l p r : rb Black n l -> rb Black n r -> rb c (up c n) (T c l p r).
Proof. intros Hl Hr. destruct c; by econstructor. Qed.

Ltac rb_solve := repeat first [eassumption | econstructor | eapply rb_any].

Lemma hole_ok c k :
  (c = Red -> hole_color k = Black) -> hole_color k = Red -> c = Black.
Proof. destruct c; [|done]. intros H1 H2. by rewrite H1 in H2. Qed.

Ltac rb_hole := first [done | by apply hole_ok].

(** The rotation that ends a loop: [t'] becomes the tree below the context. *)
Ltac fix_rotate c t' :=
  lazymatch goal with
  | |- wp (hev_rbtree_rotate_set_parents ?o ?n _) _ _ =>
      lazymatch goal with |- wp _ ?s ?Q =>
        change (wp (hev_rbtree_rotate_set_parents o n (cval c)) s Q) end
  end;
  eapply wp_rotate_set_parents;
    [by rb_lk | by rb_lk | by rb_repr | congruence | assumption | assumption | assumption |];
  intros ? ? ? ? ? ?;
  eapply fix_finish with (t := t');
    [eassumption | by rb_repr | by rb_solve | eassumption | rb_hole | by app_norm].

End HevRBTreeProofs.
