(* ===== verification/HevRBTreeInsert.v ===== *)
(** * Insertion into the red-black tree: [hev_rbtree_insert_color] *)

From S2P Require Import Prelude HevRBTree HevRBTreeProofs.

Module HevRBTreeInsert.
Import HevRBTree HevRBTreeProofs.

(** The loop invariant: the cursor is a red node whose subtrees are red-black trees,
    in a context that is a red-black tree around it; only the colour of the parent may
    be wrong. *)
Record insert_pre (s : state) (k : ctx) (l : tree) (n : loc) (r : tree) (m : nat) : Prop := {
  ip_ctx : repr_ctx (nodes s) (root s) k (Some n);
  ip_tree : repr (nodes s) (ctx_parent k) (T Red l n r);
  ip_nodup : NoDup (inorder (T Red l n r) ++ ctx_locs k);
  ip_left : rb Black m l;
  ip_right : rb Black m r;
  ip_rb : rb_ctx k m;
}.

(** What the invariants say of a red parent below its (black) parent. *)
Lemma rb_ctx_red_left k p pr g u m :
  rb_ctx (FL Red p pr :: FL Black g u :: k) m \/ rb_ctx (FL Red p pr :: FR Black u g :: k) m
  \/ rb_ctx (FR Red pr p :: FL Black g u :: k) m \/ rb_ctx (FR Red pr p :: FR Black u g :: k) m ->
  rb Black m pr ∧ rb (root_color u) m u ∧ rb_ctx k (S m).
Proof.
  simpl. intros [H|[H|[H|H]]]; destruct H as ((cp & Hp & Hc) & _ & (cu & Hu & _) & _ & Hk);
    rewrite Hc in Hp by done; by rewrite <- (rb_root_color _ _ _ Hu).
Qed.

(** The four shapes with a black uncle: the parent [p] is a left or right child of
    [g] and the cursor an outer grandchild (case 3, one rotation at [g]) or an inner one
    (case 2 first rotates at [p]). *)

Ltac insert_open Hpre :=
  destruct Hpre as [Hk Ht Hnd Hl Hr Hrb]; simpl in Hk, Ht;
  destruct Hk as (Hp & Hpr & Hg & Hu' & Hk); destruct Ht as (Hn & Hl' & Hr').

Lemma insert_left_outer rt h k l n r p pr g u m fuel :
  insert_pre (mk_state rt h) (FL Red p pr :: FL Black g u :: k) l n r m ->
  root_color u = Black ->
  wp (insert_color_loop (S fuel) (Some n) (Some p)) (mk_state rt h)
    (fix_post (fill (FL Red p pr :: FL Black g u :: k) (T Red l n r))).
Proof.
  intros Hpre Hu. insert_open Hpre.
  destruct (rb_ctx_red_left k p pr g u m) as (Hbp & Hbu & Hbk); [by eauto|]. rewrite Hu in Hbu.
  inversion Hbp as [| |mp cl cr pl pp pr' Hbl Hbr]; subst; simpl in Hpr; destruct_and?;
    nd_split Hnd; simpl; rb_run; rewrite Hu; simpl; rb_run.
  - fix_rotate Red (T Black (T Red l n r) p (T Red E g u)).
  - fix_rotate Red (T Black (T Red l n r) p (T Red (T Black pl pp pr') g u)).
Qed.

Lemma insert_right_outer rt h k l n r p pl g u m fuel :
  insert_pre (mk_state rt h) (FR Red pl p :: FR Black u g :: k) l n r m ->
  root_color u = Black ->
  wp (insert_color_loop (S fuel) (Some n) (Some p)) (mk_state rt h)
    (fix_post (fill (FR Red pl p :: FR Black u g :: k) (T Red l n r))).
Proof.
  intros Hpre Hu. insert_open Hpre.
  destruct (rb_ctx_red_left k p pl g u m) as (Hbp & Hbu & Hbk); [by eauto|]. rewrite Hu in Hbu.
  inversion Hbp as [| |mp cl cr pl' pp pr Hbl Hbr]; subst; simpl in Hpr; destruct_and?;
    nd_split Hnd; simpl; rb_run; rewrite Hu; simpl; rb_run.
  - fix_rotate Red (T Black (T Red u g E) p (T Red l n r)).
  - fix_rotate Red (T Black (T Red u g (T Black pl' pp pr)) p (T Red l n r)).
Qed.

Lemma insert_left_inner rt h k l n r p pl g u m fuel :
  insert_pre (mk_state rt h) (FR Red pl p :: FL Black g u :: k) l n r m ->
  root_color u = Black ->
  wp (insert_color_loop (S fuel) (Some n) (Some p)) (mk_state rt h)
    (fix_post (fill (FR Red pl p :: FL Black g u :: k) (T Red l n r))).
Proof.
  intros Hpre Hu. insert_open Hpre.
  destruct (rb_ctx_red_left k p pl g u m) as (Hbp & Hbu & Hbk); [by eauto|]. rewrite Hu in Hbu.
  inversion Hl as [| |ml cll clr ll lp lr Hll Hlr]; subst;
    inversion Hr as [| |mr crl crr rl rp rr Hrl Hrr]; subst;
    simpl in Hl', Hr'; destruct_and?; nd_split Hnd; simpl; rb_run; rewrite Hu; simpl; rb_run.
  - fix_rotate Red (T Black (T Red pl p E) n (T Red E g u)).
  - fix_rotate Red (T Black (T Red pl p (T Black ll lp lr)) n (T Red (T Black rl rp rr) g u)).
Qed.

Lemma insert_right_inner rt h k l n r p pr g u m fuel :
  insert_pre (mk_state rt h) (FL Red p pr :: FR Black u g :: k) l n r m ->
  root_color u = Black ->
  wp (insert_color_loop (S fuel) (Some n) (Some p)) (mk_state rt h)
    (fix_post (fill (FL Red p pr :: FR Black u g :: k) (T Red l n r))).
Proof.
  intros Hpre Hu. insert_open Hpre.
  destruct (rb_ctx_red_left k p pr g u m) as (Hbp & Hbu & Hbk); [by eauto|]. rewrite Hu in Hbu.
  inversion Hl as [| |ml cll clr ll lp lr Hll Hlr]; subst;
    inversion Hr as [| |mr crl crr rl rp rr Hrl Hrr]; subst;
    simpl in Hl', Hr'; destruct_and?; nd_split Hnd; simpl; rb_run; rewrite Hu; simpl; rb_run.
  - fix_rotate Red (T Black (T Red u g E) n (T Red E p pr)).
  - fix_rotate Red (T Black (T Red u g (T Black ll lp lr)) n (T Red (T Black rl rp rr) p pr)).
Qed.

(** Case 1: the uncle is red; the colours flip and the cursor moves to [g]. *)
Definition flip_ctx (side : bool) (p : loc) (t : tree) : frame :=
  if side then FL Red p t else FR Red t p.

Lemma insert_red_uncle_left rt h k l n r (side : bool) p t g ul up ur m fuel Q :
  insert_pre (mk_state rt h) (flip_ctx side p t :: FL Black g (T Red ul up ur) :: k) l n r m ->
  (forall h', let pt := if side then T Black (T Red l n r) p t else T Black t p (T Red l n r) in
     insert_pre (mk_state rt h') k pt g (T Black ul up ur) (S m) ->
     wp (insert_color_loop fuel (Some g) (ctx_parent k)) (mk_state rt h') Q) ->
  wp (insert_color_loop (S fuel) (Some n) (Some p)) (mk_state rt h) Q.
Proof.
  intros Hpre HQ. destruct side; simpl in *; insert_open Hpre.
  - destruct (rb_ctx_red_left k p t g (T Red ul up ur) m) as (Hbp & Hbu & Hbk); [by eauto|].
    simpl in *. destruct_and?. inversion Hbu; subst. pose proof Hnd as Hnd'.
    nd_split Hnd'. rb_run. apply HQ. split; simpl; [by rb_repr | by rb_repr | | by rb_solve..].
    eapply NoDup_Permutation_proper; [|exact Hnd]. simpl. solve_Permutation.
  - destruct (rb_ctx_red_left k p t g (T Red ul up ur) m) as (Hbp & Hbu & Hbk); [by eauto|].
    simpl in *. destruct_and?. inversion Hbu; subst. pose proof Hnd as Hnd'.
    nd_split Hnd'. rb_run. apply HQ. split; simpl; [by rb_repr | by rb_repr | | by rb_solve..].
    eapply NoDup_Permutation_proper; [|exact Hnd]. simpl. solve_Permutation.
Qed.

Lemma insert_red_uncle_right rt h k l n r (side : bool) p t g ul up ur m fuel Q :
  insert_pre (mk_state rt h) (flip_ctx side p t :: FR Black (T Red ul up ur) g :: k) l n r m ->
  (forall h', let pt := if side then T Black (T Red l n r) p t else T Black t p (T Red l n r) in
     insert_pre (mk_state rt h') k (T Black ul up ur) g pt (S m) ->
     wp (insert_color_loop fuel (Some g) (ctx_parent k)) (mk_state rt h') Q) ->
  wp (insert_color_loop (S fuel) (Some n) (Some p)) (mk_state rt h) Q.
Proof.
  intros Hpre HQ. destruct side; simpl in *; insert_open Hpre.
  - destruct (rb_ctx_red_left k p t g (T Red ul up ur) m) as (Hbp & Hbu & Hbk); [by eauto|].
    simpl in *. destruct_and?. inversion Hbu; subst. pose proof Hnd as Hnd'.
    nd_split Hnd'. rb_run. apply HQ. split; simpl; [by rb_repr | by rb_repr | | by rb_solve..].
    eapply NoDup_Permutation_proper; [|exact Hnd]. simpl. solve_Permutation.
  - destruct (rb_ctx_red_left k p t g (T Red ul up ur) m) as (Hbp & Hbu & Hbk); [by eauto|].
    simpl in *. destruct_and?. inversion Hbu; subst. pose proof Hnd as Hnd'.
    nd_split Hnd'. rb_run. apply HQ. split; simpl; [by rb_repr | by rb_repr | | by rb_solve..].
    eapply NoDup_Permutation_proper; [|exact Hnd]. simpl. solve_Permutation.
Qed.

Lemma insert_root rt h l n r m fuel :
  insert_pre (mk_state rt h) [] l n r m ->
  wp (insert_color_loop (S fuel) (Some n) None) (mk_state rt h) (fix_post (T Red l n r)).
Proof.
  intros [Hk Ht Hnd Hl Hr _]. simpl in Hk, Ht. destruct Ht as (Hn & Hl' & Hr'). nd_split Hnd.
  simpl. rb_step. eapply fix_finish with (k := []) (t := T Black l n r);
    [done | by rb_repr | by rb_solve | done | done | done].
Qed.

Lemma insert_black_parent rt h f k l n r m fuel :
  insert_pre (mk_state rt h) (f :: k) l n r m -> hole_color (f :: k) = Black ->
  wp (insert_color_loop (S fuel) (Some n) (Some (frame_loc f))) (mk_state rt h)
    (fix_post (fill (f :: k) (T Red l n r))).
Proof.
  intros [Hk Ht Hnd Hl Hr Hrb] Hc. destruct f as [c p t|c t p]; simpl in Hc; subst c;
    pose proof Hk as (Hp & _ & _); simpl in Hp; simpl; rb_run.
  - eapply fix_finish with (t := T Red l n r); [exact Hk | done | by rb_solve | done | done | done].
  - eapply fix_finish with (t := T Red l n r); [exact Hk | done | by rb_solve | done | done | done].
Qed.

(** The loop restores the red-black invariants and keeps the sequence of nodes. *)
Lemma insert_color_loop_ok fuel : forall rt h k l n r m,
  insert_pre (mk_state rt h) k l n r m -> (length k < fuel)%nat ->
  wp (insert_color_loop fuel (Some n) (ctx_parent k)) (mk_state rt h)
    (fix_post (fill k (T Red l n r))).
Proof.
  induction fuel as [fuel IH] using lt_wf_ind. intros rt h k l n r m Hpre Hf.
  destruct fuel as [|fuel]; [lia|].
  destruct k as [|f k]; [by eapply insert_root|].
  destruct (hole_color (f :: k)) eqn:Hc; [|by eapply insert_black_parent].
  pose proof (ip_rb _ _ _ _ _ _ Hpre) as Hrb.
  assert (hole_color k = Black) as Hck by (destruct f; simpl in *; naive_solver).
  destruct k as [|g k]; [done|].
  assert (exists side p t, f = flip_ctx side p t) as (side & p & t & ->).
  { destruct f as [c p t|c t p]; simpl in Hc; subst c; [by exists true, p, t | by exists false, p, t]. }
  destruct g as [c g u|c u g]; simpl in Hck; subst c; simpl ctx_parent.
  - destruct (root_color u) eqn:Hu.
    + destruct u as [|[] ul up ur]; [done| |done].
      replace (frame_loc (flip_ctx side p t)) with p by by destruct side.
      eapply insert_red_uncle_left; [done|]. intros h' pt Hpre'.
      eapply wp_mono; [eapply IH; [| done |]; simpl in *; lia|].
      intros a s'. apply fix_post_ext. subst pt. destruct side; simpl; by app_norm.
    + destruct side; [by eapply insert_left_outer | by eapply insert_left_inner].
  - destruct (root_color u) eqn:Hu.
    + destruct u as [|[] ul up ur]; [done| |done].
      replace (frame_loc (flip_ctx side p t)) with p by by destruct side.
      eapply insert_red_uncle_right; [done|]. intros h' pt Hpre'.
      eapply wp_mono; [eapply IH; [| done |]; simpl in *; lia|].
      intros a s'. apply fix_post_ext. subst pt. destruct side; simpl; by app_norm.
    + destruct side; [by eapply insert_right_inner | by eapply insert_right_outer].
Qed.

End HevRBTreeInsert.
