(* ===== verification/HevRBTreeErase.v ===== *)
(** * Removal from the red-black tree: [hev_rbtree_erase] *)

From S2P Require Import Prelude HevRBTree HevRBTreeProofs.

Module HevRBTreeErase.
Import HevRBTree HevRBTreeProofs.

(** ** The fix-up loop

    The loop invariant: every path through the cursor meets one black node too few. *)
Record erase_pre (s : state) (k : ctx) (t : tree) (m : nat) : Prop := {
  ep_ctx : repr_ctx (nodes s) (root s) k (root_ptr t);
  ep_tree : repr (nodes s) (ctx_parent k) t;
  ep_nodup : NoDup (inorder t ++ ctx_locs k);
  ep_black : rb Black m t;
  ep_rb : rb_ctx k (S m);
}.

(** Opening the invariant at a cursor whose sibling is a black node [s]. *)
Ltac erase_open Hpre :=
  destruct Hpre as [Hk Ht Hnd Htm Hrb]; simpl in Hk, Hrb;
  destruct Hk as (Hp & Hs & Hk); destruct Hs as (Hs & Hsl & Hsr);
  destruct Hrb as ((cs & Hcs & Hcc) & Hcp & Hrb).

Lemma rb_flipped t p sl s sr m :
  rb Black m t -> rb Black m sl -> rb Black m sr -> rb Black (S m) (T Black t p (T Red sl s sr)).
Proof. intros. by repeat (eassumption || econstructor). Qed.

Lemma rb_flipped_right t p sl s sr m :
  rb Black m t -> rb Black m sl -> rb Black m sr -> rb Black (S m) (T Black (T Red sl s sr) p t).
Proof. intros. by repeat (eassumption || econstructor). Qed.

Lemma match_ctx_parent {A} k (x y : A) :
  k ≠ [] -> match ctx_parent k with Some _ => x | None => y end = x.
Proof. by destruct k. Qed.

Section FixLeft.
Context (rec : ptr -> ptr -> M state unit) (rt : ptr) (h : heap) (k : ctx) (cp : color).
Context (t : tree) (p : loc) (m : nat).

(** Case 4: the far nephew is red. *)
Lemma fix_left_far sl s a x b :
  erase_pre (mk_state rt h) (FL cp p (T Black sl s (T Red a x b)) :: k) t m ->
  wp (erase_fix_left rec (Some p) (Some s)) (mk_state rt h)
    (fix_post (fill (FL cp p (T Black sl s (T Red a x b)) :: k) t)).
Proof.
  intros Hpre. erase_open Hpre. simpl in Ht. simpl in Hsr. destruct Hsr as (Hx & Ha & Hb).
  inversion Hcs as [| |n' cl cr l' p' r' Hbl Hbr]; subst. inversion Hbr; subst.
  destruct sl as [|csl sll slp slr]; simpl in Hsl; destruct_and?; nd_split Hnd;
    unfold erase_fix_left; rb_run.
  - fix_rotate Black (T cp (T Black t p E) s (T Black a x b)).
  - fix_rotate Black (T cp (T Black t p (T csl sll slp slr)) s (T Black a x b)).
Qed.

(** Cases 3 and 4: only the near nephew is red. *)
Lemma fix_left_near a x b s sr :
  erase_pre (mk_state rt h) (FL cp p (T Black (T Red a x b) s sr) :: k) t m ->
  root_color sr = Black ->
  wp (erase_fix_left rec (Some p) (Some s)) (mk_state rt h)
    (fix_post (fill (FL cp p (T Black (T Red a x b) s sr) :: k) t)).
Proof.
  intros Hpre Hc. erase_open Hpre. simpl in Ht. simpl in Hsl. destruct Hsl as (Hx & Ha & Hb).
  inversion Hcs as [| |n' cl cr l' p' r' Hbl Hbr]; subst.
  inversion Hbl as [|n1 l1 p1 r1 Hba Hbb|]; subst.
  rewrite (rb_root_color _ _ _ Hbr), Hc in Hbr.
  inversion Hba; subst; inversion Hbb; subst;
    simpl in Ha, Hb; destruct_and?; nd_split Hnd;
    unfold erase_fix_left; rb_run; rewrite Hc; simpl; rb_run.
  - fix_rotate Black (T cp (T Black t p E) x (T Black E s sr)).
  - fix_rotate Black (T cp (T Black t p (T Black l p0 r)) x (T Black (T Black l0 p1 r0) s sr)).
Qed.

(** Case 2: both nephews are black. *)
Lemma fix_left_flip sl s sr :
  erase_pre (mk_state rt h) (FL cp p (T Black sl s sr) :: k) t m ->
  root_color sl = Black -> root_color sr = Black ->
  (forall h', cp = Black -> k ≠ [] ->
     erase_pre (mk_state rt h') k (T Black t p (T Red sl s sr)) (S m) ->
     wp (rec (Some p) (ctx_parent k)) (mk_state rt h')
       (fix_post (fill (FL cp p (T Black sl s sr) :: k) t))) ->
  wp (erase_fix_left rec (Some p) (Some s)) (mk_state rt h)
    (fix_post (fill (FL cp p (T Black sl s sr) :: k) t)).
Proof.
  intros Hpre Hcl Hcr Hrec. erase_open Hpre. simpl in Ht.
  inversion Hcs as [| |n' cl cr l' p' r' Hbl Hbr]; subst.
  rewrite (rb_root_color _ _ _ Hbr), Hcr in Hbr. rewrite (rb_root_color _ _ _ Hbl), Hcl in Hbl.
  pose proof Hnd as Hnd'. nd_split Hnd'. unfold erase_fix_left. rb_run. rewrite Hcr. simpl. rb_run.
  rewrite Hcl. simpl. rb_run. destruct cp; simpl; rb_run.
  - eapply fix_finish with (t := T Black t p (T Red sl s sr));
      [by rb_repr | by rb_repr | by rb_solve | eassumption | rb_hole | by app_norm].
  - destruct (decide (k = [])) as [Hk0|Hk0].
    + subst k. simpl. rb_run. eapply fix_finish with (k := []) (t := T Black t p (T Red sl s sr));
        [by rb_repr | by rb_repr | by apply rb_flipped | done | done | done].
    + rewrite (match_ctx_parent k) by done.
      apply Hrec; [done | done |]. split; simpl; [by rb_repr | by rb_repr | | by apply rb_flipped | done].
      eapply NoDup_Permutation_proper; [|exact Hnd]. simpl. solve_Permutation.
Qed.

(** The whole step with a black sibling. *)
Lemma fix_left_ok sl s sr :
  erase_pre (mk_state rt h) (FL cp p (T Black sl s sr) :: k) t m ->
  (forall h', cp = Black -> k ≠ [] ->
     erase_pre (mk_state rt h') k (T Black t p (T Red sl s sr)) (S m) ->
     wp (rec (Some p) (ctx_parent k)) (mk_state rt h')
       (fix_post (fill (FL cp p (T Black sl s sr) :: k) t))) ->
  wp (erase_fix_left rec (Some p) (Some s)) (mk_state rt h)
    (fix_post (fill (FL cp p (T Black sl s sr) :: k) t)).
Proof.
  intros Hpre Hrec. destruct (root_color sr) eqn:Hr.
  { destruct sr as [|[] a x b]; [done| |done]. by apply fix_left_far. }
  destruct (root_color sl) eqn:Hl; [|by apply fix_left_flip].
  destruct sl as [|[] a x b]; [done| |done]. by apply fix_left_near.
Qed.

End FixLeft.

(** The mirror images, with the cursor a right child. *)
Section FixRight.
Context (rec : ptr -> ptr -> M state unit) (rt : ptr) (h : heap) (k : ctx) (cp : color).
Context (t : tree) (p : loc) (m : nat).

Lemma fix_right_far sr s a x b :
  erase_pre (mk_state rt h) (FR cp (T Black (T Red a x b) s sr) p :: k) t m ->
  wp (erase_fix_right rec (Some p) (Some s)) (mk_state rt h)
    (fix_post (fill (FR cp (T Black (T Red a x b) s sr) p :: k) t)).
Proof.
  intros Hpre. erase_open Hpre. simpl in Ht. simpl in Hsl. destruct Hsl as (Hx & Ha & Hb).
  inversion Hcs as [| |n' cl cr l' p' r' Hbl Hbr]; subst. inversion Hbl; subst.
  destruct sr as [|csr srl srp srr]; simpl in Hsr; destruct_and?; nd_split Hnd;
    unfold erase_fix_right; rb_run.
  - fix_rotate Black (T cp (T Black a x b) s (T Black E p t)).
  - fix_rotate Black (T cp (T Black a x b) s (T Black (T csr srl srp srr) p t)).
Qed.

Lemma fix_right_near a x b s sl :
  erase_pre (mk_state rt h) (FR cp (T Black sl s (T Red a x b)) p :: k) t m ->
  root_color sl = Black ->
  wp (erase_fix_right rec (Some p) (Some s)) (mk_state rt h)
    (fix_post (fill (FR cp (T Black sl s (T Red a x b)) p :: k) t)).
Proof.
  intros Hpre Hc. erase_open Hpre. simpl in Ht. simpl in Hsr. destruct Hsr as (Hx & Ha & Hb).
  inversion Hcs as [| |n' cl cr l' p' r' Hbl Hbr]; subst.
  inversion Hbr as [|n1 l1 p1 r1 Hba Hbb|]; subst.
  rewrite (rb_root_color _ _ _ Hbl), Hc in Hbl.
  inversion Hba; subst; inversion Hbb; subst;
    simpl in Ha, Hb; destruct_and?; nd_split Hnd;
    unfold erase_fix_right; rb_run; rewrite Hc; simpl; rb_run.
  - fix_rotate Black (T cp (T Black sl s E) x (T Black E p t)).
  - fix_rotate Black (T cp (T Black sl s (T Black l p0 r)) x (T Black (T Black l0 p1 r0) p t)).
Qed.

Lemma fix_right_flip sl s sr :
  erase_pre (mk_state rt h) (FR cp (T Black sl s sr) p :: k) t m ->
  root_color sl = Black -> root_color sr = Black ->
  (forall h', cp = Black -> k ≠ [] ->
     erase_pre (mk_state rt h') k (T Black (T Red sl s sr) p t) (S m) ->
     wp (rec (Some p) (ctx_parent k)) (mk_state rt h')
       (fix_post (fill (FR cp (T Black sl s sr) p :: k) t))) ->
  wp (erase_fix_right rec (Some p) (Some s)) (mk_state rt h)
    (fix_post (fill (FR cp (T Black sl s sr) p :: k) t)).
Proof.
  intros Hpre Hcl Hcr Hrec. erase_open Hpre. simpl in Ht.
  inversion Hcs as [| |n' cl cr l' p' r' Hbl Hbr]; subst.
  rewrite (rb_root_color _ _ _ Hbr), Hcr in Hbr. rewrite (rb_root_color _ _ _ Hbl), Hcl in Hbl.
  pose proof Hnd as Hnd'. nd_split Hnd'. unfold erase_fix_right. rb_run. rewrite Hcl. simpl. rb_run.
  rewrite Hcr. simpl. rb_run. destruct cp; simpl; rb_run.
  - eapply fix_finish with (t := T Black (T Red sl s sr) p t);
      [by rb_repr | by rb_repr | by rb_solve | eassumption | rb_hole | by app_norm].
  - destruct (decide (k = [])) as [Hk0|Hk0].
    + subst k. simpl. rb_run. eapply fix_finish with (k := []) (t := T Black (T Red sl s sr) p t);
        [by rb_repr | by rb_repr | by apply rb_flipped_right | done | done | done].
    + rewrite (match_ctx_parent k) by done.
      apply Hrec; [done | done |].
      split; simpl; [by rb_repr | by rb_repr | | by apply rb_flipped_right | done].
      eapply NoDup_Permutation_proper; [|exact Hnd]. simpl. solve_Permutation.
Qed.

Lemma fix_right_ok sl s sr :
  erase_pre (mk_state rt h) (FR cp (T Black sl s sr) p :: k) t m ->
  (forall h', cp = Black -> k ≠ [] ->
     erase_pre (mk_state rt h') k (T Black (T Red sl s sr) p t) (S m) ->
     wp (rec (Some p) (ctx_parent k)) (mk_state rt h')
       (fix_post (fill (FR cp (T Black sl s sr) p :: k) t))) ->
  wp (erase_fix_right rec (Some p) (Some s)) (mk_state rt h)
    (fix_post (fill (FR cp (T Black sl s sr) p :: k) t)).
Proof.
  intros Hpre Hrec. destruct (root_color sl) eqn:Hl.
  { destruct sl as [|[] a x b]; [done| |done]. by apply fix_right_far. }
  destruct (root_color sr) eqn:Hr; [|by apply fix_right_flip].
  destruct sr as [|[] a x b]; [done| |done]. by apply fix_right_near.
Qed.
End FixRight.

(** Case 1: the sibling is red; one rotation makes it the grandparent. *)
Ltac rotate_open :=
  lazymatch goal with
  | |- wp (hev_rbtree_rotate_set_parents ?o ?n _) ?s ?Q =>
      change (wp (hev_rbtree_rotate_set_parents o n (cval Red)) s Q)
  end;
  eapply wp_rotate_set_parents;
    [by rb_lk | by rb_lk | by rb_repr | congruence | assumption | assumption | assumption |].

Lemma erase_left_red_sibling fuel rt h k cp t p m sl s sr :
  erase_pre (mk_state rt h) (FL cp p (T Red sl s sr) :: k) t m ->
  wp (erase_color_loop (S fuel) (root_ptr t) (Some p)) (mk_state rt h)
    (fix_post (fill (FL cp p (T Red sl s sr) :: k) t)).
Proof.
  intros Hpre. erase_open Hpre. simpl in Ht.
  inversion Hcs as [|n1 l1 p1 r1 Hbl Hbr|]; subst. assert (cp = Black) as ->.
  { destruct cp; [by specialize (Hcc eq_refl) | done]. }
  inversion Hbl as [| |n' ca cb a x b Hba Hbb]; subst.
  simpl in Hsl. destruct Hsl as (Hx & Ha & Hb). pose proof Hnd as Hnd'. nd_split Hnd'.
  cbn [erase_color_loop]. rb_run. rotate_open. intros rt' h' Hk' Hs' Hp' Hag. rb_run.
  eapply wp_mono;
    [apply (fix_left_ok _ rt' h' (FL Black s sr :: k) Red t p m a x b)
    |intros ? ?; apply fix_post_ext; by app_norm].
  - split; simpl; [by rb_repr | by rb_repr | | done |].
    + eapply NoDup_Permutation_proper; [|exact Hnd]. simpl. solve_Permutation.
    + split_and!; [by exists Black | done | by exists Black | done | done].
  - done.
Qed.

Lemma erase_right_red_sibling fuel rt h k cp t p m sl s sr :
  erase_pre (mk_state rt h) (FR cp (T Red sl s sr) p :: k) t m ->
  wp (erase_color_loop (S fuel) (root_ptr t) (Some p)) (mk_state rt h)
    (fix_post (fill (FR cp (T Red sl s sr) p :: k) t)).
Proof.
  intros Hpre. erase_open Hpre. simpl in Ht.
  inversion Hcs as [|n1 l1 p1 r1 Hbl Hbr|]; subst. assert (cp = Black) as ->.
  { destruct cp; [by specialize (Hcc eq_refl) | done]. }
  inversion Hbr as [| |n' ca cb a x b Hba Hbb]; subst.
  simpl in Hsr. destruct Hsr as (Hx & Ha & Hb). pose proof Hnd as Hnd'. nd_split Hnd'.
  cbn [erase_color_loop]. rb_run. rotate_open. intros rt' h' Hk' Hs' Hp' Hag. rb_run.
  eapply wp_mono;
    [apply (fix_right_ok _ rt' h' (FR Black sl s :: k) Red t p m a x b)
    |intros ? ?; apply fix_post_ext; by app_norm].
  - split; simpl; [by rb_repr | by rb_repr | | done |].
    + eapply NoDup_Permutation_proper; [|exact Hnd]. simpl. solve_Permutation.
    + split_and!; [by exists Black | done | by exists Black | done | done].
  - done.
Qed.

Lemma erase_color_loop_ok fuel : forall rt h k t m,
  erase_pre (mk_state rt h) k t m -> k ≠ [] -> (length k < fuel)%nat ->
  wp (erase_color_loop fuel (root_ptr t) (ctx_parent k)) (mk_state rt h) (fix_post (fill k t)).
Proof.
  induction fuel as [|fuel IH]; intros rt h k t m Hpre Hne Hf; [lia|].
  destruct k as [|[cp p sib|cp sib p] k]; [done| |]; simpl ctx_parent.
  - pose proof (ep_rb _ _ _ _ Hpre) as ((cs0 & Hcs0 & _) & _).
    destruct sib as [|[] sl s sr]; [by inversion Hcs0 | by apply erase_left_red_sibling with (m := m) |].
    pose proof Hpre as Hpre'. erase_open Hpre'. nd_split Hnd. cbn [erase_color_loop]. rb_run.
    eapply fix_left_ok; [done|]. intros h' -> Hk0 Hpre'. eapply wp_mono; [eapply (IH _ _ _ _ _ Hpre'); [done|]|].
    { simpl in Hf. lia. }
    intros ? ?. apply fix_post_ext. by app_norm.
  - pose proof (ep_rb _ _ _ _ Hpre) as ((cs0 & Hcs0 & _) & _).
    destruct sib as [|[] sl s sr]; [by inversion Hcs0 | by apply erase_right_red_sibling with (m := m) |].
    pose proof Hpre as Hpre'. erase_open Hpre'. nd_split Hnd. cbn [erase_color_loop]. rb_run.
    eapply fix_right_ok; [done|]. intros h' -> Hk0 Hpre'. eapply wp_mono; [eapply (IH _ _ _ _ _ Hpre'); [done|]|].
    { simpl in Hf. lia. }
    intros ? ?. apply fix_post_ext. by app_norm.
Qed.

End HevRBTreeErase.
