(* ===== verification/HevRBTreeRemove.v ===== *)
(** * Unlinking a node: [_hev_rbtree_erase] and [hev_rbtree_erase] *)

From S2P Require Import Prelude HevRBTree HevRBTreeProofs HevRBTreeErase.

Module HevRBTreeRemove.
Import HevRBTree HevRBTreeProofs HevRBTreeErase.

(** ** Contexts *)

Lemma fill_app k1 k2 t : fill (k1 ++ k2) t = fill k2 (fill k1 t).
Proof. revert t. by induction k1 as [|[] k1 IH]; intros t; simpl. Qed.

Lemma ctx_locs_app k1 k2 : ctx_locs (k1 ++ k2) = ctx_locs k1 ++ ctx_locs k2.
Proof. induction k1 as [|[] k1 IH]; simpl; rewrite ?IH, ?app_assoc; done. Qed.

Lemma length_ctx_locs k : (length k <= length (ctx_locs k))%nat.
Proof. induction k as [|[] k IH]; simpl; rewrite ?length_app; lia. Qed.

Lemma repr_ctx_lookup h rt k hole x : repr_ctx h rt k hole -> x ∈ ctx_locs k -> is_Some (h !! x).
Proof.
  revert hole. induction k as [|[c p t|c t p] k IH]; intros hole; simpl;
    [by intros _ ?%elem_of_nil|..];
    intros (Hp & Ht & Hk) [->|[Hx|Hx]%elem_of_app]%elem_of_cons; eauto using repr_lookup.
Qed.

(** A duplicate-free list of allocated nodes is no longer than the heap is large. *)
Lemma heap_bound (h : heap) (l : list loc) :
  NoDup l -> (forall x, x ∈ l -> is_Some (h !! x)) -> (length l <= size h)%nat.
Proof.
  intros Hnd Hin. rewrite <- size_dom. rewrite <- (size_list_to_set (C := gset loc) l) by done.
  apply subseteq_size. intros x Hx%elem_of_list_to_set. apply elem_of_dom. auto.
Qed.

Lemma ctx_fuel h rt k hole :
  repr_ctx h rt k hole -> NoDup (ctx_locs k) -> (length k <= size h)%nat.
Proof.
  intros Hk Hnd. etrans; [apply length_ctx_locs|]. apply heap_bound; [done|].
  intros x. by eapply repr_ctx_lookup.
Qed.

Lemma repr_ctx_suffix h rt k1 k2 hole :
  repr_ctx h rt (k1 ++ k2) hole -> exists hole', repr_ctx h rt k2 hole'.
Proof.
  revert hole. induction k1 as [|[] k1 IH]; intros hole; simpl; [by eauto|..];
    intros (_ & _ & Hk); by eapply IH.
Qed.

(** Only left frames: the path to the in-order successor. *)
Definition is_left (f : frame) : Prop := match f with FL _ _ _ => True | FR _ _ _ => False end.

Lemma leftmost_split t : t ≠ E ->
  exists k c s r, t = fill k (T c E s r) ∧ Forall is_left k.
Proof.
  induction t as [|c l IHl p r _]; [done|]. intros _. destruct l as [|cl ll lp lr].
  - exists [], c, p, r. done.
  - destruct IHl as (k & c' & s & r' & He & Hk); [done|].
    exists (k ++ [FL c p r]), c', s, r'. rewrite fill_app, He. split; [done|].
    apply Forall_app; split; [done | by constructor].
Qed.

Lemma root_fill k t : t ≠ E -> exists q, root_ptr (fill k t) = Some q.
Proof.
  revert t. induction k as [|[] k IH]; intros t Ht; simpl; [|by apply IH..].
  destruct t; [done | by eexists].
Qed.

Lemma wp_find_successor k : forall K fuel rt h c s r Q,
  Forall is_left k -> repr h (ctx_parent K) (fill k (T c E s r)) -> (length k < fuel)%nat ->
  Q (ctx_parent (k ++ K), Some s) (mk_state rt h) ->
  wp (find_successor fuel (ctx_parent K) (root_ptr (fill k (T c E s r)))) (mk_state rt h) Q.
Proof.
  induction k as [|f k IH] using rev_ind; intros K fuel rt h c s r Q Hl Hr Hf HQ;
    (destruct fuel as [|fuel]; [lia|]).
  - simpl in *. destruct Hr as (Hs & _). rb_run. exact HQ.
  - apply Forall_app in Hl as [Hl Hl']. rewrite Forall_singleton in Hl'.
    destruct f as [c' p' r'|]; [|done]. rewrite fill_app in Hr |- *. simpl in Hr |- *.
    destruct Hr as (Hp & Ht & _). rb_run. rewrite length_app in Hf. simpl in Hf.
    destruct (root_fill k (T c E s r)) as [q Hq]; [done|]. rewrite Hq. rewrite <- Hq.
    apply (IH (FL c' p' r' :: K)); [exact Hl | exact Ht | lia |].
    by rewrite <- app_assoc in HQ.
Qed.

Lemma NoDup_remove {A} (x : A) (l l' : list A) : l ≡ₚ x :: l' -> NoDup l -> NoDup l'.
Proof. intros ->. by intros [_ ?]%NoDup_cons. Qed.

(** ** Splicing a node out *)

(** Between the unlinking and the fix-up: either the tree is in order, or the fix-up
    has to start at the parent that is returned. *)
Definition erase_mid (L : list loc) (reb : ptr) (s : state) : Prop :=
  match reb with
  | None => exists t', tree_repr s t' ∧ inorder t' = L ∧ is_rb t'
  | Some _ => exists k m, erase_pre s k E m ∧ k ≠ [] ∧ reb = ctx_parent k ∧ inorder (fill k E) = L
  end.

(** The three ways a node without a left child can be spliced out. *)
Lemma removed_right c n s r : rb c n (T c E s r) ->
  (r = E ∧ c = Red ∧ n = 0%nat) \/ (r = E ∧ c = Black ∧ n = 1%nat)
  \/ (exists a x b, r = T Red a x b ∧ c = Black ∧ n = 1%nat ∧ rb Black 1 (T Black a x b)).
Proof.
  inversion 1 as [|n' l' p' r' Hl Hr|n' cl cr l' p' r' Hl Hr]; subst; inversion Hl; subst.
  - inversion Hr; subst. by left.
  - inversion Hr; subst; [by right; left|].
    right; right. eexists _, _, _. split_and!; [done..|]. by econstructor.
Qed.

Lemma removed_left c n s l : rb c n (T c l s E) ->
  (l = E ∧ c = Red ∧ n = 0%nat) \/ (l = E ∧ c = Black ∧ n = 1%nat)
  \/ (exists a x b, l = T Red a x b ∧ c = Black ∧ n = 1%nat ∧ rb Black 1 (T Black a x b)).
Proof.
  inversion 1 as [|n' l' p' r' Hl Hr|n' cl cr l' p' r' Hl Hr]; subst; inversion Hr; subst.
  - inversion Hl; subst. by left.
  - inversion Hl; subst; [by right; left|].
    right; right. eexists _, _, _. split_and!; [done..|]. by econstructor.
Qed.

Section Splice.
Context (rt : ptr) (h : heap) (k : ctx).

Lemma mid_child c a x b :
  repr_ctx h rt k (Some x) -> repr h (ctx_parent k) (T Black a x b) ->
  rb Black 1 (T Black a x b) -> rb_ctx k 1 ->
  erase_mid (inorder (fill k (T c a x b))) None (mk_state rt h).
Proof.
  intros Hk Hr Hrb Hrk. exists (fill k (T Black a x b)).
  split_and!; [by apply fill_repr | by rewrite !inorder_fill | by eapply rb_fill].
Qed.

Lemma mid_red_leaf :
  repr_ctx h rt k None -> rb_ctx k 0 -> erase_mid (inorder (fill k E)) None (mk_state rt h).
Proof.
  intros Hk Hrk. exists (fill k E).
  split_and!; [by apply fill_repr | done | eapply rb_fill; [constructor | done | done]].
Qed.

Lemma mid_black_leaf :
  repr_ctx h rt k None -> NoDup (ctx_locs k) -> rb_ctx k 1 ->
  erase_mid (inorder (fill k E)) (ctx_parent k) (mk_state rt h).
Proof.
  intros Hk Hnd Hrk. destruct (decide (k = [])) as [->|Hne].
  - exists E. split_and!; [by split | done | by exists 0%nat; constructor].
  - destruct (ctx_parent k) eqn:Hp; [|by destruct k]. exists k, 0%nat.
    split_and!; [|done..]. split; [done.. | by constructor | done].
Qed.
End Splice.

(** The node has no left child. *)
Lemma wp_erase_no_left rt h k c n r m :
  repr_ctx h rt k (Some n) -> repr h (ctx_parent k) (T c E n r) ->
  NoDup (inorder (T c E n r) ++ ctx_locs k) -> rb c m (T c E n r) -> rb_ctx k m ->
  wp (_hev_rbtree_erase (Some n)) (mk_state rt h) (erase_mid (inorder (fill k r))).
Proof.
  intros Hk (Hn & _ & Hr) Hnd Hrb Hrk. unfold _hev_rbtree_erase. simpl in Hn.
  apply removed_right in Hrb as [(-> & -> & ->)|[(-> & -> & ->)|(a & x & b & -> & -> & -> & Hrb)]];
    simpl in Hr; destruct_and?; nd_split Hnd; rb_run; rewrite pcv_parent;
    (eapply wp_change_child; [eassumption..|]; intros rt' h' Hk' Hag; rb_run;
     rewrite ?pcv_black; simpl).
  - by apply mid_red_leaf.
  - by apply mid_black_leaf.
  - apply mid_child; [by rb_repr | by rb_repr | done | done].
Qed.

(** The node has a left child but no right child. *)
Lemma wp_erase_no_right rt h k c n l m :
  repr_ctx h rt k (Some n) -> repr h (ctx_parent k) (T c l n E) -> l ≠ E ->
  NoDup (inorder (T c l n E) ++ ctx_locs k) -> rb c m (T c l n E) -> rb_ctx k m ->
  wp (_hev_rbtree_erase (Some n)) (mk_state rt h) (erase_mid (inorder (fill k l))).
Proof.
  intros Hk (Hn & Hr & _) Hl Hnd Hrb Hrk. unfold _hev_rbtree_erase. simpl in Hn.
  apply removed_left in Hrb as [(-> & _)|[(-> & _)|(a & x & b & -> & -> & -> & Hrb)]]; [done..|].
  simpl in Hr; destruct_and?; nd_split Hnd; rb_run. rewrite pcv_parent.
  eapply wp_change_child; [by apply repr_ctx_insert | done..|]. intros rt' h' Hk' Hag. rb_run.
  apply mid_child; [by rb_repr | by rb_repr | done | done].
Qed.

(** ** Replacing a node by its successor *)

Lemma rb_ctx_rename k1 c l n s k m :
  rb_ctx (k1 ++ FR c l n :: k) m -> rb_ctx (k1 ++ FR c l s :: k) m.
Proof.
  revert m. induction k1 as [|[c' p t|c' t p] k1 IH]; intros m; simpl; [done|..];
    intros (H1 & H2 & H3); (split_and!; [done | | by apply IH]);
    intros Hc; specialize (H2 Hc); destruct k1 as [|[] ?]; simpl in *; done.
Qed.

(** The successor is the right child. *)
Lemma wp_erase_succ_child rt h k c l n cr s sr n0 :
  repr_ctx h rt k (Some n) -> repr h (ctx_parent k) (T c l n (T cr E s sr)) -> l ≠ E ->
  NoDup (inorder (T c l n (T cr E s sr)) ++ ctx_locs k) ->
  rb cr n0 (T cr E s sr) -> rb_ctx (FR c l n :: k) n0 ->
  wp (_hev_rbtree_erase (Some n)) (mk_state rt h)
    (erase_mid (inorder (fill (FR c l s :: k) sr))).
Proof.
  intros Hk (Hn & Hl & Hs & _ & Hsr) Hne Hnd Hrb Hrk. unfold _hev_rbtree_erase.
  apply (rb_ctx_rename []) with (s := s) in Hrk.
  destruct l as [|cl ll lp lr]; [done|]. simpl in Hn, Hs, Hl.
  apply removed_right in Hrb as [(-> & -> & ->)|[(-> & -> & ->)|(a & x & b & -> & -> & -> & Hrb)]];
    simpl in Hsr; destruct_and?; pose proof Hnd as Hnd'; nd_split Hnd'; rb_run;
    rewrite pcv_parent; (eapply wp_change_child; [by repeat apply repr_ctx_insert | done | done |]);
    intros rt' h' Hk' Hag; rb_run.
  - apply (mid_red_leaf _ _ (FR c (T cl ll lp lr) s :: k)); simpl; [by rb_repr | done].
  - apply (mid_black_leaf _ _ (FR c (T cl ll lp lr) s :: k)); simpl; [by rb_repr | | done].
    eapply (NoDup_remove n); [|exact Hnd]. simpl. solve_Permutation.
  - apply (mid_child _ _ (FR c (T cl ll lp lr) s :: k)); simpl; [by rb_repr | by rb_repr | done | done].
Qed.

(** Updating the hole of a context whose first frame is a left one. *)
Lemma wp_set_hole_left rt h k1 c p r K hole new (Q : unit -> state -> Prop) :
  let K0 := k1 ++ FL c p r :: K in
  repr_ctx h rt K0 hole -> Forall is_left k1 -> NoDup (ctx_locs K0) ->
  (forall h', repr_ctx h' rt K0 new ->
     (forall x, x ∉ ctx_locs K0 -> h' !! x = h !! x) -> Q tt (mk_state rt h')) ->
  wp (store (ctx_parent K0) (set_left new)) (mk_state rt h) Q.
Proof.
  intros K0 Hk Hl Hnd HQ. subst K0.
  assert (exists c0 p0 r0 K', k1 ++ FL c p r :: K = FL c0 p0 r0 :: K') as (c' & p' & r' & K' & He).
  { destruct k1 as [|f k1]; [by repeat eexists|].
    apply Forall_cons in Hl as [Hl _]. destruct f; [by repeat eexists | done]. }
  revert Hk Hnd HQ. rewrite He. clear He. intros Hk Hnd HQ. simpl in *.
  destruct Hk as (Hp & Hr & Hk). apply NoDup_cons in Hnd as [[Hp1 Hp2]%not_elem_of_app _].
  eapply wp_store; [done|]. apply HQ; simpl.
  - split_and!; [apply lookup_insert_eq | by apply repr_insert | by apply repr_ctx_insert].
  - intros x [Hx _]%not_elem_of_cons. by apply lookup_insert_ne.
Qed.

Lemma repr_zoom h rt k1 k t :
  repr_ctx h rt k (root_ptr (fill k1 t)) -> repr h (ctx_parent k) (fill k1 t) ->
  repr_ctx h rt (k1 ++ k) (root_ptr t) ∧ repr h (ctx_parent (k1 ++ k)) t.
Proof.
  intros Hk Ht. destruct (fill_repr _ _ _ _ Hk Ht) as [H1 H2].
  rewrite <- fill_app in H1, H2. by apply repr_fill.
Qed.

(** Renaming the node below which the spine hangs. *)
Lemma repr_ctx_swap h h' rt rt' k1 cr rp rr c l n s k hole :
  repr_ctx h rt (k1 ++ FL cr rp rr :: FR c l n :: k) hole ->
  (forall x, x ∈ ctx_locs k1 -> h' !! x = h !! x) ->
  (forall nd, h !! rp = Some nd -> h' !! rp = Some (set_pc (pcv (Some s) cr) nd)) ->
  repr h' (Some rp) rr -> repr_ctx h' rt' (FR c l s :: k) (Some rp) ->
  repr_ctx h' rt' (k1 ++ FL cr rp rr :: FR c l s :: k) hole.
Proof.
  intros Hk Hag Hrp Hrr Hk'. revert hole Hk Hag.
  induction k1 as [|f k1 IH]; intros hole Hk Hag.
  - destruct Hk as (Hp & _ & _). split_and!; [by rewrite (Hrp _ Hp) | done | done].
  - assert (forall a b, ctx_parent (k1 ++ FL cr rp rr :: a) = ctx_parent (k1 ++ FL cr rp rr :: b))
      as Hcp by (by destruct k1).
    destruct f as [c' p t|c' t p]; destruct Hk as (Hp & Ht & Hk); simpl;
      (split_and!; [rewrite Hag by (simpl; set_solver); by rewrite Hp, (Hcp (FR c l s :: k) (FR c l n :: k))
                   | eapply repr_agree; [|done]; intros x Hx; apply Hag; simpl; set_solver
                   | apply IH; [done|]; intros x Hx; apply Hag; simpl; set_solver]).
Qed.

Lemma spine_parent k1 c p r K K' :
  ctx_parent (k1 ++ FL c p r :: K) = ctx_parent (k1 ++ FL c p r :: K').
Proof. by destruct k1. Qed.

Lemma rb_ctx_rename_spine k1 cr rp rr c l n s k m :
  rb_ctx (k1 ++ FL cr rp rr :: FR c l n :: k) m ->
  rb_ctx (k1 ++ FL cr rp rr :: FR c l s :: k) m.
Proof. rewrite !(cons_middle (FL cr rp rr)), !app_assoc. apply rb_ctx_rename. Qed.

Lemma repr_ctx_spine h rt k1 cr rp rr c l n k hole :
  repr_ctx h rt (k1 ++ FL cr rp rr :: FR c l n :: k) hole ->
  exists lft,
    h !! rp = Some (mk_node (pcv (Some n) cr) (root_ptr rr) lft) ∧ repr h (Some rp) rr
    ∧ h !! n = Some (mk_node (pcv (ctx_parent k) c) (Some rp) (root_ptr l))
    ∧ repr h (Some n) l ∧ repr_ctx h rt k (Some n).
Proof.
  intros [lft (H1 & H2 & H3 & H4 & H5)]%repr_ctx_suffix. by exists lft.
Qed.

Ltac spine_swap HK Hrp :=
  eapply repr_ctx_swap;
  [ exact HK
  | intros ? ?; by rb_agree
  | intros ? Heq; rewrite Hrp in Heq; injection Heq as <-; by rb_lk
  | by rb_repr
  | simpl; by rb_repr ].

(** The successor is further down: [k1] is the spine of left frames above it. *)
Lemma wp_erase_succ_deep rt h k c l n cr rp rr k1 cs s sr n0 :
  Forall is_left k1 -> l ≠ E ->
  repr_ctx h rt k (Some n) ->
  repr h (ctx_parent k) (T c l n (T cr (fill k1 (T cs E s sr)) rp rr)) ->
  NoDup (inorder (T cs E s sr) ++ ctx_locs (k1 ++ FL cr rp rr :: FR c l n :: k)) ->
  rb cs n0 (T cs E s sr) -> rb_ctx (k1 ++ FL cr rp rr :: FR c l n :: k) n0 ->
  wp (_hev_rbtree_erase (Some n)) (mk_state rt h)
    (erase_mid (inorder (fill (k1 ++ FL cr rp rr :: FR c l s :: k) sr))).
Proof.
  intros Hleft Hne Hk (Hn & Hl & Hrp & Hrl & Hrr) Hnd Hrb Hrk. unfold _hev_rbtree_erase.
  destruct (repr_zoom h rt k1 (FL cr rp rr :: FR c l n :: k) (T cs E s sr))
    as (HK & Hs & _ & Hsr); [by split_and! | done |].
  assert (NoDup (ctx_locs (k1 ++ FL cr rp rr :: FR c l n :: k))) as HndK
    by (apply NoDup_app in Hnd; tauto).
  assert (s ∉ ctx_locs (k1 ++ FL cr rp rr :: FR c l n :: k)
          ∧ forall x, x ∈ inorder sr -> x ∉ ctx_locs (k1 ++ FL cr rp rr :: FR c l n :: k))
    as [HsK HsrK].
  { apply NoDup_app in Hnd as (_ & Hd & _). split; [|intros x Hx]; apply Hd; simpl; set_solver. }
  destruct l as [|cl ll lp lr]; [done|]. clear Hne.
  destruct (root_fill k1 (T cs E s sr)) as [q Hq]; [done|].
  rb_run. rewrite Hq. apply wp_bind, wp_heap_fuel, wp_bind. rewrite <- Hq.
  eapply (wp_find_successor k1 (FL cr rp rr :: FR c (T cl ll lp lr) n :: k)); [done|exact Hrl|..].
  { pose proof (ctx_fuel _ _ _ _ HK HndK) as Hf. rewrite length_app in Hf. lia. }
  rb_run. eapply wp_set_hole_left; [exact HK|done|done|]. intros h1 HK1 Hag.
  destruct (repr_ctx_spine _ _ _ _ _ _ _ _ _ _ _ HK1) as (lft & Hrp1 & Hrr1 & Hn1 & Hl1 & Hk1).
  assert (h1 !! s = h !! s) as Hs1 by by apply Hag.
  rewrite Hs in Hs1. assert (repr h1 (Some s) sr) as Hsr1.
  { eapply repr_agree; [|exact Hsr]. auto. }
  clear HsrK HsK Hag Hs Hsr Hrp Hrl Hrr Hn Hl Hk HK Hq Hleft h HndK.
  rewrite (spine_parent k1 cr rp rr _ (FR c (T cl ll lp lr) s :: k)).
  apply rb_ctx_rename_spine with (s := s) in Hrk.
  apply removed_right in Hrb as [(-> & -> & ->)|[(-> & -> & ->)|(a & x & b & -> & -> & -> & Hrb)]];
    simpl in Hl1, Hsr1, Hs1; destruct_and?; pose proof Hnd as Hnd'; rewrite ctx_locs_app in Hnd';
    nd_split Hnd'; rb_run; rewrite pcv_parent;
    (eapply wp_change_child; [by repeat apply repr_ctx_insert | done | done |]);
    intros rt' h' Hk' Hag; rb_run.
  - apply mid_red_leaf; [spine_swap HK1 Hrp1 | done].
  - apply mid_black_leaf; [spine_swap HK1 Hrp1 | | done].
    eapply (NoDup_remove n); [|exact Hnd]. simpl.
    rewrite !ctx_locs_app. simpl. solve_Permutation.
  - apply mid_child; [spine_swap HK1 Hrp1 | | done | done]. simpl.
    rewrite (spine_parent k1 cr rp rr _ (FR c (T cl ll lp lr) n :: k)). by rb_repr.
Qed.

(** ** The whole operation *)

Lemma zoom_in n : forall t k0, n ∈ inorder t ->
  exists k c l r, fill k0 t = fill k (T c l n r).
Proof.
  intros t. induction t as [|c l IHl p r IHr]; intros k0; simpl; [by intros ?%elem_of_nil|].
  intros [Hx|[->|Hx]%elem_of_cons]%elem_of_app.
  - by apply (IHl (FL c p r :: k0)).
  - by exists k0, c, l, r.
  - by apply (IHr (FR c l p :: k0)).
Qed.

Lemma ctx_pre_left k : Forall is_left k -> ctx_pre k = [].
Proof. induction 1 as [|f k Hf _ IH]; [done|]. by destruct f. Qed.

Lemma wp_unlink rt h k c l n r m :
  repr_ctx h rt k (Some n) -> repr h (ctx_parent k) (T c l n r) ->
  NoDup (inorder (T c l n r) ++ ctx_locs k) -> rb c m (T c l n r) -> rb_ctx k m ->
  (hole_color k = Red -> c = Black) ->
  wp (_hev_rbtree_erase (Some n)) (mk_state rt h)
    (erase_mid (ctx_pre k ++ (inorder l ++ inorder r) ++ ctx_post k)).
Proof.
  intros Hk Ht Hnd Hrb Hrk Hc. destruct (decide (l = E)) as [->|Hl].
  { simpl app. rewrite <- inorder_fill. by eapply wp_erase_no_left. }
  destruct (decide (r = E)) as [->|Hr].
  { simpl inorder. rewrite app_nil_r, <- inorder_fill. by eapply wp_erase_no_right. }
  assert (is_rb (fill k (T c l n r))) as Hall by by eapply rb_fill.
  destruct r as [|cr rl rp rr]; [done|]. destruct (decide (rl = E)) as [->|Hrl].
  - destruct (rb_unfill (FR c l n :: k) (T cr E rp rr)) as (c0 & n0 & Hrb0 & Hrk0 & _); [done|].
    assert (c0 = cr) as -> by by apply rb_root_color in Hrb0.
    eapply wp_mono; [by eapply (wp_erase_succ_child rt h k c l n cr rp rr)|]. intros reb s'.
    rewrite inorder_fill. simpl. rewrite <- !app_assoc. done.
  - destruct (leftmost_split rl Hrl) as (k1 & cs & s & sr & -> & Hleft).
    destruct (rb_unfill (k1 ++ FL cr rp rr :: FR c l n :: k) (T cs E s sr))
      as (c0 & n0 & Hrb0 & Hrk0 & _); [by rewrite fill_app|].
    assert (c0 = cs) as -> by by apply rb_root_color in Hrb0.
    eapply wp_mono; [eapply (wp_erase_succ_deep rt h k c l n cr rp rr k1 cs s sr n0); try done|].
    + eapply NoDup_Permutation_proper; [|exact Hnd]. rewrite ctx_locs_app. simpl.
      rewrite locs_fill. simpl. solve_Permutation.
    + intros reb s'. rewrite !fill_app. simpl. rewrite !inorder_fill. simpl.
      rewrite !inorder_fill. simpl. rewrite <- !app_assoc. simpl. rewrite <- !app_assoc.
      rewrite (ctx_pre_left k1) by done. by simpl.
Qed.

(** Erasing the node [n] removes it from the sequence. *)
Lemma wp_hev_rbtree_erase rt h k c l n r :
  tree_repr (mk_state rt h) (fill k (T c l n r)) -> is_rb (fill k (T c l n r)) ->
  NoDup (inorder (fill k (T c l n r))) ->
  wp (hev_rbtree_erase n) (mk_state rt h) (fun _ s' => exists t', tree_repr s' t'
    ∧ inorder t' = (ctx_pre k ++ inorder l) ++ inorder r ++ ctx_post k ∧ is_rb t').
Proof.
  intros [Hrt Hr] Hrb Hnd. destruct (repr_fill _ _ _ _ Hrt Hr) as [Hk Ht].
  destruct (rb_unfill _ _ Hrb) as (c0 & m & Hrb0 & Hrk & Hc).
  assert (c0 = c) as -> by by apply rb_root_color in Hrb0.
  apply wp_bind. eapply wp_mono; [eapply wp_unlink; try done|].
  { by rewrite <- locs_fill. }
  intros reb [rt' h']. rewrite <- !app_assoc. destruct reb as [p|]; [|done].
  intros (k' & m' & Hpre & Hne & Hp & Hin). unfold _hev_rbtree_erase_color.
  apply wp_bind, wp_heap_fuel. rewrite Hp.
  eapply wp_mono; [eapply (erase_color_loop_ok _ _ _ _ _ _ Hpre); [done|]|].
  - destruct Hpre as [Hk' _ Hnd' _ _]. apply Nat.lt_succ_r. eapply ctx_fuel; [exact Hk'|exact Hnd'].
  - intros _ s' (t' & Ht' & Hin' & Hrb'). exists t'. by rewrite Hin', Hin.
Qed.

End HevRBTreeRemove.
