(* ===== verification/HevRBTreeFrame.v ===== *)
(** * The tree operations neither allocate nor free

    [keeps m]: running [m] leaves the set of allocated nodes as it was. *)

From S2P Require Import Prelude HevRBTree.

Module HevRBTreeFrame.
Import HevRBTree.

Definition keeps {A} (m : M state A) : Prop :=
  forall s a s', m s = Some (a, s') -> dom (nodes s') = dom (nodes s).

Create HintDb keeps.

Section Keeps.
Context {A B : Type}.

Lemma keeps_ret (a : A) : keeps (mret a).
Proof. intros s a' s' [= <- <-]. done. Qed.

Lemma keeps_fail : keeps (mfail : M state A).
Proof. by intros s a' s'. Qed.

Lemma keeps_get (f : state -> option A) : keeps (mget f).
Proof. unfold keeps, mget. intros s a' s'. by case_match; intros [= <- <-]. Qed.

Lemma keeps_bind (m : M state A) (f : A -> M state B) :
  keeps m -> (forall a, keeps (f a)) -> keeps (m ≫= f).
Proof.
  unfold mbind, M_bind. intros Hm Hf s b s'. destruct (m s) as [[a s1]|] eqn:Hs; [|done].
  intros Hb. rewrite (Hf _ _ _ _ Hb). by eapply Hm.
Qed.

Lemma keeps_fmap (g : A -> B) (m : M state A) : keeps m -> keeps (g <$> m).
Proof.
  unfold fmap, M_fmap. intros Hm s b s'. destruct (m s) as [[a s1]|] eqn:Hs; [|done].
  intros [= <- <-]. by eapply Hm.
Qed.
End Keeps.

Lemma keeps_store p f : keeps (store p f).
Proof.
  unfold keeps, store, mput. intros s [] s'. destruct p as [l|]; simpl; [|done].
  destruct (nodes s !! l) eqn:Hl; simpl; [|done]. intros [= <-]. simpl.
  rewrite dom_insert_L. assert (l ∈ dom (nodes s)) by (apply elem_of_dom; by eexists). set_solver.
Qed.

Lemma keeps_set_root p : keeps (set_root p).
Proof. intros s [] s' [= <-]. done. Qed.

#[export] Hint Resolve keeps_ret keeps_fail keeps_get keeps_store keeps_set_root : keeps.

Ltac keeps :=
  repeat first
    [ solve [eauto with keeps]
    | apply keeps_bind; [|intros ?]
    | apply keeps_fmap
    | progress intros
    | case_match ].

Lemma keeps_get_left p : keeps (get_left p).
Proof. unfold get_left, load. keeps. Qed.
Lemma keeps_get_right p : keeps (get_right p).
Proof. unfold get_right, load. keeps. Qed.
Lemma keeps_get_pc p : keeps (get_pc p).
Proof. unfold get_pc, load. keeps. Qed.
#[export] Hint Resolve keeps_get_left keeps_get_right keeps_get_pc : keeps.

Lemma keeps_color p : keeps (hev_rbtree_node_color p).
Proof. unfold hev_rbtree_node_color. keeps. Qed.
#[export] Hint Resolve keeps_color : keeps.

Lemma keeps_is_red p : keeps (hev_rbtree_node_is_red p).
Proof. unfold hev_rbtree_node_is_red. keeps. Qed.
Lemma keeps_is_black p : keeps (hev_rbtree_node_is_black p).
Proof. unfold hev_rbtree_node_is_black. keeps. Qed.
Lemma keeps_parent p : keeps (hev_rbtree_node_parent p).
Proof. unfold hev_rbtree_node_parent. keeps. Qed.
Lemma keeps_red_parent p : keeps (hev_rbtree_node_red_parent p).
Proof. unfold hev_rbtree_node_red_parent. keeps. Qed.
Lemma keeps_set_black p : keeps (hev_rbtree_node_set_black p).
Proof. unfold hev_rbtree_node_set_black. keeps. Qed.
Lemma keeps_set_parent p q : keeps (hev_rbtree_node_set_parent p q).
Proof. unfold hev_rbtree_node_set_parent. keeps. Qed.
Lemma keeps_set_parent_color p q c : keeps (hev_rbtree_node_set_parent_color p q c).
Proof. unfold hev_rbtree_node_set_parent_color. keeps. Qed.
Lemma keeps_if_set p m : keeps m -> keeps (if_set p m).
Proof. unfold if_set. intros. keeps. Qed.
Lemma keeps_change_child o n p : keeps (hev_rbtree_change_child o n p).
Proof. unfold hev_rbtree_change_child. keeps. Qed.
#[export] Hint Resolve keeps_is_red keeps_is_black keeps_parent keeps_red_parent keeps_set_black
  keeps_set_parent keeps_set_parent_color keeps_if_set keeps_change_child : keeps.

Lemma keeps_rotate o n c : keeps (hev_rbtree_rotate_set_parents o n c).
Proof. unfold hev_rbtree_rotate_set_parents. keeps. Qed.
Lemma keeps_set_and_red p : keeps (set_and_red p).
Proof. unfold set_and_red. keeps. Qed.
Lemma keeps_null_or_black p : keeps (null_or_black p).
Proof. unfold null_or_black. keeps. Qed.
Lemma keeps_heap_fuel : keeps heap_fuel.
Proof. unfold heap_fuel. keeps. Qed.
#[export] Hint Resolve keeps_rotate keeps_set_and_red keeps_null_or_black keeps_heap_fuel : keeps.

Lemma keeps_insert_color_loop fuel : forall n p, keeps (insert_color_loop fuel n p).
Proof. induction fuel as [|fuel IH]; intros n p; cbn [insert_color_loop]; keeps. Qed.
#[export] Hint Resolve keeps_insert_color_loop : keeps.

Lemma keeps_find_successor fuel : forall s t, keeps (find_successor fuel s t).
Proof. induction fuel as [|fuel IH]; intros s t; cbn [find_successor]; keeps. Qed.
#[export] Hint Resolve keeps_find_successor : keeps.

Lemma keeps_erase_fix_left rec p s :
  (forall a b, keeps (rec a b)) -> keeps (erase_fix_left rec p s).
Proof. intros Hrec. unfold erase_fix_left. keeps. Qed.
Lemma keeps_erase_fix_right rec p s :
  (forall a b, keeps (rec a b)) -> keeps (erase_fix_right rec p s).
Proof. intros Hrec. unfold erase_fix_right. keeps. Qed.
#[export] Hint Resolve keeps_erase_fix_left keeps_erase_fix_right : keeps.

Lemma keeps_erase_color_loop fuel : forall n p, keeps (erase_color_loop fuel n p).
Proof. induction fuel as [|fuel IH]; intros n p; cbn [erase_color_loop]; keeps. Qed.
#[export] Hint Resolve keeps_erase_color_loop : keeps.

Lemma keeps_unlink n : keeps (_hev_rbtree_erase n).
Proof. unfold _hev_rbtree_erase. keeps. Qed.
#[export] Hint Resolve keeps_unlink : keeps.

Lemma keeps_erase n : keeps (hev_rbtree_erase n).
Proof. unfold hev_rbtree_erase, _hev_rbtree_erase_color. keeps. Qed.

Lemma keeps_node_link n p k : keeps (hev_rbtree_node_link n p k).
Proof. unfold hev_rbtree_node_link, write_link. keeps. Qed.

Lemma keeps_insert_color n : keeps (hev_rbtree_insert_color n).
Proof. unfold hev_rbtree_insert_color. keeps. Qed.
#[export] Hint Resolve keeps_erase keeps_node_link keeps_insert_color : keeps.

(** With the contract of an operation. *)
Lemma wp_keeps {A} (m : M state A) s Q :
  keeps m -> wp m s Q -> wp m s (fun a s' => Q a s' ∧ dom (nodes s') = dom (nodes s)).
Proof.
  unfold wp. intros Hm. destruct (m s) as [[a s']|] eqn:Hs; [|done]. intros HQ.
  split; [done | by eapply Hm].
Qed.

End HevRBTreeFrame.
