(* ===== verification/HevRBTreeSpec.v ===== *)
(** * The contract of the red-black tree

    A tree holds a duplicate-free sequence of nodes ([rb_repr]); the operations are
    specified on that sequence. *)

From stdpp Require Import sorting.
From S2P Require Import Prelude HevRBTree HevRBTreeProofs HevRBTreeInsert HevRBTreeErase HevRBTreeRemove HevRBTreeFrame.

Module HevRBTreeSpec.
Import HevRBTree HevRBTreeProofs HevRBTreeInsert HevRBTreeErase HevRBTreeRemove
  HevRBTreeFrame.

Definition rb_repr (s : state) (l : list loc) : Prop :=
  exists t, tree_repr s t ∧ inorder t = l ∧ is_rb t ∧ NoDup l.

(** A position where a new node can be linked: [l1] is to its left, [l2] to its right. *)
Definition ctx_link (k : ctx) : link :=
  match k with [] => link_root | FL _ p _ :: _ => link_left p | FR _ _ p :: _ => link_right p end.

Definition rb_gap (s : state) (l1 l2 : list loc) (pl : ptr * link) : Prop :=
  exists k, tree_repr s (fill k E) ∧ is_rb (fill k E) ∧ NoDup (l1 ++ l2)
    ∧ ctx_pre k = l1 ∧ ctx_post k = l2 ∧ pl = (ctx_parent k, ctx_link k).

Lemma rb_repr_empty : rb_repr empty_tree [].
Proof. exists E. split_and!; [done | done | by exists 0%nat; constructor | constructor]. Qed.

Lemma rb_repr_lookup s l x : rb_repr s l -> x ∈ l -> is_Some (nodes s !! x).
Proof. intros (t & [_ Ht] & <- & _) Hx. by eapply repr_lookup. Qed.

Lemma rb_gap_repr s l1 l2 pl : rb_gap s l1 l2 pl -> rb_repr s (l1 ++ l2).
Proof.
  intros (k & Ht & Hrb & Hnd & <- & <- & _). exists (fill k E). by rewrite inorder_fill.
Qed.

(** Memory that is not in the tree does not matter. *)
Lemma tree_repr_agree s s' t :
  root s' = root s -> (forall x, x ∈ inorder t -> nodes s' !! x = nodes s !! x) ->
  tree_repr s t -> tree_repr s' t.
Proof. intros Hr Ha [H1 H2]. split; [by rewrite Hr | by eapply repr_agree]. Qed.

Lemma rb_repr_agree s s' l :
  root s' = root s -> (forall x, x ∈ l -> nodes s' !! x = nodes s !! x) ->
  rb_repr s l -> rb_repr s' l.
Proof.
  intros Hr Ha (t & Ht & <- & Hrest). exists t. split; [by eapply tree_repr_agree | done].
Qed.

Lemma rb_gap_agree s s' l1 l2 pl :
  root s' = root s -> (forall x, x ∈ l1 ++ l2 -> nodes s' !! x = nodes s !! x) ->
  rb_gap s l1 l2 pl -> rb_gap s' l1 l2 pl.
Proof.
  intros Hr Ha (k & Ht & Hrb & Hnd & <- & <- & ->). exists k. split_and!; try done.
  eapply tree_repr_agree; [done| |done]. intros x Hx. apply Ha. by rewrite inorder_fill in Hx.
Qed.

Lemma wp_alloc_node s l1 l2 pl x :
  nodes s !! x = None -> rb_gap s l1 l2 pl ->
  wp (alloc_node x) s (fun _ s' => rb_gap s' l1 l2 pl
    ∧ nodes s' = <[x := mk_node 0 None None]> (nodes s) ∧ x ∉ l1 ++ l2).
Proof.
  intros Hx Hl. assert (x ∉ l1 ++ l2) as Hnx.
  { intros Hin. destruct (rb_repr_lookup _ _ _ (rb_gap_repr _ _ _ _ Hl) Hin) as [? ?]. congruence. }
  eapply wp_put; [by rewrite Hx|]. split_and!; [|done|done].
  apply (rb_gap_agree s); [done| |done]. intros y Hy. apply lookup_insert_ne. by intros ->.
Qed.

Lemma wp_free_node s l x :
  is_Some (nodes s !! x) -> x ∉ l -> rb_repr s l ->
  wp (free_node x) s (fun _ s' => rb_repr s' l ∧ nodes s' = delete x (nodes s)).
Proof.
  intros [n Hx] Hnx Hl. eapply wp_put; [by rewrite Hx|]. split; [|done].
  apply (rb_repr_agree s); [done| |done]. intros y Hy. apply lookup_delete_ne. by intros ->.
Qed.

(** ** Search *)

(** [cmp] places the sought position: nodes before it compare positive, nodes after it
    negative. *)
Definition cmp_sorted (c : loc -> Z) (l : list loc) : Prop :=
  StronglySorted (fun x y => c x <= 0 -> c y < 0) l.

Definition search_post (s : state) (l : list loc) (c : loc -> Z)
  (r : loc + ptr * link) (s' : state) : Prop :=
  s' = s ∧
  match r with
  | inl x => x ∈ l ∧ c x = 0
  | inr pl => exists l1 l2, l = l1 ++ l2 ∧ rb_gap s l1 l2 pl
      ∧ Forall (fun x => 0 < c x) l1 ∧ Forall (fun x => c x < 0) l2
  end.

Lemma cmp_sorted_app c l1 l2 :
  cmp_sorted c (l1 ++ l2) ->
  cmp_sorted c l2 ∧ forall x y, x ∈ l1 -> y ∈ l2 -> c x <= 0 -> c y < 0.
Proof.
  unfold cmp_sorted. induction l1 as [|z l1 IH]; simpl.
  - intros H. split; [done|]. by intros x y ?%elem_of_nil.
  - intros [H Hz]%StronglySorted_inv. destruct (IH H) as [H1 H2]. split; [done|].
    intros x y [->|Hx]%elem_of_cons Hy; [|by apply H2].
    eapply Forall_forall in Hz; [exact Hz|]. set_solver.
Qed.

Fixpoint height (t : tree) : nat :=
  match t with E => 0 | T _ l _ r => S (Nat.max (height l) (height r)) end.

Lemma height_le_length t : (height t <= length (inorder t))%nat.
Proof. induction t; simpl; [lia|]. rewrite length_app. simpl. lia. Qed.

(** A red-black tree is balanced. *)
Lemma rb_size c n t : rb c n t -> (2 ^ n <= length (inorder t) + 1)%nat.
Proof.
  induction 1 as [|n l p r _ IHl _ IHr|n cl cr l p r _ IHl _ IHr]; simpl;
    rewrite ?length_app; simpl; lia.
Qed.

Lemma rb_height c n t : rb c n t -> (height t <= 2 * n + match c with Red => 1 | Black => 0 end)%nat.
Proof.
  induction 1 as [|n l p r _ IHl _ IHr|n cl cr l p r _ IHl _ IHr]; simpl; [lia|lia|].
  destruct cl, cr; lia.
Qed.

Lemma is_rb_height t : is_rb t -> (height t <= 2 * Nat.log2 (length (inorder t) + 1))%nat.
Proof.
  intros [n Hn]. pose proof (rb_height _ _ _ Hn) as Hh. cbn in Hh. pose proof (rb_size _ _ _ Hn) as Hs.
  apply Nat.log2_le_mono in Hs. rewrite Nat.log2_pow2 in Hs by lia. lia.
Qed.

Lemma wp_descend cmp c rt h t0 : forall t k fuel,
  let s := mk_state rt h in
  fill k t = t0 -> tree_repr s t0 -> is_rb t0 -> NoDup (inorder t0) ->
  (forall x, x ∈ inorder t0 -> cmp x = Some (c x)) -> cmp_sorted c (inorder t0) ->
  Forall (fun x => 0 < c x) (ctx_pre k) -> Forall (fun x => c x < 0) (ctx_post k) ->
  (height t < fuel)%nat ->
  wp (descend cmp fuel (ctx_link k) (ctx_parent k)) s (search_post s (inorder t0) c).
Proof.
  induction t as [|ct l IHl p r IHr]; intros k fuel s He Ht Hrb Hnd Hc Hs Hpre Hpost Hf;
    subst t0; (destruct fuel as [|fuel]; [simpl in Hf; lia|]);
    destruct (repr_fill _ _ k _ (proj1 Ht) (proj2 Ht)) as [Hk Hr]; simpl in Hk.
  - cbn [descend]. apply wp_bind. subst s.
    assert (wp (read_link (ctx_link k)) (mk_state rt h) (fun a s' => a = None ∧ s' = mk_state rt h))
      as Hl.
    { destruct k as [|[]]; simpl in *; [done|..]; destruct Hk as (Hp & _); by rb_run. }
    eapply wp_mono; [exact Hl|]. intros a s' [-> ->]. apply wp_ret. split; [done|].
    rewrite inorder_fill. exists (ctx_pre k), (ctx_post k). split_and!; [done| |done|done].
    exists k. rewrite inorder_fill in Hnd. done.
  - cbn [descend]. apply wp_bind. subst s.
    assert (wp (read_link (ctx_link k)) (mk_state rt h)
              (fun a s' => a = Some p ∧ s' = mk_state rt h)) as Hl.
    { destruct k as [|[]]; simpl in *; [done|..]; destruct Hk as (Hp & _); by rb_run. }
    eapply wp_mono; [exact Hl|]. intros a s' [-> ->]. cbn beta iota.
    assert (p ∈ inorder (fill k (T ct l p r))) as Hin
      by (rewrite inorder_fill; simpl; set_solver).
    apply wp_bind. eapply wp_get; [by apply Hc|].
    pose proof Hs as Hs'. rewrite inorder_fill in Hs'. simpl in Hs'.
    rewrite <- !app_assoc in Hs'. simpl in Hs'.
    apply cmp_sorted_app in Hs' as [Hs' _]. apply cmp_sorted_app in Hs' as [Hs' Hl'].
    apply StronglySorted_inv in Hs' as [_ Hr']. simpl in Hf.
    repeat case_decide.
    + apply (IHl (FL ct p r :: k)); try done; [|simpl; lia]. simpl.
      apply Forall_cons. split; [done|]. apply Forall_app. split; [|done].
      eapply Forall_impl; [apply Forall_app in Hr' as [Hr' _]; exact Hr'|]. simpl. intros x Hx.
      apply Hx. lia.
    + apply (IHr (FR ct l p :: k)); try done; [|simpl; lia]. simpl.
      apply Forall_app. split; [done|]. apply Forall_app. split; [|apply Forall_singleton; lia].
      apply Forall_forall. intros x Hx.
      destruct (decide (0 < c x)); [done|]. specialize (Hl' x p Hx). set_solver by lia.
    + apply wp_ret. split; [done|]. split; [done | lia].
Qed.

Lemma wp_search cmp c s l :
  rb_repr s l -> (forall x, x ∈ l -> cmp x = Some (c x)) -> cmp_sorted c l ->
  wp (search cmp) s (search_post s l c).
Proof.
  destruct s as [rt h]. intros (t & Ht & <- & Hrb & Hnd) Hc Hs.
  apply wp_bind, wp_heap_fuel.
  apply (wp_descend cmp c rt h t t []); try done; [by constructor..|].
  apply Nat.lt_succ_r. etrans; [apply height_le_length|]. apply heap_bound; [done|]. intros x Hx. destruct Ht as [_ Ht].
  by eapply repr_lookup.
Qed.

(** ** Insertion *)

Lemma rb_unfill_leaf k : is_rb (fill k E) -> rb_ctx k 0.
Proof. intros (c & n & Hn & Hk & _)%rb_unfill. by inversion Hn; subst. Qed.

Lemma wp_node_link rt h k n (Q : unit -> state -> Prop) :
  repr_ctx h rt k None -> is_Some (h !! n) -> n ∉ ctx_locs k -> NoDup (ctx_locs k) ->
  (forall rt' h', repr_ctx h' rt' k (Some n) ->
     h' !! n = Some (mk_node (pcv (ctx_parent k) Red) None None) -> Q tt (mk_state rt' h')) ->
  wp (hev_rbtree_node_link n (ctx_parent k) (ctx_link k)) (mk_state rt h) Q.
Proof.
  intros Hk [nd Hn] Hnk Hnd HQ. unfold hev_rbtree_node_link. rb_run. rewrite pcv_red.
  destruct k as [|[c p t|c t p] k]; simpl in *.
  - apply wp_set_root, HQ; [done | by rb_lk].
  - destruct Hk as (Hp & Ht & Hk). apply not_elem_of_cons in Hnk as [? [? ?]%not_elem_of_app]. nd_split Hnd. rb_run.
    apply HQ; simpl; [by rb_repr | by rb_lk].
  - destruct Hk as (Hp & Ht & Hk). apply not_elem_of_cons in Hnk as [? [? ?]%not_elem_of_app]. nd_split Hnd. rb_run.
    apply HQ; simpl; [by rb_repr | by rb_lk].
Qed.

Definition insert_at (n : loc) (pl : ptr * link) : M state unit :=
  hev_rbtree_node_link n (fst pl) (snd pl);; hev_rbtree_insert_color n.

Lemma wp_insert_at s l1 l2 pl n :
  rb_gap s l1 l2 pl -> is_Some (nodes s !! n) -> n ∉ l1 ++ l2 ->
  wp (insert_at n pl) s (fun _ s' => rb_repr s' (l1 ++ n :: l2) ∧ dom (nodes s') = dom (nodes s)).
Proof.
  intros Hg Hn Hnl. apply wp_keeps; [unfold insert_at; keeps|]. revert Hg Hn Hnl.
  destruct s as [rt h]. intros (k & [Hrt Hr] & Hrb & Hnd & <- & <- & ->) Hn Hnl.
  destruct (repr_fill _ _ k E Hrt Hr) as [Hk _]. rewrite <- ctx_locs_perm in Hnd.
  rewrite <- ctx_locs_perm in Hnl. apply wp_bind. apply wp_node_link; [done..|].
  intros rt' h' Hk' Hn'. apply wp_bind. eapply wp_red_parent; [done|].
  apply wp_bind, wp_heap_fuel.
  eapply wp_mono; [eapply (insert_color_loop_ok _ _ _ k E n E 0)|].
  - split; simpl; [done | done | by constructor | constructor | constructor |].
    by apply rb_unfill_leaf.
  - apply Nat.lt_succ_r. by eapply ctx_fuel.
  - intros _ s' (t' & Ht' & Hin & Hrb'). exists t'. rewrite Hin, inorder_fill. simpl.
    split_and!; [done | done | done |].
    eapply (NoDup_Permutation_proper _ (n :: ctx_locs k)); [|by apply NoDup_cons].
    rewrite ctx_locs_perm. solve_Permutation.
Qed.

(** ** Erasure *)

Lemma NoDup_split_unique {A} (a b c d : list A) x :
  NoDup (a ++ x :: b) -> a ++ x :: b = c ++ x :: d -> a = c ∧ b = d.
Proof.
  revert c. induction a as [|y a IH]; intros [|z c] Hnd He; simpl in *.
  - by injection He as <-.
  - injection He as <- ->. apply NoDup_cons in Hnd as [Hx _]. set_solver.
  - injection He as -> <-. apply NoDup_cons in Hnd as [Hx _]. set_solver.
  - injection He as <- He. apply NoDup_cons in Hnd as [_ Hnd].
    destruct (IH _ Hnd He) as [-> ->]. done.
Qed.

Lemma wp_erase s l1 n l2 :
  rb_repr s (l1 ++ n :: l2) ->
  wp (hev_rbtree_erase n) s (fun _ s' => rb_repr s' (l1 ++ l2) ∧ dom (nodes s') = dom (nodes s)).
Proof.
  intros Hs. apply wp_keeps; [apply keeps_erase|]. revert Hs.
  destruct s as [rt h]. intros (t & Ht & Hin & Hrb & Hnd).
  destruct (zoom_in n t []) as (k & c & l & r & He); [rewrite Hin; set_solver|].
  simpl in He. subst t. rewrite inorder_fill in Hin. simpl in Hin.
  assert (ctx_pre k ++ (inorder l ++ n :: inorder r) ++ ctx_post k
          = (ctx_pre k ++ inorder l) ++ n :: inorder r ++ ctx_post k) as He
    by (rewrite <- !app_assoc; done).
  rewrite He in Hin. rewrite <- Hin in Hnd.
  destruct (NoDup_split_unique _ _ _ _ _ Hnd Hin) as [<- <-].
  eapply wp_mono; [eapply wp_hev_rbtree_erase; try done|].
  - rewrite inorder_fill. simpl. by rewrite He.
  - intros _ s' (t' & Ht' & Hin' & Hrb'). exists t'. split_and!; [done..|].
    by apply NoDup_middle in Hnd as (_ & _ & ?).
Qed.

(** ** Traversal *)

Lemma wp_leftmost t : forall fuel rt h par p,
  repr h par t -> root_ptr t = Some p -> (length (inorder t) <= fuel)%nat ->
  wp (leftmost fuel (Some p)) (mk_state rt h)
    (fun r s' => s' = mk_state rt h ∧ r = head (inorder t)).
Proof.
  induction t as [|c l IHl q r _]; intros fuel rt h par p Ht Hp Hf; [done|].
  simpl in Hp. injection Hp as ->. destruct Ht as (Hp & Hl & _). simpl in Hf.
  rewrite length_app in Hf. simpl in Hf. destruct fuel as [|fuel]; [lia|].
  cbn [leftmost]. rb_run. destruct l as [|cl ll lp lr]; simpl root_ptr in *; cbn match.
  - by apply wp_ret.
  - eapply wp_mono; [by eapply IHl; [| |simpl in *; lia]|]. intros x s' [-> ->].
    split; [done|]. simpl. by destruct (inorder ll).
Qed.

Lemma wp_rightmost t : forall fuel rt h par p,
  repr h par t -> root_ptr t = Some p -> (length (inorder t) <= fuel)%nat ->
  wp (rightmost fuel (Some p)) (mk_state rt h)
    (fun r s' => s' = mk_state rt h ∧ r = last (inorder t)).
Proof.
  induction t as [|c l _ q r IHr]; intros fuel rt h par p Ht Hp Hf; [done|].
  simpl in Hp. injection Hp as ->. destruct Ht as (Hp & _ & Hr). simpl in Hf.
  rewrite length_app in Hf. simpl in Hf. destruct fuel as [|fuel]; [lia|].
  cbn [rightmost]. rb_run. destruct r as [|cr rl rp rr]; simpl root_ptr in *; cbn match.
  - apply wp_ret. split; [done|]. simpl. by rewrite last_snoc.
  - eapply wp_mono; [by eapply IHr; [| |simpl in *; lia]|]. intros x s' [-> ->].
    split; [done|]. cbn [inorder].
    rewrite !last_app, !last_cons, last_app, last_cons. by destruct (last (inorder rr)).
Qed.

Lemma repr_bound h par t : repr h par t -> NoDup (inorder t) -> (length (inorder t) <= size h)%nat.
Proof. intros Ht Hnd. apply heap_bound; [done|]. intros x. by eapply repr_lookup. Qed.

Lemma wp_rb_first s l :
  rb_repr s l -> wp hev_rbtree_first s (fun r s' => s' = s ∧ r = head l).
Proof.
  destruct s as [rt h]. intros (t & [Hrt Ht] & <- & _ & Hnd). simpl in Hrt, Ht. subst rt.
  unfold hev_rbtree_first. apply wp_bind, wp_get_root.
  destruct t as [|c tl p tr] eqn:Hteq; [by apply wp_ret|].
  rewrite <- Hteq in *. assert (root_ptr t = Some p) as Hp by by subst t. rewrite Hp.
  apply wp_bind, wp_heap_fuel. eapply wp_leftmost; [done | done |].
  pose proof (repr_bound _ _ _ Ht Hnd). lia.
Qed.

Lemma wp_rb_last s l :
  rb_repr s l -> wp hev_rbtree_last s (fun r s' => s' = s ∧ r = last l).
Proof.
  destruct s as [rt h]. intros (t & [Hrt Ht] & <- & _ & Hnd). simpl in Hrt, Ht. subst rt.
  unfold hev_rbtree_last. apply wp_bind, wp_get_root.
  destruct t as [|c tl p tr] eqn:Hteq; [by apply wp_ret|].
  rewrite <- Hteq in *. assert (root_ptr t = Some p) as Hp by by subst t. rewrite Hp.
  apply wp_bind, wp_heap_fuel. eapply wp_rightmost; [done | done |].
  pose proof (repr_bound _ _ _ Ht Hnd). lia.
Qed.

(** Climbing out of a context: to the first ancestor the cursor lies left of. *)
Lemma wp_climb_right k : forall fuel rt h n nd c,
  repr_ctx h rt k (Some n) -> n ∉ ctx_locs k -> NoDup (ctx_locs k) ->
  h !! n = Some nd -> parent_color nd = pcv (ctx_parent k) c -> (length k < fuel)%nat ->
  wp (climb get_right fuel (Some n)) (mk_state rt h)
    (fun r s' => s' = mk_state rt h ∧ r = head (ctx_post k)).
Proof.
  induction k as [|f k IH]; intros fuel rt h n nd c Hk Hn Hnd Hl Hpc Hf;
    (destruct fuel as [|fuel]; [simpl in Hf; lia|]); destruct nd as [pc nr nl]; simpl in Hpc; subst pc;
    cbn [climb]; apply wp_bind; (eapply wp_parent; [exact Hl|]); simpl ctx_parent; cbn match.
  - by apply wp_ret.
  - destruct f as [c' p t|c' t p]; destruct Hk as (Hp & Ht & Hk); simpl in Hnd, Hn;
      apply not_elem_of_cons in Hn as [Hnp [Hnt Hnk]%not_elem_of_app];
      apply NoDup_cons in Hnd as [[Hpt Hpk]%not_elem_of_app Hnd]; simpl frame_loc.
    + rb_run. done.
    + rb_run. eapply IH; try done; [by apply NoDup_app in Hnd as (_ & _ & ?) | simpl in Hf; lia].
Qed.

Lemma wp_climb_left k : forall fuel rt h n nd c,
  repr_ctx h rt k (Some n) -> n ∉ ctx_locs k -> NoDup (ctx_locs k) ->
  h !! n = Some nd -> parent_color nd = pcv (ctx_parent k) c -> (length k < fuel)%nat ->
  wp (climb get_left fuel (Some n)) (mk_state rt h)
    (fun r s' => s' = mk_state rt h ∧ r = last (ctx_pre k)).
Proof.
  induction k as [|f k IH]; intros fuel rt h n nd c Hk Hn Hnd Hl Hpc Hf;
    (destruct fuel as [|fuel]; [simpl in Hf; lia|]); destruct nd as [pc nr nl]; simpl in Hpc; subst pc;
    cbn [climb]; apply wp_bind; (eapply wp_parent; [exact Hl|]); simpl ctx_parent; cbn match.
  - by apply wp_ret.
  - destruct f as [c' p t|c' t p]; destruct Hk as (Hp & Ht & Hk); simpl in Hnd, Hn;
      apply not_elem_of_cons in Hn as [Hnp [Hnt Hnk]%not_elem_of_app];
      apply NoDup_cons in Hnd as [[Hpt Hpk]%not_elem_of_app Hnd]; simpl frame_loc.
    + rb_run. eapply IH; try done; [by apply NoDup_app in Hnd as (_ & _ & ?) | simpl in Hf; lia].
    + rb_run. split; [done|]. rewrite app_assoc. by rewrite last_snoc.
Qed.

(** A node of a tree is never its own parent, so it is not taken for an unlinked one. *)
Lemma wp_not_empty rt h k n c r l (Q : bool -> state -> Prop) :
  h !! n = Some (mk_node (pcv (ctx_parent k) c) r l) -> n ∉ ctx_locs k ->
  Q false (mk_state rt h) -> wp (hev_rbtree_node_empty n) (mk_state rt h) Q.
Proof.
  intros Hn Hnk HQ. apply wp_bind. eapply wp_get_pc; [done|]. apply wp_ret. cbn [parent_color].
  rewrite bool_decide_eq_false_2; [done|]. rewrite pcv_red. intros He.
  apply (f_equal _hev_rbtree_node_parent) in He. rewrite !pcv_parent in He.
  destruct k as [|f k]; [done|]. simpl in He. injection He as He. apply Hnk.
  rewrite <- He. destruct f; simpl; set_solver.
Qed.

Lemma node_zoom s l1 n l2 :
  rb_repr s (l1 ++ n :: l2) ->
  exists k c l r, repr_ctx (nodes s) (root s) k (Some n)
    ∧ repr (nodes s) (ctx_parent k) (T c l n r)
    ∧ NoDup (inorder (T c l n r)) ∧ NoDup (ctx_locs k) ∧ n ∉ ctx_locs k
    ∧ l1 = ctx_pre k ++ inorder l ∧ l2 = inorder r ++ ctx_post k.
Proof.
  intros (t & [Hrt Hr] & Hin & Hrb & Hnd).
  destruct (zoom_in n t []) as (k & c & l & r & He); [rewrite Hin; set_solver|].
  simpl in He. subst t. destruct (repr_fill _ _ _ _ Hrt Hr) as [Hk Ht].
  exists k, c, l, r. rewrite inorder_fill in Hin. simpl in Hin.
  assert (l1 ++ n :: l2 = (ctx_pre k ++ inorder l) ++ n :: inorder r ++ ctx_post k) as He
    by (rewrite <- Hin, <- !app_assoc; done).
  destruct (NoDup_split_unique _ _ _ _ _ Hnd He) as [-> ->].
  assert (NoDup (inorder (T c l n r) ++ ctx_locs k)) as Hnd'.
  { eapply NoDup_Permutation_proper; [|exact Hnd]. simpl. rewrite ctx_locs_perm. solve_Permutation. }
  apply NoDup_app in Hnd' as (H1 & H2 & H3).
  split_and!; try done. apply H2. simpl. set_solver.
Qed.

Lemma wp_rb_next s l1 n l2 :
  rb_repr s (l1 ++ n :: l2) -> wp (hev_rbtree_node_next n) s (fun r s' => s' = s ∧ r = head l2).
Proof.
  destruct s as [rt h]. intros Hs.
  destruct (node_zoom _ _ _ _ Hs) as (k & c & l & r & Hk & Ht & Hnd & Hndk & Hn & -> & ->).
  pose proof Ht as Ht'. destruct Ht as (Hnode & Hl & Hr). simpl in Hnode, Hl, Hr, Hk.
  unfold hev_rbtree_node_next. apply wp_bind. eapply wp_not_empty; [exact Hnode | done |].
  apply wp_bind, wp_heap_fuel, wp_bind. eapply wp_get_right; [exact Hnode|]. cbn [right].
  destruct r as [|cr rl rp rr] eqn:Hreq.
  - cbn [root_ptr]. eapply wp_climb_right; [exact Hk | done | done | exact Hnode | done |].
    apply Nat.lt_succ_r. by eapply ctx_fuel.
  - rewrite <- Hreq in *. replace (root_ptr r) with (Some rp) by by subst r. cbn match.
    eapply wp_mono; [eapply (wp_leftmost r); [exact Hr | by subst r |]|].
    + pose proof (repr_bound _ _ _ Ht' Hnd) as Hb. simpl in Hb. rewrite length_app in Hb.
      simpl in Hb. lia.
    + intros x s' [-> ->]. split; [done|]. subst r. simpl. by destruct (inorder rl).
Qed.

Lemma wp_rb_prev s l1 n l2 :
  rb_repr s (l1 ++ n :: l2) -> wp (hev_rbtree_node_prev n) s (fun r s' => s' = s ∧ r = last l1).
Proof.
  destruct s as [rt h]. intros Hs.
  destruct (node_zoom _ _ _ _ Hs) as (k & c & l & r & Hk & Ht & Hnd & Hndk & Hn & -> & ->).
  pose proof Ht as Ht'. destruct Ht as (Hnode & Hl & Hr). simpl in Hnode, Hl, Hr, Hk.
  unfold hev_rbtree_node_prev. apply wp_bind. eapply wp_not_empty; [exact Hnode | done |].
  apply wp_bind, wp_heap_fuel, wp_bind. eapply wp_get_left; [exact Hnode|]. cbn [left].
  destruct l as [|cl ll lp lr] eqn:Hleq.
  - cbn [root_ptr]. simpl inorder. rewrite app_nil_r.
    eapply wp_climb_left; [exact Hk | done | done | exact Hnode | done |].
    apply Nat.lt_succ_r. by eapply ctx_fuel.
  - rewrite <- Hleq in *. replace (root_ptr l) with (Some lp) by by subst l. cbn match.
    eapply wp_mono; [eapply (wp_rightmost l); [exact Hl | by subst l |]|].
    + pose proof (repr_bound _ _ _ Ht' Hnd) as Hb. simpl in Hb. rewrite length_app in Hb.
      simpl in Hb. lia.
    + intros x s' [-> ->]. split; [done|]. subst l. cbn [inorder].
      rewrite !last_app, !last_cons. by destruct (last (inorder lr)).
Qed.

(** ** Replacement *)

Lemma replace_repr l1 v l2 new k c l r s' :
  inorder (fill k (T c l v r)) = l1 ++ v :: l2 -> is_rb (fill k (T c l v r)) ->
  NoDup (l1 ++ v :: l2) -> new ∉ l1 ++ v :: l2 ->
  tree_repr s' (fill k (T c l new r)) -> rb_repr s' (l1 ++ new :: l2).
Proof.
  intros Hin Hrb Hnd Hnew Hs'. exists (fill k (T c l new r)).
  rewrite inorder_fill in Hin |- *. simpl in Hin |- *.
  assert (l1 ++ v :: l2 = (ctx_pre k ++ inorder l) ++ v :: inorder r ++ ctx_post k) as He
    by (rewrite <- Hin, <- !app_assoc; done).
  destruct (NoDup_split_unique _ _ _ _ _ Hnd He) as [-> ->].
  split_and!; [done | by rewrite <- !app_assoc | |].
  - destruct (rb_unfill _ _ Hrb) as (c0 & n & Hn & Hkn & Hc).
    eapply rb_fill; [|exact Hkn | exact Hc]. inversion Hn; subst; by econstructor.
  - apply NoDup_middle in Hnd as (_ & _ & Hnd). apply NoDup_middle. set_solver.
Qed.

Ltac replace_child :=
  eapply wp_change_child;
    [by repeat apply repr_ctx_insert | done | done |];
  intros ? ? ? ?; apply fill_repr; [done | simpl; by rb_repr].

Lemma wp_replace s l1 v l2 new :
  rb_repr s (l1 ++ v :: l2) -> is_Some (nodes s !! new) -> new ∉ l1 ++ v :: l2 ->
  wp (hev_rbtree_replace v new) s (fun _ s' => rb_repr s' (l1 ++ new :: l2)).
Proof.
  destruct s as [rt h]. intros Hs [nn Hnew] Hnl. pose proof Hs as (t0 & Ht0 & Hin & Hrb & Hnd0).
  destruct (zoom_in v t0 []) as (k & c & l & r & He); [rewrite Hin; set_solver|].
  simpl in He. subst t0. destruct Ht0 as [Hrt Hr].
  destruct (repr_fill _ _ _ _ Hrt Hr) as [Hk (Hv & Hl & Hrr)].
  assert (NoDup (new :: inorder (T c l v r) ++ ctx_locs k)) as Hnd.
  { rewrite <- locs_fill, Hin. by apply NoDup_cons. }
  apply wp_mono with (P := fun _ s' => tree_repr s' (fill k (T c l new r)));
    [|intros ? s'; by apply (replace_repr l1 v)]. clear Hin Hrb Hr Hs.
  destruct l as [|cl ll lp lr], r as [|cr rl rp rr]; simpl in Hv, Hl, Hrr; simpl in Hk;
    destruct_and?; nd_split Hnd; unfold hev_rbtree_replace; rb_run; replace_child.
Qed.

(** ** The properties of the tree *)

(** C38: inserting a node at the position a search found (hev_rbtree_node_link, then
    hev_rbtree_insert_color) is memory safe, terminates, keeps the tree a balanced
    red-black tree and puts the node between the smaller and the greater ones. *)
Theorem hev_rbtree_insert_ok s l cmp c n :
  rb_repr s l -> (forall x, x ∈ l -> cmp x = Some (c x)) -> cmp_sorted c l ->
  (forall x, x ∈ l -> c x ≠ 0) -> is_Some (nodes s !! n) -> n ∉ l ->
  exists pl s' l1 l2,
    search cmp s = Some (inr pl, s)
    ∧ (hev_rbtree_node_link n pl.1 pl.2;; hev_rbtree_insert_color n) s = Some (tt, s')
    ∧ l = l1 ++ l2 ∧ Forall (fun x => 0 < c x) l1 ∧ Forall (fun x => c x < 0) l2
    ∧ rb_repr s' (l1 ++ n :: l2).
Proof.
  intros Hs Hc Hsort Hne Hn Hnl. destruct (wp_elim _ _ _ (wp_search _ _ _ _ Hs Hc Hsort))
    as (r & s1 & He & -> & Hr). destruct r as [x|pl]; [destruct Hr as [Hx Hz]; by destruct (Hne x)|].
  destruct Hr as (l1 & l2 & -> & Hgap & H1 & H2).
  destruct (wp_elim _ _ _ (wp_insert_at _ _ _ _ _ Hgap Hn Hnl)) as ([] & s' & He' & Hs' & _).
  by exists pl, s', l1, l2.
Qed.

(** C5: hev_rbtree_erase is memory safe, terminates, keeps the tree a balanced red-black
    tree, removes exactly the node and neither allocates nor frees. *)
Theorem hev_rbtree_erase_ok s l1 n l2 :
  rb_repr s (l1 ++ n :: l2) ->
  exists s', hev_rbtree_erase n s = Some (tt, s') ∧ rb_repr s' (l1 ++ l2)
    ∧ dom (nodes s') = dom (nodes s).
Proof.
  intros Hs. destruct (wp_elim _ _ _ (wp_erase _ _ _ _ Hs)) as ([] & s' & ? & ?). by exists s'.
Qed.

(** Hev_rbtree_first, _last, _node_next and _node_prev walk the tree in order, in
    both directions, and stop at its ends. *)
Theorem hev_rbtree_traversal_ok s l :
  rb_repr s l ->
  hev_rbtree_first s = Some (head l, s) ∧ hev_rbtree_last s = Some (last l, s)
  ∧ forall l1 n l2, l = l1 ++ n :: l2 ->
      hev_rbtree_node_next n s = Some (head l2, s) ∧ hev_rbtree_node_prev n s = Some (last l1, s).
Proof.
  intros Hs. destruct (wp_elim _ _ _ (wp_rb_first _ _ Hs)) as (? & ? & -> & -> & ->).
  destruct (wp_elim _ _ _ (wp_rb_last _ _ Hs)) as (? & ? & -> & -> & ->).
  split_and!; [done..|]. intros l1 n l2 ->.
  destruct (wp_elim _ _ _ (wp_rb_next _ _ _ _ Hs)) as (? & ? & -> & -> & ->).
  by destruct (wp_elim _ _ _ (wp_rb_prev _ _ _ _ Hs)) as (? & ? & -> & -> & ->).
Qed.

(** Hev_rbtree_replace puts another node in the place of a node of the tree. *)
Theorem hev_rbtree_replace_ok s l1 v l2 new :
  rb_repr s (l1 ++ v :: l2) -> is_Some (nodes s !! new) -> new ∉ l1 ++ v :: l2 ->
  exists s', hev_rbtree_replace v new s = Some (tt, s') ∧ rb_repr s' (l1 ++ new :: l2).
Proof.
  intros Hs Hn Hnl. destruct (wp_elim _ _ _ (wp_replace _ _ _ _ _ Hs Hn Hnl)) as ([] & s' & ?).
  by exists s'.
Qed.

(** A search visits at most 2 log2 (n + 1) + 1 links of a tree of n nodes, and finds
    the node that compares equal, if there is one. *)
Theorem search_logarithmic s l cmp c :
  rb_repr s l -> (forall x, x ∈ l -> cmp x = Some (c x)) -> cmp_sorted c l ->
  exists r, descend cmp (2 * Nat.log2 (length l + 1) + 1) link_root None s = Some (r, s)
    ∧ match r with
      | inl x => x ∈ l ∧ c x = 0
      | inr _ => forall x, x ∈ l -> c x ≠ 0
      end.
Proof.
  destruct s as [rt h]. intros (t & Ht & <- & Hrb & Hnd) Hc Hs.
  destruct (wp_elim _ _ _ (wp_descend cmp c rt h t t [] (2 * Nat.log2 (length (inorder t) + 1) + 1)
    eq_refl Ht Hrb Hnd Hc Hs (Forall_nil_2 _) (Forall_nil_2 _)
    ltac:(pose proof (is_rb_height _ Hrb); lia))) as (r & s' & He & -> & Hr).
  exists r. split; [exact He|]. destruct r as [x|pl]; [done|].
  destruct Hr as (l1 & l2 & -> & _ & H1 & H2). rewrite Forall_forall in H1, H2.
  intros x [Hx|Hx]%elem_of_app; [specialize (H1 x Hx)|specialize (H2 x Hx)]; simpl in *; lia.
Qed.

(** ** Instances: a tree that holds node 1, with node 2 allocated *)

Definition example_tree : state :=
  mk_state (Some 1%positive)
    (<[2%positive := mk_node 0 None None]> {[1%positive := mk_node (pcv None Black) None None]}).
Definition example_cmp (x : loc) : Z := if decide (x = 1%positive) then 5 else 0.

Lemma example_repr : rb_repr example_tree [1%positive].
Proof.
  exists (T Black E 1%positive E). split_and!; [by split | done | | apply NoDup_singleton].
  exists 1%nat. by repeat econstructor.
Qed.

Lemma hev_rbtree_insert_ok_witness :
  exists pl s', search (Some ∘ example_cmp) example_tree = Some (inr pl, example_tree)
    ∧ (hev_rbtree_node_link 2 pl.1 pl.2;; hev_rbtree_insert_color 2) example_tree = Some (tt, s').
Proof.
  destruct (hev_rbtree_insert_ok example_tree [1%positive] (Some ∘ example_cmp) example_cmp 2)
    as (pl & s' & _ & _ & H1 & H2 & _).
  - exact example_repr.
  - done.
  - by repeat constructor.
  - intros x ->%list_elem_of_singleton. vm_compute. discriminate.
  - by eexists.
  - by intros ?%list_elem_of_singleton.
  - by exists pl, s'.
Defined.

Lemma hev_rbtree_erase_ok_witness :
  exists s', hev_rbtree_erase 1 example_tree = Some (tt, s') ∧ rb_repr s' [].
Proof.
  destruct (hev_rbtree_erase_ok example_tree [] 1 []) as (s' & H1 & H2 & _);
    [exact example_repr | by exists s'].
Defined.

Lemma hev_rbtree_traversal_ok_witness :
  hev_rbtree_first example_tree = Some (Some 1%positive, example_tree)
  ∧ hev_rbtree_node_next 1 example_tree = Some (None, example_tree).
Proof.
  destruct (hev_rbtree_traversal_ok example_tree [1%positive] example_repr) as (H1 & _ & H2).
  split; [exact H1 | by apply (H2 [] 1%positive [])].
Defined.

Lemma hev_rbtree_replace_ok_witness :
  exists s', hev_rbtree_replace 1 2 example_tree = Some (tt, s') ∧ rb_repr s' [2%positive].
Proof.
  apply (hev_rbtree_replace_ok example_tree [] 1 [] 2);
    [exact example_repr | by eexists | by intros ?%list_elem_of_singleton].
Defined.

Lemma search_logarithmic_witness :
  exists r, descend (Some ∘ example_cmp) 3 link_root None example_tree = Some (r, example_tree).
Proof.
  destruct (search_logarithmic example_tree [1%positive] (Some ∘ example_cmp) example_cmp)
    as (r & H & _); [exact example_repr | done | by repeat constructor | by exists r].
Defined.

End HevRBTreeSpec.
