(* ===== verification/MappedDNS.v ===== *)
(** * The mapped DNS cache of src/hev-mapped-dns.c

    A DNS query for a name is answered with an address of a reserved network; the cache
    remembers which name an address stands for.  A cache entry is a node that is linked
    into a red-black tree (by name) and into a list (by age), and that a table refers to
    by its index. *)

From S2P Require Import Prelude HevList HevRBTree.

Module MappedDNS.

(** ** Data *)

(** The payload of a node; [name] is the result of [strdup], which may be NULL. *)
Record HevMappedDNSNode := mk_node { name : option bytes; idx : Z }.

(** The links of the nodes live in the states of the list and of the tree. *)
Record HevMappedDNS := mk_dns {
  use : Z; max : Z; net : Z; mask : Z;
  lru : HevList.state;
  tree : HevRBTree.state;
  nodes : gmap loc HevMappedDNSNode;
  records : list ptr;
}.

Definition set_use v d := mk_dns v (max d) (net d) (mask d) (lru d) (tree d) (nodes d) (records d).
Definition set_lru v d := mk_dns (use d) (max d) (net d) (mask d) v (tree d) (nodes d) (records d).
Definition set_tree v d := mk_dns (use d) (max d) (net d) (mask d) (lru d) v (nodes d) (records d).
Definition set_nodes v d := mk_dns (use d) (max d) (net d) (mask d) (lru d) (tree d) v (records d).
Definition set_records v d := mk_dns (use d) (max d) (net d) (mask d) (lru d) (tree d) (nodes d) v.

Definition with_lru {A} (m : M HevList.state A) : M HevMappedDNS A := fun d =>
  match m (lru d) with Some (a, s) => Some (a, set_lru s d) | None => None end.
Definition with_tree {A} (m : M HevRBTree.state A) : M HevMappedDNS A := fun d =>
  match m (tree d) with Some (a, s) => Some (a, set_tree s d) | None => None end.

Definition load (l : loc) : M HevMappedDNS HevMappedDNSNode := mget (fun d => nodes d !! l).
Definition store_idx (l : loc) (i : Z) : M HevMappedDNS unit :=
  mput (fun d => n ← nodes d !! l; Some (set_nodes (<[l := mk_node (name n) i]> (nodes d)) d)).

(** [self->records[i]] *)
Definition read_record (i : Z) : M HevMappedDNS ptr :=
  mget (fun d => if decide (0 <= i) then records d !! Z.to_nat i else None).
Definition write_record (i : Z) (p : ptr) : M HevMappedDNS unit :=
  mput (fun d =>
    if decide (0 <= i < Z.of_nat (length (records d)))
    then Some (set_records (<[Z.to_nat i := p]> (records d)) d) else None).

(** ** Construction and destruction *)

Definition s32_lnot (z : Z) : Z := - z - 1.

Definition hev_mapped_dns_construct (self : HevMappedDNS) (net mask max : Z)
  : Z * HevMappedDNS :=
  if decide (max > s32_lnot mask) then (-1, self)
  else (0, mk_dns (use self) max net mask (lru self) (tree self) (nodes self) (records self)).

(** The zeroed block has room for [max] records. *)
Definition hev_mapped_dns_new (net mask max : Z) : option HevMappedDNS :=
  let self := mk_dns 0 0 0 0 HevList.empty_list HevRBTree.empty_tree ∅
                (replicate (Z.to_nat max) None) in
  let '(res, self) := hev_mapped_dns_construct self net mask max in
  if decide (res < 0) then None else Some self.

(** [mem] is the node [hev_malloc0] returned, [dup] whether [strdup] succeeded. *)
Definition hev_mapped_dns_node_alloc (mem : ptr) (dup : bool) (nm : bytes)
  : M HevMappedDNS ptr :=
  match mem with
  | None => mret None
  | Some l =>
      with_lru (HevList.alloc_node l);;
      with_tree (HevRBTree.alloc_node l);;
      mput (fun d => Some (set_nodes
        (<[l := mk_node (if dup then Some nm else None) 0]> (nodes d)) d));;
      mret (Some l)
  end.

Definition hev_mapped_dns_node_free (l : loc) : M HevMappedDNS unit :=
  load l;;
  with_lru (HevList.free_node l);;
  with_tree (HevRBTree.free_node l);;
  mput (fun d => Some (set_nodes (delete l (nodes d)) d)).

(** ** Looking a name up, or adding it *)

(** [strcmp (node->name, name)] for a node of the tree *)
Definition name_cmp (d : HevMappedDNS) (nm : bytes) (l : loc) : option Z :=
  n ← nodes d !! l; s ← name n; Some (strcmp s nm).

Definition hev_mapped_dns_find (mem : ptr) (dup : bool) (nm : bytes) : M HevMappedDNS Z :=
  idx0 ← mget (fun d => Some (use d));
  d0 ← mget (fun d => Some d);
  r ← with_tree (HevRBTree.search (name_cmp d0 nm));
  match r with
  | inl node =>
      with_lru (HevList.hev_list_del node);;
      with_lru (HevList.hev_list_add_tail node);;
      n ← load node;
      mret (idx n)
  | inr (parent, new) =>
      r ← hev_mapped_dns_node_alloc mem dup nm;
      match r with
      | None => mret (-1)
      | Some node =>
          with_tree (HevRBTree.hev_rbtree_node_link node parent new);;
          with_tree (HevRBTree.hev_rbtree_insert_color node);;
          with_lru (HevList.hev_list_add_tail node);;
          full ← mget (fun d => Some (negb (bool_decide (use d < max d))));
          idx1 ←
            (if full : bool then
               nl ← with_lru HevList.hev_list_first;
               match nl with
               | None => mfail
               | Some nf =>
                   n ← load nf;
                   with_tree (HevRBTree.hev_rbtree_erase nf);;
                   with_lru (HevList.hev_list_del nf);;
                   hev_mapped_dns_node_free nf;;
                   mret (idx n)
               end
             else
               mput (fun d => Some (set_use (use d + 1) d));;
               mret idx0);
          write_record idx1 (Some node);;
          store_idx node idx1;;
          n ← load node;
          mret (idx n)
      end
  end.

(** ** Looking an address up *)

Definition hev_mapped_dns_lookup (ip : Z) : M HevMappedDNS (option bytes) :=
  i ← mget (fun d => Some (Z.land ip (s32_lnot (mask d))));
  out ← mget (fun d => Some (bool_decide (i >= max d)));
  if out : bool then mret None else
  node ← read_record i;
  match node with
  | None => mret None
  | Some l =>
      with_lru (HevList.hev_list_del l);;
      with_lru (HevList.hev_list_add_tail l);;
      n ← load l;
      mret (name n)
  end.

(** ** Destruction *)

Fixpoint destruct_loop (fuel : nat) (n : ptr) : M HevMappedDNS unit :=
  match n with
  | None => mret tt
  | Some t =>
      match fuel with
      | O => mfail
      | S fuel =>
          n' ← with_lru (HevList.hev_list_node_next t);
          hev_mapped_dns_node_free t;;
          destruct_loop fuel n'
      end
  end.

Definition hev_mapped_dns_destruct : M HevMappedDNS unit :=
  n ← with_lru HevList.hev_list_first;
  fuel ← mget (fun d => Some (size (nodes d)));
  destruct_loop fuel n.

(** ** Answering a DNS query

    [rb] and [sb] are the memory at the request and at the response; an access outside
    them is undefined behaviour in C and [None] here.  Both headers are updated in
    place, so the request is part of the state. *)

Record dns_io := mk_io { self : HevMappedDNS; rb : bytes; sb : bytes }.

Definition with_self {A} (m : M HevMappedDNS A) : M dns_io A := fun s =>
  match m (self s) with Some (a, d) => Some (a, mk_io d (rb s) (sb s)) | None => None end.

Definition rb_get (off : Z) : M dns_io Z := mget (fun s => rd8 (rb s) off).
Definition rb_put (off : Z) (v : bytes) : M dns_io unit :=
  mput (fun s => b ← wr (rb s) off v; Some (mk_io (self s) b (sb s))).
Definition sb_get16 (off : Z) : M dns_io Z := mget (fun s => of_le16 <$> rd (sb s) off 2).
Definition sb_put (off : Z) (v : bytes) : M dns_io unit :=
  mput (fun s => b ← wr (sb s) off v; Some (mk_io (self s) (rb s) b)).

Definition read_u16 (off : Z) : M dns_io Z :=
  a ← rb_get off; b ← rb_get (off + 1); mret (Z.lor (Z.shiftl a 8) b).
Definition write_u16 (off v : Z) : M dns_io unit :=
  sb_put off [u8 (Z.shiftr v 8)];; sb_put (off + 1) [u8 v].
Definition write_u32 (off v : Z) : M dns_io unit :=
  sb_put off [u8 (Z.shiftr v 24)];; sb_put (off + 1) [u8 (Z.shiftr v 16)];;
  sb_put (off + 2) [u8 (Z.shiftr v 8)];; sb_put (off + 3) [u8 v].

(** [while (rb[off])]: the labels of a name; the length bytes become dots. *)
Fixpoint skip_name (fuel : nat) (qlen off : Z) : M dns_io (option Z) :=
  match fuel with
  | O => mfail
  | S fuel =>
      b ← rb_get off;
      if decide (b = 0) then mret (Some off) else
      let off' := off + 1 + b in
      if decide (off' >= qlen) then mret None else
      rb_put off [46];;
      skip_name fuel qlen off'
  end.

(** The heap the nodes come from: what the [i]-th allocation returns, given the nodes in
    use. *)
Definition heap_oracle : Type := nat -> gset loc -> ptr * bool.

(** One question: the next offset and, when it asks for an address, the answer. *)
Definition question (heap : heap_oracle) (i : nat) (qlen off : Z)
  : M dns_io (option (Z * option (Z * Z))) :=
  fuel ← mget (fun s => Some (S (length (rb s))));
  r ← skip_name fuel qlen off;
  match r with
  | None => mret None
  | Some off0 =>
      let off1 := off0 + 1 in
      if decide (off1 + 3 >= qlen) then mret None else
      t ← read_u16 off1;
      c ← (if decide (t = 1) then read_u16 (off1 + 2) else mret 0);
      ans ←
        (if decide (c = 1) then
           nm ← mget (fun s => if decide (0 <= off + 1)
                               then cstr_of (drop (Z.to_nat (off + 1)) (rb s)) else None);
           a ← mget (fun s => Some (heap i (dom (nodes (self s)))));
           idx ← with_self (hev_mapped_dns_find (fst a) (snd a) nm);
           if decide (idx >= 0) then
             n ← mget (fun s => Some (net (self s)));
             mret (Some (Z.lor n idx, off))
           else mret None
         else mret None);
      mret (Some (off1 + 4, ans))
  end.

Fixpoint questions (heap : heap_oracle) (todo i : nat) (qlen off : Z) (ips : list (Z * Z))
  : M dns_io (option (Z * list (Z * Z))) :=
  match todo with
  | O => mret (Some (off, ips))
  | S todo =>
      r ← question heap i qlen off;
      match r with
      | None => mret None
      | Some (off', None) => questions heap todo (S i) qlen off' ips
      | Some (off', Some a) => questions heap todo (S i) qlen off' (ips ++ [a])
      end
  end.

Fixpoint answers (slen off : Z) (ips : list (Z * Z)) : M dns_io (option Z) :=
  match ips with
  | [] => mret (Some off)
  | (ip, ipo) :: ips =>
      if decide (off + 15 >= slen) then mret None else
      sb_put off [192];;
      sb_put (off + 1) [u8 ipo];;
      write_u16 (off + 2) 1;;
      write_u16 (off + 4) 1;;
      write_u32 (off + 6) 1;;
      write_u16 (off + 10) 4;;
      write_u32 (off + 12) ip;;
      answers slen (off + 16) ips
  end.

Definition hev_mapped_dns_handle (heap : heap_oracle) (qlen slen : Z) : M dns_io Z :=
  if decide (slen < qlen) then mret (-1) else
  q ← mget (fun s => rd (rb s) 0 qlen);
  sb_put 0 q;;
  qd0 ← mget (fun s => of_le16 <$> rd (rb s) 4 2);
  let qd := ntohs qd0 in
  rb_put 4 (le16 qd);;
  fl0 ← sb_get16 2;
  let fl := ntohs fl0 in
  sb_put 2 (le16 fl);;
  sb_put 8 (le16 0);;
  sb_put 6 (le16 0);;
  sb_put 10 (le16 0);;
  if decide (qd > 32) then mret (-1) else
  r ← questions heap (Z.to_nat qd) 0 qlen 12 [];
  match r with
  | None => mret (-1)
  | Some (off, ips) =>
      r ← answers slen off ips;
      match r with
      | None => mret (-1)
      | Some off =>
          fl ← sb_get16 2;
          sb_put 2 (le16 (htons (Z.lor (Z.lor fl 32768) (Z.shiftr (Z.land fl 256) 1))));;
          sb_put 6 (le16 (htons (Z.of_nat (length ips))));;
          mret off
      end
  end.

End MappedDNS.
