(* ===== verification/MappedDNSProofs.v ===== *)
(** * The mapped DNS cache is a bounded LRU map

    [cache d c]: the state [d] represents the sequence [c] of (name, index) entries, the
    least recently used first.  The operations refine those of the abstract cache
    [spec_find] and [spec_lookup]. *)

From stdpp Require Import sorting.
From S2P Require Import Prelude HevList HevRBTree HevRBTreeSpec MappedDNS.

Module MappedDNSProofs.
Import MappedDNS HevRBTreeSpec.

(** ** The abstract cache *)

Abbreviation entry := (bytes * Z)%type.

Fixpoint assoc (nm : bytes) (c : list entry) : option Z :=
  match c with
  | [] => None
  | (n, i) :: c => if decide (n = nm) then Some i else assoc nm c
  end.
Fixpoint name_at (i : Z) (c : list entry) : option bytes :=
  match c with
  | [] => None
  | (n, j) :: c => if decide (j = i) then Some n else name_at i c
  end.
Fixpoint without (nm : bytes) (c : list entry) : list entry :=
  match c with
  | [] => []
  | (n, i) :: c => if decide (n = nm) then c else (n, i) :: without nm c
  end.

Definition spec_find (cap : Z) (nm : bytes) (c : list entry) : Z * list entry :=
  match assoc nm c with
  | Some i => (i, without nm c ++ [(nm, i)])
  | None =>
      if decide (Z.of_nat (length c) < cap)
      then (Z.of_nat (length c), c ++ [(nm, Z.of_nat (length c))])
      else match c with
           | [] => (-1, [])
           | (_, i) :: c => (i, c ++ [(nm, i)])
           end
  end.

Definition spec_lookup (i : Z) (c : list entry) : option bytes * list entry :=
  match name_at i c with
  | Some n => (Some n, without n c ++ [(n, i)])
  | None => (None, c)
  end.

(** ** The representation *)

Definition name_of (h : gmap loc HevMappedDNSNode) (l : loc) : bytes :=
  default [] (h !! l ≫= name).

(** The tree is ordered by decreasing name. *)
Definition sorted_by (nm : loc -> bytes) (lt : list loc) : Prop :=
  StronglySorted (fun x y => strcmp (nm y) (nm x) < 0) lt.

Record links (d : HevMappedDNS) (ls lt : list loc) : Prop := {
  lk_lru : HevList.dl_repr (lru d) ls;
  lk_tree : rb_repr (tree d) lt;
  lk_perm : lt ≡ₚ ls;
  lk_dom_lru : dom (HevList.nodes (lru d)) = dom (nodes d);
  lk_dom_tree : dom (HevRBTree.nodes (tree d)) = dom (nodes d);
  lk_dom : dom (nodes d) = list_to_set ls;
}.

Definition node_entry (h : gmap loc HevMappedDNSNode) (l : loc) (e : entry) : Prop :=
  h !! l = Some (mk_node (Some e.1) e.2).

Record cache_inv (d : HevMappedDNS) (ls : list loc) (c : list entry) : Prop := {
  ci_links : exists lt, links d ls lt ∧ sorted_by (name_of (nodes d)) lt;
  ci_nodes : Forall2 (node_entry (nodes d)) ls c;
  ci_names : Forall (fun e => cstr_ok e.1) c;
  ci_use : use d = Z.of_nat (length c);
  ci_max : 0 < max d ∧ use d <= max d;
  ci_idx : c.*2 ≡ₚ seqZ 0 (use d);
  ci_len : Z.of_nat (length (records d)) = max d;
  ci_records : Forall2 (fun l e => records d !! Z.to_nat e.2 = Some (Some l)) ls c;
  ci_free : forall i, use d <= i < max d -> records d !! Z.to_nat i = Some None;
}.

Definition cache (d : HevMappedDNS) (c : list entry) : Prop := exists ls, cache_inv d ls c.

(** ** Lifting *)

Lemma wp_with_lru {A} (m : M HevList.state A) d Q :
  wp m (lru d) (fun a s => Q a (set_lru s d)) -> wp (with_lru m) d Q.
Proof. unfold wp, with_lru. by destruct (m (lru d)) as [[]|]. Qed.

Lemma wp_with_tree {A} (m : M HevRBTree.state A) d Q :
  wp m (tree d) (fun a s => Q a (set_tree s d)) -> wp (with_tree m) d Q.
Proof. unfold wp, with_tree. by destruct (m (tree d)) as [[]|]. Qed.

Lemma wp_with_lru2 {A B} (m1 : M HevList.state A) (m2 : M HevList.state B) {C}
  (k : B -> M HevMappedDNS C) d Q :
  wp (m1;; m2) (lru d) (fun a s => wp (k a) (set_lru s d) Q) ->
  wp (with_lru m1;; x ← with_lru m2; k x) d Q.
Proof.
  unfold wp, with_lru, mbind, M_bind. destruct (m1 (lru d)) as [[a s]|]; [|done]. simpl.
  by destruct (m2 s) as [[b s']|].
Qed.

Lemma wp_with_tree2 {A B} (m1 : M HevRBTree.state A) (m2 : M HevRBTree.state B) {C}
  (k : B -> M HevMappedDNS C) d Q :
  wp (m1;; m2) (tree d) (fun a s => wp (k a) (set_tree s d) Q) ->
  wp (with_tree m1;; x ← with_tree m2; k x) d Q.
Proof.
  unfold wp, with_tree, mbind, M_bind. destruct (m1 (tree d)) as [[a s]|]; [|done]. simpl.
  by destruct (m2 s) as [[b s']|].
Qed.

(** ** Facts about the abstract cache *)

Lemma assoc_split nm c i : assoc nm c = Some i ->
  exists c1 c2, c = c1 ++ (nm, i) :: c2 ∧ without nm c = c1 ++ c2.
Proof.
  induction c as [|[n j] c IH]; simpl; [done|]. case_decide as Hn.
  - intros [= ->]. subst n. by exists [], c.
  - intros (c1 & c2 & -> & Hw)%IH. exists ((n, j) :: c1), c2. by rewrite Hw.
Qed.

Lemma assoc_None nm c : assoc nm c = None ↔ nm ∉ c.*1.
Proof.
  induction c as [|[n j] c IH]; simpl; [set_solver|]. case_decide as Hn.
  - subst. set_solver.
  - rewrite IH. set_solver.
Qed.

Lemma assoc_app_notin nm i c1 c2 : nm ∉ c1.*1 -> assoc nm (c1 ++ (nm, i) :: c2) = Some i.
Proof.
  induction c1 as [|[n j] c1 IH]; simpl; intros Hn; [by rewrite decide_True|].
  apply not_elem_of_cons in Hn as [Hn1 Hn]. rewrite decide_False by done. by apply IH.
Qed.

Lemma without_app nm i c1 c2 : nm ∉ c1.*1 -> without nm (c1 ++ (nm, i) :: c2) = c1 ++ c2.
Proof.
  induction c1 as [|[n j] c1 IH]; simpl; intros Hn; [by rewrite decide_True|].
  apply not_elem_of_cons in Hn as [Hn1 Hn]. rewrite decide_False by done. by rewrite IH.
Qed.

Lemma name_at_app i nm c1 c2 : i ∉ c1.*2 -> name_at i (c1 ++ (nm, i) :: c2) = Some nm.
Proof.
  induction c1 as [|[n j] c1 IH]; simpl; intros Hn; [by rewrite decide_True|].
  apply not_elem_of_cons in Hn as [Hn1 Hn]. rewrite decide_False by done. by apply IH.
Qed.

Lemma name_at_None i c : i ∉ c.*2 -> name_at i c = None.
Proof.
  induction c as [|[n j] c IH]; simpl; [done|]. intros [Hn1 Hn]%not_elem_of_cons.
  rewrite decide_False by done. auto.
Qed.

Lemma name_at_split i c nm : name_at i c = Some nm ->
  exists c1 c2, c = c1 ++ (nm, i) :: c2 ∧ i ∉ c1.*2.
Proof.
  induction c as [|[n j] c IH]; simpl; [done|]. case_decide as Hn.
  - intros [= ->]. subst. exists [], c. set_solver.
  - intros (c1 & c2 & -> & Hi)%IH. exists ((n, j) :: c1), c2. split; [done|]. set_solver.
Qed.

(** ** The representation invariant *)

Lemma name_of_entry h l e : node_entry h l e -> name_of h l = e.1.
Proof. unfold node_entry, name_of. by intros ->. Qed.

Lemma names_of_nodes h ls c : Forall2 (node_entry h) ls c -> name_of h <$> ls = c.*1.
Proof.
  induction 1 as [|l e ls c He _ IH]; [done|]. rewrite !fmap_cons. by rewrite (name_of_entry _ _ _ He), IH.
Qed.

Lemma sorted_nodup nm lt :
  Forall (fun l => cstr_ok (nm l)) lt -> sorted_by nm lt -> NoDup (nm <$> lt).
Proof.
  intros Hok. unfold sorted_by. induction lt as [|x lt IH]; simpl; [constructor|].
  apply Forall_cons in Hok as [Hx Hok]. intros [Hs Hall]%StronglySorted_inv.
  apply NoDup_cons. split; [|by apply IH]. intros (y & He & Hy)%list_elem_of_fmap.
  eapply Forall_forall in Hall; [|done]. rewrite <- He in Hall.
  assert (strcmp (nm x) (nm x) = 0) by by apply strcmp_eq. lia.
Qed.

Section Inv.
Context (d : HevMappedDNS) (ls : list loc) (c : list entry) (Hinv : cache_inv d ls c).

Lemma inv_length : length ls = length c.
Proof. eapply Forall2_length, ci_nodes, Hinv. Qed.

Lemma inv_name_ok l : l ∈ ls -> cstr_ok (name_of (nodes d) l).
Proof.
  intros Hl. apply list_elem_of_lookup in Hl as [j Hj].
  destruct (Forall2_lookup_l _ _ _ _ _ (ci_nodes _ _ _ Hinv) Hj) as (e & He & Hn).
  rewrite (name_of_entry _ _ _ Hn). pose proof (ci_names _ _ _ Hinv) as Hok.
  rewrite Forall_forall in Hok. apply Hok. by eapply list_elem_of_lookup_2.
Qed.

Lemma inv_names_nodup : NoDup (c.*1).
Proof.
  destruct (ci_links _ _ _ Hinv) as (lt & Hl & Hs).
  rewrite <- (names_of_nodes _ _ _ (ci_nodes _ _ _ Hinv)), <- (lk_perm _ _ _ Hl).
  apply sorted_nodup; [|done]. apply Forall_forall. intros x Hx. apply inv_name_ok.
  by rewrite <- (lk_perm _ _ _ Hl).
Qed.

Lemma inv_idx_nodup : NoDup (c.*2).
Proof. rewrite (ci_idx _ _ _ Hinv). apply NoDup_seqZ. Qed.

Lemma inv_idx_range e : e ∈ c -> 0 <= e.2 < use d.
Proof.
  intros He. apply (list_elem_of_fmap_2 snd) in He. rewrite (ci_idx _ _ _ Hinv) in He.
  apply elem_of_seqZ in He. lia.
Qed.

Lemma inv_split c1 e c2 : c = c1 ++ e :: c2 ->
  exists l1 l l2, ls = l1 ++ l :: l2 ∧ length l1 = length c1 ∧ node_entry (nodes d) l e
    ∧ records d !! Z.to_nat e.2 = Some (Some l).
Proof.
  intros ->. pose proof (ci_nodes _ _ _ Hinv) as Hn. pose proof (ci_records _ _ _ Hinv) as Hr.
  apply Forall2_app_inv_r in Hn as (l1 & l2' & H1 & H2 & ->).
  apply Forall2_cons_inv_r in H2 as (l & l2 & He & H2 & ->).
  exists l1, l, l2. apply Forall2_length in H1 as Hlen. split_and!; [done..|].
  apply Forall2_app_inv in Hr as [_ Hr]; [|done]. by apply Forall2_cons in Hr as [? _].
Qed.
End Inv.

Lemma Forall2_move {A B} (P : A -> B -> Prop) l1 l l2 c1 e c2 :
  length l1 = length c1 -> Forall2 P (l1 ++ l :: l2) (c1 ++ e :: c2) ->
  Forall2 P (l1 ++ l2 ++ [l]) (c1 ++ c2 ++ [e]).
Proof.
  intros Hlen [H1 [H2 H3]%Forall2_cons]%Forall2_app_inv; [|done].
  apply Forall2_app; [done|]. apply Forall2_app; [done|]. by constructor.
Qed.

(** Moving an entry to the young end. *)
Lemma wp_touch {A} d l1 l l2 c1 e c2 (k : unit -> M HevMappedDNS A) Q :
  cache_inv d (l1 ++ l :: l2) (c1 ++ e :: c2) -> length l1 = length c1 ->
  (forall s', cache_inv (set_lru s' d) (l1 ++ l2 ++ [l]) (c1 ++ c2 ++ [e]) ->
     wp (k tt) (set_lru s' d) Q) ->
  wp (with_lru (HevList.hev_list_del l);; x ← with_lru (HevList.hev_list_add_tail l); k x) d Q.
Proof.
  intros Hinv Hlen HQ. pose proof Hinv as [(lt & Hl & Hs) Hn Hok Hu Hm Hi Hrl Hr Hf].
  apply wp_with_lru2. eapply wp_mono; [eapply HevList.wp_move_tail, lk_lru, Hl|].
  intros [] s' [Hls Hd]. apply HQ.
  assert (l1 ++ l2 ++ [l] ≡ₚ l1 ++ l :: l2) as Hp by solve_Permutation.
  assert (c1 ++ c2 ++ [e] ≡ₚ c1 ++ e :: c2) as Hpc by solve_Permutation.
  destruct Hl. split; simpl.
  - exists lt. split; [split; simpl; [done | done | by rewrite Hp | by rewrite Hd | done |]|done].
    rewrite lk_dom0. by rewrite Hp.
  - by apply Forall2_move.
  - by rewrite Hpc.
  - by rewrite Hpc.
  - done.
  - by rewrite Hpc.
  - done.
  - by apply Forall2_move.
  - done.
Qed.

(** The parameters of a cache, which no operation changes. *)
Definition same_params (d d' : HevMappedDNS) : Prop :=
  max d' = max d ∧ net d' = net d ∧ mask d' = mask d.

Lemma sorted_by_ext nm nm' lt :
  (forall x, x ∈ lt -> nm' x = nm x) -> sorted_by nm lt -> sorted_by nm' lt.
Proof.
  unfold sorted_by. intros He. induction lt as [|x lt IH]; [by constructor|].
  intros [Hs Hall]%StronglySorted_inv. constructor; [apply IH; [|done]; set_solver|].
  rewrite Forall_forall in Hall |- *. intros y Hy. rewrite !He by set_solver. by apply Hall.
Qed.

Lemma Forall2_impl_in {A B} (P Q : A -> B -> Prop) l k :
  Forall2 P l k -> (forall x y, x ∈ l -> y ∈ k -> P x y -> Q x y) -> Forall2 Q l k.
Proof.
  induction 1 as [|x y l k Hxy _ IH]; intros HQ; constructor.
  - apply HQ; [set_solver..|done].
  - apply IH. intros ????. apply HQ; set_solver.
Qed.

(** Everything but the new entry's slot is in place; [l] is the youngest node. *)
Record almost (d : HevMappedDNS) (ls : list loc) (c : list entry) (l : loc) (nm : bytes) (i : Z)
  : Prop := {
  al_links : exists lt, links d (ls ++ [l]) lt ∧ sorted_by (name_of (nodes d)) lt;
  al_new : nodes d !! l = Some (mk_node (Some nm) 0);
  al_nodes : Forall2 (node_entry (nodes d)) ls c;
  al_names : Forall (fun e => cstr_ok e.1) (c ++ [(nm, i)]);
  al_use : use d = Z.of_nat (length (c ++ [(nm, i)]));
  al_max : 0 < max d ∧ use d <= max d;
  al_idx : (c ++ [(nm, i)]).*2 ≡ₚ seqZ 0 (use d);
  al_len : Z.of_nat (length (records d)) = max d;
  al_records : Forall2 (fun l e => records d !! Z.to_nat e.2 = Some (Some l)) ls c;
  al_free : forall i, use d <= i < max d -> records d !! Z.to_nat i = Some None;
}.

Lemma wp_install d ls c l nm i (Q : Z -> HevMappedDNS -> Prop) :
  almost d ls c l nm i ->
  (forall d', cache_inv d' (ls ++ [l]) (c ++ [(nm, i)]) -> same_params d d' -> Q i d') ->
  wp (write_record i (Some l);; store_idx l i;; n ← load l; mret (idx n)) d Q.
Proof.
  intros [(lt & Hl & Hs) Hnew Hn Hok Hu Hm Hi Hrl Hr Hf] HQ.
  assert (0 <= i < use d) as Hrange.
  { assert (i ∈ (c ++ [(nm, i)]).*2) as Hin by (rewrite fmap_app; set_solver).
    rewrite Hi in Hin. apply elem_of_seqZ in Hin. lia. }
  assert (NoDup ((c ++ [(nm, i)]).*2)) as Hnd by (rewrite Hi; apply NoDup_seqZ).
  rewrite fmap_app in Hnd. apply NoDup_snoc in Hnd as [Hic _].
  assert (l ∉ ls) as Hls.
  { pose proof (lk_lru _ _ _ Hl) as (Hnd & _). by apply NoDup_snoc in Hnd as [? _]. }
  apply wp_bind. eapply wp_put; [rewrite decide_True by lia; done|].
  apply wp_bind. eapply wp_put; [simpl; rewrite Hnew; done|].
  apply wp_bind. eapply wp_get; [simpl; apply lookup_insert_eq|]. apply wp_ret. simpl.
  apply HQ; [|done]. destruct Hl. split; simpl.
  - exists lt. split.
    + split; simpl; [done | done | done | | |]; rewrite dom_insert_L, ?lk_dom_lru0, ?lk_dom_tree0;
        assert (l ∈ dom (nodes d)) by (by apply elem_of_dom); set_solver.
    + eapply sorted_by_ext; [|done]. intros x _. unfold name_of.
      destruct (decide (x = l)) as [->|]; [by rewrite lookup_insert_eq, Hnew
                                          |by rewrite lookup_insert_ne].
  - apply Forall2_app; [|constructor; [apply lookup_insert_eq | constructor]].
    eapply Forall2_impl_in; [exact Hn|]. intros x e Hx _ He. unfold node_entry.
    rewrite lookup_insert_ne; [done|]. by intros ->.
  - done.
  - done.
  - done.
  - done.
  - by rewrite length_insert.
  - apply Forall2_app.
    + eapply Forall2_impl_in; [exact Hr|]. intros x e _ He Hx. simpl in Hx.
      rewrite list_lookup_insert_ne; [done|]. intros Heq. apply Hic.
      apply (list_elem_of_fmap_2 snd) in He as He2.
      assert (e.2 ∈ (c ++ [(nm, i)]).*2) as He3 by (rewrite fmap_app; set_solver).
      rewrite Hi in He3. apply elem_of_seqZ in He3.
      assert (i = e.2) as -> by lia. done.
    + constructor; [|constructor]. simpl. apply list_lookup_insert_eq. lia.
  - intros j Hj. rewrite list_lookup_insert_ne; [by apply Hf | lia].
Qed.

(** ** The steps of a lookup that adds a name *)

Lemma name_cmp_ok d ls c nm x : cache_inv d ls c -> x ∈ ls ->
  name_cmp d nm x = Some (strcmp (name_of (nodes d) x) nm).
Proof.
  intros Hinv Hx. apply list_elem_of_lookup in Hx as [j Hj].
  destruct (Forall2_lookup_l _ _ _ _ _ (ci_nodes _ _ _ Hinv) Hj) as (e & _ & He).
  unfold name_cmp, name_of. by rewrite He.
Qed.

Lemma sorted_cmp nm lt key :
  cstr_ok key -> (forall x, x ∈ lt -> cstr_ok (nm x)) -> sorted_by nm lt ->
  cmp_sorted (fun x => strcmp (nm x) key) lt.
Proof.
  intros Hk. unfold sorted_by, cmp_sorted.
  induction lt as [|x lt IH]; intros Hok; [constructor|].
  intros [Hs Hall]%StronglySorted_inv. constructor; [apply IH; [set_solver|done]|].
  rewrite Forall_forall in Hall |- *. intros y Hy Hx. specialize (Hall y Hy).
  destruct (decide (strcmp (nm x) key = 0)) as [He|He].
  - apply strcmp_eq in He; [by subst|apply Hok; set_solver|done].
  - eapply strcmp_trans; [| | |exact Hall|lia]; [apply Hok; set_solver..|done].
Qed.

Lemma sorted_insert nm l1 x l2 :
  sorted_by nm (l1 ++ l2) ->
  Forall (fun y => strcmp (nm x) (nm y) < 0) l1 -> Forall (fun y => strcmp (nm y) (nm x) < 0) l2 ->
  sorted_by nm (l1 ++ x :: l2).
Proof.
  unfold sorted_by. induction l1 as [|y l1 IH]; simpl; intros Hs H1 H2; [by constructor|].
  apply StronglySorted_inv in Hs as [Hs Hall]. apply Forall_cons in H1 as [Hy H1].
  constructor; [by apply IH|]. apply Forall_app in Hall as [Ha Hb].
  apply Forall_app. split; [done|]. by apply Forall_cons.
Qed.

Lemma sorted_remove nm l1 x l2 : sorted_by nm (l1 ++ x :: l2) -> sorted_by nm (l1 ++ l2).
Proof.
  unfold sorted_by. induction l1 as [|y l1 IH]; simpl; intros Hs.
  - by apply StronglySorted_inv in Hs as [? _].
  - apply StronglySorted_inv in Hs as [Hs Hall]. constructor; [by apply IH|].
    apply Forall_app in Hall as [Ha [_ Hb]%Forall_cons]. by apply Forall_app.
Qed.

(** What the steps leave alone. *)
Record same_table (d d' : HevMappedDNS) : Prop := {
  st_params : same_params d d';
  st_use : use d' = use d;
  st_records : records d' = records d;
}.

Lemma wp_node_alloc d ls lt l1 l2 pl l (dup : bool) (nm : bytes) (Q : ptr -> HevMappedDNS -> Prop) :
  links d ls lt -> rb_gap (tree d) l1 l2 pl -> nodes d !! l = None ->
  (forall d', same_table d d' ->
     nodes d' = <[l := mk_node (if dup then Some nm else None) 0]> (nodes d) ->
     HevList.dl_repr (lru d') ls -> rb_gap (tree d') l1 l2 pl ->
     dom (HevList.nodes (lru d')) = dom (nodes d') ->
     dom (HevRBTree.nodes (tree d')) = dom (nodes d') -> Q (Some l) d') ->
  wp (hev_mapped_dns_node_alloc (Some l) dup nm) d Q.
Proof.
  intros [Hlru Htree Hperm Hd1 Hd2 Hd3] Hgap Hl HQ. simpl.
  assert (l ∉ dom (nodes d)) as Hnd by by apply not_elem_of_dom.
  apply wp_bind, wp_with_lru. eapply wp_mono; [apply HevList.wp_list_alloc; [|exact Hlru]|].
  { apply not_elem_of_dom. by rewrite Hd1. }
  intros _ s1 (Hs1 & Hn1 & _). apply wp_bind, wp_with_tree.
  eapply wp_mono; [eapply HevRBTreeSpec.wp_alloc_node; [|exact Hgap]|].
  { apply not_elem_of_dom. simpl. by rewrite Hd2. }
  intros _ s2 (Hs2 & Hn2 & _). apply wp_bind. eapply wp_put; [done|]. apply wp_ret.
  apply HQ; simpl; [by split | done | done | done | |].
  - by rewrite Hn1, !dom_insert_L, Hd1.
  - simpl in Hn2. by rewrite Hn2, !dom_insert_L, Hd2.
Qed.

(** Linking the new node into the tree and at the young end of the list. *)
Lemma wp_link_node {A} d ls l1 l2 pl l (k : unit -> M HevMappedDNS A) Q :
  HevList.dl_repr (lru d) ls -> rb_gap (tree d) l1 l2 pl -> l1 ++ l2 ≡ₚ ls -> l ∉ ls ->
  dom (HevList.nodes (lru d)) = dom (nodes d) -> dom (HevRBTree.nodes (tree d)) = dom (nodes d) ->
  dom (nodes d) = list_to_set (ls ++ [l]) ->
  (forall d', same_table d d' -> nodes d' = nodes d -> links d' (ls ++ [l]) (l1 ++ l :: l2) ->
     wp (k tt) d' Q) ->
  wp (with_tree (HevRBTree.hev_rbtree_node_link l pl.1 pl.2);;
      with_tree (HevRBTree.hev_rbtree_insert_color l);;
      x ← with_lru (HevList.hev_list_add_tail l); k x) d Q.
Proof.
  intros Hls Hgap Hp Hl Hd1 Hd2 Hd HQ.
  assert (l ∈ dom (nodes d)) as Hin by (rewrite Hd, list_to_set_app_L; set_solver).
  apply wp_with_tree2. eapply wp_mono; [apply wp_insert_at; [exact Hgap| |]|].
  { apply elem_of_dom. simpl. by rewrite Hd2. }
  { by rewrite Hp. }
  intros [] s1 [Hs1 Hdom1]. apply wp_bind, wp_with_lru.
  eapply wp_mono; [apply HevList.wp_add_tail; [exact Hls| |done]|].
  { apply elem_of_dom. simpl. by rewrite Hd1. }
  intros [] s2 [Hs2 Hdom2]. apply HQ; [by split | done |].
  split; simpl; [done | done | rewrite <- Hp; solve_Permutation | by rewrite Hdom2
                | by rewrite Hdom1 | done].
Qed.

(** Evicting the oldest node. *)
Lemma wp_evict {A} d nf ls lt n (k : unit -> M HevMappedDNS A) Q :
  links d (nf :: ls) lt -> sorted_by (name_of (nodes d)) lt -> nodes d !! nf = Some n ->
  (forall d' lt', same_table d d' -> nodes d' = delete nf (nodes d) -> links d' ls lt' ->
     sorted_by (name_of (nodes d)) lt' -> wp (k tt) d' Q) ->
  wp (with_tree (HevRBTree.hev_rbtree_erase nf);; with_lru (HevList.hev_list_del nf);;
      x ← hev_mapped_dns_node_free nf; k x) d Q.
Proof.
  intros [Hlru Htree Hperm Hd1 Hd2 Hd3] Hs Hn HQ.
  assert (nf ∈ lt) as Hin by (rewrite Hperm; set_solver).
  apply list_elem_of_split in Hin as (a & b & ->).
  assert (nf ∈ dom (nodes d)) as Hnf by by apply elem_of_dom.
  pose proof Hlru as (Hnd & _). apply NoDup_cons in Hnd as [Hnls _].
  assert (a ++ b ≡ₚ ls) as Hab.
  { apply (Permutation_cons_inv (a := nf)). rewrite <- Hperm. solve_Permutation. }
  apply wp_bind, wp_with_tree. eapply wp_mono; [by apply wp_erase|]. intros _ s1 [Hs1 Hdom1].
  apply wp_bind, wp_with_lru. eapply wp_mono; [by apply (HevList.wp_del _ [])|].
  intros _ s2 [Hs2 Hdom2]. simpl in Hs2, Hdom2.
  apply wp_bind. unfold hev_mapped_dns_node_free. apply wp_bind. eapply wp_get; [exact Hn|].
  apply wp_bind, wp_with_lru. eapply wp_mono; [eapply HevList.wp_list_free; [|exact Hnls|exact Hs2]|].
  { apply elem_of_dom. simpl. by rewrite Hdom2, Hd1. }
  intros _ s3 [Hs3 Hn3]. apply wp_bind, wp_with_tree.
  eapply wp_mono; [eapply HevRBTreeSpec.wp_free_node; [| |exact Hs1]|].
  { apply elem_of_dom. simpl. by rewrite Hdom1, Hd2. }
  { by rewrite Hab. }
  intros _ s4 [Hs4 Hn4]. eapply wp_put; [done|]. apply (HQ _ (a ++ b)); [by split | done | |].
  - split; simpl; [done | done | done | | |].
    + simpl in Hn3. by rewrite Hn3, !dom_delete_L, Hdom2, Hd1.
    + simpl in Hn4. by rewrite Hn4, !dom_delete_L, Hdom1, Hd2.
    + rewrite dom_delete_L, Hd3. simpl. set_solver.
  - by eapply sorted_remove.
Qed.

(** ** The operations refine the abstract cache *)

Definition find_post (d : HevMappedDNS) (c : list entry) (nm : bytes) (r : Z) (d' : HevMappedDNS)
  : Prop :=
  r = (spec_find (max d) nm c).1 ∧ cache d' (spec_find (max d) nm c).2 ∧ same_params d d'.

(** A name that is cached: its entry becomes the youngest. *)
Lemma wp_find_hit d ls c nm x :
  cache_inv d ls c -> cstr_ok nm -> x ∈ ls -> strcmp (name_of (nodes d) x) nm = 0 ->
  wp (with_lru (HevList.hev_list_del x);; with_lru (HevList.hev_list_add_tail x);;
      n ← load x; mret (idx n)) d (find_post d c nm).
Proof.
  intros Hinv Hnm Hx Hcmp. pose proof (inv_name_ok _ _ _ Hinv _ Hx) as Hok.
  apply strcmp_eq in Hcmp; [|done..].
  apply list_elem_of_split in Hx as (l1 & l2 & ->).
  pose proof (ci_nodes _ _ _ Hinv) as Hn. pose proof Hn as Hn0.
  apply Forall2_app_inv_l in Hn0 as (c1 & c2' & H1 & H2 & ->).
  apply Forall2_cons_inv_l in H2 as (e & c2 & He & H2 & ->).
  pose proof (inv_names_nodup _ _ _ Hinv) as Hnd. rewrite fmap_app in Hnd. simpl in Hnd.
  apply NoDup_middle in Hnd as (Hc1 & _). destruct e as [en ei].
  rewrite (name_of_entry _ _ _ He) in Hcmp. simpl in Hcmp, Hc1. subst en.
  eapply wp_touch; [exact Hinv | by apply Forall2_length in H1|]. intros s' Hinv'.
  apply wp_bind. eapply wp_get; [simpl; exact He|]. apply wp_ret. simpl.
  unfold find_post, spec_find. rewrite assoc_app_notin, without_app by done. simpl.
  split_and!; [done | | done]. eexists. rewrite <- app_assoc. exact Hinv'.
Qed.

(** The state once the new node [l] is linked, before a slot is chosen. *)
Record staged (d d2 : HevMappedDNS) (ls : list loc) (c : list entry) (l : loc) (nm : bytes)
  : Prop := {
  sg_inv : cache_inv d ls c;
  sg_name : assoc nm c = None;
  sg_name_ok : cstr_ok nm;
  sg_loc : l ∉ ls;
  sg_table : same_table d d2;
  sg_nodes : nodes d2 = <[l := mk_node (Some nm) 0]> (nodes d);
  sg_links : exists lt, links d2 (ls ++ [l]) lt ∧ sorted_by (name_of (nodes d2)) lt;
}.

(** There is room: the next unused slot is taken. *)
Lemma wp_place_free d d2 ls c l nm :
  staged d d2 ls c l nm -> use d < max d ->
  wp (mput (fun d0 => Some (set_use (use d0 + 1) d0));;
      write_record (use d) (Some l);; store_idx l (use d);; n ← load l; mret (idx n)) d2
    (find_post d c nm).
Proof.
  intros [Hinv Hnm Hok Hl [Hp Hu2 Hr2] Hn (lt & Hlk & Hs)] Hfree. apply wp_bind.
  eapply wp_put; [done|]. pose proof Hinv as [_ Hnodes Hoks Hu Hm Hi Hrl Hr Hf].
  destruct Hp as (Hp1 & Hp2 & Hp3). eapply (wp_install _ ls c l nm (use d)).
  - split; simpl; rewrite ?Hu2, ?Hp1, ?Hr2, ?Hn.
    + exists lt. split; [by destruct Hlk | by rewrite <- Hn].
    + apply lookup_insert_eq.
    + eapply Forall2_impl_in; [exact Hnodes|]. intros x e Hx _ He. unfold node_entry.
      rewrite lookup_insert_ne; [done|]. by intros ->.
    + apply Forall_app. split; [done|]. by constructor.
    + rewrite length_app, Hu. simpl. lia.
    + lia.
    + rewrite fmap_app, Hi. simpl. rewrite Hu at 1.
      replace (use d + 1) with (use d + 1) by done. rewrite seqZ_app by lia. simpl.
      by rewrite Hu.
    + done.
    + done.
    + intros i Hii. apply Hf. lia.
  - intros d' Hinv' (Hq1 & Hq2 & Hq3). unfold find_post, spec_find. rewrite Hnm.
    rewrite decide_True by lia. rewrite Hu in *. split_and!; [done | by exists (ls ++ [l]) |].
    simpl in *. split_and!; congruence.
Qed.

(** The cache is full: the oldest entry makes room. *)
Lemma wp_place_full d d2 ls c l nm :
  staged d d2 ls c l nm -> ~ use d < max d ->
  wp (nl ← with_lru HevList.hev_list_first;
      i ← match nl with
          | Some nf =>
              n ← load nf;
              with_tree (HevRBTree.hev_rbtree_erase nf);; with_lru (HevList.hev_list_del nf);;
              hev_mapped_dns_node_free nf;; mret (idx n)
          | None => mfail
          end;
      write_record i (Some l);; store_idx l i;; n ← load l; mret (idx n)) d2
    (find_post d c nm).
Proof.
  intros [Hinv Hnm Hok Hl [Hp Hu2 Hr2] Hn (lt & Hlk & Hs)] Hfull.
  pose proof Hinv as [_ Hnodes Hoks Hu Hm Hi Hrl Hr Hf]. destruct Hp as (Hp1 & Hp2 & Hp3).
  destruct c as [|[nm0 i0] c]; [simpl in Hu; lia|].
  apply Forall2_cons_inv_r in Hnodes as (nf & ls0 & He & Hnodes & ->).
  apply Forall2_cons in Hr as [Hr0 Hr]. apply Forall_cons in Hoks as [_ Hoks].
  apply not_elem_of_cons in Hl as [Hlnf Hl]. simpl app in Hlk.
  assert (nf ∉ ls0) as Hnf.
  { pose proof (lk_lru _ _ _ Hlk) as (Hnd & _). apply NoDup_cons in Hnd as [Hnf _]. set_solver. }
  apply wp_bind, wp_with_lru. eapply wp_mono; [eapply HevList.wp_first, lk_lru, Hlk|].
  intros r s' [-> ->]. simpl HevList.head_or. cbn match.
  assert (set_lru (lru d2) d2 = d2) as -> by by destruct d2.
  apply wp_bind, wp_bind. eapply wp_get; [rewrite Hn, lookup_insert_ne by done; exact He|].
  eapply wp_evict; [exact Hlk | exact Hs | rewrite Hn, lookup_insert_ne by done; exact He|].
  intros d3 lt3 [[Hp1' [Hp2' Hp3']] Hu3 Hr3] Hn3 Hlk3 Hs3. apply wp_ret.
  rewrite Hn in Hn3, Hs3. rewrite delete_insert_ne in Hn3 by done. simpl idx.
  eapply (wp_install d3 ls0 c l nm i0).
  - split; rewrite ?Hu3, ?Hu2, ?Hp1', ?Hp1, ?Hr3, ?Hr2, ?Hn3.
    + exists lt3. split; [done|]. eapply sorted_by_ext; [|exact Hs3].
      intros x Hx. unfold name_of. destruct (decide (x = l)) as [->|]; [by rewrite !lookup_insert_eq|].
      rewrite !lookup_insert_ne by done. rewrite lookup_delete_ne; [done|]. intros <-.
      rewrite (lk_perm _ _ _ Hlk3) in Hx. set_solver.
    + apply lookup_insert_eq.
    + eapply Forall2_impl_in; [exact Hnodes|]. intros x e Hx _ He'. unfold node_entry.
      rewrite lookup_insert_ne by (by intros ->). rewrite lookup_delete_ne by (by intros ->). done.
    + apply Forall_app. split; [done|]. by constructor.
    + rewrite length_app, Hu. simpl. lia.
    + lia.
    + rewrite <- Hi, fmap_app. simpl. solve_Permutation.
    + done.
    + done.
    + intros i Hii. by apply Hf.
  - intros d' Hinv' (Hq1 & Hq2 & Hq3). unfold find_post, spec_find. rewrite Hnm.
    rewrite decide_False by lia. simpl. split_and!; [done | by exists (ls0 ++ [l]) |].
    split_and!; congruence.
Qed.

Lemma assoc_hit d ls c nm x :
  cache_inv d ls c -> cstr_ok nm -> x ∈ ls -> strcmp (name_of (nodes d) x) nm = 0 ->
  is_Some (assoc nm c).
Proof.
  intros Hinv Hnm Hx Hz. destruct (assoc nm c) eqn:Ha; [by eexists|].
  apply assoc_None in Ha. destruct Ha.
  rewrite <- (names_of_nodes _ _ _ (ci_nodes _ _ _ Hinv)). apply list_elem_of_fmap.
  exists x. split; [|done]. symmetry. apply strcmp_eq; [by eapply inv_name_ok | done | done].
Qed.

(** When the allocation fails, only a cached name gets an answer. *)
Definition find_post_mem (mem : ptr) (d : HevMappedDNS) (c : list entry) (nm : bytes)
  : Z -> HevMappedDNS -> Prop :=
  match mem, assoc nm c with
  | None, None => fun r d' => r = -1 ∧ d' = d
  | _, _ => find_post d c nm
  end.

Lemma wp_find d c nm mem :
  cache d c -> cstr_ok nm -> (forall l, mem = Some l -> nodes d !! l = None) ->
  wp (hev_mapped_dns_find mem true nm) d (find_post_mem mem d c nm).
Proof.
  intros [ls Hinv] Hnm Hmem. destruct (ci_links _ _ _ Hinv) as (lt & Hlk & Hsort).
  assert (forall x, x ∈ lt -> cstr_ok (name_of (nodes d) x)) as Hltok.
  { intros x Hx. apply (inv_name_ok _ _ _ Hinv). by rewrite <- (lk_perm _ _ _ Hlk). }
  apply wp_bind. eapply wp_get; [done|]. apply wp_bind. eapply wp_get; [done|].
  apply wp_bind, wp_with_tree.
  eapply wp_mono; [eapply (wp_search _ (fun x => strcmp (name_of (nodes d) x) nm))|].
  { apply (lk_tree _ _ _ Hlk). }
  { intros x Hx. eapply name_cmp_ok; [done|]. by rewrite <- (lk_perm _ _ _ Hlk). }
  { by apply sorted_cmp. }
  intros r s' [-> Hr]. assert (set_tree (tree d) d = d) as -> by by destruct d.
  destruct r as [x|[par new]].
  { destruct Hr as [Hx Hcmp]. rewrite (lk_perm _ _ _ Hlk) in Hx.
    destruct (assoc_hit _ _ _ _ _ Hinv Hnm Hx Hcmp) as [i Hi].
    unfold find_post_mem. rewrite Hi. destruct mem; by eapply wp_find_hit. }
  destruct Hr as (l1 & l2 & -> & Hgap & Hl1 & Hl2).
  assert (assoc nm c = None) as Hnone.
  { apply assoc_None. rewrite <- (names_of_nodes _ _ _ (ci_nodes _ _ _ Hinv)).
    rewrite <- (lk_perm _ _ _ Hlk). intros (x & He & Hx)%list_elem_of_fmap.
    assert (strcmp (name_of (nodes d) x) nm = 0) as Hz by (rewrite <- He; by apply strcmp_eq).
    apply elem_of_app in Hx as [Hx|Hx]; [eapply Forall_forall in Hl1 | eapply Forall_forall in Hl2];
      [|exact Hx| |exact Hx]; simpl in *; lia. }
  unfold find_post_mem. rewrite Hnone. destruct mem as [l|]; [|by apply wp_bind, wp_ret].
  specialize (Hmem l eq_refl). rename Hmem into Hl.
  assert (l ∉ ls) as Hls.
  { intros Hin. apply not_elem_of_dom in Hl. rewrite (lk_dom _ _ _ Hlk) in Hl. set_solver. }
  apply wp_bind. eapply wp_node_alloc; [done..|].
  intros d1 Hst1 Hn1 Hlru1 Hgap1 Hd1 Hd2. cbn match.
  eapply (wp_link_node d1 ls l1 l2 (par, new) l);
    [done | done | exact (lk_perm _ _ _ Hlk) | done | done | done | |].
  { rewrite Hn1, dom_insert_L, (lk_dom _ _ _ Hlk), list_to_set_app_L. set_solver. }
  intros d2 Hst2 Hn2 Hlk2. rewrite Hn1 in Hn2. simpl in Hn2.
  assert (staged d d2 ls c l nm) as Hsg.
  { destruct Hst1 as [[Ha1 [Ha2 Ha3]] Ha4 Ha5], Hst2 as [[Hb1 [Hb2 Hb3]] Hb4 Hb5]. split; try done.
    - split; [split_and!|..]; congruence.
    - exists (l1 ++ l :: l2). split; [done|]. rewrite Hn2.
      assert (forall x, x ∈ l1 ++ l2 ->
        name_of (<[l := mk_node (Some nm) 0]> (nodes d)) x = name_of (nodes d) x) as Hsame.
      { intros x Hx. unfold name_of. rewrite lookup_insert_ne; [done|]. intros <-. apply Hls.
        by rewrite <- (lk_perm _ _ _ Hlk). }
      assert (name_of (<[l := mk_node (Some nm) 0]> (nodes d)) l = nm) as Hnew
        by (unfold name_of; by rewrite lookup_insert_eq).
      apply sorted_insert; [by eapply sorted_by_ext| |]; rewrite Hnew; apply Forall_forall;
        intros x Hx; rewrite Hsame by set_solver.
      + rewrite Forall_forall in Hl1. specialize (Hl1 x Hx). rewrite strcmp_sym. simpl in Hl1. lia.
      + rewrite Forall_forall in Hl2. by apply Hl2. }
  pose proof (sg_table _ _ _ _ _ _ Hsg) as [(Hm2 & _) Hu2 _].
  apply wp_bind. eapply wp_get; [done|]. rewrite Hm2, Hu2.
  destruct (decide (use d < max d)) as [Hfree|Hfull].
  - rewrite bool_decide_eq_true_2 by done. simpl negb. cbn match.
    pose proof (wp_place_free _ _ _ _ _ _ Hsg Hfree) as Hwp. exact Hwp.
  - rewrite bool_decide_eq_false_2 by done. simpl negb. cbn match.
    pose proof (wp_place_full _ _ _ _ _ _ Hsg Hfull) as Hwp. exact Hwp.
Qed.

(** An address is looked up by the index in its host part. *)
Definition host_part (d : HevMappedDNS) (ip : Z) : Z := Z.land ip (s32_lnot (mask d)).

Lemma wp_lookup d c ip :
  cache d c -> 0 <= s32_lnot (mask d) ->
  wp (hev_mapped_dns_lookup ip) d (fun r d' =>
    r = (spec_lookup (host_part d ip) c).1 ∧ cache d' (spec_lookup (host_part d ip) c).2
    ∧ same_params d d').
Proof.
  intros [ls Hinv] Hmask. unfold hev_mapped_dns_lookup, host_part.
  set (i := Z.land ip (s32_lnot (mask d))).
  assert (0 <= i) as Hi0 by (apply Z.land_nonneg; by right).
  apply wp_bind. eapply wp_get; [done|]. fold i. apply wp_bind. eapply wp_get; [done|].
  pose proof (ci_max _ _ _ Hinv) as Hmax. pose proof (ci_len _ _ _ Hinv) as Hlen.
  assert (use d <= i -> name_at i c = None) as Hout.
  { intros Hi. apply name_at_None. rewrite (ci_idx _ _ _ Hinv), elem_of_seqZ. lia. }
  case_bool_decide as Him.
  { apply wp_ret. unfold spec_lookup. rewrite Hout by lia. split_and!; [done | by exists ls | done]. }
  apply wp_bind. destruct (decide (use d <= i)) as [Hiu|Hiu].
  { eapply wp_get; [rewrite decide_True by done; apply (ci_free _ _ _ Hinv); lia|].
    apply wp_ret. unfold spec_lookup. rewrite Hout by lia. split_and!; [done | by exists ls | done]. }
  assert (i ∈ c.*2) as Hin by (rewrite (ci_idx _ _ _ Hinv), elem_of_seqZ; lia).
  apply list_elem_of_fmap in Hin as ([nm j] & Hj & Hin). simpl in Hj. subst j.
  apply list_elem_of_split in Hin as (c1 & c2 & Hc).
  destruct (inv_split _ _ _ Hinv _ _ _ Hc) as (l1 & l & l2 & -> & Hl & He & Hr). subst c.
  eapply wp_get; [rewrite decide_True by done; exact Hr|]. cbn match.
  eapply wp_touch; [exact Hinv|done|]. intros s' Hinv'. apply wp_bind.
  eapply wp_get; [simpl; exact He|]. apply wp_ret. simpl.
  pose proof (inv_idx_nodup _ _ _ Hinv) as Hnd. rewrite fmap_app in Hnd.
  apply NoDup_middle in Hnd as (Hc1 & _).
  pose proof (inv_names_nodup _ _ _ Hinv) as Hnd. rewrite fmap_app in Hnd.
  apply NoDup_middle in Hnd as (Hn1 & _).
  unfold spec_lookup. rewrite name_at_app, without_app by done. simpl.
  split_and!; [done | | done]. eexists. rewrite <- app_assoc. exact Hinv'.
Qed.

(** ** Construction and destruction *)

Lemma new_cache net mask max :
  0 < max -> max <= s32_lnot mask ->
  exists d, hev_mapped_dns_new net mask max = Some d ∧ cache d []
    ∧ MappedDNS.max d = max ∧ MappedDNS.net d = net ∧ MappedDNS.mask d = mask.
Proof.
  intros Hm Hmask. unfold hev_mapped_dns_new, hev_mapped_dns_construct.
  rewrite decide_False by lia. simpl. eexists. split; [done|]. split; [|done].
  exists []. split; simpl; try done.
  - exists []. split; [|constructor]. split; simpl; [apply HevList.dl_repr_empty
      | apply rb_repr_empty | done | | | ]; by rewrite !dom_empty_L.
  - lia.
  - rewrite length_replicate. lia.
  - intros i Hi. apply lookup_replicate_2. lia.
Qed.

Definition all_freed (d : HevMappedDNS) : Prop :=
  nodes d = ∅ ∧ HevList.nodes (lru d) = ∅ ∧ HevRBTree.nodes (tree d) = ∅.

Lemma wp_node_free d l (Q : unit -> HevMappedDNS -> Prop) :
  is_Some (nodes d !! l) -> is_Some (HevList.nodes (lru d) !! l) ->
  is_Some (HevRBTree.nodes (tree d) !! l) ->
  (forall d', nodes d' = delete l (nodes d) ->
     HevList.nodes (lru d') = delete l (HevList.nodes (lru d)) ->
     HevRBTree.nodes (tree d') = delete l (HevRBTree.nodes (tree d)) -> Q tt d') ->
  wp (hev_mapped_dns_node_free l) d Q.
Proof.
  intros [n Hn] [nl Hnl] [nt Hnt] HQ. apply wp_bind. eapply wp_get; [done|].
  apply wp_bind, wp_with_lru. eapply wp_put; [by rewrite Hnl|].
  apply wp_bind, wp_with_tree. eapply wp_put; [simpl; by rewrite Hnt|].
  eapply wp_put; [done|]. by apply HQ.
Qed.

Lemma wp_destruct_loop ls : forall p fuel d,
  NoDup ls -> HevList.seg (HevList.nodes (lru d)) p ls None ->
  dom (nodes d) = list_to_set ls -> dom (HevList.nodes (lru d)) = dom (nodes d) ->
  dom (HevRBTree.nodes (tree d)) = dom (nodes d) -> (length ls <= fuel)%nat ->
  wp (destruct_loop fuel (HevList.head_or ls None)) d (fun _ d' => all_freed d').
Proof.
  induction ls as [|l ls IH]; intros p fuel d Hnd Hseg Hd Hd1 Hd2 Hf.
  - destruct fuel; simpl; apply wp_ret; rewrite Hd in Hd1, Hd2; simpl in *;
      apply dom_empty_inv_L in Hd, Hd1, Hd2; done.
  - destruct fuel as [|fuel]; [simpl in Hf; lia|]. simpl in Hseg. destruct Hseg as [Hl Hseg].
    apply NoDup_cons in Hnd as [Hnl Hnd]. simpl HevList.head_or. cbn [destruct_loop].
    assert (l ∈ dom (nodes d)) as Hin by (rewrite Hd; set_solver).
    apply wp_bind, wp_with_lru, wp_fmap. eapply wp_get; [simpl; exact Hl|]. simpl.
    assert (set_lru (lru d) d = d) as -> by by destruct d.
    apply wp_bind, wp_node_free; [by apply elem_of_dom | by eexists
                                 | apply elem_of_dom; by rewrite Hd2|].
    intros d' Hn1 Hn2 Hn3. eapply (IH (Some l)); [done | | | | | simpl in Hf; lia].
    + rewrite Hn2. by apply HevList.seg_frame_delete.
    + rewrite Hn1, dom_delete_L, Hd. simpl. set_solver.
    + by rewrite Hn1, Hn2, !dom_delete_L, Hd1.
    + by rewrite Hn1, Hn3, !dom_delete_L, Hd2.
Qed.

Lemma wp_destruct d c : cache d c -> wp hev_mapped_dns_destruct d (fun _ d' => all_freed d').
Proof.
  intros [ls Hinv]. destruct (ci_links _ _ _ Hinv) as (lt & Hlk & _).
  pose proof (lk_lru _ _ _ Hlk) as Hlru. pose proof Hlru as (Hnd & _ & _ & Hseg).
  apply wp_bind, wp_with_lru. eapply wp_mono; [by apply HevList.wp_first|].
  intros r s' [-> ->]. assert (set_lru (lru d) d = d) as -> by by destruct d.
  apply wp_bind. eapply wp_get; [done|].
  eapply wp_destruct_loop; [done | exact Hseg | apply Hlk.. |].
  rewrite <- size_dom, (lk_dom _ _ _ Hlk). by rewrite size_list_to_set.
Qed.

(** ** Retention: how long an answer stays valid *)

(** The abstract cache over a sequence of names. *)
Fixpoint spec_finds (cap : Z) (nms : list bytes) (c : list entry) : list entry :=
  match nms with [] => c | nm :: nms => spec_finds cap nms (spec_find cap nm c).2 end.

(** At most [k] entries are younger than [(nm, i)]. *)
Definition young (k : nat) (nm : bytes) (i : Z) (c : list entry) : Prop :=
  exists c1 c2, c = c1 ++ (nm, i) :: c2 ∧ (length c2 <= k)%nat ∧ nm ∉ (c1 ++ c2).*1.

Lemma without_spec x c : without x c = c \/ exists c1 j c2, c = c1 ++ (x, j) :: c2 ∧ without x c = c1 ++ c2.
Proof.
  induction c as [|[n j] c IH]; simpl; [by left|]. case_decide as Hn.
  - subst. right. by exists [], j, c.
  - destruct IH as [->|(c1 & j' & c2 & -> & ->)]; [by left|].
    right. by exists ((n, j) :: c1), j', c2.
Qed.

Lemma young_append k nm i c x j :
  x ≠ nm -> young k nm i c -> young (S k) nm i (c ++ [(x, j)]).
Proof.
  intros Hx (c1 & c2 & -> & Hk & Hn). exists c1, (c2 ++ [(x, j)]).
  rewrite <- app_assoc, length_app. split_and!; [done | simpl; lia|].
  rewrite !fmap_app in *. set_solver.
Qed.

Lemma young_without k nm i c x : x ≠ nm -> young k nm i c -> young k nm i (without x c).
Proof.
  intros Hx (c1 & c2 & He & Hk & Hn).
  destruct (without_spec x c) as [->|(d1 & j & d2 & Hc & ->)]; [by exists c1, c2|].
  rewrite Hc in He. apply app_eq_inv in He as [([|[n' j'] z] & -> & Hz)|([|[n' j'] z] & -> & Hz)];
    simpl in Hz; simplify_eq.
  - exists c1, (z ++ d2). rewrite <- app_assoc. rewrite !length_app in *. simpl in *.
    split_and!; [done | lia |]. rewrite !fmap_app in *. set_solver.
  - exists (d1 ++ z), c2. rewrite <- app_assoc. split_and!; [done..|].
    rewrite !fmap_app in *. set_solver.
Qed.

Lemma young_find cap nm i k c x :
  young k nm i c -> Z.of_nat (S k) < cap -> young (S k) nm i (spec_find cap x c).2.
Proof.
  intros Hy Hcap. unfold spec_find. destruct (decide (x = nm)) as [->|Hx].
  - destruct Hy as (c1 & c2 & -> & Hk & Hn). rewrite fmap_app in Hn.
    rewrite assoc_app_notin, without_app by set_solver. simpl.
    exists (c1 ++ c2), []. rewrite app_nil_r, fmap_app. split_and!; [done | simpl; lia | done].
  - destruct (assoc x c) as [j|]; [by apply young_append, young_without|].
    case_decide; [by apply young_append|].
    destruct Hy as ([|[n0 j0] c1] & c2 & -> & Hk & Hn); simpl in *; [lia|].
    apply young_append; [done|]. exists c1, c2. split_and!; [done..|]. set_solver.
Qed.

Lemma young_finds cap nm i nms : forall k c,
  young k nm i c -> Z.of_nat (k + length nms) < cap ->
  young (k + length nms) nm i (spec_finds cap nms c).
Proof.
  induction nms as [|x nms IH]; intros k c Hy Hcap; simpl in *; [by rewrite Nat.add_0_r|].
  rewrite <- Nat.add_succ_comm. apply IH; [|lia]. apply young_find; [done|lia].
Qed.

(** Looking a name up makes it the youngest entry, at the index returned. *)
Lemma find_youngest cap nm c : 0 < cap -> NoDup (c.*1) ->
  exists c', (spec_find cap nm c).2 = c' ++ [(nm, (spec_find cap nm c).1)] ∧ nm ∉ c'.*1.
Proof.
  intros Hcap Hnd. unfold spec_find. destruct (assoc nm c) as [i|] eqn:Ha.
  - destruct (assoc_split _ _ _ Ha) as (c1 & c2 & -> & Hw). exists (c1 ++ c2). rewrite Hw.
    split; [done|]. rewrite fmap_app in Hnd |- *. apply NoDup_middle in Hnd. set_solver.
  - apply assoc_None in Ha. case_decide; [by exists c|].
    destruct c as [|[n0 i0] c]; [simpl in *; lia|]. exists c. split; [done|]. set_solver.
Qed.

Lemma name_at_young k nm i c : young k nm i c -> NoDup (c.*2) -> name_at i c = Some nm.
Proof.
  intros (c1 & c2 & -> & _) Hnd. apply name_at_app. rewrite fmap_app in Hnd.
  by apply NoDup_middle in Hnd as (? & _).
Qed.

(** ** Addresses *)

(** The reserved network: [2 ^ k] addresses, of which the cache uses at most
    [2 ^ k - 1]; the constructor checks the size. *)
Record good_network (d : HevMappedDNS) (k : Z) : Prop := {
  gn_k : 0 <= k;
  gn_mask : s32_lnot (mask d) = Z.ones k;
  gn_net : Z.land (net d) (Z.ones k) = 0;
  gn_max : max d <= Z.ones k;
}.

Lemma good_network_params d d' k : same_params d d' -> good_network d k -> good_network d' k.
Proof. intros (H1 & H2 & H3) []. split; rewrite ?H1, ?H2, ?H3; done. Qed.

(** The address handed out for an index leads back to the index. *)
Lemma host_part_address d k i :
  good_network d k -> 0 <= i < max d -> host_part d (Z.lor (net d) i) = i.
Proof.
  intros [Hk Hm Hn Hmax] Hi. unfold host_part. rewrite Hm, Z.land_lor_distr_l, Hn, Z.lor_0_l.
  rewrite Z.land_ones by done. apply Z.mod_small. rewrite Z.ones_equiv in Hmax. lia.
Qed.

Lemma spec_find_range cap d ls c nm :
  cache_inv d ls c -> cap = max d -> 0 <= (spec_find cap nm c).1 < max d.
Proof.
  intros Hinv ->. pose proof (ci_max _ _ _ Hinv) as Hm. pose proof (ci_use _ _ _ Hinv) as Hu.
  unfold spec_find. destruct (assoc nm c) as [i|] eqn:Ha; simpl.
  - destruct (assoc_split _ _ _ Ha) as (c1 & c2 & -> & _).
    pose proof (inv_idx_range _ _ _ Hinv (nm, i) ltac:(set_solver)). simpl in *. lia.
  - case_decide as Hc; simpl; [lia|]. destruct c as [|[n0 i0] c]; [simpl in *; lia|]. simpl.
    pose proof (inv_idx_range _ _ _ Hinv (n0, i0) ltac:(set_solver)). simpl in *. lia.
Qed.

(** ** The properties of the cache *)


(** Looking an address up refines the abstract cache for every 32-bit address: it
    gives the name of the entry with the index in the host part, which becomes the
    youngest, or nothing; the table is never accessed out of bounds. *)
Theorem hev_mapped_dns_lookup_ok d c ip :
  cache d c -> 0 <= s32_lnot (mask d) ->
  exists d', hev_mapped_dns_lookup ip d
      = Some ((spec_lookup (Z.land ip (s32_lnot (mask d))) c).1, d')
    ∧ cache d' (spec_lookup (Z.land ip (s32_lnot (mask d))) c).2 ∧ same_params d d'.
Proof.
  intros Hc Hm. destruct (wp_elim _ _ _ (wp_lookup d c ip Hc Hm)) as (r & d' & He & -> & H1 & H2).
  by exists d'.
Qed.

(** The constructor accepts a capacity that fits the host part and gives an empty
    cache; it refuses any other.  The destructor of any cache frees every node once. *)
Theorem hev_mapped_dns_new_destruct net mask max :
  0 < max ->
  match hev_mapped_dns_new net mask max with
  | Some d => max <= s32_lnot mask ∧ 0 <= s32_lnot mask ∧ cache d []
      ∧ MappedDNS.max d = max ∧ MappedDNS.net d = net ∧ MappedDNS.mask d = mask
  | None => s32_lnot mask < max
  end
  ∧ forall d c, cache d c -> exists d', hev_mapped_dns_destruct d = Some (tt, d') ∧ all_freed d'.
Proof.
  intros Hm. split.
  - destruct (decide (max <= s32_lnot mask)) as [Hle|Hgt].
    + destruct (new_cache net mask max Hm Hle) as (d & -> & ?). split_and!; [done | lia | tauto..].
    + unfold hev_mapped_dns_new, hev_mapped_dns_construct. rewrite decide_True by lia. simpl. lia.
  - intros d c Hc. destruct (wp_elim _ _ _ (wp_destruct d c Hc)) as ([] & d' & ? & ?). by exists d'.
Qed.

(** ** Instances: the network 198.18.0.0/15 with room for two names *)

Definition example_mask : Z := - 2 ^ 17.
Definition example_net : Z := 198 * 2 ^ 24 + 18 * 2 ^ 16 - 2 ^ 32.
Definition example_dns : HevMappedDNS :=
  mk_dns 0 2 example_net example_mask HevList.empty_list HevRBTree.empty_tree ∅ [None; None].

Lemma example_cache : cache example_dns [].
Proof.
  destruct (new_cache example_net example_mask 2 ltac:(lia) ltac:(vm_compute; discriminate))
    as (d & He & Hc & _). vm_compute in He. injection He as <-. exact Hc.
Qed.


Lemma hev_mapped_dns_lookup_ok_witness :
  exists d', hev_mapped_dns_lookup (example_net + 5) example_dns = Some (None, d').
Proof.
  destruct (hev_mapped_dns_lookup_ok example_dns [] (example_net + 5) example_cache) as (d' & H & _);
    [vm_compute; discriminate | by exists d'].
Defined.

Lemma hev_mapped_dns_new_destruct_witness :
  hev_mapped_dns_new example_net example_mask 2 = Some example_dns
  ∧ exists d', hev_mapped_dns_destruct example_dns = Some (tt, d') ∧ all_freed d'.
Proof.
  destruct (hev_mapped_dns_new_destruct example_net example_mask 2 ltac:(lia)) as [_ H].
  split; [vm_compute; reflexivity | exact (H example_dns [] example_cache)].
Defined.

End MappedDNSProofs.
