(* ===== verification/MappedDNSHandle.v ===== *)
(** * Answering DNS queries: [hev_mapped_dns_handle]

    For every request the handler stays inside its buffers (as long as one byte after
    the request can be read), keeps the cache consistent and returns an error or the
    length of a response that fits. *)

From S2P Require Import Prelude MappedDNS MappedDNSProofs.

Module MappedDNSHandle.
Import MappedDNS MappedDNSProofs.

(** The allocator returns memory that is not in use; copying a name succeeds. *)
Class GoodHeap (heap : heap_oracle) : Prop := {
  gh_fresh : forall i live l, (heap i live).1 = Some l -> l ∉ live;
  gh_dup : forall i live, (heap i live).2 = true;
}.

(** ** Accesses to the buffers *)

Section Rules.
Context (d : HevMappedDNS) (r s : bytes).

Lemma wp_rb_get off (Q : Z -> dns_io -> Prop) :
  0 <= off < Z.of_nat (length r) ->
  (forall b, r !! Z.to_nat off = Some b -> Q b (mk_io d r s)) -> wp (rb_get off) (mk_io d r s) Q.
Proof.
  intros Ho HQ. destruct (rd8_bound r off Ho) as [b Hb]. eapply wp_get; [exact Hb|].
  apply HQ. by rewrite <- rd8_lookup by lia.
Qed.

Lemma wp_rb_put off v (Q : unit -> dns_io -> Prop) :
  0 <= off -> off + Z.of_nat (length v) <= Z.of_nat (length r) ->
  (forall r', wr r off v = Some r' -> Q tt (mk_io d r' s)) -> wp (rb_put off v) (mk_io d r s) Q.
Proof.
  intros H1 H2 HQ. pose proof (wr_bound _ _ _ H1 H2) as Hw.
  eapply wp_put; [simpl; by rewrite Hw|]. by apply HQ.
Qed.

Lemma wp_sb_put off v (Q : unit -> dns_io -> Prop) :
  0 <= off -> off + Z.of_nat (length v) <= Z.of_nat (length s) ->
  (forall s', wr s off v = Some s' -> Q tt (mk_io d r s')) -> wp (sb_put off v) (mk_io d r s) Q.
Proof.
  intros H1 H2 HQ. pose proof (wr_bound _ _ _ H1 H2) as Hw.
  eapply wp_put; [simpl; by rewrite Hw|]. by apply HQ.
Qed.

Lemma wp_sb_get16 off (Q : Z -> dns_io -> Prop) :
  0 <= off -> off + 2 <= Z.of_nat (length s) ->
  (forall v, rd s off 2 = Some v -> Q (of_le16 v) (mk_io d r s)) ->
  wp (sb_get16 off) (mk_io d r s) Q.
Proof.
  intros H1 H2 HQ. assert (rd s off 2 = Some (take (Z.to_nat 2) (drop (Z.to_nat off) s))) as Hr
    by (apply rd_bound; lia).
  eapply wp_get; [simpl; by rewrite Hr|]. by apply HQ.
Qed.

Lemma wp_with_self {A} (m : M HevMappedDNS A) (Q : A -> dns_io -> Prop) :
  wp m d (fun a d' => Q a (mk_io d' r s)) -> wp (with_self m) (mk_io d r s) Q.
Proof. unfold wp, with_self. simpl. by destruct (m d) as [[]|]. Qed.
End Rules.

Lemma wp_read_u16 d r s off (Q : Z -> dns_io -> Prop) :
  0 <= off -> off + 1 < Z.of_nat (length r) ->
  (forall a b, r !! Z.to_nat off = Some a -> r !! Z.to_nat (off + 1) = Some b ->
     Q (Z.lor (Z.shiftl a 8) b) (mk_io d r s)) ->
  wp (read_u16 off) (mk_io d r s) Q.
Proof.
  intros H1 H2 HQ. apply wp_bind, wp_rb_get; [lia|]. intros a Ha.
  apply wp_bind, wp_rb_get; [lia|]. intros b Hb. apply wp_ret. by apply HQ.
Qed.

(** ** Skipping a name *)

Lemma wp_skip_name fuel : forall d r s qlen off (Q : option Z -> dns_io -> Prop),
  0 <= off < Z.of_nat (length r) -> qlen <= Z.of_nat (length r) -> bytes_ok r ->
  Z.of_nat (length r) - off < Z.of_nat fuel ->
  (forall r', length r' = length r -> bytes_ok r' -> Q None (mk_io d r' s)) ->
  (forall r' off', length r' = length r -> bytes_ok r' -> off <= off' < Z.of_nat (length r) ->
     r' !! Z.to_nat off' = Some 0 -> Q (Some off') (mk_io d r' s)) ->
  wp (skip_name fuel qlen off) (mk_io d r s) Q.
Proof.
  induction fuel as [|fuel IH]; intros d r s qlen off Q Hoff Hq Hok Hf HN HS; [lia|].
  cbn [skip_name]. apply wp_bind, wp_rb_get; [done|]. intros b Hb.
  pose proof (bytes_ok_lookup _ _ _ Hok Hb) as Hu. unfold is_u8 in Hu.
  case_decide as Hb0; [subst; apply wp_ret; apply HS; [done|done|lia|done]|].
  case_decide; [by apply wp_ret, HN|].
  apply wp_bind, wp_rb_put; [lia | simpl; lia|]. intros r' Hr'.
  pose proof (length_wr _ _ _ _ Hr') as Hlen.
  assert (bytes_ok r') as Hok'.
  { eapply bytes_ok_wr; [exact Hok| |exact Hr']. by repeat constructor. }
  apply IH; rewrite ?Hlen; [lia | lia | done | lia | |].
  - intros r'' Hl. apply HN. congruence.
  - intros r'' off' Hl ? ?. apply HS; [congruence | done | lia].
Qed.

(** ** One question *)

Record io_inv (cap nt msk : Z) (R S : nat) (st : dns_io) : Prop := {
  io_cache : exists c, cache (self st) c;
  io_params : max (self st) = cap ∧ net (self st) = nt ∧ mask (self st) = msk;
  io_rb : length (rb st) = R ∧ bytes_ok (rb st);
  io_sb : length (sb st) = S;
}.

Section Handle.
Context (heap : heap_oracle) `{!GoodHeap heap} (cap nt msk : Z) (R S : nat).
Abbreviation inv := (io_inv cap nt msk R S).

Lemma wp_question i qlen off st :
  inv st -> 0 <= off <= qlen -> qlen < Z.of_nat R ->
  wp (question heap i qlen off) st (fun r st' => inv st' ∧ sb st' = sb st ∧
    match r with
    | None => True
    | Some (off', _) => off < off' <= qlen
    end).
Proof.
  intros [[c Hc] Hp [Hr Hok] Hs] Hoff Hq. destruct st as [d r s]. simpl in *.
  apply wp_bind. eapply wp_get; [done|]. apply wp_bind. cbn [rb].
  apply wp_skip_name; [lia | lia | done | lia | |].
  { intros r' Hl Hok'. apply wp_ret. split; [|done].
    split; simpl; [by exists c | done | by rewrite Hl | done]. }
  intros r' off' Hl Hok' Ho Hz. case_decide as Hlim.
  { apply wp_ret. split; [|done]. split; simpl; [by exists c | done | by rewrite Hl | done]. }
  apply wp_bind, wp_read_u16; [lia | lia |]. intros a b Ha Hb.
  pose proof (bytes_ok_lookup _ _ _ Hok' Ha) as Hua. pose proof (bytes_ok_lookup _ _ _ Hok' Hb) as Hub.
  rewrite lor_shift_8 by (done || apply Hua). unfold is_u8 in Hua, Hub.
  apply wp_bind.
  apply wp_mono with (P := fun c st' => st' = mk_io d r' s ∧ (c = 1 -> a = 0)).
  { case_decide; [|by apply wp_ret]. apply wp_read_u16; [lia|lia|]. intros. split; [done|lia]. }
  intros cl st' [-> Ha0]. apply wp_bind.
  apply wp_mono with (P := fun (_ : option (Z * Z)) st' => inv st' ∧ sb st' = s); cycle 1.
  { intros ans st' [Hi Hsb]. apply wp_ret. split_and!; [done | done | lia..]. }
  assert (length r' = R) as HlR by congruence.
  case_decide as Hc1; [|apply wp_ret; split; [split; simpl; [by exists c | done..]|done]].
  specialize (Ha0 Hc1). subst a. assert (0 ∈ drop (Z.to_nat (off + 1)) r') as Hnul.
  { destruct (decide (off' = off)) as [->|Hne].
    - apply (list_elem_of_lookup_2 _ 0). by rewrite lookup_drop, Nat.add_0_r.
    - apply (list_elem_of_lookup_2 _ (Z.to_nat off' - Z.to_nat (off + 1))).
      rewrite lookup_drop. rewrite <- Hz. f_equal. lia. }
  destruct (cstr_of_nul _ Hnul) as [nm Hnm].
  assert (cstr_ok nm) as Hnmok by (eapply cstr_of_ok, Hnm; by apply bytes_ok_drop).
  apply wp_bind. eapply wp_get; [rewrite decide_True by lia; exact Hnm|].
  apply wp_bind. eapply wp_get; [done|]. simpl. rewrite gh_dup.
  apply wp_bind, wp_with_self. eapply wp_mono; [apply wp_find; [exact Hc | exact Hnmok|]|].
  { intros l Hfr. apply gh_fresh in Hfr. by apply not_elem_of_dom. }
  intros idx d' Hpost. assert ((exists c', cache d' c') ∧ same_params d d') as [Hc' [Hp1 [Hp2 Hp3]]].
  { unfold find_post_mem in Hpost. case_match; [|case_match];
      [destruct Hpost as (_ & ? & ?) | destruct Hpost as (_ & ? & ?) | destruct Hpost as [_ ->]];
      split; try done; [by eexists | by eexists | by exists c]. }
  assert (inv (mk_io d' r' s)) as Hinv'.
  { destruct Hp as (H1 & H2 & H3). split; simpl; [done | split_and!; congruence | done | done]. }
  case_decide; [|by apply wp_ret]. apply wp_bind. eapply wp_get; [done|]. by apply wp_ret.
Qed.

Lemma wp_questions todo : forall i qlen off ips st,
  inv st -> 0 <= off <= qlen -> qlen < Z.of_nat R ->
  wp (questions heap todo i qlen off ips) st (fun r st' => inv st' ∧ sb st' = sb st ∧
    match r with None => True | Some (off', _) => off <= off' <= qlen end).
Proof.
  induction todo as [|todo IH]; intros i qlen off ips st Hinv Ho Hq; cbn [questions].
  - apply wp_ret. split_and!; [done | done | lia..].
  - apply wp_bind. eapply wp_mono; [by apply wp_question|].
    intros [[off' [a|]]|] st' (Hinv' & Hsb & Hr).
    + eapply wp_mono; [apply IH; [done|lia|done]|]. intros r st'' (H1 & H2 & H3).
      split_and!; [done | congruence |]. destruct r as [[]|]; [lia|done].
    + eapply wp_mono; [apply IH; [done|lia|done]|]. intros r st'' (H1 & H2 & H3).
      split_and!; [done | congruence |]. destruct r as [[]|]; [lia|done].
    + by apply wp_ret.
Qed.

(** ** Writing the response *)

Lemma inv_sb d r s s' : length s' = length s -> inv (mk_io d r s) -> inv (mk_io d r s').
Proof. intros Hl [H1 H2 H3 H4]. split; simpl in *; [done..|congruence]. Qed.

Lemma wp_put_inv off v d r s (Q : unit -> dns_io -> Prop) :
  inv (mk_io d r s) -> 0 <= off -> off + Z.of_nat (length v) <= Z.of_nat S ->
  (forall s', inv (mk_io d r s') -> Q tt (mk_io d r s')) ->
  wp (sb_put off v) (mk_io d r s) Q.
Proof.
  intros Hinv H1 H2 HQ. pose proof (io_sb _ _ _ _ _ _ Hinv) as HS. simpl in HS.
  apply wp_sb_put; [done | lia |]. intros s' Hs'. apply HQ.
  eapply inv_sb; [|done]. by eapply length_wr.
Qed.

Ltac put_inv H := repeat first
  [ apply wp_bind | apply wp_put_inv; [exact H | lia | simpl; lia |]; clear H; intros ? H ].

Lemma wp_answers ips : forall slen off st,
  inv st -> 0 <= off -> off <= slen -> slen <= Z.of_nat S ->
  wp (answers slen off ips) st (fun r st' => inv st' ∧
    match r with
    | None => slen < off + 16 * Z.of_nat (length ips)
    | Some off' => off' = off + 16 * Z.of_nat (length ips) ∧ off' <= slen
    end).
Proof.
  induction ips as [|[ip ipo] ips IH]; intros slen off [d r s] Hinv H0 H1 H2; cbn [answers].
  - apply wp_ret. simpl. split; [done | lia].
  - case_decide; [apply wp_ret; simpl length; split; [done|lia]|].
    unfold write_u16, write_u32. put_inv Hinv. 
    eapply wp_mono; [apply IH; [exact Hinv | lia..]|]. intros res st' [Hi Hres].
    split; [done|]. simpl length. destruct res; lia.
Qed.

Lemma wp_handle qlen slen st :
  inv st -> 12 <= qlen < Z.of_nat R -> slen <= Z.of_nat S ->
  wp (hev_mapped_dns_handle heap qlen slen) st (fun r st' => inv st' ∧
    (r = -1 \/ 12 <= r <= slen)).
Proof.
  intros Hinv Hq Hs. unfold hev_mapped_dns_handle. destruct st as [d r s].
  case_decide; [apply wp_ret; split; [done|by left]|].
  pose proof (io_rb _ _ _ _ _ _ Hinv) as [Hr Hok]. simpl in Hr, Hok.
  assert (rd r 0 qlen = Some (take (Z.to_nat qlen) r)) as Hrd
    by (rewrite rd_bound by lia; by rewrite drop_0).
  apply wp_bind. eapply wp_get; [exact Hrd|]. apply length_rd in Hrd.
  apply wp_bind, wp_put_inv; [exact Hinv | lia | lia |]. clear Hinv. intros s1 Hinv.
  apply wp_bind. assert (rd r 4 2 = Some (take (Z.to_nat 2) (drop (Z.to_nat 4) r))) as Hqd
    by (apply rd_bound; lia).
  eapply wp_get; [simpl; rewrite Hqd; done|]. simpl Z.to_nat.
  set (qd := ntohs _). apply wp_bind, wp_rb_put; [lia | simpl; lia |]. intros r1 Hr1.
  pose proof (length_wr _ _ _ _ Hr1) as Hlen.
  pose proof (bytes_ok_wr _ _ _ _ Hok (le16_ok _) Hr1) as Hok1.
  assert (inv (mk_io d r1 s1)) as Hinv1.
  { destruct Hinv as [H1 H2 H3 H4]. split; simpl in *; [done | done | by rewrite Hlen | done]. }
  clear Hinv. pose proof (io_sb _ _ _ _ _ _ Hinv1) as HS. simpl in HS.
  apply wp_bind, wp_sb_get16; [lia|lia|]. intros fl Hfl. put_inv Hinv1.
  case_decide; [apply wp_ret; split; [done|by left]|].
  apply wp_bind. eapply wp_mono; [by apply wp_questions; [exact Hinv1|lia..]|].
  intros [[off ips]|] [d2 r2 s2] (Hinv2 & _ & Hoff); [|apply wp_ret; split; [done|by left]].
  apply wp_bind. eapply wp_mono; [apply wp_answers; [exact Hinv2|lia..]|].
  intros [off'|] [d3 r3 s3] (Hinv3 & Hoff'); [|apply wp_ret; split; [done|by left]].
  pose proof (io_sb _ _ _ _ _ _ Hinv3) as HS3. simpl in HS3.
  apply wp_bind, wp_sb_get16; [lia|lia|]. intros fl' Hfl'. put_inv Hinv3.
  apply wp_ret. split; [done|]. right. lia.
Qed.
End Handle.

(** ** Many lookups in a row *)

Fixpoint find_all (heap : heap_oracle) (i : nat) (nms : list bytes) : M HevMappedDNS unit :=
  match nms with
  | [] => mret tt
  | nm :: nms =>
      a ← mget (fun d => Some (heap i (dom (nodes d))));
      hev_mapped_dns_find (fst a) (snd a) nm;;
      find_all heap (S i) nms
  end.

Lemma young_mono k k' nm i c : young k nm i c -> (k <= k')%nat -> young k' nm i c.
Proof. intros (c1 & c2 & He & Hk & Hn) Hle. exists c1, c2. split_and!; [done | lia | done]. Qed.

Lemma wp_find_all (heap : heap_oracle) `{!GoodHeap heap} nm idx nms : forall j k d c,
  cache d c -> Forall cstr_ok nms -> young k nm idx c -> Z.of_nat (k + length nms) < max d ->
  wp (find_all heap j nms) d (fun _ d' => exists c',
    cache d' c' ∧ young (k + length nms) nm idx c' ∧ same_params d d').
Proof.
  induction nms as [|x nms IH]; intros j k d c Hc Hok Hy Hk; cbn [find_all].
  - apply wp_ret. exists c. rewrite Nat.add_0_r. done.
  - apply Forall_cons in Hok as [Hx Hok]. simpl length in Hk |- *.
    apply wp_bind. eapply wp_get; [done|]. rewrite gh_dup. apply wp_bind.
    eapply wp_mono; [apply (wp_find _ c); [exact Hc | exact Hx|]|].
    { intros l Hl. apply not_elem_of_dom. by eapply gh_fresh. }
    intros r d' Hpost. assert (exists c', cache d' c' ∧ same_params d d' ∧ young (S k) nm idx c')
      as (c' & Hc' & Hp & Hy').
    { unfold find_post_mem in Hpost. case_match; [|case_match];
        [destruct Hpost as (_ & Hc' & Hp) | destruct Hpost as (_ & Hc' & Hp) | destruct Hpost as [_ ->]].
      - eexists. split_and!; [exact Hc' | exact Hp | apply young_find; [done|lia]].
      - eexists. split_and!; [exact Hc' | exact Hp | apply young_find; [done|lia]].
      - exists c. split_and!; [done | done | eapply young_mono; [done|lia]]. }
    pose proof Hp as (Hp1 & Hp2 & Hp3).
    eapply wp_mono; [eapply (IH _ (S k)); [exact Hc' | done | done | rewrite Hp1; lia]|].
    intros _ d'' (c'' & Hc'' & Hy'' & Hq1 & Hq2 & Hq3). exists c''.
    rewrite <- Nat.add_succ_comm. split_and!; [done | done |]. split_and!; congruence.
Qed.

(** ** The properties of the handler *)


(** An answer stays valid while fewer names than the cache holds are looked up: the
    address given for a name leads back to the name after any such sequence of lookups. *)
Theorem hev_mapped_dns_retention (heap : heap_oracle) `{!GoodHeap heap} d c nm l k nms :
  cache d c -> cstr_ok nm -> nodes d !! l = None -> good_network d k ->
  Forall cstr_ok nms -> Z.of_nat (length nms) < max d ->
  exists i d1 d2 d3, hev_mapped_dns_find (Some l) true nm d = Some (i, d1)
    ∧ find_all heap 0 nms d1 = Some (tt, d2)
    ∧ hev_mapped_dns_lookup (Z.lor (net d) i) d2 = Some (Some nm, d3).
Proof.
  intros Hc Hnm Hl Hnet Hok Hlen. pose proof Hc as [ls Hinv].
  destruct (wp_elim _ _ _ (wp_find d c nm (Some l) Hc Hnm ltac:(by intros ? [= <-])))
    as (i & d1 & He & Hi & Hc1 & Hp1).
  pose proof (spec_find_range (max d) d ls c nm Hinv eq_refl) as Hr. rewrite <- Hi in Hr.
  pose proof (ci_max _ _ _ Hinv) as Hm.
  destruct (find_youngest (max d) nm c ltac:(lia) (inv_names_nodup _ _ _ Hinv)) as (c' & Hc' & Hn).
  assert (young 0 nm i (spec_find (max d) nm c).2) as Hy.
  { exists c', []. rewrite Hc', <- Hi, app_nil_r. done. }
  pose proof Hp1 as (Hmax1 & Hnet1 & _).
  destruct (wp_elim _ _ _ (wp_find_all heap nm i nms 0 0 d1 _ Hc1 Hok Hy ltac:(rewrite Hmax1; simpl; lia)))
    as ([] & d2 & He2 & c2 & Hc2 & Hy2 & Hp2). pose proof Hp2 as (Hmax2 & Hnet2 & _).
  pose proof (good_network_params _ _ _ Hp2 (good_network_params _ _ _ Hp1 Hnet)) as Hg2.
  assert (host_part d2 (Z.lor (net d) i) = i) as Hh.
  { rewrite <- Hnet1, <- Hnet2. apply (host_part_address d2 k); [done | congruence || lia]. }
  assert (0 <= s32_lnot (mask d2)) as Hmask.
  { destruct Hg2 as [Hk -> _ _]. rewrite Z.ones_equiv. pose proof (Z.pow_pos_nonneg 2 k). lia. }
  destruct (wp_elim _ _ _ (wp_lookup d2 c2 (Z.lor (net d) i) Hc2 Hmask)) as (r & d3 & He3 & Hr3 & _).
  exists i, d1, d2, d3. split_and!; [done | done |]. rewrite He3, Hr3, Hh. destruct Hc2 as [ls2 Hinv2].
  unfold spec_lookup. rewrite (name_at_young _ _ _ _ Hy2) by by eapply inv_idx_nodup. done.
Qed.

(** A heap that always has a fresh location. *)
Definition fresh_heap : heap_oracle := fun _ live => (Some (fresh live), true).

#[export] Instance fresh_heap_good : GoodHeap fresh_heap.
Proof. split; [|done]. intros i live l [= <-]. apply is_fresh. Qed.


Lemma hev_mapped_dns_retention_witness :
  exists i d1 d2 d3, hev_mapped_dns_find (Some 1%positive) true [97; 98] example_dns = Some (i, d1)
    ∧ find_all fresh_heap 0 [[99]] d1 = Some (tt, d2)
    ∧ hev_mapped_dns_lookup (Z.lor example_net i) d2 = Some (Some [97; 98], d3).
Proof.
  apply (hev_mapped_dns_retention fresh_heap example_dns [] [97; 98] 1 17 [[99]]).
  - exact example_cache.
  - by repeat constructor.
  - done.
  - split; [done | done | done | vm_compute; discriminate].
  - by repeat constructor.
  - done.
Defined.

End MappedDNSHandle.
