(* ===== verification/MappedDNSQuery.v ===== *)
(** * The answer to an address query

    A well-formed request with one question of type A and class IN is answered with
    the question and one record that holds the address of the name's cache entry. *)

From S2P Require Import Prelude MappedDNS MappedDNSProofs MappedDNSHandle.

Module MappedDNSQuery.
Import MappedDNS MappedDNSProofs MappedDNSHandle.

(** ** Wire format *)

(** The labels of a name, and the text the cache keys on. *)
Definition label_ok (l : bytes) : Prop := cstr_ok l ∧ (1 <= length l <= 63)%nat.

Definition enc_label (l : bytes) : bytes := Z.of_nat (length l) :: l.
Definition enc_labels (ls : list bytes) : bytes := concat (enc_label <$> ls).
(** After the handler has overwritten the lengths *)
Definition dotted (ls : list bytes) : bytes := concat (cons 46 <$> ls).
Definition name_text (ls : list bytes) : bytes := tail (dotted ls).

Definition question_bytes (ls : list bytes) : bytes := enc_labels ls ++ [0; 0; 1; 0; 1].
Definition header (id fl : bytes) (qd an ns ar : Z) : bytes :=
  id ++ fl ++ be16 qd ++ be16 an ++ be16 ns ++ be16 ar.

Definition be32 (v : Z) : bytes :=
  [u8 (Z.shiftr v 24); u8 (Z.shiftr v 16); u8 (Z.shiftr v 8); u8 v].
Definition answer_bytes (ip : Z) : bytes := [192; 12; 0; 1; 0; 1; 0; 0; 0; 1; 0; 4] ++ be32 ip.

Definition response_flags (fl : Z) : Z := Z.lor (Z.lor fl 32768) (Z.shiftr (Z.land fl 256) 1).

(** ** Blocks of memory *)

Lemma wr_shift a m k v :
  0 <= k -> wr (a ++ m) (Z.of_nat (length a) + k) v = app a <$> wr m k v.
Proof.
  intros Hk. unfold wr. rewrite length_app. repeat case_decide; try (exfalso; lia); [|done]. simpl.
  replace (Z.to_nat (Z.of_nat (length a) + k)) with (length a + Z.to_nat k)%nat by lia.
  rewrite take_app_add, <- Nat.add_assoc, drop_app_add. by rewrite <- app_assoc.
Qed.

Lemma lookup_shift (a m : bytes) k : (a ++ m) !! (length a + k)%nat = m !! k.
Proof. rewrite lookup_app_r by lia. f_equal. lia. Qed.

Lemma rd8_shift a m k : 0 <= k -> rd8 (a ++ m) (Z.of_nat (length a) + k) = rd8 m k.
Proof.
  intros Hk. rewrite !rd8_lookup by lia.
  replace (Z.to_nat (Z.of_nat (length a) + k)) with (length a + Z.to_nat k)%nat by lia.
  apply lookup_shift.
Qed.

Lemma rd8_head a b m : rd8 (a ++ b :: m) (Z.of_nat (length a)) = Some b.
Proof. rewrite <- (Z.add_0_r (Z.of_nat (length a))), rd8_shift by lia. done. Qed.

Lemma wr_head a b m v : wr (a ++ b :: m) (Z.of_nat (length a)) [v] = Some (a ++ v :: m).
Proof.
  rewrite <- (Z.add_0_r (Z.of_nat (length a))), wr_shift by lia.
  rewrite wr_bound by (simpl; lia). simpl. done.
Qed.

(** ** Skipping a well-formed name *)

Lemma skip_labels ls : forall fuel d pre rest s qlen,
  Forall label_ok ls -> (length ls < fuel)%nat ->
  Z.of_nat (length pre + length (enc_labels ls)) < qlen ->
  skip_name fuel qlen (Z.of_nat (length pre)) (mk_io d (pre ++ enc_labels ls ++ 0 :: rest) s)
  = Some (Some (Z.of_nat (length pre + length (enc_labels ls))),
          mk_io d (pre ++ dotted ls ++ 0 :: rest) s).
Proof.
  induction ls as [|l ls IH]; intros fuel d pre rest s qlen Hok Hf Hq;
    (destruct fuel as [|fuel]; [simpl in Hf; lia|]); cbn [skip_name].
  - change (enc_labels []) with (@nil Z). simpl app.
    erewrite bind_some by (unfold rb_get, mget; cbn [rb]; by rewrite rd8_head).
    by rewrite Nat.add_0_r.
  - apply Forall_cons in Hok as [[Hl Hlen] Hok].
    assert (enc_labels (l :: ls) = Z.of_nat (length l) :: l ++ enc_labels ls) as He by done.
    rewrite He in Hq |- *. simpl app.
    erewrite bind_some by (unfold rb_get, mget; cbn [rb]; by rewrite rd8_head).
    rewrite decide_False by lia. simpl length in Hq. rewrite length_app in Hq.
    rewrite decide_False by lia.
    erewrite bind_some by (unfold rb_put, mput; cbn [rb self sb]; by rewrite wr_head).
    replace (pre ++ 46 :: (l ++ enc_labels ls) ++ 0 :: rest)
      with ((pre ++ 46 :: l) ++ enc_labels ls ++ 0 :: rest)
      by (rewrite <- !app_assoc; done).
    replace (Z.of_nat (length pre) + 1 + Z.of_nat (length l))
      with (Z.of_nat (length (pre ++ 46 :: l))) by (rewrite length_app; simpl; lia).
    rewrite (IH fuel d (pre ++ 46 :: l) rest s qlen);
      [|done | simpl in Hf; lia | rewrite length_app; simpl; lia].
    f_equal. f_equal; [f_equal; rewrite length_app; simpl; rewrite length_app; lia|].
    change (dotted (l :: ls)) with (46 :: l ++ dotted ls).
    rewrite <- app_assoc. simpl. by rewrite <- app_assoc.
Qed.
(** ** Writing the answer record *)

Section Cells.
Context (d : HevMappedDNS) (r a : bytes).

Lemma sb_put_cell m off k v (Q : unit -> dns_io -> Prop) :
  off = Z.of_nat (length a) + k -> 0 <= k < Z.of_nat (length m) ->
  Q tt (mk_io d r (a ++ <[Z.to_nat k := v]> m)) ->
  wp (sb_put off [v]) (mk_io d r (a ++ m)) Q.
Proof.
  intros -> Hk HQ. eapply wp_put; [|exact HQ]. cbn [sb self rb].
  by rewrite wr_shift, wr_byte by lia.
Qed.

Lemma write_u16_cell m off k v (Q : unit -> dns_io -> Prop) :
  off = Z.of_nat (length a) + k -> 0 <= k -> k + 1 < Z.of_nat (length m) ->
  Q tt (mk_io d r (a ++ <[Z.to_nat (k + 1) := u8 v]> (<[Z.to_nat k := u8 (Z.shiftr v 8)]> m))) ->
  wp (write_u16 off v) (mk_io d r (a ++ m)) Q.
Proof.
  intros -> Hk Hm HQ. apply wp_bind, (sb_put_cell _ _ k); [done | lia|].
  apply (sb_put_cell _ _ (k + 1)); [lia | rewrite length_insert; lia | exact HQ].
Qed.

Lemma write_u32_cell m off k v (Q : unit -> dns_io -> Prop) :
  off = Z.of_nat (length a) + k -> 0 <= k -> k + 3 < Z.of_nat (length m) ->
  Q tt (mk_io d r (a ++
    <[Z.to_nat (k + 3) := u8 v]> (<[Z.to_nat (k + 2) := u8 (Z.shiftr v 8)]>
    (<[Z.to_nat (k + 1) := u8 (Z.shiftr v 16)]> (<[Z.to_nat k := u8 (Z.shiftr v 24)]> m))))) ->
  wp (write_u32 off v) (mk_io d r (a ++ m)) Q.
Proof.
  intros -> Hk Hm HQ. apply wp_bind, (sb_put_cell _ _ k); [done | lia|].
  apply wp_bind, (sb_put_cell _ _ (k + 1)); [lia | rewrite length_insert; lia |].
  apply wp_bind, (sb_put_cell _ _ (k + 2)); [lia | rewrite !length_insert; lia |].
  apply (sb_put_cell _ _ (k + 3)); [lia | rewrite !length_insert; lia | exact HQ].
Qed.

Lemma wp_answer_one old rest ip slen (Q : option Z -> dns_io -> Prop) :
  length old = 16%nat -> Z.of_nat (length a) + 15 < slen ->
  Q (Some (Z.of_nat (length a) + 16)) (mk_io d r (a ++ answer_bytes ip ++ rest)) ->
  wp (answers slen (Z.of_nat (length a)) [(ip, 12)]) (mk_io d r (a ++ old ++ rest)) Q.
Proof.
  intros Hold Hs HQ. do 17 (destruct old as [|? old]; [done || simpl in Hold|]); [|done].
  cbn [answers]. rewrite decide_False by lia. simpl app.
  apply wp_bind, (sb_put_cell _ _ 0); [lia | simpl; lia |].
  apply wp_bind, (sb_put_cell _ _ 1); [lia | simpl; lia |].
  apply wp_bind, (write_u16_cell _ _ 2); [lia | lia | simpl; lia |].
  apply wp_bind, (write_u16_cell _ _ 4); [lia | lia | simpl; lia |].
  apply wp_bind, (write_u32_cell _ _ 6); [lia | lia | simpl; lia |].
  apply wp_bind, (write_u16_cell _ _ 10); [lia | lia | simpl; lia |].
  apply wp_bind, (write_u32_cell _ _ 12); [lia | lia | simpl; lia |].
  apply wp_ret. exact HQ.
Qed.
End Cells.

(** ** The whole request *)

Lemma of_le16_be16 v : is_u16 v -> of_le16 (be16 v) = htons v.
Proof.
  intros H. unfold htons, swap16, be16, of_le16. rewrite u16_id by done. unfold is_u16 in H.
  Z.div_mod_to_equations. lia.
Qed.

Lemma ntohs_be16 v : is_u16 v -> ntohs (of_le16 (be16 v)) = v.
Proof. intros. rewrite of_le16_be16 by done. by apply ntohs_htons. Qed.

Lemma label_cstr l : label_ok l -> cstr_ok l.
Proof. by intros []. Qed.

Lemma dotted_ok ls : Forall label_ok ls -> cstr_ok (dotted ls).
Proof.
  induction 1 as [|l ls [Hl _] _ IH]; [constructor|].
  change (dotted (l :: ls)) with (46 :: l ++ dotted ls). apply Forall_cons. split; [lia|].
  by apply Forall_app.
Qed.

Lemma name_text_ok ls : Forall label_ok ls -> cstr_ok (name_text ls).
Proof.
  intros Hls%dotted_ok. unfold name_text. destruct (dotted ls); [constructor|].
  by apply Forall_cons in Hls as [_ ?].
Qed.

Lemma dotted_name ls : ls ≠ [] -> dotted ls = 46 :: name_text ls.
Proof. by destruct ls. Qed.

Lemma enc_labels_length ls : Forall label_ok ls -> (length ls <= length (enc_labels ls))%nat.
Proof.
  induction 1 as [|l ls Hl _ IH]; [done|].
  change (enc_labels (l :: ls)) with ((Z.of_nat (length l) :: l) ++ enc_labels ls).
  rewrite length_app. simpl. lia.
Qed.

Lemma dotted_length ls : length (dotted ls) = length (enc_labels ls).
Proof.
  induction ls as [|l ls IH]; [done|].
  change (enc_labels (l :: ls)) with ((Z.of_nat (length l) :: l) ++ enc_labels ls).
  change (dotted (l :: ls)) with ((46 :: l) ++ dotted ls). rewrite !length_app, IH. done.
Qed.

Lemma wp_read_u16_at d a x y rest s k (Q : Z -> dns_io -> Prop) :
  0 <= x -> is_u8 y -> k = Z.of_nat (length a) ->
  Q (x * 2 ^ 8 + y) (mk_io d (a ++ x :: y :: rest) s) ->
  wp (read_u16 k) (mk_io d (a ++ x :: y :: rest) s) Q.
Proof.
  intros Hx Hy -> HQ. apply wp_read_u16; [lia | rewrite length_app; simpl; lia |].
  intros a' b' Ha Hb. rewrite Nat2Z.id, lookup_app_r, Nat.sub_diag in Ha by lia.
  replace (Z.to_nat (Z.of_nat (length a) + 1)) with (length a + 1)%nat in Hb by lia.
  rewrite lookup_app_r in Hb by lia. replace (length a + 1 - length a)%nat with 1%nat in Hb by lia.
  simpl in Ha, Hb. injection Ha as <-. injection Hb as <-. by rewrite lor_shift_8.
Qed.

Section Query.
Context (heap : heap_oracle) `{!GoodHeap heap} (d : HevMappedDNS) (c : list entry).
Context (ls : list bytes) (s : bytes).
Hypothesis (Hc : cache d c) (Hls : Forall label_ok ls) (Hne : ls ≠ []).

(** The question is answered with the slot of the name's entry. *)
Lemma wp_question_a pre slack l qlen (Q : option (Z * option (Z * Z)) -> dns_io -> Prop) :
  (heap 0%nat (dom (nodes d))).1 = Some l ->
  qlen = Z.of_nat (length pre + length (question_bytes ls)) ->
  let i := (spec_find (max d) (name_text ls) c).1 in
  0 <= i ->
  (forall d' r', find_post d c (name_text ls) i d' ->
     Q (Some (qlen, Some (Z.lor (net d) i, Z.of_nat (length pre)))) (mk_io d' r' s)) ->
  wp (question heap 0%nat qlen (Z.of_nat (length pre)))
    (mk_io d (pre ++ question_bytes ls ++ slack) s) Q.
Proof.
  intros Hl Hq i Hi HQ. unfold question_bytes in *. rewrite <- app_assoc. simpl app.
  rewrite length_app in Hq. simpl length in Hq.
  pose proof (enc_labels_length _ Hls) as Hll.
  apply wp_bind. eapply wp_get; [done|]. cbn [rb]. apply wp_bind.
  eapply wp_intro; [apply skip_labels; [exact Hls| rewrite !length_app; simpl; lia | lia]|].
  cbn beta iota zeta. rewrite decide_False by lia.
  apply wp_bind.
  replace (pre ++ dotted ls ++ 0 :: 0 :: 1 :: 0 :: 1 :: slack)
    with ((pre ++ dotted ls ++ [0]) ++ 0 :: 1 :: 0 :: 1 :: slack) by by rewrite <- !app_assoc.
  apply wp_read_u16_at;
    [done | done | rewrite !length_app, dotted_length; simpl; lia |].
  apply wp_bind. rewrite decide_True by done.
  replace ((pre ++ dotted ls ++ [0]) ++ 0 :: 1 :: 0 :: 1 :: slack)
    with ((pre ++ dotted ls ++ [0; 0; 1]) ++ 0 :: 1 :: slack) by by rewrite <- !app_assoc.
  apply wp_read_u16_at;
    [done | done | rewrite !length_app, dotted_length; simpl; lia |].
  apply wp_bind. rewrite decide_True by done. apply wp_bind.
  eapply wp_get.
  { rewrite decide_True by lia. cbn [rb]. rewrite dotted_name by done.
    replace (Z.to_nat (Z.of_nat (length pre) + 1)) with (length pre + 1)%nat by lia.
    rewrite <- app_assoc, drop_app_add. simpl. rewrite <- app_assoc. simpl.
    apply cstr_of_app. by apply name_text_ok. }
  apply wp_bind. eapply wp_get; [done|]. cbn [self]. rewrite Hl, gh_dup.
  apply wp_bind, wp_with_self. eapply wp_mono.
  { apply (wp_find _ c); [exact Hc | by apply name_text_ok|].
    intros l' [= <-]. apply not_elem_of_dom. by eapply gh_fresh. }
  intros r' d' Hpost. unfold find_post_mem in Hpost. destruct Hpost as (Hr & Hpost).
  subst r'. fold i. rewrite decide_True by lia. apply wp_bind. eapply wp_get; [done|].
  apply wp_ret, wp_ret. destruct Hpost as (Hcd & Hp1 & Hp2 & Hp3). cbn [self]. rewrite Hp2.
  replace (Z.of_nat (length pre + length (enc_labels ls)) + 1 + 4) with qlen by lia.
  apply HQ. by split.
Qed.
End Query.

Lemma take_exact {A} (a b : list A) n : n = Z.of_nat (length a) -> take (Z.to_nat n) (a ++ b) = a.
Proof. intros ->. by rewrite Nat2Z.id, take_app_length. Qed.

Lemma wr_prefix v m : (length v <= length m)%nat ->
  wr m 0 v = Some (v ++ drop (length v) m).
Proof. intros H. rewrite wr_bound by lia. done. Qed.

(** An in-place write into the header of a message. *)
Lemma wp_sb_header d r s s' off v (Q : unit -> dns_io -> Prop) :
  wr s off v = Some s' -> Q tt (mk_io d r s') -> wp (sb_put off v) (mk_io d r s) Q.
Proof. intros Hw HQ. eapply wp_put; [cbn [sb self rb]; by rewrite Hw | exact HQ]. Qed.

(** Evaluating accesses to the explicit bytes of a header. *)
Ltac cells :=
  change (Z.to_nat 2) with 2%nat; change (Z.to_nat 4) with 4%nat; change (Z.to_nat 6) with 6%nat;
  change (Z.to_nat 8) with 8%nat; change (Z.to_nat 10) with 10%nat;
  cbn [Nat.add take drop app length le16 self rb sb].
Ltac header_put :=
  apply wp_bind; eapply wp_sb_header;
    [rewrite wr_bound by (simpl; lia); reflexivity|]; cells.

Section Message.
Context (heap : heap_oracle) `{!GoodHeap heap} (d : HevMappedDNS) (c : list entry).
Context (ls : list bytes) (i0 i1 : Z) (fl an ns ar : Z) (slack s : bytes).
Hypothesis (Hc : cache d c) (Hls : Forall label_ok ls) (Hne : ls ≠ []) (Hfl : is_u16 fl).

Definition request : bytes := header [i0; i1] (be16 fl) 1 an ns ar ++ question_bytes ls.
Definition response (ip : Z) : bytes :=
  header [i0; i1] (be16 (response_flags fl)) 1 1 0 0 ++ question_bytes ls ++ answer_bytes ip.

Lemma response_flags_u16 : is_u16 (response_flags fl).
Proof.
  unfold response_flags. apply (lor_bound 16); [lia | apply (lor_bound 16); [lia|done|lia] |].
  rewrite Z.shiftr_div_pow2 by lia.
  pose proof (land_bound 16 fl 256 ltac:(lia) Hfl ltac:(lia)) as Hb.
  change (2 ^ 1) with 2. Z.div_mod_to_equations. lia.
Qed.

Lemma wp_handle_query l slen (Q : Z -> dns_io -> Prop) :
  let qlen := Z.of_nat (length request) in
  let i := (spec_find (max d) (name_text ls) c).1 in
  (heap 0%nat (dom (nodes d))).1 = Some l -> 0 <= i ->
  slen = Z.of_nat (length s) -> qlen + 16 <= slen ->
  (forall d' r', find_post d c (name_text ls) i d' ->
     Q (qlen + 16) (mk_io d' r' (response (Z.lor (net d) i) ++ drop (Z.to_nat (qlen + 16)) s))) ->
  wp (hev_mapped_dns_handle heap qlen slen) (mk_io d (request ++ slack) s) Q.
Proof.
  intros qlen i Hl Hi Hslen Hroom HQ. unfold hev_mapped_dns_handle.
  rewrite decide_False by lia.
  assert (Z.of_nat (length request) = qlen) as Hq by done. clearbody qlen.
  apply wp_bind. eapply wp_get.
  { cbn [rb]. rewrite rd_bound by (rewrite ?length_app; lia).
    change (Z.to_nat 0) with 0%nat. by rewrite drop_0, take_exact. }
  apply wp_bind. eapply wp_sb_header; [apply wr_prefix; lia|].
  set (s1 := drop (length request) s).
  pose proof (ntohs_be16 fl Hfl) as Hflags. unfold be16 in Hflags.
  unfold request, header, be16. simpl app.
  change ((1 / 2 ^ 8) mod 2 ^ 8) with 0. change (1 mod 2 ^ 8) with 1.
  revert Hflags. generalize ((fl / 2 ^ 8) mod 2 ^ 8) as f1, (fl mod 2 ^ 8) as f0.
  generalize ((an / 2 ^ 8) mod 2 ^ 8) as a1, (an mod 2 ^ 8) as a0, ((ns / 2 ^ 8) mod 2 ^ 8) as n1,
    (ns mod 2 ^ 8) as n0, ((ar / 2 ^ 8) mod 2 ^ 8) as r1, (ar mod 2 ^ 8) as r0.
  intros a1 a0 n1 n0 r1 r0 f1 f0 Hflags.
  apply wp_bind. eapply wp_get; [cbn [rb]; rewrite rd_bound by (simpl; lia); reflexivity|]. cells.
  change (ntohs (of_le16 [0; 1])) with 1. cbv zeta.
  apply wp_bind. eapply wp_put; [cbn [rb]; rewrite wr_bound by (simpl; lia); reflexivity|].
  cbn [self sb]. cells.
  apply wp_bind. eapply wp_get; [cbn [sb]; rewrite rd_bound by (simpl; lia); reflexivity|]. cells.
  rewrite Hflags. do 4 header_put. rewrite decide_False by lia. change (Z.to_nat 1) with 1%nat.
  cbn [questions]. apply wp_bind, wp_bind.
  set (pre := [i0; i1; f1; f0; 1 mod 2 ^ 8; (1 / 2 ^ 8) mod 2 ^ 8; a1; a0; n1; n0; r1; r0]).
  assert (Z.of_nat (length pre + length (question_bytes ls)) = qlen) as Hql
    by (rewrite <- Hq; unfold request; by rewrite length_app).
  apply (wp_question_a heap d c ls _ Hc Hls Hne pre slack l qlen); [done | done | done |].
  intros d' r' Hpost. fold i. apply wp_ret. apply wp_bind.
  set (hd := [i0; i1; fl mod 2 ^ 8; (fl / 2 ^ 8) mod 2 ^ 8; 0; 1; 0; 0; 0; 0; 0; 0]).
  assert (Z.of_nat (length (hd ++ question_bytes ls)) = qlen) as Hhd
    by (rewrite <- Hql, length_app; done).
  assert (s1 = take 16 s1 ++ drop 16 s1) as Hs1 by by rewrite take_drop.
  assert (length (take 16 s1) = 16%nat) as Hold.
  { rewrite length_take. unfold s1. rewrite length_drop. lia. }
  match goal with |- wp _ (mk_io _ _ ?m) _ =>
    replace m with ((hd ++ question_bytes ls) ++ take 16 s1 ++ drop 16 s1)
      by (rewrite <- Hs1, <- app_assoc; done) end.
  rewrite <- Hhd at 1. change (Z.of_nat (length pre)) with 12. simpl app at 1.
  apply wp_answer_one; [exact Hold | lia |]. rewrite Hhd, <- app_assoc. unfold hd. cbn [app].
  apply wp_bind. eapply wp_get; [cbn [sb]; rewrite rd_bound by (simpl; lia); reflexivity|]. cells.
  change (of_le16 [fl mod 2 ^ 8; (fl / 2 ^ 8) mod 2 ^ 8]) with (of_le16 (le16 fl)).
  rewrite of_le16_le16 by done. fold (response_flags fl).
  rewrite (le16_htons _ response_flags_u16). change (le16 (htons (Z.of_nat _))) with [0; 1].
  do 2 header_put. apply wp_ret.
  specialize (HQ d' r' Hpost).
  assert (drop (Z.to_nat (qlen + 16)) s = drop 16 s1) as He
    by (unfold s1; rewrite drop_drop; f_equal; lia).
  rewrite He in HQ. unfold response, header in HQ. rewrite <- !app_assoc in HQ. exact HQ.
Qed.
End Message.

(** ** The properties of the answer *)

(** C4: a well-formed request for the address of a name is answered with the same
    header and question, the response flag set and recursion available copied from
    recursion desired, and one A record of one second whose address is the network
    with the index of the name's entry; that address leads back to the dotted name. *)
Theorem hev_mapped_dns_answers_query (heap : heap_oracle) `{!GoodHeap heap} d c ls i0 i1 fl an ns ar
  slack s l k :
  cache d c -> Forall label_ok ls -> ls ≠ [] -> is_u16 fl -> good_network d k ->
  (heap 0%nat (dom (nodes d))).1 = Some l ->
  let req := request ls i0 i1 fl an ns ar in
  let qlen := Z.of_nat (length req) in
  qlen + 16 <= Z.of_nat (length s) ->
  exists i st d', hev_mapped_dns_handle heap qlen (Z.of_nat (length s)) (mk_io d (req ++ slack) s)
      = Some (qlen + 16, st)
    ∧ 0 <= i < max d ∧ i = (spec_find (max d) (name_text ls) c).1
    ∧ sb st = response ls i0 i1 fl (Z.lor (net d) i) ++ drop (Z.to_nat (qlen + 16)) s
    ∧ hev_mapped_dns_lookup (Z.lor (net d) i) (self st) = Some (Some (name_text ls), d').
Proof.
  intros Hc Hls Hne Hfl Hnet Hl req qlen Hroom. pose proof Hc as [lc Hinv].
  pose proof (spec_find_range (max d) d lc c (name_text ls) Hinv eq_refl) as Hr.
  pose proof (ci_max _ _ _ Hinv) as Hm. set (i := (spec_find (max d) (name_text ls) c).1) in *.
  destruct (wp_elim _ _ _ (wp_handle_query heap d c ls i0 i1 fl an ns ar slack s Hc Hls Hne Hfl l
    (Z.of_nat (length s)) (fun r st => r = qlen + 16 ∧ find_post d c (name_text ls) i (self st)
      ∧ sb st = response ls i0 i1 fl (Z.lor (net d) i) ++ drop (Z.to_nat (qlen + 16)) s)
    Hl ltac:(apply Hr) eq_refl Hroom ltac:(intros; by split_and!)))
    as (r & st & He & -> & (_ & Hc' & Hp) & Hsb). pose proof Hp as (Hmax' & Hnet' & _).
  pose proof (good_network_params _ _ _ Hp Hnet) as Hg.
  assert (host_part (self st) (Z.lor (net d) i) = i) as Hh.
  { rewrite <- Hnet'. apply (host_part_address _ k); [done|]. by rewrite Hmax'. }
  assert (0 <= s32_lnot (mask (self st))) as Hmask.
  { destruct Hg as [Hk -> _ _]. rewrite Z.ones_equiv. pose proof (Z.pow_pos_nonneg 2 k). lia. }
  destruct (wp_elim _ _ _ (wp_lookup _ _ (Z.lor (net d) i) Hc' Hmask)) as (n & d' & Hlk & Hn & _).
  exists i, st, d'. split_and!; [exact He | lia | lia | done | exact Hsb |].
  rewrite Hlk, Hn, Hh.
  destruct (find_youngest (max d) (name_text ls) c ltac:(lia) (inv_names_nodup _ _ _ Hinv))
    as (c' & Hc1 & Hn1). fold i in Hc1. rewrite Hc1 in Hc' |- *. destruct Hc' as [ls' Hinv'].
  pose proof (inv_idx_nodup _ _ _ Hinv') as Hnd. rewrite fmap_app in Hnd.
  apply NoDup_middle in Hnd as (Hi & _). unfold spec_lookup. by rewrite name_at_app.
Qed.

Lemma hev_mapped_dns_answers_query_witness :
  exists i st d', hev_mapped_dns_handle fresh_heap 20 64
      (mk_io example_dns (request [[97; 98]] 7 8 256 0 0 0 ++ [0]) (replicate 64 0)) = Some (36, st)
    ∧ i = 0
    ∧ hev_mapped_dns_lookup (Z.lor example_net i) (self st) = Some (Some [97; 98], d').
Proof.
  destruct (hev_mapped_dns_answers_query fresh_heap example_dns [] [[97; 98]] 7 8 256 0 0 0 [0]
    (replicate 64 0) (fresh (∅ : gset loc)) 17) as (i & st & d' & H1 & _ & H2 & _ & H3);
    [exact example_cache | | done | done | split; [done | done | done | vm_compute; discriminate]
    | done | vm_compute; discriminate | exists i, st, d'; split_and!; [exact H1 | exact H2 | exact H3]].
  apply Forall_cons. split; [|constructor]. split; [by repeat constructor | simpl; lia].
Defined.

(** A header that announces a question the request does not have makes the handler read
    the byte after the request. *)
Lemma hev_mapped_dns_handle_reads_past_request heap d s :
  hev_mapped_dns_handle heap 12 512 (mk_io d [0; 0; 1; 0; 0; 1; 0; 0; 0; 0; 0; 0] (replicate 512 s))
  = None.
Proof. reflexivity. Qed.

End MappedDNSQuery.
