(* ===== verification/RingBuffer.v ===== *)
(** * The ring buffer of src/misc/hev-ring-buffer.c

    A circular buffer with three regions: bytes handed to the TCP stack and not yet
    acknowledged, bytes read from the socket and not yet handed over, and free space.
    [rb_repr b u p]: the buffer holds the unacknowledged bytes [u] and then the pending
    bytes [p]. *)

From S2P Require Import Prelude.

Module RingBuffer.

(** ** Data and operations *)

Record HevRingBuffer := mk_rb {
  rp : Z; wp_ : Z; rda_size : Z; use_size : Z; max_size : Z; data : bytes }.

(** An [iovec] into the buffer: an offset and a length. *)
Definition iovec : Type := Z * Z.

Definition hev_ring_buffer_alloca (s : Z) (mem : bytes) : HevRingBuffer := mk_rb 0 0 0 0 s mem.

Definition hev_ring_buffer_get_max_size (self : HevRingBuffer) : Z := max_size self.
Definition hev_ring_buffer_get_use_size (self : HevRingBuffer) : Z := use_size self.

Definition hev_ring_buffer_reading (self : HevRingBuffer) : list iovec :=
  if decide (rda_size self = 0) then [] else
  let upper_size := max_size self - rp self in
  if decide (rda_size self <= upper_size) then [(rp self, rda_size self)]
  else [(rp self, upper_size); (0, rda_size self - upper_size)].

Definition hev_ring_buffer_read_finish (self : HevRingBuffer) (size : Z) : HevRingBuffer :=
  mk_rb ((rp self + size) mod max_size self) (wp_ self) (rda_size self - size) (use_size self)
    (max_size self) (data self).

Definition hev_ring_buffer_read_release (self : HevRingBuffer) (size : Z) : HevRingBuffer :=
  let use := use_size self - size in
  if decide (use = 0)
  then mk_rb 0 0 (rda_size self) use (max_size self) (data self)
  else mk_rb (rp self) (wp_ self) (rda_size self) use (max_size self) (data self).

Definition hev_ring_buffer_writing (self : HevRingBuffer) : list iovec :=
  if decide (use_size self = max_size self) then [] else
  let upper_size := max_size self - wp_ self in
  let spc_size := max_size self - use_size self in
  if decide (spc_size <= upper_size) then [(wp_ self, spc_size)]
  else [(wp_ self, upper_size); (0, spc_size - upper_size)].

Definition hev_ring_buffer_write_finish (self : HevRingBuffer) (size : Z) : HevRingBuffer :=
  mk_rb (rp self) ((wp_ self + size) mod max_size self) (rda_size self + size)
    (use_size self + size) (max_size self) (data self).

(** What a reader of the vectors sees, and what [readv] of [v] into them stores. *)
Definition iov_len (iov : list iovec) : Z := foldr (fun v n => snd v + n) 0 iov.

Fixpoint gather (d : bytes) (iov : list iovec) : option bytes :=
  match iov with
  | [] => Some []
  | (off, len) :: iov => a ← rd d off len; b ← gather d iov; Some (a ++ b)
  end.

Fixpoint scatter (d : bytes) (iov : list iovec) (v : bytes) : option bytes :=
  match v, iov with
  | [], _ => Some d
  | _, [] => None
  | _, (off, len) :: iov =>
      d ← wr d off (take (Z.to_nat len) v);
      scatter d iov (drop (Z.to_nat len) v)
  end.

Definition set_data (v : bytes) (b : HevRingBuffer) : HevRingBuffer :=
  mk_rb (rp b) (wp_ b) (rda_size b) (use_size b) (max_size b) v.

(** ** Circular contents *)

(** [d] holds [l] from position [off], going round. *)
Definition holds (d : bytes) (off : Z) (l : bytes) : Prop :=
  forall k x, l !! k = Some x ->
    d !! Z.to_nat ((off + Z.of_nat k) mod Z.of_nat (length d)) = Some x.

Lemma holds_nil d off : holds d off [].
Proof. intros k x. by rewrite lookup_nil. Qed.

Lemma holds_app d off l1 l2 :
  holds d off (l1 ++ l2) ↔ holds d off l1 ∧ holds d (off + Z.of_nat (length l1)) l2.
Proof.
  split.
  - intros H. split; intros k x Hk.
    + apply H. by apply lookup_app_l_Some.
    + replace (off + Z.of_nat (length l1) + Z.of_nat k)
        with (off + Z.of_nat (length l1 + k)) by lia.
      apply H. rewrite lookup_app_r by lia. rewrite <- Hk. f_equal. lia.
  - intros [H1 H2] k x [Hk|[Hge Hk]]%lookup_app_Some; [by apply H1|].
    apply H2 in Hk. rewrite <- Hk. do 3 f_equal. lia.
Qed.

Lemma holds_mod d off off' l :
  off mod Z.of_nat (length d) = off' mod Z.of_nat (length d) -> holds d off l -> holds d off' l.
Proof.
  intros He H k x Hk. apply H in Hk. rewrite <- Hk. do 2 f_equal.
  rewrite <- Zplus_mod_idemp_l, <- He, Zplus_mod_idemp_l. done.
Qed.

(** A stretch that does not go round is a block of memory. *)
Lemma holds_rd d off l :
  0 <= off -> off + Z.of_nat (length l) <= Z.of_nat (length d) -> holds d off l ->
  rd d off (Z.of_nat (length l)) = Some l.
Proof.
  intros Ho Hl H. rewrite rd_bound by lia. f_equal. rewrite Nat2Z.id.
  apply list_eq_same_length with (n := length l); [done | rewrite length_take, length_drop; lia |].
  intros k x y Hk Hx Hy. rewrite lookup_take_lt in Hx by lia. rewrite lookup_drop in Hx.
  apply H in Hy. rewrite Z.mod_small in Hy by lia.
  replace (Z.to_nat (off + Z.of_nat k)) with (Z.to_nat off + k)%nat in Hy by lia. congruence.
Qed.

Lemma wr_lookup d off v d' k :
  wr d off v = Some d' ->
  d' !! k = if decide (Z.to_nat off <= k < Z.to_nat off + length v)%nat
            then v !! (k - Z.to_nat off)%nat else d !! k.
Proof.
  unfold wr. case_decide as Hb; [|done]. intros [= <-]. case_decide as Hk.
  - rewrite lookup_app_r by (rewrite length_take; lia).
    rewrite length_take, Nat.min_l by lia. apply lookup_app_l. lia.
  - destruct (decide (k < Z.to_nat off)%nat).
    + rewrite lookup_app_l by (rewrite length_take; lia). by rewrite lookup_take_lt.
    + rewrite lookup_app_r by (rewrite length_take; lia). rewrite length_take, Nat.min_l by lia.
      rewrite lookup_app_r by lia. rewrite lookup_drop. f_equal. lia.
Qed.

(** A block write stores its bytes, and leaves what is elsewhere on the circle. *)
Lemma wr_holds_new d off v d' :
  wr d off v = Some d' -> holds d' off v.
Proof.
  intros Hw k x Hk. rewrite (length_wr _ _ _ _ Hw).
  assert (0 <= off ∧ off + Z.of_nat (length v) <= Z.of_nat (length d)) as Hb
    by (unfold wr in Hw; by case_decide).
  apply lookup_lt_Some in Hk as Hlt. rewrite Z.mod_small by lia.
  rewrite (wr_lookup _ _ _ _ _ Hw), decide_True by lia. rewrite <- Hk. f_equal. lia.
Qed.

Lemma wr_holds_old d off v d' o l :
  wr d off v = Some d' -> holds d o l ->
  (forall k, (k < length l)%nat ->
     ~ off <= (o + Z.of_nat k) mod Z.of_nat (length d) < off + Z.of_nat (length v)) ->
  holds d' o l.
Proof.
  intros Hw H Hd k x Hk. apply lookup_lt_Some in Hk as Hlt. specialize (Hd k Hlt).
  rewrite (length_wr _ _ _ _ Hw). rewrite (wr_lookup _ _ _ _ _ Hw), decide_False; [by apply H|].
  assert (0 <= off) by (unfold wr in Hw; case_decide; [tauto|done]).
  pose proof (Z.mod_pos_bound (o + Z.of_nat k) (Z.of_nat (length d))) as Hm.
  destruct d as [|b d]; [specialize (H k x Hk); by rewrite lookup_nil in H|]. simpl length in *. lia.
Qed.

Lemma mod_ne a b m : 0 < b - a < m -> a mod m ≠ b mod m.
Proof.
  intros H He. assert ((b - a) mod m = 0) as Hz.
  { rewrite Zminus_mod, He, Z.sub_diag. apply Z.mod_0_l. lia. }
  rewrite Z.mod_small in Hz; lia.
Qed.

(** Writing a block that starts [s] bytes after the end of [l] on the circle. *)
Lemma wr_holds_after d o l s off v d' :
  holds d o l -> wr d off v = Some d' -> v ≠ [] -> 0 <= s ->
  off mod Z.of_nat (length d) = (o + Z.of_nat (length l) + s) mod Z.of_nat (length d) ->
  Z.of_nat (length l) + s + Z.of_nat (length v) <= Z.of_nat (length d) -> holds d' o l.
Proof.
  intros Hl Hw Hv Hs Hoff Hlen. eapply wr_holds_old; [exact Hw | exact Hl |].
  intros k Hk Hin. destruct v as [|b v]; [done|].
  set (m := Z.of_nat (length d)) in *. set (j := (o + Z.of_nat k) mod m - off).
  assert (0 <= off) by (unfold wr in Hw; case_decide; [tauto|done]).
  pose proof (Z.mod_pos_bound (o + Z.of_nat k) m ltac:(simpl in *; lia)) as Hm.
  apply (mod_ne (o + Z.of_nat k) (o + Z.of_nat (length l) + s + j) m); [unfold j; simpl in *; lia|].
  rewrite <- (Zplus_mod_idemp_l (o + Z.of_nat (length l) + s) j), <- Hoff, Zplus_mod_idemp_l.
  replace (off + j) with ((o + Z.of_nat k) mod m) by (unfold j; lia).
  by rewrite Z.mod_mod by lia.
Qed.

(** ** The representation *)

Record rb_repr (b : HevRingBuffer) (u p : bytes) : Prop := {
  rr_max : 0 < max_size b ∧ Z.of_nat (length (data b)) = max_size b;
  rr_rp : 0 <= rp b < max_size b;
  rr_wp : wp_ b = (rp b + rda_size b) mod max_size b;
  rr_rda : rda_size b = Z.of_nat (length p);
  rr_use : use_size b = Z.of_nat (length (u ++ p));
  rr_fit : use_size b <= max_size b;
  rr_data : holds (data b) (rp b - Z.of_nat (length u)) (u ++ p);
}.

Section Repr.
Context (b : HevRingBuffer) (u p : bytes) (Hb : rb_repr b u p).

(** The vectors to read from are the pending bytes. *)
Lemma reading_gather : gather (data b) (hev_ring_buffer_reading b) = Some p.
Proof.
  destruct Hb as [[Hm Hd] Hrp Hwp Hr Hu Hf Hdata].
  apply holds_app in Hdata as [_ Hp].
  replace (rp b - Z.of_nat (length u) + Z.of_nat (length u)) with (rp b) in Hp by lia.
  rewrite length_app in Hu. unfold hev_ring_buffer_reading. rewrite Hr.
  case_decide as H0; [destruct p; [done | simpl in H0; lia]|].
  case_decide as H1; simpl.
  - rewrite holds_rd by (done || lia). simpl. by rewrite app_nil_r.
  - set (n := Z.to_nat (max_size b - rp b)).
    rewrite <- (take_drop n p) in Hp. apply holds_app in Hp as [Hp1 Hp2].
    assert (length (take n p) = n) as Hn by (rewrite length_take; lia).
    replace (max_size b - rp b) with (Z.of_nat (length (take n p))) by lia.
    rewrite holds_rd by (done || lia). simpl.
    replace (Z.of_nat (length p) - Z.of_nat (length (take n p)))
      with (Z.of_nat (length (drop n p))) by (rewrite length_drop, Hn; lia).
    rewrite holds_rd; [simpl; by rewrite app_nil_r, take_drop | lia | rewrite length_drop; lia |].
    eapply holds_mod; [|exact Hp2]. rewrite Hn, Hd.
    replace (rp b + Z.of_nat n) with (max_size b) by lia.
    by rewrite Z.mod_same, Z.mod_0_l by lia.
Qed.

Lemma reading_len : iov_len (hev_ring_buffer_reading b) = Z.of_nat (length p).
Proof.
  destruct Hb as [[Hm Hd] Hrp Hwp Hr Hu Hf Hdata]. unfold hev_ring_buffer_reading. rewrite Hr.
  repeat case_decide; simpl; lia.
Qed.

Lemma writing_len : iov_len (hev_ring_buffer_writing b) = max_size b - use_size b.
Proof.
  destruct Hb as [[Hm Hd] Hrp Hwp Hr Hu Hf Hdata]. unfold hev_ring_buffer_writing.
  repeat case_decide; simpl; lia.
Qed.

(** Handing pending bytes over. *)
Lemma read_finish_repr u' p' : p = u' ++ p' ->
  rb_repr (hev_ring_buffer_read_finish b (Z.of_nat (length u'))) (u ++ u') p'.
Proof.
  intros ->. destruct Hb as [[Hm Hd] Hrp Hwp Hr Hu Hf Hdata]. rewrite !length_app in *.
  split; simpl; [done | by apply Z.mod_pos_bound | | lia | rewrite !length_app; lia | done |].
  - rewrite Hwp, Zplus_mod_idemp_l. f_equal. lia.
  - rewrite <- app_assoc. eapply holds_mod; [|exact Hdata].
    rewrite Hd, Zminus_mod_idemp_l, length_app. f_equal. lia.
Qed.

(** Acknowledging handed over bytes. *)
Lemma read_release_repr u' u'' : u = u' ++ u'' ->
  rb_repr (hev_ring_buffer_read_release b (Z.of_nat (length u'))) u'' p.
Proof.
  intros ->. destruct Hb as [[Hm Hd] Hrp Hwp Hr Hu Hf Hdata]. rewrite !length_app in *.
  unfold hev_ring_buffer_read_release. case_decide as H0.
  - destruct u''; [|simpl in *; lia]. destruct p; [|simpl in *; lia].
    split; simpl; try done; try lia; try apply holds_nil. rewrite Hr. simpl. by rewrite Z.mod_0_l by lia.
  - split; simpl; try done; rewrite ?length_app; try lia.
    rewrite <- app_assoc in Hdata. apply holds_app in Hdata as [_ Hdata].
    eapply holds_mod; [|exact Hdata]. f_equal. lia.
Qed.

(** Receiving into the free space. *)
Lemma scatter_circ v : Z.of_nat (length v) <= max_size b - use_size b ->
  exists d, scatter (data b) (hev_ring_buffer_writing b) v = Some d ∧ length d = length (data b)
    ∧ holds d (wp_ b) v ∧ holds d (rp b - Z.of_nat (length u)) (u ++ p).
Proof.
  destruct Hb as [[Hm Hd] Hrp Hwp Hr Hu Hf Hdata]. intros Hv.
  pose proof (Z.mod_pos_bound (rp b + rda_size b) (max_size b) Hm) as Hw. rewrite <- Hwp in Hw.
  destruct v as [|x v]; [exists (data b); split_and!; [by destruct (hev_ring_buffer_writing b) as [|[]] | done
    | apply holds_nil | done]|].
  assert (forall s, (wp_ b + s) mod max_size b
    = (rp b - Z.of_nat (length u) + Z.of_nat (length (u ++ p)) + s) mod max_size b) as Hpos.
  { intros s. rewrite Hwp, Zplus_mod_idemp_l. f_equal. rewrite length_app. lia. }
  unfold hev_ring_buffer_writing. rewrite decide_False by (simpl in Hv; lia).
  case_decide as H1; cbn [scatter].
  - rewrite take_ge, drop_ge by lia.
    destruct (wr (data b) (wp_ b) (x :: v)) as [d|] eqn:Hwr;
      [|rewrite wr_bound in Hwr by lia; done]. simpl.
    exists d. split_and!; [done | by eapply length_wr | by eapply wr_holds_new |].
    eapply (wr_holds_after _ _ _ 0); [exact Hdata | exact Hwr | done | lia | | lia].
    rewrite Hd, <- Hpos. f_equal. lia.
  - set (n := Z.to_nat (max_size b - wp_ b)).
    destruct (decide (length (x :: v) <= n)%nat) as [Hle|Hgt].
    + rewrite (take_ge (x :: v) n), (drop_ge (x :: v) n) by lia.
      destruct (wr (data b) (wp_ b) (x :: v)) as [d|] eqn:Hwr;
        [|rewrite wr_bound in Hwr by lia; done]. simpl.
      exists d. split_and!; [done | by eapply length_wr | by eapply wr_holds_new |].
      eapply (wr_holds_after _ _ _ 0); [exact Hdata | exact Hwr | done | lia | | lia].
      rewrite Hd, <- Hpos. f_equal. lia.
    + assert (length (take n (x :: v)) = n) as Hn by (rewrite length_take; lia).
      destruct (wr (data b) (wp_ b) (take n (x :: v))) as [d1|] eqn:Hwr1;
        [|rewrite wr_bound in Hwr1 by lia; done]. cbn [mbind option_bind].
      pose proof (length_wr _ _ _ _ Hwr1) as Hl1.
      destruct (drop n (x :: v)) as [|y v2] eqn:Hdrop;
        [apply (f_equal length) in Hdrop; rewrite length_drop in Hdrop; simpl in *; lia|].
      cbn [scatter]. assert (length (y :: v2) = length (x :: v) - n)%nat as Hl2
        by (rewrite <- Hdrop, length_drop; done).
      rewrite take_ge, drop_ge by lia.
      destruct (wr d1 0 (y :: v2)) as [d2|] eqn:Hwr2;
        [|rewrite wr_bound in Hwr2 by lia; done]. simpl.
      pose proof (length_wr _ _ _ _ Hwr2) as Hl3. exists d2.
      assert (holds d1 (rp b - Z.of_nat (length u)) (u ++ p)) as Hold1.
      { eapply (wr_holds_after _ _ _ 0);
          [exact Hdata | exact Hwr1 | intros Hnil; rewrite Hnil in Hn; simpl in Hn; lia | lia | | lia].
        rewrite Hd, <- Hpos. f_equal. lia. }
      split_and!; [done | lia | |].
      * rewrite <- (take_drop n (x :: v)), Hdrop. apply holds_app. rewrite Hn. split.
        -- eapply (wr_holds_after d1 _ _ 0); [by eapply wr_holds_new | exact Hwr2 | done | lia | | lia].
           rewrite Hl1, Hd, Hn. replace (wp_ b + Z.of_nat n + 0) with (max_size b) by lia.
           by rewrite Z.mod_same, Z.mod_0_l by lia.
        -- eapply holds_mod; [|by eapply wr_holds_new].
           rewrite Hl3, Hl1, Hd. replace (wp_ b + Z.of_nat n) with (max_size b) by lia.
           by rewrite Z.mod_same, Z.mod_0_l by lia.
      * eapply (wr_holds_after d1 _ _ (Z.of_nat n)); [exact Hold1 | exact Hwr2 | done | lia | | lia].
        rewrite Hl1, Hd, <- Hpos. replace (wp_ b + Z.of_nat n) with (max_size b) by lia.
        by rewrite Z.mod_same, Z.mod_0_l by lia.
Qed.

Lemma write_repr v : Z.of_nat (length v) <= max_size b - use_size b ->
  exists d, scatter (data b) (hev_ring_buffer_writing b) v = Some d
    ∧ rb_repr (hev_ring_buffer_write_finish (set_data d b) (Z.of_nat (length v))) u (p ++ v).
Proof.
  intros Hv. destruct (scatter_circ v Hv) as (d & Hs & Hl & Hnew & Hold). exists d.
  split; [done|]. destruct Hb as [[Hm Hd] Hrp Hwp Hr Hu Hf Hdata]. rewrite !length_app in *.
  split; simpl; rewrite ?length_app; [split; [done | lia] | done | | lia | lia | lia |].
  - rewrite Hwp, Zplus_mod_idemp_l. f_equal. lia.
  - rewrite app_assoc. apply holds_app. split; [done|]. eapply holds_mod; [|exact Hnew].
    rewrite Hl, Hd, Hwp, Z.mod_mod by lia. f_equal. rewrite length_app. lia.
Qed.
End Repr.

Lemma alloca_repr s mem : 0 < s -> Z.of_nat (length mem) = s ->
  rb_repr (hev_ring_buffer_alloca s mem) [] [].
Proof. intros Hs Hm. split; simpl; [done | lia | by rewrite Z.mod_0_l by lia | done | done | lia | apply holds_nil]. Qed.

(** ** The abstract queue

    The users' three uses of the buffer: receive bytes into the free space, hand the
    first [n] pending bytes over, have the first [n] unacknowledged bytes released.
    [spec_op] says what they are on the two byte strings; the result is the bytes a
    reader of the vectors saw. *)

Inductive rb_op := Receive (v : bytes) | HandOver (n : nat) | Release (n : nat).

Definition do_op (o : rb_op) (b : HevRingBuffer) : option (bytes * HevRingBuffer) :=
  match o with
  | Receive v =>
      d ← scatter (data b) (hev_ring_buffer_writing b) v;
      Some ([], hev_ring_buffer_write_finish (set_data d b) (Z.of_nat (length v)))
  | HandOver n =>
      p ← gather (data b) (hev_ring_buffer_reading b);
      Some (take n p, hev_ring_buffer_read_finish b (Z.of_nat n))
  | Release n => Some ([], hev_ring_buffer_read_release b (Z.of_nat n))
  end.

Fixpoint do_ops (os : list rb_op) (b : HevRingBuffer) : option (bytes * HevRingBuffer) :=
  match os with
  | [] => Some ([], b)
  | o :: os => '(x, b) ← do_op o b; '(y, b) ← do_ops os b; Some (x ++ y, b)
  end.

Definition spec_op (max : Z) (o : rb_op) (q : bytes * bytes) : option (bytes * (bytes * bytes)) :=
  let '(u, p) := q in
  match o with
  | Receive v =>
      if decide (Z.of_nat (length v) <= max - Z.of_nat (length (u ++ p)))
      then Some ([], (u, p ++ v)) else None
  | HandOver n =>
      if decide (n <= length p)%nat then Some (take n p, (u ++ take n p, drop n p)) else None
  | Release n => if decide (n <= length u)%nat then Some ([], (drop n u, p)) else None
  end.

Fixpoint spec_ops (max : Z) (os : list rb_op) (q : bytes * bytes)
  : option (bytes * (bytes * bytes)) :=
  match os with
  | [] => Some ([], q)
  | o :: os => '(x, q) ← spec_op max o q; '(y, q) ← spec_ops max os q; Some (x ++ y, q)
  end.

Lemma do_op_refines b u p o x q :
  rb_repr b u p -> spec_op (max_size b) o (u, p) = Some (x, q) ->
  exists b', do_op o b = Some (x, b') ∧ rb_repr b' q.1 q.2 ∧ max_size b' = max_size b.
Proof.
  intros Hb. pose proof Hb as [Hm _ _ _ Hu _ _]. destruct o as [v|n|n]; simpl; case_decide as Hn; try done;
    intros [= <- <-]; simpl.
  - destruct (write_repr _ _ _ Hb v) as (d & -> & Hr); [lia|]. simpl. by eexists.
  - rewrite (reading_gather _ _ _ Hb). simpl. eexists. split_and!; [done | | done].
    assert (length (take n p) = n) as Hl by (rewrite length_take; lia).
    pose proof (read_finish_repr _ _ _ Hb (take n p) (drop n p) ltac:(by rewrite take_drop)) as H.
    by rewrite Hl in H.
  - eexists. split_and!; [done | | unfold hev_ring_buffer_read_release; by case_decide].
    assert (length (take n u) = n) as Hl by (rewrite length_take; lia).
    pose proof (read_release_repr _ _ _ Hb (take n u) (drop n u) ltac:(by rewrite take_drop)) as H.
    by rewrite Hl in H.
Qed.

Lemma do_ops_refines os : forall b u p x q,
  rb_repr b u p -> spec_ops (max_size b) os (u, p) = Some (x, q) ->
  exists b', do_ops os b = Some (x, b') ∧ rb_repr b' q.1 q.2.
Proof.
  induction os as [|o os IH]; intros b u p x q Hb; cbn [spec_ops do_ops].
  { intros [= <- <-]. by exists b. }
  destruct (spec_op (max_size b) o (u, p)) as [[x1 [u1 p1]]|] eqn:H1; [|done]. cbn [mbind option_bind].
  destruct (do_op_refines _ _ _ _ _ _ Hb H1) as (b1 & -> & Hb1 & Hm). cbn [mbind option_bind].
  rewrite <- Hm. destruct (spec_ops (max_size b1) os (u1, p1)) as [[x2 q2]|] eqn:H2; [|done].
  intros [= <- <-]. destruct (IH _ _ _ _ _ Hb1 H2) as (b2 & -> & Hb2). by exists b2.
Qed.

(** C25: The ring buffer is a queue whose handed over bytes stay in place until they are
    released.  Any sequence of receiving, handing over and releasing that respects the
    sizes [hev_ring_buffer_writing] and [hev_ring_buffer_reading] offer makes only
    accesses inside the buffer; what is handed over is what was received, in order; and
    at the end the memory still holds the unacknowledged bytes and then the pending ones,
    and the vectors offer exactly the free space and the pending bytes. *)
Theorem hev_ring_buffer_refines_queue s mem os x u p :
  0 < s -> Z.of_nat (length mem) = s ->
  spec_ops s os ([], []) = Some (x, (u, p)) ->
  exists b, do_ops os (hev_ring_buffer_alloca s mem) = Some (x, b)
    ∧ holds (data b) (rp b - Z.of_nat (length u)) (u ++ p)
    ∧ gather (data b) (hev_ring_buffer_reading b) = Some p
    ∧ iov_len (hev_ring_buffer_writing b) = max_size b - Z.of_nat (length (u ++ p))
    ∧ hev_ring_buffer_get_use_size b = Z.of_nat (length (u ++ p)).
Proof.
  intros Hs Hm Ho. pose proof (alloca_repr s mem Hs Hm) as Hb.
  destruct (do_ops_refines os _ _ _ _ _ Hb Ho) as (b & Hd & Hr). simpl in Hr.
  exists b. pose proof (writing_len _ _ _ Hr) as Hw. pose proof (rr_use _ _ _ Hr) as Hu.
  split_and!; [done | apply Hr | by eapply reading_gather | by rewrite Hw, Hu | done].
Qed.

(** The bytes go round: the buffer has room for three. *)
Lemma hev_ring_buffer_refines_queue_witness :
  let os := [Receive [1; 2]; HandOver 2; Receive [3]; Release 1; Receive [4]; HandOver 1] in
  exists b, do_ops os (hev_ring_buffer_alloca 3 [0; 0; 0]) = Some ([1; 2; 3], b)
    ∧ holds (data b) (rp b - 2) [2; 3; 4]
    ∧ gather (data b) (hev_ring_buffer_reading b) = Some [4]
    ∧ iov_len (hev_ring_buffer_writing b) = max_size b - 3
    ∧ hev_ring_buffer_get_use_size b = 3.
Proof.
  apply (hev_ring_buffer_refines_queue 3 [0; 0; 0] _ [1; 2; 3] [2; 3] [4]);
    [lia | done | by vm_compute].
Defined.

End RingBuffer.
