(* ===== verification/SessionTCP.v ===== *)
(** * The TCP session of src/hev-socks5-session-tcp.c

    A session copies bytes between a TCP connection of the network stack and a socket
    to the proxy.  Its state is the pbuf queue from the stack, the end-of-file mark, and
    the ring buffer towards the stack; the stack calls the receive, sent and error
    handlers whenever the session's task yields.

    [world] adds to the session what passed through its two sides, so that the
    theorems can speak of the byte streams. *)

From S2P Require Import Prelude RingBuffer.

Module SessionTCP.
Import RingBuffer.

(** ** Data *)

(** [queue] is a pbuf chain, the payload of each pbuf; the empty list is NULL. *)
Record HevSocks5SessionTCP := mk_session {
  pcb : bool; pcb_eof : bool; queue : list bytes; buffer : HevRingBuffer; timeout : Z }.

Record world := mk_world {
  self : HevSocks5SessionTCP;
  from_stack : bytes;   (* bytes the receive handler accepted *)
  to_sock : bytes;      (* bytes written to the socket *)
  recved : Z;           (* total of tcp_recved *)
  from_sock : bytes;    (* bytes read from the socket *)
  to_stack : bytes;     (* bytes passed to tcp_write *)
  acked : Z;            (* total the sent handler reported *)
  sock_shut : bool;     (* the writing side of the socket is shut down *)
  stack_shut : bool;    (* the sending side of the stack's connection is shut down *)
}.

Definition upd (f : HevSocks5SessionTCP -> HevSocks5SessionTCP) : M world unit := fun w =>
  Some (tt, mk_world (f (self w)) (from_stack w) (to_sock w) (recved w) (from_sock w) (to_stack w)
              (acked w) (sock_shut w) (stack_shut w)).
Definition set_queue q s := mk_session (pcb s) (pcb_eof s) q (buffer s) (timeout s).
Definition set_buffer b s := mk_session (pcb s) (pcb_eof s) (queue s) b (timeout s).
Definition set_eof s := mk_session (pcb s) true (queue s) (buffer s) (timeout s).
Definition clear_pcb s := mk_session false (pcb_eof s) (queue s) (buffer s) (timeout s).
Definition set_timeout t s := mk_session (pcb s) (pcb_eof s) (queue s) (buffer s) t.
Definition get : M world HevSocks5SessionTCP := fun w => Some (self w, w).

(** What the calls into the stack and the system do to the streams. *)
Definition log_to_sock (v : bytes) : M world unit := fun w =>
  Some (tt, mk_world (self w) (from_stack w) (to_sock w ++ v) (recved w) (from_sock w) (to_stack w)
              (acked w) (sock_shut w) (stack_shut w)).
Definition tcp_recved (n : Z) : M world unit := fun w =>
  Some (tt, mk_world (self w) (from_stack w) (to_sock w) (recved w + u16 n) (from_sock w)
              (to_stack w) (acked w) (sock_shut w) (stack_shut w)).
Definition log_from_sock (v : bytes) : M world unit := fun w =>
  Some (tt, mk_world (self w) (from_stack w) (to_sock w) (recved w) (from_sock w ++ v) (to_stack w)
              (acked w) (sock_shut w) (stack_shut w)).
Definition log_from_stack (v : bytes) : M world unit := fun w =>
  Some (tt, mk_world (self w) (from_stack w ++ v) (to_sock w) (recved w) (from_sock w) (to_stack w)
              (acked w) (sock_shut w) (stack_shut w)).
Definition log_acked (n : Z) : M world unit := fun w =>
  Some (tt, mk_world (self w) (from_stack w) (to_sock w) (recved w) (from_sock w) (to_stack w)
              (acked w + n) (sock_shut w) (stack_shut w)).
Definition sock_shutdown : M world unit := fun w =>
  Some (tt, mk_world (self w) (from_stack w) (to_sock w) (recved w) (from_sock w) (to_stack w)
              (acked w) true (stack_shut w)).
Definition tcp_shutdown : M world unit := fun w =>
  Some (tt, mk_world (self w) (from_stack w) (to_sock w) (recved w) (from_sock w) (to_stack w)
              (acked w) (sock_shut w) true).

(** [tcp_write] takes a 16-bit length; the stack keeps a reference to the bytes. *)
Definition tcp_write (off len : Z) : M world unit := fun w =>
  v ← rd (data (buffer (self w))) off (u16 len);
  Some (tt, mk_world (self w) (from_stack w) (to_sock w) (recved w) (from_sock w)
              (to_stack w ++ v) (acked w) (sock_shut w) (stack_shut w)).

(** The outcome of a call of [writev] or [readv]. *)
Inductive write_res := Wrote (n : Z) | WriteAgain | WriteFailed.
Inductive read_res := Got (v : bytes) | ReadAgain | ReadFailed.

(** [pbuf_free_header] of the stack: drops bytes from the head of a chain; its size is
    a 16-bit argument. *)
Fixpoint free_header (q : list bytes) (left : Z) : list bytes :=
  if decide (left = 0) then q else
  match q with
  | [] => []
  | p :: q =>
      if decide (left >= Z.of_nat (length p)) then free_header q (left - Z.of_nat (length p))
      else drop (Z.to_nat left) p :: q
  end.
Definition pbuf_free_header (q : list bytes) (size : Z) : list bytes := free_header q (u16 size).

Definition TCP_WND : Z := 8 * 8191.
Definition TCP_SND_BUF : Z := 8 * 8191.
Definition ERR_OK : Z := 0.
Definition ERR_WOULDBLOCK : Z := -7.

Definition is_nil {A} (l : list A) : bool := match l with [] => true | _ => false end.

(** ** The two directions *)

Definition tcp_splice_f (w : write_res) : M world Z :=
  s ← get;
  let iov := take 64 (queue s) in
  let res := if is_nil (queue s) then (if pcb_eof s then -1 else 0) else 1 in
  if negb (is_nil iov) then
    match w with
    | WriteAgain => mret 0
    | WriteFailed => mret (-1)
    | Wrote n =>
        log_to_sock (take (Z.to_nat n) (concat iov));;
        upd (set_queue (pbuf_free_header (queue s) n));;
        mwhen (pcb s) (tcp_recved n);;
        mret 1
    end
  else if decide (res < 0) then sock_shutdown;; mret res
  else mret res.

(** The [tcp_write] calls for the vectors; [errs] are the errors they return. *)
Fixpoint tcp_writes (iov : list iovec) (errs : list Z) (err s : Z) : M world (Z * Z * list Z) :=
  match iov, errs with
  | [], _ => mret (err, s, errs)
  | _, [] => mfail
  | (off, len) :: iov, e :: errs =>
      tcp_write off len;;
      tcp_writes iov errs (Z.lor err e) (s + len)
  end.

(** [errs]: the errors of [tcp_write], then of [tcp_output]. *)
Definition tcp_splice_b (r : read_res) (errs : list Z) : M world Z :=
  s ← get;
  let iov := hev_ring_buffer_writing (buffer s) in
  res ← (if negb (is_nil iov) then
           match r with
           | ReadAgain => mret 0
           | ReadFailed => mret (-1)
           | Got v =>
               d ← mget (fun _ => scatter (data (buffer s)) iov v);
               log_from_sock v;;
               upd (set_buffer (hev_ring_buffer_write_finish (set_data d (buffer s))
                                  (Z.of_nat (length v))));;
               mret 1
           end
         else mret 0);
  s ← get;
  '(err, res) ←
    (if pcb s then
       let iov := hev_ring_buffer_reading (buffer s) in
       if negb (is_nil iov) then
         '(err, n, errs) ← tcp_writes iov errs ERR_OK 0;
         upd (set_buffer (hev_ring_buffer_read_finish (buffer s) n));;
         e ← mget (fun _ => head errs);
         mret (Z.lor err e, 1)
       else if decide (res < 0) then tcp_shutdown;; mret (ERR_OK, res)
       else mret (ERR_OK, res)
     else mret (ERR_OK, res));
  s ← get;
  if orb (negb (pcb s)) (negb (bool_decide (err = ERR_OK))) then mret (-1) else mret res.

(** ** The handlers the stack calls *)

Definition tcp_recv_handler (p : option (list bytes)) : M world Z :=
  s ← get;
  match p with
  | Some p =>
      if is_nil (queue s) then
        upd (set_queue p);; log_from_stack (concat p);; mret ERR_OK
      else if decide (u16 (Z.of_nat (length (concat (queue s)))) > TCP_WND) then
        mret ERR_WOULDBLOCK
      else
        upd (set_queue (queue s ++ p));; log_from_stack (concat p);; mret ERR_OK
  | None => upd set_eof;; mret ERR_OK
  end.

Definition tcp_sent_handler (len : Z) : M world Z :=
  s ← get;
  upd (set_buffer (hev_ring_buffer_read_release (buffer s) len));;
  log_acked len;;
  mret ERR_OK.

(** Waking the task is left to the scheduler of the rounds below. *)
Definition hev_socks5_session_terminate : M world unit := upd (set_timeout 0).

Definition tcp_err_handler : M world unit := upd clear_pcb;; hev_socks5_session_terminate.

Inductive event := EvRecv (p : option (list bytes)) | EvSent (len : Z) | EvErr.

Definition handle_event (e : event) : M world unit :=
  match e with
  | EvRecv p => tcp_recv_handler p;; mret tt
  | EvSent len => tcp_sent_handler len;; mret tt
  | EvErr => tcp_err_handler
  end.

Fixpoint handle_events (es : list event) : M world unit :=
  match es with [] => mret tt | e :: es => handle_event e;; handle_events es end.

(** ** The loop *)

Inductive HevTaskYieldType := HEV_TASK_YIELD | HEV_TASK_WAITIO.

(** How the task goes on after a round: yield, wait, or leave the loop. *)
Definition next_type (res_f res_b : Z) : option HevTaskYieldType :=
  if orb (bool_decide (res_f > 0)) (bool_decide (res_b > 0)) then Some HEV_TASK_YIELD
  else if decide (Z.land res_f res_b = 0) then Some HEV_TASK_WAITIO
  else None.

(** What the environment does in one round: the outcomes of the system calls, the
    events while the task yields and what is left of the sleep. *)
Record round := mk_round {
  rn_write : write_res; rn_read : read_res; rn_errs : list Z; rn_events : list event; rn_sleep : Z }.

Definition hev_socks5_task_io_yielder (type : HevTaskYieldType) (r : round) : M world Z :=
  s ← get;
  handle_events (rn_events r);;
  match type with
  | HEV_TASK_YIELD => mret 0
  | HEV_TASK_WAITIO =>
      if decide (timeout s < 0) then mret 0
      else if decide (rn_sleep r <= 0) then mret (-1) else mret 0
  end.

Inductive outcome := Finished | Aborted.

(** The first loop of the splice; [None] when the environment's script ends first. *)
Fixpoint splice_loop (rs : list round) (res_f res_b : Z) : M world (option outcome * list round) :=
  match rs with
  | [] => mret (None, [])
  | r :: rs =>
      res_f ← (if decide (res_f >= 0) then tcp_splice_f (rn_write r) else mret res_f);
      res_b ← (if decide (res_b >= 0) then tcp_splice_b (rn_read r) (rn_errs r) else mret res_b);
      match next_type res_f res_b with
      | None => mret (Some Finished, rs)
      | Some type =>
          y ← hev_socks5_task_io_yielder type r;
          if decide (y < 0) then mret (Some Aborted, rs)
          else splice_loop rs res_f res_b
      end
  end.

(** The second loop: wait until the stack has acknowledged everything. *)
Fixpoint drain_loop (rs : list round) : M world (option outcome) :=
  s ← get;
  if negb (pcb s) then mret (Some Finished) else
  if decide (hev_ring_buffer_get_use_size (buffer s) = 0) then mret (Some Finished) else
  match rs with
  | [] => mret None
  | r :: rs =>
      y ← hev_socks5_task_io_yielder HEV_TASK_WAITIO r;
      if decide (y < 0) then mret (Some Aborted) else drain_loop rs
  end.

(** How each of the two loops ended. *)
Definition hev_socks5_session_tcp_splice (tcp_buffer_size : Z) (mem : bytes) (rs : list round)
  : M world (option outcome * option outcome) :=
  s ← get;
  if negb (pcb s) then mret (Some Finished, Some Finished) else
  upd (set_buffer (hev_ring_buffer_alloca tcp_buffer_size mem));;
  '(o, rs) ← splice_loop rs 1 1;
  match o with
  | None => mret (None, None)
  | Some _ => o' ← drain_loop rs; mret (o, o')
  end.

End SessionTCP.
