(* ===== verification/SessionTCPProofs.v ===== *)
(** * The TCP session copies both byte streams faithfully *)

From S2P Require Import Prelude RingBuffer SessionTCP.

Module SessionTCPProofs.
Import RingBuffer SessionTCP.

(** ** The invariant

    Upstream, what the stack delivered is what was written to the socket and then the
    queue.  Downstream, the ring buffer holds the bytes the stack has not acknowledged
    [u] and then those it has not been given [p]. *)
Record winv (w : world) (u p : bytes) : Prop := {
  wi_up : from_stack w = to_sock w ++ concat (queue (self w));
  wi_wnd : Z.of_nat (length (concat (queue (self w)))) <= TCP_WND;
  wi_recved : pcb (self w) = true -> recved w = Z.of_nat (length (to_sock w));
  wi_rb : rb_repr (buffer (self w)) u p;
  wi_size : max_size (buffer (self w)) <= TCP_SND_BUF;
  wi_down : from_sock w = to_stack w ++ p;
  wi_unacked : exists a, to_stack w = a ++ u ∧ acked w = Z.of_nat (length a);
  wi_sock_shut : sock_shut w = true -> queue (self w) = [] ∧ pcb_eof (self w) = true;
  wi_stack_shut : stack_shut w = true -> p = [];
}.

Definition wok (w : world) : Prop := exists u p, winv w u p.

(** What the system and the stack promise: [writev] and [readv] transfer something that
    was offered; the stack delivers data within its window and before the end of file,
    and acknowledges what it was given. *)
Definition valid_write (r : write_res) (w : world) : Prop :=
  match r with
  | Wrote n => 0 < n <= Z.of_nat (length (concat (take 64 (queue (self w)))))
  | _ => True
  end.
Definition valid_read (r : read_res) (w : world) : Prop :=
  match r with
  | Got v => (0 < length v)%nat
      ∧ Z.of_nat (length v) <= iov_len (hev_ring_buffer_writing (buffer (self w)))
  | _ => True
  end.
Definition valid_event (e : event) (w : world) : Prop :=
  match e with
  | EvRecv (Some p) => p ≠ [] ∧ pcb_eof (self w) = false
      ∧ Z.of_nat (length (concat (queue (self w)) ++ concat p)) <= TCP_WND
  | EvRecv None => True
  | EvSent n => 0 <= n ∧ acked w + n <= Z.of_nat (length (to_stack w))
  | EvErr => True
  end.

(** ** Freeing the head of a chain *)

Lemma free_header_drop q : forall n, 0 <= n -> concat (free_header q n) = drop (Z.to_nat n) (concat q).
Proof.
  induction q as [|p q IH]; intros n Hn; simpl; case_decide as H0.
  - by rewrite drop_nil.
  - by rewrite drop_nil.
  - by subst.
  - case_decide as Hp.
    + rewrite IH by lia. rewrite drop_app_ge by lia. f_equal. lia.
    + simpl. by rewrite drop_app_le by lia.
Qed.

Lemma concat_take_prefix {A} (q : list (list A)) k :
  exists rest, concat q = concat (take k q) ++ rest.
Proof. exists (concat (drop k q)). by rewrite <- concat_app, take_drop. Qed.

Lemma pbuf_free_header_drop q n : 0 <= n <= TCP_WND ->
  concat (pbuf_free_header q n) = drop (Z.to_nat n) (concat q).
Proof.
  intros Hn. unfold pbuf_free_header. rewrite u16_id by (unfold TCP_WND, is_u16 in *; lia).
  apply free_header_drop. lia.
Qed.

(** ** Upstream *)

Lemma wp_splice_f r w u p : winv w u p -> valid_write r w ->
  wp (tcp_splice_f r) w (fun res w' => winv w' u p
    ∧ (res < 0 -> r = WriteFailed \/ sock_shut w' = true)
    ∧ (res = -1 \/ res = 0 \/ res = 1)
    ∧ stack_shut w' = stack_shut w ∧ (sock_shut w = true -> sock_shut w' = true)).
Proof.
  intros [H1 H2 H3 H4 H5 H6 H7 H8 H9] Hv. destruct w as [s fs ts rc fk tk ak ss hs]. simpl in *.
  unfold tcp_splice_f. apply wp_bind. eapply (wp_get (fun w => Some (self w))); [done|]. simpl.
  destruct (queue s) as [|b q] eqn:Hq; simpl is_nil.
  - cbn [take negb is_nil]. destruct (pcb_eof s) eqn:He.
    + rewrite decide_True by lia. apply wp_bind. eapply wp_intro; [done|]. apply wp_ret.
      split_and!; simpl; [|by right|lia|done|done]. split; simpl; rewrite ?Hq, ?He; try done; auto.
    + rewrite decide_False by lia. apply wp_ret. split_and!; simpl; [|lia|lia|done|done].
      split; simpl; rewrite ?Hq, ?He; try done; auto.
  - cbn [take negb is_nil]. destruct r as [n| |].
    + unfold valid_write in Hv. cbn [self] in Hv. rewrite Hq in Hv.
      apply wp_bind. eapply wp_intro; [done|]. apply wp_bind. eapply wp_intro; [done|].
      cbn beta iota. destruct (concat_take_prefix (b :: q) 64) as [rest Hrest].
      assert (Z.to_nat n <= length (concat (take 64 (b :: q))))%nat as Hn by lia.
      assert (n <= TCP_WND) as Hwnd by (rewrite Hrest, length_app in H2; lia).
      assert (concat (pbuf_free_header (b :: q) n) = drop (Z.to_nat n) (concat (b :: q))) as Hfree
        by (apply pbuf_free_header_drop; lia).
      assert (fs = (ts ++ take (Z.to_nat n) (concat (take 64 (b :: q))))
                ++ drop (Z.to_nat n) (concat (b :: q))) as Hfs.
      { rewrite H1, <- app_assoc. f_equal. rewrite Hrest at 2. rewrite drop_app_le by done.
        rewrite app_assoc, take_drop. exact Hrest. }
      apply wp_bind. destruct (pcb s) eqn:Hpcb.
      * eapply wp_intro; [done|]. apply wp_ret. split_and!; simpl; [|lia|lia|done|done].
        split; simpl; rewrite ?Hfree; try done; auto.
        -- rewrite length_drop. cbn [concat] in *. lia.
        -- intros _. change (b ++ concat (take 63 q)) with (concat (take 64 (b :: q))).
           rewrite length_app, length_take, H3 by done.
           rewrite u16_id by (unfold TCP_WND, is_u16 in *; lia). lia.
        -- intros Hs. destruct (H8 Hs) as [? _]. done.
      * eapply wp_intro; [done|]. apply wp_ret. split_and!; simpl; [|lia|lia|done|done].
        split; simpl; rewrite ?Hfree; try done; auto.
        -- rewrite length_drop. cbn [concat] in *. lia.
        -- congruence.
        -- intros Hs. destruct (H8 Hs) as [? _]. done.
    + apply wp_ret. split_and!; simpl; [|lia|lia|done|done]. split; simpl; rewrite ?Hq, ?He; try done; auto.
    + apply wp_ret. split_and!; simpl; [|by left|lia|done|done].
      split; simpl; rewrite ?Hq, ?He; try done; auto.
Qed.
(** ** Downstream *)

Lemma wp_tcp_writes iov : forall errs err n w v (Q : Z * Z * list Z -> world -> Prop),
  gather (data (buffer (self w))) iov = Some v -> Forall (fun i => 0 <= snd i < 2 ^ 16) iov ->
  (length iov <= length errs)%nat ->
  (forall err', Q (err', n + iov_len iov, drop (length iov) errs)
     (mk_world (self w) (from_stack w) (to_sock w) (recved w) (from_sock w) (to_stack w ++ v)
        (acked w) (sock_shut w) (stack_shut w))) ->
  wp (tcp_writes iov errs err n) w Q.
Proof.
  induction iov as [|[off len] iov IH]; intros errs err n w v Q Hg Hlen He HQ; cbn [tcp_writes].
  - simpl in Hg. injection Hg as <-. apply wp_ret. specialize (HQ err). simpl in HQ.
    rewrite app_nil_r, Z.add_0_r in HQ. by destruct w.
  - destruct errs as [|e errs]; [simpl in He; lia|].
    apply Forall_cons in Hlen as [Hl Hlen]. simpl in Hl. cbn [gather] in Hg.
    destruct (rd (data (buffer (self w))) off len) as [a|] eqn:Hrd; [|done]. simpl in Hg.
    destruct (gather (data (buffer (self w))) iov) as [b|] eqn:Hb; [|done]. injection Hg as <-.
    apply wp_bind. eapply wp_intro.
    { unfold tcp_write. rewrite u16_id by done. rewrite Hrd. simpl. done. }
    eapply IH; [exact Hb | done | simpl in He; lia |]. intros err'. simpl.
    rewrite <- app_assoc, <- Z.add_assoc. apply HQ.
Qed.

Lemma reading_bounds b u p : rb_repr b u p -> max_size b <= TCP_SND_BUF ->
  Forall (fun i => 0 <= snd i < 2 ^ 16) (hev_ring_buffer_reading b)
  ∧ (length (hev_ring_buffer_reading b) <= 2)%nat
  ∧ (is_nil (hev_ring_buffer_reading b) = true -> p = []).
Proof.
  intros [[Hm Hd] Hrp Hwp Hr Hu Hf Hdata] Hmax. unfold TCP_SND_BUF in Hmax.
  rewrite length_app in Hu. unfold hev_ring_buffer_reading.
  repeat case_decide; (split_and!; [repeat (apply Forall_cons; split; [simpl; lia|]); constructor
    | simpl; lia |]); [|done..].
  intros _. destruct p; [done | simpl in *; lia].
Qed.

Lemma wp_splice_b r errs w : wok w -> stack_shut w = false -> valid_read r w ->
  (3 <= length errs)%nat ->
  wp (tcp_splice_b r errs) w (fun res w' => wok w' ∧ (res = -1 \/ res = 0 \/ res = 1)
    ∧ sock_shut w' = sock_shut w ∧ pcb (self w') = pcb (self w)
    ∧ (stack_shut w' = true -> res < 0)).
Proof.
  intros (u & p & Hinv) Hs Hv He. unfold tcp_splice_b.
  apply wp_bind. eapply (wp_get (fun w => Some (self w))); [done|]. apply wp_bind.
  apply wp_mono with (P := fun res w1 => (exists p1, winv w1 u p1) ∧ (res = -1 \/ res = 0 \/ res = 1)
    ∧ sock_shut w1 = sock_shut w ∧ pcb (self w1) = pcb (self w) ∧ stack_shut w1 = false).
  { destruct (hev_ring_buffer_writing (buffer (self w))) as [|i iov] eqn:Hiov; cbn [is_nil negb].
    { apply wp_ret. split_and!; [by exists p | lia | done..]. }
    rewrite <- Hiov. destruct r as [v| |].
    - destruct Hv as [Hv0 Hv]. pose proof Hinv as [H1 H2 H3 H4 H5 H6 H7 H8 H9].
      rewrite (writing_len _ _ _ H4) in Hv.
      destruct (write_repr _ _ _ H4 v Hv) as (d & Hd & Hrb).
      apply wp_bind. eapply wp_get; [exact Hd|]. apply wp_bind. eapply wp_intro; [done|].
      apply wp_bind. eapply wp_intro; [done|]. apply wp_ret. cbn [self queue pcb set_buffer stack_shut sock_shut].
      split_and!; [|lia|done..]. exists (p ++ v).
      split; cbn [self queue pcb pcb_eof buffer set_buffer from_stack to_sock recved from_sock
        to_stack acked sock_shut stack_shut]; try done.
      + by rewrite H6, app_assoc.
      + intros Ht. congruence.
    - apply wp_ret. split_and!; [by exists p | lia | done..].
    - apply wp_ret. split_and!; [by exists p | lia | done..]. }
  intros res w1 ([p1 Hinv1] & Hres & Hq & Hp & Hs1). clear Hinv Hs Hv.
  apply wp_bind. eapply (wp_get (fun w => Some (self w))); [done|]. apply wp_bind.
  apply wp_mono with (P := fun er w2 => wok w2 ∧ (er.2 = -1 \/ er.2 = 0 \/ er.2 = 1)
    ∧ sock_shut w2 = sock_shut w ∧ pcb (self w2) = pcb (self w)
    ∧ (stack_shut w2 = true -> er.2 < 0)).
  { destruct (pcb (self w1)) eqn:Hpcb; cycle 1.
    { apply wp_ret. simpl. split_and!; [by exists u, p1 | lia | done | congruence | congruence]. }
    pose proof Hinv1 as [H1 H2 H3 H4 H5 H6 H7 H8 H9].
    destruct (reading_bounds _ _ _ H4 H5) as (Hb & Hl & Hnil).
    destruct (is_nil (hev_ring_buffer_reading (buffer (self w1)))) eqn:Hn; cbn [negb].
    - case_decide.
      + apply wp_bind. eapply wp_intro; [done|]. apply wp_ret. simpl.
        split_and!; [|lia|done|congruence|done]. exists u, p1. split; simpl; auto.
      + apply wp_ret. simpl. split_and!; [by exists u, p1 | lia | done | congruence | congruence].
    - apply wp_bind. eapply wp_tcp_writes; [by eapply reading_gather | exact Hb | lia |].
      intros err'. rewrite Z.add_0_l, (reading_len _ _ _ H4). cbn beta iota.
      apply wp_bind. eapply wp_intro; [done|]. apply wp_bind.
      destruct (drop (length (hev_ring_buffer_reading (buffer (self w1)))) errs) as [|e errs'] eqn:Hdr.
      { apply (f_equal length) in Hdr. rewrite length_drop in Hdr. simpl in Hdr. lia. }
      eapply wp_get; [done|]. apply wp_ret. cbn [snd self queue pcb set_buffer stack_shut sock_shut].
      split_and!; [|lia|done|congruence|congruence]. exists (u ++ p1), [].
      pose proof (read_finish_repr _ _ _ H4 p1 [] ltac:(by rewrite app_nil_r)) as Hrb.
      split; cbn [self queue pcb pcb_eof buffer set_buffer from_stack to_sock recved from_sock
        to_stack acked sock_shut stack_shut]; try done.
      + by rewrite H6, app_nil_r.
      + destruct H7 as (a & Ha & Hk). exists a. by rewrite Ha, app_assoc. }
  intros [err res2] w2 (Hok2 & Hres2 & Hq2 & Hp2 & Hs2). simpl in *.
  apply wp_bind. eapply (wp_get (fun w => Some (self w))); [done|].
  destruct (orb _ _); apply wp_ret; split_and!; try done; lia.
Qed.

(** ** The handlers *)

Lemma wp_handle_event e w : wok w -> valid_event e w ->
  wp (handle_event e) w (fun _ w' => wok w' ∧ stack_shut w' = stack_shut w ∧ sock_shut w' = sock_shut w).
Proof.
  intros (u & p & [H1 H2 H3 H4 H5 H6 H7 H8 H9]) Hv. destruct e as [[q|]|n|]; simpl.
  - destruct Hv as (Hq & Heof & Hwnd). apply wp_bind, wp_bind.
    eapply (wp_get (fun w => Some (self w))); [done|]. cbn beta iota.
    assert (forall q', concat q' = concat (queue (self w)) ++ concat q ->
      wok (mk_world (set_queue q' (self w)) (from_stack w ++ concat q) (to_sock w) (recved w)
        (from_sock w) (to_stack w) (acked w) (sock_shut w) (stack_shut w))) as Hok.
    { intros q' Hq'. exists u, p. split; simpl; try done.
      - by rewrite Hq', H1, app_assoc.
      - by rewrite Hq'.
      - intros Hs. destruct (H8 Hs). congruence. }
    destruct (is_nil (queue (self w))) eqn:Hnil.
    + apply wp_bind. eapply wp_intro; [done|]. apply wp_bind. eapply wp_intro; [done|].
      apply wp_ret, wp_ret. split; [|done]. apply Hok. by destruct (queue (self w)).
    + case_decide.
      { apply wp_ret, wp_ret. split; [|done]. exists u, p. by split. }
      apply wp_bind. eapply wp_intro; [done|]. apply wp_bind. eapply wp_intro; [done|].
      apply wp_ret, wp_ret. split; [|done]. apply Hok. by rewrite concat_app.
  - apply wp_bind, wp_bind. eapply (wp_get (fun w => Some (self w))); [done|]. cbn beta iota.
    apply wp_bind. eapply wp_intro; [done|]. apply wp_ret, wp_ret. split; [|done].
    exists u, p. split; simpl; auto. intros Hs. by destruct (H8 Hs).
  - destruct Hv as [Hn0 Hn]. destruct H7 as (a & Ha & Hk). rewrite Ha, length_app in Hn.
    assert (Z.to_nat n <= length u)%nat as Hnu by lia.
    assert (Z.of_nat (length (take (Z.to_nat n) u)) = n) as Hlen by (rewrite length_take; lia).
    apply wp_bind, wp_bind. eapply (wp_get (fun w => Some (self w))); [done|].
    apply wp_bind. eapply wp_intro; [done|]. apply wp_bind. eapply wp_intro; [done|].
    apply wp_ret, wp_ret. split; [|done]. exists (drop (Z.to_nat n) u), p.
    pose proof (read_release_repr _ _ _ H4 (take (Z.to_nat n) u) (drop (Z.to_nat n) u)
      ltac:(by rewrite take_drop)) as Hrb. rewrite Hlen in Hrb.
    split; simpl; try done.
    + unfold hev_ring_buffer_read_release. by case_decide.
    + exists (a ++ take (Z.to_nat n) u). rewrite <- app_assoc, take_drop.
      split; [done|]. rewrite length_app. lia.
  - eapply wp_intro; [done|]. split; [|done]. exists u, p. split; simpl; try done.
Qed.

(** ** The loops *)

Fixpoint valid_events (es : list event) (w : world) : Prop :=
  match es with
  | [] => True
  | e :: es => valid_event e w
      ∧ forall w', handle_event e w = Some (tt, w') -> valid_events es w'
  end.

(** Every outcome of the script is possible in the state it meets. *)
Definition step_f (r : round) (res_f : Z) : M world Z :=
  if decide (res_f >= 0) then tcp_splice_f (rn_write r) else mret res_f.
Definition step_b (r : round) (res_b : Z) : M world Z :=
  if decide (res_b >= 0) then tcp_splice_b (rn_read r) (rn_errs r) else mret res_b.

Fixpoint valid_drain (rs : list round) (w : world) : Prop :=
  match rs with
  | [] => True
  | r :: rs => valid_events (rn_events r) w
      ∧ forall w', handle_events (rn_events r) w = Some (tt, w') -> valid_drain rs w'
  end.

Fixpoint valid_script (rs : list round) (res_f res_b : Z) (w : world) : Prop :=
  match rs with
  | [] => True
  | r :: rs =>
      (res_f >= 0 -> valid_write (rn_write r) w) ∧ (3 <= length (rn_errs r))%nat
      ∧ forall f w1, step_f r res_f w = Some (f, w1) ->
        (res_b >= 0 -> valid_read (rn_read r) w1)
        ∧ forall b w2, step_b r res_b w1 = Some (b, w2) ->
          match next_type f b with
          | None => valid_drain rs w2
          | Some _ => valid_events (rn_events r) w2
              ∧ forall w3, handle_events (rn_events r) w2 = Some (tt, w3) ->
                  valid_script rs f b w3 ∧ valid_drain rs w3
          end
  end.

Lemma wp_handle_events es : forall w, wok w -> valid_events es w ->
  wp (handle_events es) w (fun _ w' => wok w' ∧ stack_shut w' = stack_shut w ∧ sock_shut w' = sock_shut w).
Proof.
  induction es as [|e es IH]; intros w Hok Hv; simpl; [by apply wp_ret|].
  destruct Hv as [He Hv]. apply wp_bind.
  destruct (wp_elim _ _ _ (wp_handle_event e w Hok He)) as ([] & w1 & Hw1 & Hok1 & Hs1 & Hk1).
  eapply wp_intro; [exact Hw1|]. eapply wp_mono; [by apply IH, Hv|].
  intros _ w2 (? & ? & ?). split_and!; [done | congruence..].
Qed.

Lemma wp_yielder t r w : wok w -> valid_events (rn_events r) w ->
  wp (hev_socks5_task_io_yielder t r) w (fun y w' =>
    handle_events (rn_events r) w = Some (tt, w') ∧ wok w'
    ∧ stack_shut w' = stack_shut w ∧ sock_shut w' = sock_shut w).
Proof.
  intros Hok Hv. unfold hev_socks5_task_io_yielder. apply wp_bind.
  eapply (wp_get (fun w => Some (self w))); [done|]. apply wp_bind.
  destruct (wp_elim _ _ _ (wp_handle_events _ w Hok Hv)) as ([] & w1 & Hw1 & Hok1 & Hs1 & Hk1).
  eapply wp_intro; [exact Hw1|]. destruct t; [by apply wp_ret|].
  repeat case_decide; by apply wp_ret.
Qed.

(** No write to the socket fails. *)
Definition no_write_failed (rs : list round) : Prop := Forall (fun r => rn_write r ≠ WriteFailed) rs.

(** The invariant of the first loop. *)
Record linv (failed : bool) (w : world) (res_f res_b : Z) : Prop := {
  li_ok : wok w;
  li_b : stack_shut w = true -> res_b < 0;
  li_f : res_f < 0 -> failed = true \/ sock_shut w = true;
}.

Lemma wp_step_f failed r w res_f res_b : linv failed w res_f res_b -> (res_f >= 0 -> valid_write (rn_write r) w) ->
  rn_write r ≠ WriteFailed \/ failed = true ->
  wp (step_f r res_f) w (fun f w' => linv failed w' f res_b).
Proof.
  intros Hl Hv Hnf. unfold step_f. case_decide; [|by apply wp_ret].
  destruct Hl as [(u & p & Hi) Hb Hf].
  eapply wp_mono; [exact (wp_splice_f (rn_write r) w u p Hi (Hv ltac:(lia)))|].
  intros f w1 (Hi1 & Hf1 & _ & Hs1 & Hk1). split; [by exists u, p | by rewrite Hs1 |].
  intros Hlt. destruct (Hf1 Hlt); [tauto | by right].
Qed.

Lemma wp_step_b failed r w f res_b : linv failed w f res_b -> (res_b >= 0 -> valid_read (rn_read r) w) ->
  (3 <= length (rn_errs r))%nat -> wp (step_b r res_b) w (fun b w' => linv failed w' f b).
Proof.
  intros Hl Hv He. unfold step_b. case_decide; [|by apply wp_ret].
  destruct Hl as [Hok Hb Hf].
  eapply wp_mono; [apply wp_splice_b; [done | | by apply Hv | done]|].
  - destruct (stack_shut w) eqn:?; [|done]. specialize (Hb eq_refl). lia.
  - intros b w1 (Hok1 & _ & Hk1 & _ & Hb1). split; [done | done | by rewrite Hk1].
Qed.

Lemma next_type_none f b : next_type f b = None -> f < 0.
Proof.
  unfold next_type. repeat case_bool_decide; simpl; try done. case_decide as Hl; [done|].
  intros _. destruct (decide (f = 0)) as [->|]; [by rewrite Z.land_0_l in Hl | lia].
Qed.

Lemma wp_splice_loop failed rs : forall res_f res_b w,
  linv failed w res_f res_b -> valid_script rs res_f res_b w ->
  no_write_failed rs \/ failed = true ->
  wp (splice_loop rs res_f res_b) w (fun orest w' =>
    wok w' ∧ valid_drain orest.2 w'
    ∧ (orest.1 = Some Finished -> failed = true \/ sock_shut w' = true)).
Proof.
  induction rs as [|r rs IH]; intros res_f res_b w Hl Hv Hnf.
  { apply wp_ret. simpl. split_and!; [apply Hl | done | done]. }
  destruct Hv as (Hvw & Hve & Hv). cbn [splice_loop].
  fold (step_f r res_f) (step_b r res_b).
  assert (rn_write r ≠ WriteFailed \/ failed = true) as Hr
    by (destruct Hnf as [Hnf|]; [left; by inversion Hnf | by right]).
  assert (no_write_failed rs \/ failed = true) as Hnf'
    by (destruct Hnf as [Hnf|]; [left; by inversion Hnf | by right]).
  destruct (wp_elim _ _ _ (wp_step_f _ _ _ _ _ Hl Hvw Hr)) as (f & w1 & Hw1 & Hl1).
  apply wp_bind. eapply wp_intro; [exact Hw1|].
  destruct (Hv f w1 Hw1) as (Hvr & Hv1).
  destruct (wp_elim _ _ _ (wp_step_b _ _ _ _ _ Hl1 Hvr Hve)) as (b & w2 & Hw2 & Hl2).
  apply wp_bind. eapply wp_intro; [exact Hw2|]. specialize (Hv1 b w2 Hw2).
  destruct (next_type f b) as [t|] eqn:Hn.
  - destruct Hv1 as [Hev Hv2]. apply wp_bind.
    destruct (wp_elim _ _ _ (wp_yielder t r w2 (li_ok _ _ _ _ Hl2) Hev))
      as (y & w3 & Hw3 & Hhe & Hok3 & Hs3 & Hk3).
    eapply wp_intro; [exact Hw3|]. destruct (Hv2 w3 Hhe) as [Hvs Hvd]. case_decide.
    + apply wp_ret. simpl. by split_and!.
    + apply IH; [|done..]. destruct Hl2. split; [done | by rewrite Hs3 | by rewrite Hk3].
  - apply wp_ret. simpl. destruct Hl2. split_and!; [done..|]. intros _.
    by eapply li_f0, next_type_none.
Qed.

Lemma wp_drain_loop rs : forall w, wok w -> valid_drain rs w ->
  wp (drain_loop rs) w (fun o w' => wok w' ∧ sock_shut w' = sock_shut w
    ∧ (o = Some Finished -> pcb (self w') = false \/ use_size (buffer (self w')) = 0)).
Proof.
  induction rs as [|r rs IH]; intros w Hok Hv; cbn [drain_loop]; apply wp_bind;
    (eapply (wp_get (fun w => Some (self w))); [done|]);
    (destruct (pcb (self w)) eqn:Hp; cbn [negb]; [|apply wp_ret; split_and!; auto]);
    (case_decide; [apply wp_ret; split_and!; auto|]).
  - by apply wp_ret.
  - destruct Hv as [He Hv]. apply wp_bind.
    destruct (wp_elim _ _ _ (wp_yielder HEV_TASK_WAITIO r w Hok He))
      as (y & w1 & Hw1 & Hhe & Hok1 & Hs1 & Hk1).
    eapply wp_intro; [exact Hw1|]. case_decide; [by apply wp_ret|].
    eapply wp_mono; [by apply IH, Hv|]. intros o w2 (? & ? & ?). split_and!; [done | congruence | done].
Qed.

(** ** The whole session *)

(** The session as the handshake leaves it: the stack may have delivered data. *)
Definition at_start (w : world) : Prop :=
  pcb (self w) = true ∧ from_stack w = concat (queue (self w))
  ∧ Z.of_nat (length (concat (queue (self w)))) <= TCP_WND
  ∧ to_sock w = [] ∧ recved w = 0 ∧ from_sock w = [] ∧ to_stack w = [] ∧ acked w = 0
  ∧ sock_shut w = false ∧ stack_shut w = false.

Definition with_buffer (b : HevRingBuffer) (w : world) : world :=
  mk_world (set_buffer b (self w)) (from_stack w) (to_sock w) (recved w) (from_sock w) (to_stack w)
    (acked w) (sock_shut w) (stack_shut w).

Section Splice.
Context (size : Z) (mem : bytes) (rs : list round) (w : world).
Context (Hsize : 0 < size <= TCP_SND_BUF) (Hmem : Z.of_nat (length mem) = size).
Context (Hstart : at_start w).
Context (Hscript : valid_script rs 1 1 (with_buffer (hev_ring_buffer_alloca size mem) w)).

Lemma wp_splice : wp (hev_socks5_session_tcp_splice size mem rs) w (fun o w' => wok w'
  ∧ (no_write_failed rs -> o.1 = Some Finished -> sock_shut w' = true)
  ∧ (o.2 = Some Finished -> pcb (self w') = false \/ use_size (buffer (self w')) = 0)).
Proof.
  destruct Hstart as (H1 & H2 & H3 & H4 & H5 & H6 & H7 & H8 & H9 & H10).
  unfold hev_socks5_session_tcp_splice. apply wp_bind.
  eapply (wp_get (fun w => Some (self w))); [done|]. rewrite H1. cbn [negb].
  apply wp_bind. eapply wp_intro; [done|].
  fold (with_buffer (hev_ring_buffer_alloca size mem) w).
  set (w0 := with_buffer _ w) in *.
  assert (wok w0) as Hok.
  { exists [], []. split; simpl; try congruence; rewrite ?H4, ?H5, ?H6, ?H7, ?H8; try done.
    - apply alloca_repr; [lia|done].
    - lia.
    - by exists []. }
  assert (exists failed : bool, (no_write_failed rs -> failed = false)
    ∧ (no_write_failed rs \/ failed = true)) as (failed & Hf1 & Hf2).
  { unfold no_write_failed.
    assert (forall r, Decision (rn_write r ≠ WriteFailed)) as Hdec
      by (intros r; destruct (rn_write r); [left | left | right]; try done; by intros []).
    destruct (decide (Forall (fun r => rn_write r ≠ WriteFailed) rs));
      [exists false; tauto | exists true; tauto]. }
  destruct (wp_elim _ _ _ (wp_splice_loop failed rs 1 1 w0
    ltac:(split; [done | unfold w0; simpl; congruence | lia]) Hscript Hf2))
    as ([o rs1] & w1 & Hw1 & Hok1 & Hd1 & Ho1).
  apply wp_bind. eapply wp_intro; [exact Hw1|]. simpl in Hd1, Ho1. cbn beta iota.
  destruct o as [o|]; [|by apply wp_ret].
  apply wp_bind. eapply wp_mono; [by apply wp_drain_loop|]. intros o2 w2 (Hok2 & Hs2 & Ho2).
  apply wp_ret. simpl. split_and!; [done | | done].
  intros Hnf Ho. rewrite Hs2. rewrite (Hf1 Hnf) in Ho1. by destruct (Ho1 Ho).
Qed.
End Splice.


(** C15: When both loops end by themselves, no write to the socket failed and the
    connection is still there, everything was delivered: every byte from the stack was
    written to the socket, whose writing side is then shut down, and every byte read
    from the socket was handed to the stack and acknowledged. *)
Theorem hev_socks5_session_tcp_splice_delivers size mem rs w w' :
  0 < size <= TCP_SND_BUF -> Z.of_nat (length mem) = size -> at_start w ->
  valid_script rs 1 1 (with_buffer (hev_ring_buffer_alloca size mem) w) ->
  no_write_failed rs ->
  hev_socks5_session_tcp_splice size mem rs w = Some ((Some Finished, Some Finished), w') ->
  pcb (self w') = true ->
  to_sock w' = from_stack w' ∧ sock_shut w' = true
  ∧ to_stack w' = from_sock w' ∧ acked w' = Z.of_nat (length (from_sock w')).
Proof.
  intros Hs Hm Hst Hv Hnf Hw Hp. destruct (wp_elim _ _ _ (wp_splice size mem rs w Hs Hm Hst Hv))
    as (o & w1 & Hw1 & (u & p & Hi) & H1 & H2). rewrite Hw in Hw1. injection Hw1 as <- <-.
  specialize (H1 Hnf eq_refl). destruct (H2 eq_refl) as [?|Huse]; [congruence|]. destruct Hi.
  destruct (wi_sock_shut0 H1) as [Hq _]. rewrite (rr_use _ _ _ wi_rb0) in Huse.
  destruct u; [|simpl in Huse; lia]. destruct p; [|simpl in Huse; lia].
  destruct wi_unacked0 as (a & Ha & Hk). rewrite Hq in wi_up0. cbn [concat] in *.
  rewrite !app_nil_r in *. split_and!; congruence.
Qed.

(** *** A run: two bytes go up, one comes down, and both sides close *)

Definition run_world : world :=
  mk_world (mk_session true false [[1; 2]] (mk_rb 0 0 0 0 0 []) (-1)) [1; 2] [] 0 [] [] 0 false false.
Definition run_rounds : list round :=
  [ mk_round (Wrote 2) (Got [7]) [0; 0; 0] [EvSent 1; EvRecv None] 0;
    mk_round WriteAgain ReadFailed [0; 0; 0] [] 0 ].

Ltac known H := vm_compute in H; injection H as ?; subst.
Ltac in_bounds := vm_compute; repeat split; (done || by intros).

Lemma run_valid :
  valid_script run_rounds 1 1 (with_buffer (hev_ring_buffer_alloca 4 [0; 0; 0; 0]) run_world).
Proof.
  cbn [run_rounds valid_script]. split; [intros _; in_bounds|]. split; [simpl; lia|].
  intros f w1 H1. known H1. split; [intros _; in_bounds|].
  intros b w2 H2. known H2.
  match goal with |- match ?t with _ => _ end => let t' := eval vm_compute in t in change t with t' end.
  split; [split; [in_bounds|]; intros w3 H3; known H3; by split|].
  intros w3 H3. known H3. split; [|by split].
  split; [done|]. split; [simpl; lia|].
  intros f w4 H4. known H4. split; [done|].
  intros b w5 H5. known H5. by vm_compute.
Qed.


Definition run_end : world :=
  mk_world (mk_session true true [] (mk_rb 0 0 0 0 4 [7; 0; 0; 0]) (-1)) [1; 2] [1; 2] 2 [7] [7] 1 true true.

Lemma hev_socks5_session_tcp_splice_delivers_witness :
  hev_socks5_session_tcp_splice 4 [0; 0; 0; 0] run_rounds run_world
    = Some ((Some Finished, Some Finished), run_end)
  ∧ to_sock run_end = from_stack run_end ∧ sock_shut run_end = true
  ∧ to_stack run_end = from_sock run_end ∧ acked run_end = Z.of_nat (length (from_sock run_end)).
Proof.
  split; [by vm_compute|].
  apply (hev_socks5_session_tcp_splice_delivers 4 [0; 0; 0; 0] run_rounds run_world);
    [unfold TCP_SND_BUF; lia | done | by vm_compute | exact run_valid
    | repeat (apply Forall_cons; split; [done|]); constructor | by vm_compute | done].
Defined.

End SessionTCPProofs.
