(* ===== verification/Socks5Addr.v ===== *)
(** * SOCKS5 addresses: src/core/src/hev-socks5-misc.c and src/misc/hev-utils.c

    An address is kept in the form it has on the wire, in a packed structure of 260
    bytes: a type, and an IPv4 address and port, an IPv6 address and port, or a length, a
    name and a port.  The operations write and read that memory. *)

From S2P Require Import Prelude.

Module Socks5Addr.

(** ** Data *)

(** A [HevSocks5Addr] is its memory. *)
Definition HevSocks5Addr : Type := bytes.
Definition sizeof_addr : nat := 260.

Definition HEV_SOCKS5_ADDR_TYPE_IPV4 : Z := 1.
Definition HEV_SOCKS5_ADDR_TYPE_IPV6 : Z := 4.
Definition HEV_SOCKS5_ADDR_TYPE_NAME : Z := 3.

Inductive HevSocks5AddrFamily :=
  HEV_SOCKS5_ADDR_FAMILY_IPV4 | HEV_SOCKS5_ADDR_FAMILY_IPV6 | HEV_SOCKS5_ADDR_FAMILY_UNSPEC.

(** The fields of the C structure, by their offsets. *)
Definition atype (addr : HevSocks5Addr) : option Z := rd8 addr 0.
Definition domain_len (addr : HevSocks5Addr) : option Z := rd8 addr 1.

(** [sin6_port] is the value of the field, whose bytes are in network order. *)
Record sockaddr_in6 := mk_sockaddr { sin6_family : Z; sin6_port : Z; sin6_addr : bytes }.
Definition AF_INET6 : Z := 10.

Record ip_addr := mk_ip { ip_type : Z; ip_bytes : bytes }.
Definition IPADDR_TYPE_V4 : Z := 0.
Definition IPADDR_TYPE_V6 : Z := 6.

(** ** Operations on the structure *)

Definition hev_socks5_addr_len (addr : HevSocks5Addr) : option Z :=
  t ← atype addr;
  if decide (t = HEV_SOCKS5_ADDR_TYPE_IPV4) then Some 7
  else if decide (t = HEV_SOCKS5_ADDR_TYPE_IPV6) then Some 19
  else if decide (t = HEV_SOCKS5_ADDR_TYPE_NAME) then l ← domain_len addr; Some (4 + l)
  else Some (-1).

(** [_port] is in network order. *)
Definition hev_socks5_addr_from_name (addr : HevSocks5Addr) (name : bytes) (_port : Z)
  : option (Z * HevSocks5Addr) :=
  let port := u16 _port in
  addr ← wr addr 0 [HEV_SOCKS5_ADDR_TYPE_NAME];
  addr ← wr addr 2 (strncpy name 256);
  s ← cstr_of (drop 2 addr);
  addr ← wr addr 1 [u8 (Z.of_nat (length s))];
  l ← domain_len addr;
  addr ← wr addr (2 + l) (le16 port);
  l ← domain_len addr;
  Some (4 + l, addr).

Definition hev_socks5_addr_from_ipv4 (addr : HevSocks5Addr) (ipv4 : bytes) (port : Z)
  : option (Z * HevSocks5Addr) :=
  addr ← wr addr 0 [HEV_SOCKS5_ADDR_TYPE_IPV4];
  a ← rd ipv4 0 4;
  addr ← wr addr 1 a;
  addr ← wr addr 5 (le16 (u16 port));
  Some (7, addr).

Definition hev_socks5_addr_from_ipv6 (addr : HevSocks5Addr) (ipv6 : bytes) (port : Z)
  : option (Z * HevSocks5Addr) :=
  addr ← wr addr 0 [HEV_SOCKS5_ADDR_TYPE_IPV6];
  a ← rd ipv6 0 16;
  addr ← wr addr 1 a;
  addr ← wr addr 17 (le16 (u16 port));
  Some (19, addr).

(** The macro of the system's headers. *)
Definition v4mapped_prefix : bytes := replicate 10 0 ++ [255; 255].
Definition IN6_IS_ADDR_V4MAPPED (a : bytes) : bool := bool_decide (take 12 a = v4mapped_prefix).

Definition hev_socks5_addr_from_sockaddr6 (addr : HevSocks5Addr) (saddr : sockaddr_in6)
  : option (Z * HevSocks5Addr) :=
  if IN6_IS_ADDR_V4MAPPED (sin6_addr saddr) then
    addr ← wr addr 0 [HEV_SOCKS5_ADDR_TYPE_IPV4];
    addr ← wr addr 5 (le16 (sin6_port saddr));
    a ← rd (sin6_addr saddr) 12 4;
    addr ← wr addr 1 a;
    Some (7, addr)
  else
    addr ← wr addr 0 [HEV_SOCKS5_ADDR_TYPE_IPV6];
    addr ← wr addr 17 (le16 (sin6_port saddr));
    a ← rd (sin6_addr saddr) 0 16;
    addr ← wr addr 1 a;
    Some (19, addr).

Definition hev_socks5_ipv4_into_sockaddr6 (addr : HevSocks5Addr) (saddr : sockaddr_in6)
  : option sockaddr_in6 :=
  p ← rd addr 5 2;
  a ← wr (sin6_addr saddr) 0 (replicate 10 0);
  a ← wr a 10 [255];
  a ← wr a 11 [255];
  ip ← rd addr 1 4;
  a ← wr a 12 ip;
  Some (mk_sockaddr AF_INET6 (of_le16 p) a).

Definition hev_socks5_ipv6_into_sockaddr6 (addr : HevSocks5Addr) (saddr : sockaddr_in6)
  : option sockaddr_in6 :=
  p ← rd addr 17 2;
  ip ← rd addr 1 16;
  a ← wr (sin6_addr saddr) 0 ip;
  Some (mk_sockaddr AF_INET6 (of_le16 p) a).

(** ** Names

    [inet_pton] and the task system's resolver are not part of the program.  The
    parsers give the 4 or 16 bytes of a literal; the resolver the family and the bytes of
    the first result. *)
Class Resolver := {
  inet_pton4 : bytes -> option bytes;
  inet_pton6 : bytes -> option bytes;
  getaddrinfo : bytes -> HevSocks5AddrFamily -> option (HevSocks5AddrFamily * bytes);
}.

Section Names.
Context `{Resolver}.

Definition hev_socks5_name_resolve_ipv4 (name : bytes) (saddr : sockaddr_in6)
  : option (Z * sockaddr_in6) :=
  a ← wr (sin6_addr saddr) 0 (replicate 10 0);
  match inet_pton4 name with
  | None => Some (-1, mk_sockaddr (sin6_family saddr) (sin6_port saddr) a)
  | Some ip =>
      a ← wr a 12 ip;
      a ← wr a 10 [255];
      a ← wr a 11 [255];
      Some (0, mk_sockaddr (sin6_family saddr) (sin6_port saddr) a)
  end.

Definition hev_socks5_name_resolve_ipv6 (name : bytes) (saddr : sockaddr_in6)
  : option (Z * sockaddr_in6) :=
  match inet_pton6 name with
  | None => Some (-1, saddr)
  | Some ip =>
      a ← wr (sin6_addr saddr) 0 ip;
      Some (0, mk_sockaddr (sin6_family saddr) (sin6_port saddr) a)
  end.

Definition hev_socks5_name_resolve_name (name : bytes) (saddr : sockaddr_in6)
  (family : HevSocks5AddrFamily) : option (Z * sockaddr_in6 * HevSocks5AddrFamily) :=
  match getaddrinfo name family with
  | None => Some (-1, saddr, family)
  | Some (HEV_SOCKS5_ADDR_FAMILY_IPV4, ip) =>
      a ← wr (sin6_addr saddr) 0 (replicate 10 0);
      a ← wr a 10 [255];
      a ← wr a 11 [255];
      ip ← rd ip 0 4;
      a ← wr a 12 ip;
      Some (0, mk_sockaddr (sin6_family saddr) (sin6_port saddr) a, HEV_SOCKS5_ADDR_FAMILY_IPV4)
  | Some (HEV_SOCKS5_ADDR_FAMILY_IPV6, ip) =>
      ip ← rd ip 0 16;
      a ← wr (sin6_addr saddr) 0 ip;
      Some (0, mk_sockaddr (sin6_family saddr) (sin6_port saddr) a, HEV_SOCKS5_ADDR_FAMILY_IPV6)
  | Some (HEV_SOCKS5_ADDR_FAMILY_UNSPEC, _) => Some (-1, saddr, family)
  end.

Definition hev_socks5_name_into_sockaddr6 (name : bytes) (port : Z) (saddr : sockaddr_in6)
  (family : HevSocks5AddrFamily) : option (Z * sockaddr_in6 * HevSocks5AddrFamily) :=
  let saddr := mk_sockaddr AF_INET6 (htons port) (sin6_addr saddr) in
  '(res, saddr) ← hev_socks5_name_resolve_ipv4 name saddr;
  if decide (res = 0) then Some (0, saddr, HEV_SOCKS5_ADDR_FAMILY_IPV4) else
  '(res, saddr) ← hev_socks5_name_resolve_ipv6 name saddr;
  if decide (res = 0) then Some (0, saddr, HEV_SOCKS5_ADDR_FAMILY_IPV6) else
  hev_socks5_name_resolve_name name saddr family.

Definition hev_socks5_addr_into_sockaddr6 (addr : HevSocks5Addr) (saddr : sockaddr_in6)
  (family : HevSocks5AddrFamily) : option (Z * sockaddr_in6 * HevSocks5AddrFamily) :=
  t ← atype addr;
  if decide (t = HEV_SOCKS5_ADDR_TYPE_IPV4) then
    s ← hev_socks5_ipv4_into_sockaddr6 addr saddr;
    Some (0, s, HEV_SOCKS5_ADDR_FAMILY_IPV4)
  else if decide (t = HEV_SOCKS5_ADDR_TYPE_IPV6) then
    s ← hev_socks5_ipv6_into_sockaddr6 addr saddr;
    Some (0, s, HEV_SOCKS5_ADDR_FAMILY_IPV6)
  else if decide (t = HEV_SOCKS5_ADDR_TYPE_NAME) then
    l ← domain_len addr;
    name ← rd addr 2 l;
    name ← cstr_of (name ++ [0]);
    p ← rd addr (2 + l) 2;
    hev_socks5_name_into_sockaddr6 name (ntohs (of_le16 p)) saddr family
  else Some (-1, saddr, family).
End Names.

(** ** The network stack's addresses *)

(** The 32-bit address in host order. *)
Definition ip4_host (a : bytes) : Z :=
  foldl (fun n b => n * 2 ^ 8 + b) 0 a.

(** [dns] is the lookup of the mapped DNS, when there is one. *)
Definition hev_socks5_addr_from_lwip {S} (dns : option (Z -> M S (option bytes)))
  (addr : HevSocks5Addr) (ip : ip_addr) (port : Z) : M S (Z * HevSocks5Addr) :=
  if decide (ip_type ip = IPADDR_TYPE_V4) then
    name ←
      (match dns with
       | Some lookup => a ← mget (fun _ => rd (ip_bytes ip) 0 4); lookup (s32 (ip4_host a))
       | None => mret None
       end);
    match name with
    | Some name =>
        r ← mget (fun _ => hev_socks5_addr_from_name addr name (htons port));
        mret (0, snd r)
    | None =>
        r ← mget (fun _ => hev_socks5_addr_from_ipv4 addr (ip_bytes ip) (htons port));
        mret (0, snd r)
    end
  else if decide (ip_type ip = IPADDR_TYPE_V6) then
    r ← mget (fun _ => hev_socks5_addr_from_ipv6 addr (ip_bytes ip) (htons port));
    mret (0, snd r)
  else mret (-1, addr).

(** The result, the address and the port in host order; [port] is what it was before. *)
Definition hev_socks5_addr_into_lwip (addr : HevSocks5Addr) (ip : ip_addr) (port : Z)
  : option (Z * ip_addr * Z) :=
  t ← atype addr;
  if decide (t = HEV_SOCKS5_ADDR_TYPE_IPV4) then
    a ← rd addr 1 4; b ← wr (ip_bytes ip) 0 a;
    p ← rd addr 5 2;
    Some (0, mk_ip IPADDR_TYPE_V4 b, ntohs (of_le16 p))
  else if decide (t = HEV_SOCKS5_ADDR_TYPE_IPV6) then
    a ← rd addr 1 16; b ← wr (ip_bytes ip) 0 a;
    p ← rd addr 17 2;
    Some (0, mk_ip IPADDR_TYPE_V6 b, ntohs (of_le16 p))
  else Some (-1, ip, port).

(** ** Addresses and their wire form *)

Inductive address :=
  | IPv4 (a : bytes) (port : Z)
  | IPv6 (a : bytes) (port : Z)
  | Name (s : bytes) (port : Z).

Definition encode (a : address) : bytes :=
  match a with
  | IPv4 a port => HEV_SOCKS5_ADDR_TYPE_IPV4 :: a ++ be16 port
  | IPv6 a port => HEV_SOCKS5_ADDR_TYPE_IPV6 :: a ++ be16 port
  | Name s port => HEV_SOCKS5_ADDR_TYPE_NAME :: Z.of_nat (length s) :: s ++ be16 port
  end.

(** [port] is in host order; a name is not empty and has at most 255 bytes. *)
Definition address_ok (a : address) : Prop :=
  match a with
  | IPv4 a port => bytes_ok a ∧ length a = 4%nat ∧ is_u16 port
  | IPv6 a port => bytes_ok a ∧ length a = 16%nat ∧ is_u16 port
  | Name s port => cstr_ok s ∧ (0 < length s <= 255)%nat ∧ is_u16 port
  end.

(** A structure that holds an address: the wire form, and then whatever was there. *)
Definition holds_address (addr : HevSocks5Addr) (a : address) : Prop :=
  length addr = sizeof_addr ∧ exists rest, addr = encode a ++ rest.

(** Memory that starts with an address. *)
Definition starts_with (addr : bytes) (a : address) : Prop := exists rest, addr = encode a ++ rest.

Lemma holds_starts_with addr a : holds_address addr a -> starts_with addr a.
Proof. by intros [_ ?]. Qed.

Definition same_size {A} (l l' : list A) : Prop := length l = length l'.

Lemma encode_length a : address_ok a ->
  Z.of_nat (length (encode a))
  = match a with IPv4 _ _ => 7 | IPv6 _ _ => 19 | Name s _ => 4 + Z.of_nat (length s) end.
Proof. destruct a; simpl; intros (? & ? & ?); rewrite length_app, length_be16; lia. Qed.

Lemma encode_ok a : address_ok a -> bytes_ok (encode a).
Proof.
  destruct a as [a port|a port|s port]; intros (Ha & Hl & _); apply Forall_cons; (split; [done|]);
    try (apply bytes_ok_app; split; [done | apply be16_ok]).
  apply Forall_cons. split; [unfold is_u8; lia|]. apply bytes_ok_app. split; [|apply be16_ok].
  eapply Forall_impl; [exact Ha|]. intros b Hb. unfold is_u8. simpl in Hb. lia.
Qed.

(** Only addresses with the same wire form are equal. *)
Lemma encode_inj a b : address_ok a -> address_ok b -> encode a = encode b -> a = b.
Proof.
  destruct a as [a p|a p|s p], b as [b q|b q|t q]; simpl; try done;
    intros (_ & Ha & Hp) (_ & Hb & Hq) He; injection He; clear He; intros He; try intros Hn;
    apply app_inj_1 in He as [-> He]; try lia; by rewrite (be16_inj p q).
Qed.

Lemma addr_len_encode addr a : address_ok a -> holds_address addr a ->
  hev_socks5_addr_len addr = Some (Z.of_nat (length (encode a))).
Proof.
  intros Ha (_ & rest & ->). rewrite (encode_length a Ha). by destruct a.
Qed.

Section From.
Context (addr : HevSocks5Addr) (Hsize : length addr = sizeof_addr).

Lemma addr_head : exists b rest, addr = b :: rest ∧ length rest = 259%nat.
Proof. destruct addr as [|b rest]; [done|]. exists b, rest. split; [done|]. by injection Hsize. Qed.

Lemma from_ipv4_ok ip port : bytes_ok ip -> (4 <= length ip)%nat -> is_u16 port ->
  exists addr', hev_socks5_addr_from_ipv4 addr ip (htons port) = Some (7, addr')
    ∧ holds_address addr' (IPv4 (take 4 ip) port).
Proof.
  intros Hip Hl Hp. destruct addr_head as (b & rest & -> & Hr).
  unfold hev_socks5_addr_from_ipv4. rewrite wr_0 by (simpl; lia).
  simpl app. cbn [mbind option_bind drop length].
  rewrite rd_0 by lia. cbn [mbind option_bind]. change (Z.to_nat 4) with 4%nat.
  assert (length (take 4 ip) = 4%nat) as Ht by (rewrite length_take; lia).
  rewrite (wr_app [1] rest) by (done || lia). cbn [mbind option_bind app].
  rewrite Ht. rewrite (wr_app (1 :: take 4 ip) (drop 4 rest))
    by (done || (rewrite ?length_drop; simpl; lia)). cbn [mbind option_bind].
  eexists. split; [done|]. rewrite (u16_id (htons port)) by apply swap16_range.
  rewrite (le16_htons port Hp). split.
  - rewrite !length_app, !length_drop. simpl. unfold sizeof_addr. lia.
  - eexists. simpl. by rewrite <- !app_assoc.
Qed.

Lemma from_ipv6_ok ip port : bytes_ok ip -> (16 <= length ip)%nat -> is_u16 port ->
  exists addr', hev_socks5_addr_from_ipv6 addr ip (htons port) = Some (19, addr')
    ∧ holds_address addr' (IPv6 (take 16 ip) port).
Proof.
  intros Hip Hl Hp. destruct addr_head as (b & rest & -> & Hr).
  unfold hev_socks5_addr_from_ipv6. rewrite wr_0 by (simpl; lia).
  simpl app. cbn [mbind option_bind drop length].
  rewrite rd_0 by lia. cbn [mbind option_bind]. change (Z.to_nat 16) with 16%nat.
  assert (length (take 16 ip) = 16%nat) as Ht by (rewrite length_take; lia).
  rewrite (wr_app [4] rest) by (done || lia). cbn [mbind option_bind app].
  rewrite Ht. rewrite (wr_app (4 :: take 16 ip) (drop 16 rest))
    by (done || (rewrite ?length_drop; simpl; lia)). cbn [mbind option_bind].
  eexists. split; [done|]. rewrite (u16_id (htons port)) by apply swap16_range.
  rewrite (le16_htons port Hp). split.
  - rewrite !length_app, !length_drop. simpl. unfold sizeof_addr. lia.
  - eexists. simpl. by rewrite <- !app_assoc.
Qed.

Lemma from_name_ok s port : cstr_ok s -> (length s <= 255)%nat -> is_u16 port ->
  exists addr', hev_socks5_addr_from_name addr s (htons port) = Some (4 + Z.of_nat (length s), addr')
    ∧ length addr' = sizeof_addr ∧ exists rest, addr' = encode (Name s port) ++ rest.
Proof.
  intros Hs Hl Hp. destruct addr_head as (b & r0 & -> & Hr).
  destruct r0 as [|b1 rest]; [done|]. injection Hr as Hr.
  unfold hev_socks5_addr_from_name. rewrite wr_0 by (simpl; lia).
  cbn [app mbind option_bind drop length].
  rewrite (wr_app [3; b1] rest) by (done || (rewrite length_strncpy; lia)).
  cbn [app mbind option_bind drop]. rewrite length_strncpy.
  rewrite strncpy_short by lia. rewrite <- app_assoc. rewrite <- app_comm_cons.
  rewrite drop_0, cstr_of_app by done. cbn [mbind option_bind].
  set (pad := replicate _ 0 ++ drop 256 rest).
  assert (length pad = (257 - length s)%nat) as Hpad
    by (unfold pad; rewrite length_app, length_replicate, length_drop; lia).
  rewrite (wr_app [3] (b1 :: s ++ 0 :: pad)) by (done || simpl; lia). cbn [app mbind option_bind drop length].
  assert (u8 (Z.of_nat (length s)) = Z.of_nat (length s)) as Hu by (apply Z.mod_small; lia).
  rewrite Hu. unfold domain_len.
  rewrite (rd8_app [3] (Z.of_nat (length s)) (s ++ 0 :: pad)) by done. cbn [mbind option_bind].
  rewrite (wr_app (3 :: Z.of_nat (length s) :: s) (0 :: pad)) by (done || simpl; lia).
  cbn [app mbind option_bind].
  rewrite (rd8_app [3] (Z.of_nat (length s)) (s ++ le16 (u16 (htons port)) ++ drop (length (le16 (u16 (htons port)))) (0 :: pad))) by done.
  cbn [mbind option_bind].
  rewrite (u16_id (htons port)) by apply swap16_range. rewrite (le16_htons port Hp).
  eexists. split; [done|]. split.
  - simpl. rewrite !length_app. simpl. rewrite ?length_drop. unfold sizeof_addr. lia.
  - eexists. simpl. by rewrite <- app_assoc.
Qed.
End From.

(** ** Socket addresses *)

Definition sockaddr_ok (sa : sockaddr_in6) : Prop :=
  bytes_ok (sin6_addr sa) ∧ length (sin6_addr sa) = 16%nat ∧ is_u16 (sin6_port sa).

(** The address a socket address stands for. *)
Definition sockaddr_address (sa : sockaddr_in6) : address :=
  if IN6_IS_ADDR_V4MAPPED (sin6_addr sa) then IPv4 (drop 12 (sin6_addr sa)) (ntohs (sin6_port sa))
  else IPv6 (sin6_addr sa) (ntohs (sin6_port sa)).

Lemma le16_ntohs v : is_u16 v -> le16 v = be16 (ntohs v).
Proof.
  intros H. unfold ntohs. rewrite (u16_id v H), <- (le16_htons _ (swap16_range v)).
  unfold htons. by rewrite (u16_id _ (swap16_range v)), (swap16_involutive v H).
Qed.

Lemma of_le16_be16_ntohs v : is_u16 v -> of_le16 (be16 (ntohs v)) = v.
Proof. intros H. rewrite <- (le16_ntohs v H). by apply of_le16_le16. Qed.

Lemma from_sockaddr6_starts addr sa : (19 <= length addr)%nat -> sockaddr_ok sa ->
  exists addr', hev_socks5_addr_from_sockaddr6 addr sa
      = Some (Z.of_nat (length (encode (sockaddr_address sa))), addr')
    ∧ length addr' = length addr ∧ starts_with addr' (sockaddr_address sa).
Proof.
  intros Hsize (Hb & Hl & Hp). destruct addr as [|b rest]; [simpl in Hsize; lia|]. cbn [length] in *.
  unfold hev_socks5_addr_from_sockaddr6, sockaddr_address.
  destruct (IN6_IS_ADDR_V4MAPPED (sin6_addr sa)).
  - rewrite wr_0 by (simpl; lia). cbn [app mbind option_bind drop length].
    rewrite (wr_app (1 :: take 4 rest) (drop 4 rest)); cycle 1.
    { simpl. by rewrite take_drop. }
    { cbn [length]. rewrite length_take. lia. }
    { rewrite length_drop. simpl. lia. }
    cbn [mbind option_bind]. rewrite (le16_ntohs _ Hp).
    rewrite rd_bound by lia. cbn [mbind option_bind].
    assert (take (Z.to_nat 4) (drop (Z.to_nat 12) (sin6_addr sa)) = drop 12 (sin6_addr sa)) as ->
      by (apply take_ge; rewrite length_drop; lia).
    assert (length (drop 12 (sin6_addr sa)) = 4%nat) as Hd by (rewrite length_drop; lia).
    assert (length (take 4 rest) = 4%nat) as Ht by (rewrite length_take; lia).
    rewrite (wr_app [1] (take 4 rest ++ be16 (ntohs (sin6_port sa)) ++ drop 2 (drop 4 rest)))
      by (done || rewrite length_app; lia).
    cbn [mbind option_bind]. rewrite Hd, (drop_app_length' (take 4 rest)) by done.
    eexists. split; [do 2 f_equal; simpl; rewrite length_app, Hd; done|]. split.
    + simpl. rewrite length_app, Hd. simpl. rewrite ?length_drop. lia.
    + eexists. simpl. by rewrite <- app_assoc.
  - rewrite wr_0 by (simpl; lia). cbn [app mbind option_bind drop length].
    rewrite (wr_app (4 :: take 16 rest) (drop 16 rest)); cycle 1.
    { simpl. by rewrite take_drop. }
    { cbn [length]. rewrite length_take. lia. }
    { rewrite length_drop. simpl. lia. }
    cbn [mbind option_bind]. rewrite (le16_ntohs _ Hp).
    rewrite rd_0 by lia. cbn [mbind option_bind].
    assert (take (Z.to_nat 16) (sin6_addr sa) = sin6_addr sa) as -> by (apply take_ge; lia).
    assert (length (take 16 rest) = 16%nat) as Ht by (rewrite length_take; lia).
    rewrite (wr_app [4] (take 16 rest ++ be16 (ntohs (sin6_port sa)) ++ drop 2 (drop 16 rest)))
      by (done || rewrite length_app; lia).
    cbn [mbind option_bind]. rewrite Hl, (drop_app_length' (take 16 rest)) by done.
    eexists. split; [do 2 f_equal; simpl; rewrite length_app, Hl; done|]. split.
    + simpl. rewrite length_app, Hl. simpl. rewrite ?length_drop. lia.
    + eexists. simpl. by rewrite <- app_assoc.
Qed.

Lemma from_sockaddr6_ok addr sa : length addr = sizeof_addr -> sockaddr_ok sa ->
  exists addr', hev_socks5_addr_from_sockaddr6 addr sa
      = Some (Z.of_nat (length (encode (sockaddr_address sa))), addr')
    ∧ holds_address addr' (sockaddr_address sa).
Proof.
  intros Ha Hsa. destruct (from_sockaddr6_starts addr sa) as (addr' & He & Hl & Hs); [rewrite Ha; unfold sizeof_addr; lia | done |].
  exists addr'. split; [done|]. split; [congruence | exact Hs].
Qed.

Lemma v4mapped_write a ip : length a = 16%nat -> length ip = 4%nat ->
  (a ← wr a 0 (replicate 10 0); a ← wr a 10 [255]; a ← wr a 11 [255]; wr a 12 ip)
  = Some (v4mapped_prefix ++ ip).
Proof.
  intros Ha Hip. do 16 (destruct a as [|? a]; [done|]). destruct a; [|done].
  rewrite wr_0 by (simpl; lia). cbn [app mbind option_bind drop length replicate].
  rewrite wr_byte by (simpl; lia). cbn [mbind option_bind].
  rewrite wr_byte by (simpl; lia). cbn [mbind option_bind].
  do 4 (destruct ip as [|? ip]; [done|]). by destruct ip.
Qed.

Section Into.
Context `{Resolver} (addr : HevSocks5Addr) (sa : sockaddr_in6) (Hsa : length (sin6_addr sa) = 16%nat).

Lemma ipv4_into_ok ip port : address_ok (IPv4 ip port) -> starts_with addr (IPv4 ip port) ->
  hev_socks5_ipv4_into_sockaddr6 addr sa
  = Some (mk_sockaddr AF_INET6 (htons port) (v4mapped_prefix ++ ip)).
Proof.
  intros (Hb & Hl & Hp) (rest & ->). unfold hev_socks5_ipv4_into_sockaddr6.
  rewrite (rd_app (1 :: ip) (be16 port) rest _ 5 2); [| |cbn [length]; lia|done]; cycle 1.
  { simpl. by rewrite <- app_assoc. }
  cbn [mbind option_bind]. rewrite (htons_of_be16 port Hp).
  rewrite (rd_app [1] ip (be16 port ++ rest)); [| |done|lia]; cycle 1.
  { simpl. by rewrite <- app_assoc. }
  pose proof (v4mapped_write (sin6_addr sa) ip Hsa Hl) as Hw.
  destruct (wr (sin6_addr sa) 0 _) as [a1|]; [|done]. cbn [mbind option_bind] in *.
  destruct (wr a1 10 _) as [a2|]; [|done]. cbn [mbind option_bind] in *.
  destruct (wr a2 11 _) as [a3|]; [|done]. cbn [mbind option_bind] in *.
  by rewrite Hw.
Qed.

Lemma ipv6_into_ok ip port : address_ok (IPv6 ip port) -> starts_with addr (IPv6 ip port) ->
  hev_socks5_ipv6_into_sockaddr6 addr sa = Some (mk_sockaddr AF_INET6 (htons port) ip).
Proof.
  intros (Hb & Hl & Hp) (rest & ->). unfold hev_socks5_ipv6_into_sockaddr6.
  rewrite (rd_app (4 :: ip) (be16 port) rest _ 17 2); [| |cbn [length]; lia|done]; cycle 1.
  { simpl. by rewrite <- app_assoc. }
  cbn [mbind option_bind]. rewrite (htons_of_be16 port Hp).
  rewrite (rd_app [4] ip (be16 port ++ rest)); [| |done|lia]; cycle 1.
  { simpl. by rewrite <- app_assoc. }
  cbn [mbind option_bind]. rewrite wr_0 by lia. cbn [mbind option_bind].
  by rewrite (drop_ge (sin6_addr sa)), app_nil_r by lia.
Qed.

Lemma addr_into_ipv4 fam ip port : address_ok (IPv4 ip port) -> starts_with addr (IPv4 ip port) ->
  hev_socks5_addr_into_sockaddr6 addr sa fam
  = Some (0, mk_sockaddr AF_INET6 (htons port) (v4mapped_prefix ++ ip), HEV_SOCKS5_ADDR_FAMILY_IPV4).
Proof.
  intros Hok Hh. unfold hev_socks5_addr_into_sockaddr6. rewrite (ipv4_into_ok ip port Hok Hh).
  by destruct Hh as (rest & ->).
Qed.

Lemma addr_into_ipv6 fam ip port : address_ok (IPv6 ip port) -> starts_with addr (IPv6 ip port) ->
  hev_socks5_addr_into_sockaddr6 addr sa fam
  = Some (0, mk_sockaddr AF_INET6 (htons port) ip, HEV_SOCKS5_ADDR_FAMILY_IPV6).
Proof.
  intros Hok Hh. unfold hev_socks5_addr_into_sockaddr6. rewrite (ipv6_into_ok ip port Hok Hh).
  by destruct Hh as (rest & ->).
Qed.

(** A name goes to the resolver as it is. *)
Lemma addr_into_name fam s port : address_ok (Name s port) -> starts_with addr (Name s port) ->
  hev_socks5_addr_into_sockaddr6 addr sa fam = hev_socks5_name_into_sockaddr6 s port sa fam.
Proof.
  intros (Hs & Hl & Hp) (rest & ->). unfold hev_socks5_addr_into_sockaddr6.
  cbn [encode app atype rd8]. change (atype _) with (Some HEV_SOCKS5_ADDR_TYPE_NAME).
  cbn [mbind option_bind]. rewrite 2 decide_False, decide_True by done.
  change (domain_len _) with (Some (Z.of_nat (length s))). cbn [mbind option_bind].
  rewrite (rd_app [3; Z.of_nat (length s)] s (be16 port ++ rest) _ 2); [| |done|done]; cycle 1.
  { simpl. by rewrite <- app_assoc. }
  cbn [mbind option_bind]. change [0] with (0 :: []). rewrite cstr_of_app by done.
  cbn [mbind option_bind].
  rewrite (rd_app (3 :: Z.of_nat (length s) :: s) (be16 port) rest _ (2 + Z.of_nat (length s)) 2); [| |cbn [length]; lia|done]; cycle 1.
  { simpl. by rewrite <- app_assoc. }
  cbn [mbind option_bind]. by rewrite (ntohs_of_be16 port Hp).
Qed.
End Into.

Lemma v4mapped_split a : length a = 16%nat -> IN6_IS_ADDR_V4MAPPED a = true ->
  a = v4mapped_prefix ++ drop 12 a.
Proof.
  intros Ha Hm%bool_decide_eq_true. rewrite <- Hm. by rewrite take_drop.
Qed.

Lemma sockaddr_address_ok sa : sockaddr_ok sa -> address_ok (sockaddr_address sa).
Proof.
  intros (Hb & Hl & Hp). unfold sockaddr_address.
  destruct (IN6_IS_ADDR_V4MAPPED (sin6_addr sa)); simpl; split_and!; try done; try apply swap16_range.
  - by apply bytes_ok_drop.
  - rewrite length_drop. lia.
Qed.

(** A socket address survives its conversion to a SOCKS5 address and back: the
    conversion writes the wire form (of an IPv4 address when the socket address is
    v4-mapped, of an IPv6 address otherwise), reports its length, and the conversion
    back gives the same address and port with the right family. *)
Theorem hev_socks5_addr_sockaddr6_round_trip `{Resolver} addr sa sa0 fam :
  length addr = sizeof_addr -> sockaddr_ok sa -> length (sin6_addr sa0) = 16%nat ->
  exists addr', hev_socks5_addr_from_sockaddr6 addr sa
      = Some (Z.of_nat (length (encode (sockaddr_address sa))), addr')
    ∧ holds_address addr' (sockaddr_address sa)
    ∧ hev_socks5_addr_into_sockaddr6 addr' sa0 fam
      = Some (0, mk_sockaddr AF_INET6 (sin6_port sa) (sin6_addr sa),
              if IN6_IS_ADDR_V4MAPPED (sin6_addr sa)
              then HEV_SOCKS5_ADDR_FAMILY_IPV4 else HEV_SOCKS5_ADDR_FAMILY_IPV6).
Proof.
  intros Ha Hsa Hsa0. destruct (from_sockaddr6_ok addr sa Ha Hsa) as (addr' & Hf & Hh).
  exists addr'. split_and!; [done..|]. pose proof (sockaddr_address_ok sa Hsa) as Hok.
  destruct Hsa as (Hb & Hl & Hp). unfold sockaddr_address in *.
  assert (htons (ntohs (sin6_port sa)) = sin6_port sa) as Hport.
  { unfold htons, ntohs. rewrite (u16_id _ Hp), (u16_id _ (swap16_range _)).
    by apply swap16_involutive. }
  destruct (IN6_IS_ADDR_V4MAPPED (sin6_addr sa)) eqn:Hm.
  - rewrite (addr_into_ipv4 _ sa0 Hsa0 fam _ _ Hok (holds_starts_with _ _ Hh)), Hport.
    by rewrite <- (v4mapped_split (sin6_addr sa) Hl Hm).
  - by rewrite (addr_into_ipv6 _ sa0 Hsa0 fam _ _ Hok (holds_starts_with _ _ Hh)), Hport.
Qed.

(** ** Names *)

(** The addresses the system gives have their sizes, and consist of bytes. *)
Class ResolverOk `{Resolver} : Prop := {
  pton4_size s ip : inet_pton4 s = Some ip -> length ip = 4%nat;
  pton6_size s ip : inet_pton6 s = Some ip -> length ip = 16%nat;
  getaddrinfo_size s f f' ip : getaddrinfo s f = Some (f', ip) ->
    length ip = match f' with HEV_SOCKS5_ADDR_FAMILY_IPV6 => 16%nat | _ => 4%nat end;
  pton4_bytes s ip : inet_pton4 s = Some ip -> bytes_ok ip;
  pton6_bytes s ip : inet_pton6 s = Some ip -> bytes_ok ip;
  getaddrinfo_bytes s f f' ip : getaddrinfo s f = Some (f', ip) -> bytes_ok ip;
}.

(** The address a name means: a literal is never looked up. *)
Definition name_meaning `{Resolver} (s : bytes) (fam : HevSocks5AddrFamily)
  : option (bytes * HevSocks5AddrFamily) :=
  match inet_pton4 s, inet_pton6 s, getaddrinfo s fam with
  | Some ip, _, _ => Some (v4mapped_prefix ++ ip, HEV_SOCKS5_ADDR_FAMILY_IPV4)
  | None, Some ip, _ => Some (ip, HEV_SOCKS5_ADDR_FAMILY_IPV6)
  | None, None, Some (HEV_SOCKS5_ADDR_FAMILY_IPV4, ip) =>
      Some (v4mapped_prefix ++ ip, HEV_SOCKS5_ADDR_FAMILY_IPV4)
  | None, None, Some (HEV_SOCKS5_ADDR_FAMILY_IPV6, ip) => Some (ip, HEV_SOCKS5_ADDR_FAMILY_IPV6)
  | _, _, _ => None
  end.

Lemma wr_zeros a : length a = 16%nat ->
  exists a', wr a 0 (replicate 10 0) = Some a' ∧ length a' = 16%nat.
Proof.
  intros Ha. rewrite wr_0 by (rewrite length_replicate; lia). eexists. split; [done|].
  rewrite length_app, length_drop, length_replicate. lia.
Qed.

(** The order of the writes does not matter. *)
Lemma v4mapped_write' a ip : length a = 16%nat -> length ip = 4%nat ->
  (a ← wr a 0 (replicate 10 0); a ← wr a 12 ip; a ← wr a 10 [255]; wr a 11 [255])
  = Some (v4mapped_prefix ++ ip).
Proof.
  intros Ha Hip. do 16 (destruct a as [|? a]; [done|]). destruct a; [|done].
  do 4 (destruct ip as [|? ip]; [done|]). by destruct ip.
Qed.

Ltac wr_steps H :=
  repeat match type of H with
  | mbind _ (wr ?m ?o ?v) = Some _ =>
      let a := fresh "a" in let E := fresh "E" in
      destruct (wr m o v) as [a|] eqn:E; [|done]; cbn [mbind option_bind] in *
  end.

Lemma name_into_ok `{ResolverOk} s port sa fam : length (sin6_addr sa) = 16%nat ->
  match name_meaning s fam with
  | Some (ip, f) => hev_socks5_name_into_sockaddr6 s port sa fam
      = Some (0, mk_sockaddr AF_INET6 (htons port) ip, f)
  | None => exists sa' f, hev_socks5_name_into_sockaddr6 s port sa fam = Some (-1, sa', f)
  end.
Proof.
  intros Hl. unfold name_meaning, hev_socks5_name_into_sockaddr6, hev_socks5_name_resolve_ipv4.
  cbn [sin6_addr sin6_family sin6_port].
  destruct (wr_zeros (sin6_addr sa) Hl) as (a & Ha & Hla).
  destruct (inet_pton4 s) as [ip|] eqn:E4.
  { pose proof (v4mapped_write' (sin6_addr sa) ip Hl (pton4_size s ip E4)) as Hw.
    wr_steps Hw. by rewrite Hw. }
  rewrite Ha. cbn [mbind option_bind]. rewrite decide_False by lia.
  unfold hev_socks5_name_resolve_ipv6. cbn [sin6_addr sin6_family sin6_port].
  destruct (inet_pton6 s) as [ip|] eqn:E6.
  { apply pton6_size in E6. rewrite wr_0 by lia. cbn [mbind option_bind].
    by rewrite (drop_ge a), app_nil_r by lia. }
  cbn [mbind option_bind]. rewrite decide_False by lia.
  unfold hev_socks5_name_resolve_name. cbn [sin6_addr sin6_family sin6_port].
  destruct (getaddrinfo s fam) as [[[] ip]|] eqn:Eg; [| |by eexists _, _..];
    apply getaddrinfo_size in Eg.
  - pose proof (v4mapped_write a ip Hla Eg) as Hw. wr_steps Hw.
    rewrite rd_0 by lia. cbn [mbind option_bind].
    change (Z.to_nat 4) with 4%nat. rewrite take_ge by lia. by rewrite Hw.
  - rewrite rd_0 by lia. cbn [mbind option_bind]. change (Z.to_nat 16) with 16%nat.
    rewrite take_ge by lia. rewrite wr_0 by lia. cbn [mbind option_bind].
    by rewrite (drop_ge a), app_nil_r by lia.
Qed.

(** The socket address an address means, and its family. *)
Definition destination `{Resolver} (fam : HevSocks5AddrFamily) (a : address)
  : option (sockaddr_in6 * HevSocks5AddrFamily) :=
  match a with
  | IPv4 ip port => Some (mk_sockaddr AF_INET6 (htons port) (v4mapped_prefix ++ ip), HEV_SOCKS5_ADDR_FAMILY_IPV4)
  | IPv6 ip port => Some (mk_sockaddr AF_INET6 (htons port) ip, HEV_SOCKS5_ADDR_FAMILY_IPV6)
  | Name n port => '(ip, f) ← name_meaning n fam; Some (mk_sockaddr AF_INET6 (htons port) ip, f)
  end.

Lemma addr_into_destination `{ResolverOk} addr a sa fam :
  address_ok a -> starts_with addr a -> length (sin6_addr sa) = 16%nat ->
  match destination fam a with
  | Some (sa', f) => hev_socks5_addr_into_sockaddr6 addr sa fam = Some (0, sa', f)
  | None => exists sa' f, hev_socks5_addr_into_sockaddr6 addr sa fam = Some (-1, sa', f)
  end.
Proof.
  intros Ha Hh Hl. destruct a as [ip port|ip port|s port]; simpl.
  - by apply addr_into_ipv4.
  - by apply addr_into_ipv6.
  - rewrite (addr_into_name addr sa Hl fam s port Ha Hh).
    pose proof (name_into_ok s port sa fam Hl) as Hn.
    destruct (name_meaning s fam) as [[ip f]|]; exact Hn.
Qed.

(** The destination is a proper socket address. *)
Lemma v4mapped_ok ip port : length ip = 4%nat -> bytes_ok ip ->
  sockaddr_ok (mk_sockaddr AF_INET6 (htons port) (v4mapped_prefix ++ ip)).
Proof.
  intros Hl Hb. split_and!; [|simpl; by rewrite Hl | apply swap16_range].
  apply bytes_ok_app. split; [|done]. by repeat (apply Forall_cons; split; [by vm_compute|]).
Qed.

Lemma destination_ok `{ResolverOk} fam a sa f : address_ok a -> destination fam a = Some (sa, f) ->
  sockaddr_ok sa.
Proof.
  destruct a as [ip port|ip port|s port]; cbn [destination address_ok].
  - intros (Hb & Hl & Hp) [= <- <-]. by apply v4mapped_ok.
  - intros (Hb & Hl & Hp) [= <- <-]. split_and!; [done | done | apply swap16_range].
  - intros (Hb & Hl & Hp). unfold name_meaning.
    destruct (inet_pton4 s) as [ip|] eqn:E4; cbn [mbind option_bind].
    { intros [= <- <-]. apply v4mapped_ok; eauto using pton4_size, pton4_bytes. }
    destruct (inet_pton6 s) as [ip|] eqn:E6; cbn [mbind option_bind].
    { intros [= <- <-].
      split_and!; [by apply pton6_bytes in E6 | by apply pton6_size in E6 | apply swap16_range]. }
    destruct (getaddrinfo s fam) as [[[] ip]|] eqn:Eg; cbn [mbind option_bind]; try done;
      pose proof (getaddrinfo_size _ _ _ _ Eg) as Hs; pose proof (getaddrinfo_bytes _ _ _ _ Eg) as Hbs;
      intros [= <- <-].
    + by apply v4mapped_ok.
    + split_and!; [done | done | apply swap16_range].
Qed.

(** A SOCKS5 address always becomes the socket address it means, without an access
    outside the structure: an IPv4 address its v4-mapped form, an IPv6 address itself, and
    a name the IPv4 literal it spells, else the IPv6 literal, else what the resolver
    says; the conversion fails (and never half-succeeds) only for a name that is neither
    a literal nor resolved. *)
Theorem hev_socks5_addr_into_sockaddr6_ok `{ResolverOk} addr a sa fam :
  address_ok a -> holds_address addr a -> length (sin6_addr sa) = 16%nat ->
  match destination fam a with
  | Some (sa', f) => hev_socks5_addr_into_sockaddr6 addr sa fam = Some (0, sa', f)
  | None => exists sa' f, hev_socks5_addr_into_sockaddr6 addr sa fam = Some (-1, sa', f)
  end.
Proof. intros Ha Hh. apply addr_into_destination; [done | by apply holds_starts_with]. Qed.

(** ** The network stack *)

Definition ip_ok (ip : ip_addr) : Prop :=
  bytes_ok (ip_bytes ip) ∧ length (ip_bytes ip) = 16%nat
  ∧ (ip_type ip = IPADDR_TYPE_V4 \/ ip_type ip = IPADDR_TYPE_V6).

(** The address a connection of the stack is made to, given the name the mapped DNS
    knows for it. *)
Definition lwip_address (ip : ip_addr) (name : option bytes) (port : Z) : address :=
  if decide (ip_type ip = IPADDR_TYPE_V4) then
    match name with Some s => Name s port | None => IPv4 (take 4 (ip_bytes ip)) port end
  else IPv6 (ip_bytes ip) port.

(** The type, the bytes and the port the stack gets for an address that is not a name. *)
Definition stack_address (a : address) : option (Z * bytes * Z) :=
  match a with
  | IPv4 b port => Some (IPADDR_TYPE_V4, b, port)
  | IPv6 b port => Some (IPADDR_TYPE_V6, b, port)
  | Name _ _ => None
  end.

Lemma into_lwip_ok a t b port rest ip0 port0 : address_ok a -> stack_address a = Some (t, b, port) ->
  length (ip_bytes ip0) = 16%nat ->
  hev_socks5_addr_into_lwip (encode a ++ rest) ip0 port0
  = Some (0, mk_ip t (b ++ drop (length b) (ip_bytes ip0)), port).
Proof.
  destruct a as [a p|a p|s p]; intros (Ha & Hl & Hp) [= <- <- <-] Hl0; unfold hev_socks5_addr_into_lwip;
    cbn [encode app].
  - change (atype _) with (Some HEV_SOCKS5_ADDR_TYPE_IPV4). cbn [mbind option_bind]. rewrite decide_True by done.
    rewrite <- app_assoc.
    rewrite (rd_app [HEV_SOCKS5_ADDR_TYPE_IPV4] a (be16 p ++ rest) _ 1 4) by (done || lia). cbn [mbind option_bind].
    rewrite wr_0 by lia. cbn [mbind option_bind].
    rewrite (rd_app (HEV_SOCKS5_ADDR_TYPE_IPV4 :: a) (be16 p) rest _ 5 2) by (done || (simpl; lia)).
    cbn [mbind option_bind]. by rewrite (ntohs_of_be16 p Hp).
  - change (atype _) with (Some HEV_SOCKS5_ADDR_TYPE_IPV6). cbn [mbind option_bind].
    rewrite decide_False, decide_True by done. rewrite <- app_assoc.
    rewrite (rd_app [HEV_SOCKS5_ADDR_TYPE_IPV6] a (be16 p ++ rest) _ 1 16) by (done || lia). cbn [mbind option_bind].
    rewrite wr_0 by lia. cbn [mbind option_bind].
    rewrite (rd_app (HEV_SOCKS5_ADDR_TYPE_IPV6 :: a) (be16 p) rest _ 17 2) by (done || (simpl; lia)).
    cbn [mbind option_bind]. by rewrite (ntohs_of_be16 p Hp).
Qed.

Lemma from_lwip_holds {S} dns (st st' : S) addr ip port nm :
  length addr = sizeof_addr -> ip_ok ip -> is_u16 port ->
  match dns with
  | Some lookup => lookup (s32 (ip4_host (take 4 (ip_bytes ip)))) st = Some (nm, st')
  | None => nm = None ∧ st' = st
  end ->
  (forall s, nm = Some s -> cstr_ok s ∧ (0 < length s <= 255)%nat) ->
  exists addr', hev_socks5_addr_from_lwip dns addr ip port st
      = Some ((0, addr'), if decide (ip_type ip = IPADDR_TYPE_V4) then st' else st)
    ∧ holds_address addr' (lwip_address ip nm port) ∧ address_ok (lwip_address ip nm port).
Proof.
  intros Ha (Hb & Hl & Ht) Hp Hlk Hnm. unfold hev_socks5_addr_from_lwip, lwip_address.
  destruct (decide (ip_type ip = IPADDR_TYPE_V4)) as [Et|Et].
  - assert (rd (ip_bytes ip) 0 4 = Some (take 4 (ip_bytes ip))) as Hrd by (apply rd_0; lia).
    assert (length (take 4 (ip_bytes ip)) = 4%nat) as Ht4 by (rewrite length_take; lia).
    destruct (from_ipv4_ok addr Ha (ip_bytes ip) port Hb ltac:(lia) Hp) as (addr4 & H4 & Hh4).
    assert (bytes_ok (take 4 (ip_bytes ip))) as Hb4 by by apply bytes_ok_take.
    unfold mbind, M_bind, mget. destruct dns as [lookup|].
    + rewrite Hrd, Hlk. destruct nm as [s|].
      * destruct (Hnm s eq_refl) as [Hs Hs2].
        destruct (from_name_ok addr Ha s port Hs ltac:(lia) Hp) as (addr' & -> & Hh).
        exists addr'. by split_and!.
      * rewrite H4. exists addr4. by split_and!.
    + destruct Hlk as [-> ->]. unfold mret at 1, M_ret at 1. rewrite H4. exists addr4. by split_and!.
  - destruct Ht as [?|Ht]; [done|]. rewrite Ht.
    destruct (from_ipv6_ok addr Ha (ip_bytes ip) port Hb ltac:(lia) Hp) as (addr' & Hf & Hh).
    unfold mbind, M_bind, mget. rewrite Hf. rewrite decide_True by done.
    rewrite (take_ge (ip_bytes ip)) in Hh by lia. exists addr'. by split_and!.
Qed.

(** The address of a connection from the stack is given to the proxy as it is, or as
    the name the mapped DNS handed it out for: the structure then holds the wire form of
    that address, and converting it back gives the type, the address and the port. *)
Theorem hev_socks5_addr_from_lwip_ok {S} (lookup : Z -> M S (option bytes)) (st st' : S) addr ip port nm :
  length addr = sizeof_addr -> ip_ok ip -> is_u16 port ->
  lookup (s32 (ip4_host (take 4 (ip_bytes ip)))) st = Some (nm, st') ->
  (forall s, nm = Some s -> cstr_ok s ∧ (0 < length s <= 255)%nat) ->
  exists addr' s', hev_socks5_addr_from_lwip (Some lookup) addr ip port st = Some ((0, addr'), s')
    ∧ holds_address addr' (lwip_address ip nm port)
    ∧ s' = (if decide (ip_type ip = IPADDR_TYPE_V4) then st' else st)
    ∧ ((nm = None \/ ip_type ip = IPADDR_TYPE_V6) -> forall ip0 port0,
        length (ip_bytes ip0) = 16%nat -> exists ip',
        hev_socks5_addr_into_lwip addr' ip0 port0 = Some (0, ip', port)
        ∧ ip_type ip' = ip_type ip
        ∧ take (if decide (ip_type ip = IPADDR_TYPE_V4) then 4 else 16) (ip_bytes ip')
          = take (if decide (ip_type ip = IPADDR_TYPE_V4) then 4 else 16) (ip_bytes ip)).
Proof.
  intros Ha Hip Hp Hlk Hnm.
  destruct (from_lwip_holds (Some lookup) st st' addr ip port nm Ha Hip Hp Hlk Hnm) as (addr' & Hf & Hh & Hok).
  eexists addr', _. split_and!; [exact Hf | exact Hh | done |].
  intros Hno ip0 port0 Hl0. destruct Hh as (_ & rest & ->). destruct Hip as (Hb & Hl & Ht).
  unfold lwip_address in *. destruct (decide (ip_type ip = IPADDR_TYPE_V4)) as [Et|Et].
  - destruct Hno as [->|H6]; [|by rewrite Et in H6]. eexists. split; [by eapply into_lwip_ok|]. split; [done|].
    cbn [ip_bytes]. by rewrite take_app_le, take_take by (rewrite length_take; lia).
  - destruct Ht as [?|Ht]; [done|]. eexists. split; [by eapply into_lwip_ok|]. split; [done|].
    cbn [ip_bytes]. by rewrite take_app_le by lia.
Qed.

(** A name of 256 bytes or more is not rejected: [strncpy] leaves no NUL, and when the
    byte after the field is 0 the length is 256, which is stored as 0. *)
Lemma hev_socks5_addr_from_name_long s port b0 b1 b2 b3 :
  cstr_ok s -> (256 <= length s)%nat -> b2 = 0 ->
  exists addr', hev_socks5_addr_from_name (b0 :: b1 :: replicate 256 0 ++ [b2; b3]) s port = Some (4, addr')
    ∧ rd8 addr' 1 = Some 0.
Proof.
  intros Hs Hl ->. unfold hev_socks5_addr_from_name.
  assert (strncpy s 256 = take 256 s) as Hc.
  { unfold strncpy. replace (256 - length s)%nat with 0%nat by lia. apply app_nil_r. }
  assert (length (take 256 s) = 256%nat) as Ht by (rewrite length_take; lia).
  rewrite wr_0 by (simpl; lia). cbn [app mbind option_bind drop length].
  rewrite (wr_app [3; b1] (replicate 256 0 ++ [0; b3])) by (done || rewrite Hc, Ht; simpl; lia).
  cbn [app mbind option_bind]. rewrite Hc, Ht, drop_app_length' by (by rewrite length_replicate).
  cbn [drop]. rewrite drop_0, (cstr_of_app (take 256 s) [b3]) by (by apply Forall_take).
  cbn [mbind option_bind]. rewrite Ht.
  rewrite (wr_app [3] (b1 :: take 256 s ++ [0; b3])) by (done || simpl; lia).
  cbn [app mbind option_bind drop length]. change (u8 (Z.of_nat 256)) with 0.
  unfold domain_len. rewrite (rd8_app [3] 0 (take 256 s ++ [0; b3])) by done. cbn [mbind option_bind].
  rewrite (wr_app [3; 0] (take 256 s ++ [0; b3]))
    by (done || (rewrite length_app, Ht; simpl; lia)).
  cbn [app mbind option_bind].
  match goal with |- context [3 :: 0 :: ?r] => rewrite (rd8_app [3] 0 r) by done end.
  cbn [mbind option_bind]. by eexists.
Qed.

(** ** Instances *)

Definition zero_addr : HevSocks5Addr := replicate 260 0.
Definition zero_sockaddr : sockaddr_in6 := mk_sockaddr 0 0 (replicate 16 0).

(** A system that knows the literal "1" and resolves every other name to 10.0.0.1. *)
Definition example_resolver : Resolver := {|
  inet_pton4 s := if decide (s = [49]) then Some [0; 0; 0; 1] else None;
  inet_pton6 _ := None;
  getaddrinfo _ _ := Some (HEV_SOCKS5_ADDR_FAMILY_IPV4, [10; 0; 0; 1]) |}.

Lemma example_resolver_ok : @ResolverOk example_resolver.
Proof.
  assert (forall l, Forall (fun b => 0 <= b <= 10) l -> bytes_ok l) as Hok.
  { intros l Hl. eapply Forall_impl; [exact Hl|]. intros b Hb. unfold is_u8. simpl in Hb. lia. }
  split; simpl; [|done| | |done|].
  - intros s ip. case_decide; [|done]. by intros [= <-].
  - by intros s f f' ip [= <- <-].
  - intros s ip. case_decide; [|done]. intros [= <-]. apply Hok.
    repeat (apply Forall_cons; split; [lia|]). constructor.
  - intros s f f' ip [= <- <-]. apply Hok.
    repeat (apply Forall_cons; split; [lia|]). constructor.
Qed.

Lemma hev_socks5_addr_sockaddr6_round_trip_witness :
  let sa := mk_sockaddr AF_INET6 (htons 80) (v4mapped_prefix ++ [192; 0; 2; 1]) in
  exists addr', hev_socks5_addr_from_sockaddr6 zero_addr sa = Some (7, addr')
    ∧ holds_address addr' (sockaddr_address sa)
    ∧ @hev_socks5_addr_into_sockaddr6 example_resolver addr' zero_sockaddr HEV_SOCKS5_ADDR_FAMILY_UNSPEC
      = Some (0, sa, HEV_SOCKS5_ADDR_FAMILY_IPV4).
Proof.
  refine (@hev_socks5_addr_sockaddr6_round_trip example_resolver zero_addr
    (mk_sockaddr AF_INET6 (htons 80) (v4mapped_prefix ++ [192; 0; 2; 1])) zero_sockaddr _ _ _ _);
    [done | | done].
  split_and!; [|done|by vm_compute]. repeat (apply Forall_cons; split; [by vm_compute|]). constructor.
Defined.

Definition example_name_addr : HevSocks5Addr :=
  encode (Name [97] 443) ++ replicate 255 0.

Lemma hev_socks5_addr_into_sockaddr6_ok_witness :
  @hev_socks5_addr_into_sockaddr6 example_resolver example_name_addr zero_sockaddr
    HEV_SOCKS5_ADDR_FAMILY_UNSPEC
  = Some (0, mk_sockaddr AF_INET6 (htons 443) (v4mapped_prefix ++ [10; 0; 0; 1]),
          HEV_SOCKS5_ADDR_FAMILY_IPV4).
Proof.
  refine (@hev_socks5_addr_into_sockaddr6_ok example_resolver example_resolver_ok example_name_addr
    (Name [97] 443) zero_sockaddr HEV_SOCKS5_ADDR_FAMILY_UNSPEC _ _ _); [| |done].
  - split_and!; simpl; [|lia|lia|by vm_compute]. by apply Forall_singleton.
  - split; [done|]. by eexists.
Defined.

Lemma hev_socks5_addr_from_lwip_ok_witness :
  exists addr' s', hev_socks5_addr_from_lwip (Some (fun _ => mret (Some [97; 46; 98]))) zero_addr
      (mk_ip IPADDR_TYPE_V4 (198 :: 18 :: replicate 14 0)) 443 tt = Some ((0, addr'), s')
    ∧ holds_address addr' (Name [97; 46; 98] 443).
Proof.
  destruct (hev_socks5_addr_from_lwip_ok (fun _ => mret (Some [97; 46; 98])) tt tt zero_addr
    (mk_ip IPADDR_TYPE_V4 (198 :: 18 :: replicate 14 0)) 443 (Some [97; 46; 98]))
    as (addr' & s' & H1 & H2 & _).
  - done.
  - split_and!; [|done|by left]. repeat (apply Forall_cons; split; [by vm_compute|]). constructor.
  - by vm_compute.
  - done.
  - intros s [= <-]. split; [|simpl; lia]. repeat (apply Forall_cons; split; [by vm_compute|]). constructor.
  - by exists addr', s'.
Defined.

End Socks5Addr.
