(* ===== verification/Socks5Io.v ===== *)
(** * Programs that do input and output: the base of src/core/src

    The SOCKS5 code is a sequence of system calls and of calls of the task system's
    socket operations, whose outcomes the rest depends on.  A function of that code is a
    [prog]: it ends, or it accesses memory through an invalid pointer, or it makes a call
    and continues with what the call answers.

    The file holds the base class (hev-socks5.c), the socket creation of
    hev-socks5-misc.c, and the two semantics the theorems use: [wpp], over everything
    the environment may answer, and [nstep], two programs connected by two streams. *)

From S2P Require Import Prelude Socks5Addr.

Module Socks5Io.
Import Socks5Addr.

(** ** Calls and programs *)

Inductive sock_type := SOCK_STREAM | SOCK_DGRAM.

Inductive event :=
  | ESend (v : bytes)                        (* hev_task_io_socket_send[msg], MSG_WAITALL *)
  | ERecv (n : Z)                            (* hev_task_io_socket_recv, MSG_WAITALL *)
  | ENew                                     (* hev_malloc0 of an object *)
  | EMalloc (n : Z)                          (* hev_malloc *)
  | EFree                                    (* hev_free of what was allocated *)
  | ESocket (t : sock_type)                  (* hev_task_io_socket_socket *)
  | EV6Only (fd : Z)                         (* setsockopt IPV6_V6ONLY *)
  | ERcvBuf (fd n : Z)                       (* setsockopt SO_RCVBUF *)
  | EReuse (fd : Z)                          (* setsockopt SO_REUSEADDR *)
  | EMark (fd mark : Z)                      (* setsockopt SO_MARK *)
  | EAddFd (fd : Z) | EModFd (fd : Z) | EDelFd (fd : Z)
  | EClose (fd : Z)
  | EBind (fd : Z) (sa : sockaddr_in6)
  | EConnect (fd : Z) (sa : sockaddr_in6)
  | EGetsockname (fd : Z).

(** [ERecv]: the bytes received, or nothing on an error. *)
Definition answer (e : event) : Type :=
  match e with
  | ERecv _ => option bytes
  | ENew | EMalloc _ => bool
  | EFree => unit
  | EGetsockname _ => Z * sockaddr_in6
  | _ => Z
  end.

Inductive prog (A : Type) : Type :=
  | Ret (a : A)
  | Crash
  | Do (e : event) (k : answer e -> prog A).
Arguments Ret {A}. Arguments Crash {A}. Arguments Do {A}.

Fixpoint prog_bind {A B} (p : prog A) (f : A -> prog B) : prog B :=
  match p with
  | Ret a => f a
  | Crash => Crash
  | Do e k => Do e (fun r => prog_bind (k r) f)
  end.

(** A function with an object to update. *)
Definition proc (S A : Type) : Type := S -> prog (A * S).

#[export] Instance proc_ret {S} : MRet (proc S) := fun A a s => Ret (a, s).
#[export] Instance proc_bind {S} : MBind (proc S) := fun A B f m s =>
  prog_bind (m s) (fun r => f (fst r) (snd r)).

Definition call {S} (e : event) : proc S (answer e) := fun s => Do e (fun r => Ret (r, s)).
Definition pget {S A} (f : S -> A) : proc S A := fun s => Ret (f s, s).
Definition pput {S} (f : S -> S) : proc S unit := fun s => Ret (tt, f s).
Definition plift {S A} (o : option A) : proc S A := fun s =>
  match o with Some a => Ret (a, s) | None => Crash end.

(** The count [recv] returns. *)
Definition count (r : option bytes) : Z :=
  match r with Some v => Z.of_nat (length v) | None => -1 end.
Definition received (r : option bytes) : bytes := default [] r.

(** ** The base class *)

Inductive HevSocks5Type :=
  HEV_SOCKS5_TYPE_NONE | HEV_SOCKS5_TYPE_TCP | HEV_SOCKS5_TYPE_UDP_IN_TCP | HEV_SOCKS5_TYPE_UDP_IN_UDP.
#[export] Instance type_eq : EqDecision HevSocks5Type.
Proof. solve_decision. Defined.

Record HevSocks5 := mk_socks5 {
  fd : Z; timeout : Z; udp_associated : Z; type : HevSocks5Type; addr_family : HevSocks5AddrFamily }.

Definition hev_socks5_set_timeout (t : Z) (self : HevSocks5) : HevSocks5 :=
  mk_socks5 (fd self) t (udp_associated self) (type self) (addr_family self).
Definition hev_socks5_get_timeout (self : HevSocks5) : Z := timeout self.
Definition hev_socks5_get_addr_family (self : HevSocks5) : HevSocks5AddrFamily := addr_family self.
Definition hev_socks5_set_addr_family (f : HevSocks5AddrFamily) (self : HevSocks5) : HevSocks5 :=
  mk_socks5 (fd self) (timeout self) (udp_associated self) (type self) f.
Definition set_fd (v : Z) (self : HevSocks5) : HevSocks5 :=
  mk_socks5 v (timeout self) (udp_associated self) (type self) (addr_family self).
Definition set_udp_associated (v : Z) (self : HevSocks5) : HevSocks5 :=
  mk_socks5 (fd self) (timeout self) v (type self) (addr_family self).
Definition set_type (t : HevSocks5Type) (self : HevSocks5) : HevSocks5 :=
  mk_socks5 (fd self) (timeout self) (udp_associated self) t (addr_family self).

(** The memory is zeroed, so [udp_associated] is 0. *)
Definition hev_socks5_construct (t : HevSocks5Type) : HevSocks5 :=
  mk_socks5 (-1) (-1) 0 t HEV_SOCKS5_ADDR_FAMILY_UNSPEC.

Definition hev_socks5_destruct (self : HevSocks5) : prog unit :=
  if decide (fd self >= 0) then Do (EDelFd (fd self)) (fun _ => Do (EClose (fd self)) (fun _ => Ret tt))
  else Ret tt.

(** The [binder] of the base class. *)
Definition hev_socks5_bind (sock : Z) (dest : sockaddr_in6) : prog Z := Ret 0.

(** The timeouts of hev-socks5-misc.c, and the receive buffer of UDP sockets. *)
Record misc_config := mk_misc {
  connect_timeout : Z; tcp_timeout : Z; udp_timeout : Z; udp_recv_buffer_size : Z }.

Definition hev_socks5_socket {S} (cfg : misc_config) (t : sock_type) : proc S Z :=
  f ← call (ESocket t);
  if decide ((f : Z) < 0) then mret (-1) else
  res ← call (EV6Only f);
  if decide ((res : Z) < 0) then call (EClose f);; mret (-1) else
  res ← call (EAddFd f);
  (if decide ((res : Z) < 0) then call (EModFd f);; mret tt else mret tt);;
  (match t with
   | SOCK_DGRAM => call (ERcvBuf f (udp_recv_buffer_size cfg));; mret tt
   | SOCK_STREAM => mret tt
   end);;
  mret f.

(** ** All environments

    [wpp strict p tr Q]: whatever the environment answers to the calls of [p], the run
    ends with a result and a trace that satisfy [Q], or, unless [strict], crashes.  A
    received string holds at most what was asked for, in bytes; an address has its size. *)
Record entry := mk_entry { call_of : event; answer_of : answer call_of }.

Definition possible (e : event) : answer e -> Prop :=
  match e with
  | ERecv n => fun r => match r with Some v => bytes_ok v ∧ Z.of_nat (length v) <= n | None => True end
  | EGetsockname _ => fun r => length (sin6_addr (snd r)) = 16%nat
  | _ => fun _ => True
  end.

Fixpoint wpp {A} (strict : bool) (p : prog A) (tr : list entry) (Q : list entry -> A -> Prop) : Prop :=
  match p with
  | Ret a => Q tr a
  | Crash => strict = false
  | Do e k => forall r, possible e r -> wpp strict (k r) (tr ++ [mk_entry e r]) Q
  end.

(** An execution: the calls made, with their answers, and the result. *)
Fixpoint exec {A} (p : prog A) (tr : list entry) (a : A) : Prop :=
  match p with
  | Ret b => tr = [] ∧ a = b
  | Crash => False
  | Do e k => exists r tr', possible e r ∧ tr = mk_entry e r :: tr' ∧ exec (k r) tr' a
  end.

(** Every way the environment may answer leads on. *)
Fixpoint crash_free {A} (p : prog A) : Prop :=
  match p with
  | Ret _ => True
  | Crash => False
  | Do e k => forall r, possible e r -> crash_free (k r)
  end.

Lemma wpp_exec {A} strict (p : prog A) : forall tr Q, wpp strict p tr Q ->
  forall tr' a, exec p tr' a -> Q (tr ++ tr') a.
Proof.
  induction p as [a| |e k IH]; intros tr Q Hw tr' b He; simpl in *; [|done|].
  - destruct He as [-> ->]. by rewrite app_nil_r.
  - destruct He as (r & tr2 & Hr & -> & He). specialize (IH r _ _ (Hw r Hr) _ _ He).
    by rewrite <- app_assoc in IH.
Qed.

Lemma wpp_crash_free {A} (p : prog A) : forall tr Q, wpp true p tr Q -> crash_free p.
Proof. induction p as [a| |e k IH]; intros tr Q Hw; simpl in *; [done|done|eauto]. Qed.

Section Wpp.
Context {S : Type} (strict : bool).

Lemma wpp_mono {A} (p : prog A) : forall tr (P Q : list entry -> A -> Prop),
  wpp strict p tr P -> (forall tr' a, P tr' a -> Q tr' a) -> wpp strict p tr Q.
Proof. induction p as [a| |e k IH]; simpl; intros tr P Q Hp HQ; eauto. Qed.

Lemma wpp_prog_bind {A B} (p : prog A) (f : A -> prog B) : forall tr Q,
  wpp strict p tr (fun tr' a => wpp strict (f a) tr' Q) -> wpp strict (prog_bind p f) tr Q.
Proof. induction p as [a| |e k IH]; simpl; intros tr Q Hp; eauto. Qed.

Lemma wpp_bind {A B} (m : proc S A) (f : A -> proc S B) s tr Q :
  wpp strict (m s) tr (fun tr' r => wpp strict (f (fst r) (snd r)) tr' Q) ->
  wpp strict ((m ≫= f) s) tr Q.
Proof. apply wpp_prog_bind. Qed.

Lemma wpp_call {B} e (f : answer e -> proc S B) s tr Q :
  (forall r, possible e r -> wpp strict (f r s) (tr ++ [mk_entry e r]) Q) ->
  wpp strict ((call e ≫= f) s) tr Q.
Proof. done. Qed.

Lemma wpp_get {A B} (g : S -> A) (f : A -> proc S B) s tr Q :
  wpp strict (f (g s) s) tr Q -> wpp strict ((pget g ≫= f) s) tr Q.
Proof. done. Qed.

Lemma wpp_put {B} (g : S -> S) (f : unit -> proc S B) s tr Q :
  wpp strict (f tt (g s)) tr Q -> wpp strict ((pput g ≫= f) s) tr Q.
Proof. done. Qed.

Lemma wpp_lift {A B} (o : option A) (f : A -> proc S B) s tr Q :
  (strict = true -> is_Some o) ->
  (forall a, o = Some a -> wpp strict (f a s) tr Q) -> wpp strict ((plift o ≫= f) s) tr Q.
Proof.
  intros Ho HQ. destruct o as [a|]; [by apply HQ|]. simpl.
  destruct strict; [|done]. by destruct (Ho eq_refl).
Qed.

Lemma wpp_lift_some {A B} (o : option A) a (f : A -> proc S B) s tr Q :
  o = Some a -> wpp strict (f a s) tr Q -> wpp strict ((plift o ≫= f) s) tr Q.
Proof. by intros ->. Qed.
End Wpp.

(** ** Descriptors

    The descriptors that are open after a trace, given those before it; [None] when one
    is closed that is not open. *)
Fixpoint take_out (f : Z) (l : list Z) : option (list Z) :=
  match l with
  | [] => None
  | g :: l => if decide (f = g) then Some l else cons g <$> take_out f l
  end.

Definition fd_step (en : entry) (l : list Z) : option (list Z) :=
  match en with
  | mk_entry e r =>
      match e return answer e -> option (list Z) with
      | ESocket _ => fun f => Some (if decide (f < 0) then l else f :: l)
      | EClose f => fun _ => take_out f l
      | _ => fun _ => Some l
      end r
  end.

Fixpoint fd_fold (tr : list entry) (l : list Z) : option (list Z) :=
  match tr with
  | [] => Some l
  | en :: tr => l ← fd_step en l; fd_fold tr l
  end.

(** Calls that neither open nor close one. *)
Definition quiet (en : entry) : Prop :=
  match call_of en with ESocket _ | EClose _ => False | _ => True end.

Lemma fd_fold_app tr1 tr2 l : fd_fold (tr1 ++ tr2) l = fd_fold tr1 l ≫= fd_fold tr2.
Proof.
  revert l. induction tr1 as [|en tr1 IH]; intros l; simpl; [done|].
  destruct (fd_step en l); simpl; [apply IH | done].
Qed.

Lemma fd_fold_quiet tr l : Forall quiet tr -> fd_fold tr l = Some l.
Proof.
  revert l. induction tr as [|[e r] tr IH]; intros l; simpl; [done|].
  intros [Hq Htr]%Forall_cons. destruct e; simpl; try done; by apply IH.
Qed.

Lemma take_out_perm f l k : l ≡ₚ f :: k -> exists l', take_out f l = Some l' ∧ l' ≡ₚ k.
Proof.
  revert k. induction l as [|g l IH]; intros k Hp; [by apply Permutation_nil_l in Hp|]. simpl.
  case_decide as Hf.
  - subst. exists l. split; [done|]. by apply Permutation_cons_inv in Hp.
  - assert (f ∈ l) as Hin.
    { assert (f ∈ g :: l) as Hin by (rewrite Hp; apply list_elem_of_here).
      apply elem_of_cons in Hin as [?|?]; [congruence|done]. }
    destruct (list_elem_of_split _ _ Hin) as (l1 & l2 & ->).
    destruct (IH (l1 ++ l2)) as (l' & -> & Hl'); [by rewrite Permutation_middle|].
    exists (g :: l'). split; [done|]. rewrite Hl'.
    apply (Permutation_cons_inv (a := f)). rewrite <- Hp.
    rewrite <- Permutation_middle. apply Permutation_swap.
Qed.

Lemma fd_fold_close f r l : fd_fold [mk_entry (EClose f) r] (f :: l) = Some l.
Proof. simpl. by rewrite decide_True. Qed.

(** ** Two connected programs

    Two processes exchange bytes over two reliable streams; the other calls of a process
    are answered by its own, deterministic, system. *)

Definition system : Type := forall e : event, answer e.

(** One step of a process: the input it leaves and the output it adds.  A receive waits
    until all the bytes are there. *)
Definition pstep {A} (sys : system) (p : prog A) (inp : bytes) : option (prog A * bytes * bytes) :=
  match p with
  | Ret _ | Crash => None
  | Do (ESend v) k => Some (k (Z.of_nat (length v)), inp, v)
  | Do (ERecv n) k =>
      if decide (n <= Z.of_nat (length inp))
      then Some (k (Some (take (Z.to_nat n) inp)), drop (Z.to_nat n) inp, []) else None
  | Do e k => Some (k (sys e), inp, [])
  end.

Record net (A B : Type) := mk_net {
  left_prog : prog A; right_prog : prog B; to_right : bytes; to_left : bytes }.
Arguments mk_net {A B}. Arguments left_prog {A B}. Arguments right_prog {A B}.
Arguments to_right {A B}. Arguments to_left {A B}.

Section Net.
Context {A B : Type} (sysl sysr : system).

Inductive nstep : net A B -> net A B -> Prop :=
  | step_left p q i o p' i' v :
      pstep sysl p i = Some (p', i', v) -> nstep (mk_net p q o i) (mk_net p' q (o ++ v) i')
  | step_right p q i o q' i' v :
      pstep sysr q i = Some (q', i', v) -> nstep (mk_net p q i o) (mk_net p q' i' (o ++ v)).

Definition stuck (n : net A B) : Prop := forall n', ~ nstep n n'.

(** More input does not change a step. *)
Lemma pstep_frame {C} sys (p : prog C) i x p' i' v :
  pstep sys p i = Some (p', i', v) -> pstep sys p (i ++ x) = Some (p', i' ++ x, v).
Proof.
  destruct p as [a| |[] k]; simpl; try done; try (by intros [= <- <- <-]).
  case_decide as Hn; [|done]. intros [= <- <- <-]. rewrite decide_True by (rewrite length_app; lia).
  rewrite take_app_le, drop_app_le by lia. done.
Qed.

(** The order in which the two proceed does not matter. *)
Lemma nstep_diamond n n1 n2 : nstep n n1 -> nstep n n2 ->
  n1 = n2 \/ exists n3, nstep n1 n3 ∧ nstep n2 n3.
Proof.
  intros H1 H2. destruct H1 as [p q i o p1 i1 v1 H1|p q i o q1 i1 v1 H1].
  - inversion H2 as [? ? ? ? p2 i2 v2 H2'|? ? ? ? q2 i2 v2 H2']; subst.
    + left. rewrite H1 in H2'. by injection H2' as <- <- <-.
    + right. exists (mk_net p1 q2 (i2 ++ v1) (i1 ++ v2)). split.
      * apply step_right. by apply pstep_frame.
      * apply step_left. by apply pstep_frame.
  - inversion H2 as [? ? ? ? p2 i2 v2 H2'|? ? ? ? q2 i2 v2 H2']; subst.
    + right. exists (mk_net p2 q1 (i1 ++ v2) (i2 ++ v1)). split.
      * apply step_left. by apply pstep_frame.
      * apply step_right. by apply pstep_frame.
    + left. rewrite H1 in H2'. by injection H2' as <- <- <-.
Qed.

(** Executions of a given length. *)
Inductive nsteps : nat -> net A B -> net A B -> Prop :=
  | nsteps_refl n : nsteps 0 n n
  | nsteps_cons k n n1 n2 : nstep n n1 -> nsteps k n1 n2 -> nsteps (S k) n n2.

Lemma nsteps_app j k n n1 n2 : nsteps j n n1 -> nsteps k n1 n2 -> nsteps (j + k) n n2.
Proof. induction 1; [done|]. intros. simpl. econstructor; eauto. Qed.

Lemma nsteps_strip k : forall n n1 n', nsteps k n n1 -> stuck n1 -> nstep n n' ->
  exists j, k = S j ∧ nsteps j n' n1.
Proof.
  induction k as [|k IH]; intros n n1 n' Hk Hs Hn; inversion Hk as [|? ? n2 ? H1 H2]; subst.
  { by destruct (Hs n'). }
  exists k. split; [done|]. destruct (nstep_diamond _ _ _ H1 Hn) as [->|(n3 & H3 & H4)]; [done|].
  destruct (IH _ _ _ H2 Hs H3) as (j & -> & Hj). by econstructor.
Qed.

(** When some execution ends, every execution can be prolonged to that end, and none
    is longer. *)
Lemma nsteps_confluent k n n1 : nsteps k n n1 -> stuck n1 ->
  forall j n', nsteps j n n' -> exists i, k = (j + i)%nat ∧ nsteps i n' n1.
Proof.
  intros Hk Hs j n' Hj. revert k Hk. induction Hj as [n|j n n2 n' H1 Hj IH]; intros k Hk.
  { by exists k. }
  destruct (nsteps_strip _ _ _ _ Hk Hs H1) as (k' & -> & Hk').
  destruct (IH k' Hk') as (i & -> & Hi). by exists i.
Qed.

Lemma ret_stuck a b o i : stuck (mk_net (Ret a) (Ret b) o i).
Proof. intros n' H. inversion H; done. Qed.
End Net.

(** ** Runs of one process

    [runs sys p i v i' p']: fed with [i], the process [p] becomes [p'], leaves [i'] of
    its input and has sent [v]. *)
Inductive runs {A} (sys : system) : prog A -> bytes -> bytes -> bytes -> prog A -> Prop :=
  | runs_refl p i : runs sys p i [] i p
  | runs_step p i p1 i1 v1 v i' p' :
      pstep sys p i = Some (p1, i1, v1) -> runs sys p1 i1 v i' p' -> runs sys p i (v1 ++ v) i' p'.

Section Runs.
Context (sys : system) {S : Type}.

Lemma runs_trans {A} (p : prog A) i v1 i1 p1 : runs sys p i v1 i1 p1 ->
  forall v2 i2 p2, runs sys p1 i1 v2 i2 p2 -> runs sys p i (v1 ++ v2) i2 p2.
Proof.
  induction 1 as [|? ? ? ? ? ? ? ? Hs _ IH]; intros v2 i2 p2 H2; [done|].
  rewrite <- app_assoc. econstructor; eauto.
Qed.

Lemma pstep_bind {A B} (p : prog A) (f : A -> prog B) i p1 i1 v1 :
  pstep sys p i = Some (p1, i1, v1) ->
  pstep sys (prog_bind p f) i = Some (prog_bind p1 f, i1, v1).
Proof.
  destruct p as [a| |[] k]; simpl; try done; try (by intros [= <- <- <-]).
  case_decide; [|done]. by intros [= <- <- <-].
Qed.

Lemma runs_prog_bind {A B} (p : prog A) (f : A -> prog B) i v i' p' :
  runs sys p i v i' p' -> runs sys (prog_bind p f) i v i' (prog_bind p' f).
Proof. induction 1; [constructor|]. econstructor; [by apply pstep_bind | done]. Qed.

(** Running a first function to its end. *)
Lemma runs_bind {A B} (m : proc S A) (f : A -> proc S B) s a s' i v i1 v2 i2 p2 :
  runs sys (m s) i v i1 (Ret (a, s')) -> runs sys (f a s') i1 v2 i2 p2 ->
  runs sys ((m ≫= f) s) i (v ++ v2) i2 p2.
Proof.
  intros H1 H2. eapply runs_trans; [|exact H2].
  change (f a s') with (prog_bind (Ret (a, s')) (fun r => f (fst r) (snd r))).
  by apply runs_prog_bind.
Qed.

(** The same when it sends nothing. *)
Lemma runs_bind0 {A B} (m : proc S A) (f : A -> proc S B) s a s' i i1 v2 i2 p2 :
  runs sys (m s) i [] i1 (Ret (a, s')) -> runs sys (f a s') i1 v2 i2 p2 ->
  runs sys ((m ≫= f) s) i v2 i2 p2.
Proof. apply (runs_bind m f s a s' i []). Qed.

Lemma runs_ret {A} (a : A) (s : S) i : runs sys ((mret a : proc S A) s) i [] i (Ret (a, s)).
Proof. constructor. Qed.

Lemma runs_send {B} v (f : Z -> proc S B) s i w i' p' :
  runs sys (f (Z.of_nat (length v)) s) i w i' p' ->
  runs sys ((call (ESend v) ≫= f) s) i (v ++ w) i' p'.
Proof. intros H. econstructor; [done | exact H]. Qed.

Lemma runs_send0 {B} v (f : Z -> proc S B) s i i' p' :
  runs sys (f (Z.of_nat (length v)) s) i [] i' p' ->
  runs sys ((call (ESend v) ≫= f) s) i v i' p'.
Proof. intros H. rewrite <- (app_nil_r v) at 2. by apply runs_send. Qed.

Lemma runs_recv {B} n v (f : option bytes -> proc S B) s i w i' p' :
  n = Z.of_nat (length v) -> runs sys (f (Some v) s) i w i' p' ->
  runs sys ((call (ERecv n) ≫= f) s) (v ++ i) w i' p'.
Proof.
  intros -> H. eapply (runs_step sys _ _ _ _ []); [|exact H].
  simpl. rewrite decide_True by (rewrite length_app; lia). rewrite Nat2Z.id.
  by rewrite take_app_length, drop_app_length.
Qed.

(** The other calls are answered by the system. *)
Lemma runs_call {B} e (f : answer e -> proc S B) s i w i' p' :
  (match e with ESend _ | ERecv _ => False | _ => True end) ->
  runs sys (f (sys e) s) i w i' p' -> runs sys ((call e ≫= f) s) i w i' p'.
Proof. intros He H. destruct e; try done; (eapply (runs_step sys _ _ _ _ []); [done | exact H]). Qed.

Lemma runs_get {A B} (g : S -> A) (f : A -> proc S B) s i w i' p' :
  runs sys (f (g s) s) i w i' p' -> runs sys ((pget g ≫= f) s) i w i' p'.
Proof. done. Qed.

Lemma runs_put {B} (g : S -> S) (f : unit -> proc S B) s i w i' p' :
  runs sys (f tt (g s)) i w i' p' -> runs sys ((pput g ≫= f) s) i w i' p'.
Proof. done. Qed.

Lemma runs_lift {A B} (o : option A) a (f : A -> proc S B) s i w i' p' :
  o = Some a -> runs sys (f a s) i w i' p' -> runs sys ((plift o ≫= f) s) i w i' p'.
Proof. by intros ->. Qed.
End Runs.

(** One of two connected processes runs. *)
Section Reach.
Context {A B : Type} (sysl sysr : system).

Definition reach (n n' : net A B) : Prop := exists k, nsteps sysl sysr k n n'.

Lemma reach_refl n : reach n n.
Proof. exists 0%nat. constructor. Qed.

Lemma reach_left p q o i v i' p' n :
  runs sysl p i v i' p' -> reach (mk_net p' q (o ++ v) i') n -> reach (mk_net p q o i) n.
Proof.
  intros H. revert o. induction H as [p i|p i p1 i1 v1 v i' p' Hs _ IH]; intros o.
  - by rewrite app_nil_r.
  - intros Hn. destruct (IH (o ++ v1)) as [k Hk]; [by rewrite <- app_assoc|].
    exists (S k). econstructor; [|exact Hk]. by apply step_left.
Qed.

Lemma reach_right p q o i v i' q' n :
  runs sysr q i v i' q' -> reach (mk_net p q' i' (o ++ v)) n -> reach (mk_net p q i o) n.
Proof.
  intros H. revert o. induction H as [q i|q i q1 i1 v1 v i' q' Hs _ IH]; intros o.
  - by rewrite app_nil_r.
  - intros Hn. destruct (IH (o ++ v1)) as [k Hk]; [by rewrite <- app_assoc|].
    exists (S k). econstructor; [|exact Hk]. by apply step_right.
Qed.

Lemma reach_trans n n1 n2 : reach n n1 -> reach n1 n2 -> reach n n2.
Proof. intros [j Hj] [k Hk]. exists (j + k)%nat. by eapply nsteps_app. Qed.

(** Whatever the order of the steps so far, they lead to the same end. *)
Lemma reach_confluent n n1 n' : reach n n1 -> stuck sysl sysr n1 -> reach n n' -> reach n' n1.
Proof.
  intros [k Hk] Hs [j Hj]. destruct (nsteps_confluent _ _ _ _ _ Hk Hs _ _ Hj) as (i & _ & Hi).
  by exists i.
Qed.
End Reach.

Lemma reach_bind {A A' B} sysl sysr (f : A -> prog A') (p p' : prog A) (q q' : prog B) o i o' i' :
  reach sysl sysr (mk_net p q o i) (mk_net p' q' o' i') ->
  reach sysl sysr (mk_net (prog_bind p f) q o i) (mk_net (prog_bind p' f) q' o' i').
Proof.
  intros [k Hk]. remember (mk_net p q o i) as n eqn:Hn. remember (mk_net p' q' o' i') as n' eqn:Hn'.
  revert p q o i Hn. induction Hk as [n|k n n1 n2 Hs _ IH]; intros p q o i ->.
  - injection Hn' as -> -> -> ->. apply reach_refl.
  - inversion Hs as [? ? ? ? p1 i1 v Hp|? ? ? ? q1 i1 v Hq]; subst.
    + destruct (IH eq_refl _ _ _ _ eq_refl) as [j Hj]. exists (S j). econstructor; [|exact Hj].
      apply step_left. by apply pstep_bind.
    + destruct (IH eq_refl _ _ _ _ eq_refl) as [j Hj]. exists (S j). econstructor; [|exact Hj].
      by apply step_right.
Qed.

End Socks5Io.
