(* ===== verification/Descriptors.v ===== *)
(** * Descriptors opened and closed by the programs of Socks5Io

    A logic for the question whether a function closes what it opens: [balanced] relates
    the descriptors that are held before and after, for an object of any class that says
    which ones it owns. *)

From S2P Require Import Prelude Socks5Addr Socks5Io.

Module Descriptors.
Import Socks5Addr Socks5Io.

(** ** Descriptors *)

(** The descriptors an object owns: what a class has to say of its objects for the rules of
    this file. *)
Definition opened (f : Z) : list Z := if decide (f < 0) then [] else [f].
Class Owner (S : Type) := fds : S -> list Z.

(** [tr] takes the descriptors [l] to [l']. *)
Definition fd_effect (tr : list entry) (l l' : list Z) : Prop :=
  forall k, k ≡ₚ l -> exists k', fd_fold tr k = Some k' ∧ k' ≡ₚ l'.

Lemma fd_effect_refl tr l : Forall quiet tr -> fd_effect tr l l.
Proof. intros Hq k Hk. exists k. split; [by apply fd_fold_quiet | done]. Qed.

Lemma fd_effect_trans tr1 tr2 l1 l2 l3 :
  fd_effect tr1 l1 l2 -> fd_effect tr2 l2 l3 -> fd_effect (tr1 ++ tr2) l1 l3.
Proof.
  intros H1 H2 k Hk. destruct (H1 k Hk) as (k1 & Hf1 & Hk1). destruct (H2 k1 Hk1) as (k2 & Hf2 & Hk2).
  exists k2. split; [|done]. by rewrite fd_fold_app, Hf1.
Qed.

Lemma fd_effect_close f r l : fd_effect [mk_entry (EClose f) r] (f :: l) l.
Proof.
  intros k Hk. destruct (take_out_perm _ _ _ Hk) as (k' & Hk1 & Hk2).
  exists k'. split; [|done]. simpl. by rewrite Hk1.
Qed.

Lemma opened_neg f : f < 0 -> opened f = [].
Proof. intros. unfold opened. by rewrite decide_True. Qed.
Lemma opened_pos f : ~ f < 0 -> opened f = [f].
Proof. intros. unfold opened. by rewrite decide_False. Qed.

Section Balanced.
Context {S : Type} `{!Owner S} (strict : bool).

(** [balanced x y R m s]: run on an object [s] while the descriptors [x] are held
    besides those of [s], [m] ends with a result and an object that satisfy [R], the
    descriptors [y] held besides those of the object. *)
Definition balanced {A} (x y : list Z) (R : A -> S -> Prop) (m : proc S A)
  (s : S) : Prop :=
  forall tr Q,
    (forall tr' r s', fd_effect tr' (x ++ fds s) (y ++ fds s') -> R r s' -> Q (tr ++ tr') (r, s')) ->
    wpp strict (m s) tr Q.

Lemma b_ret {A} x (R : A -> S -> Prop) a s : R a s -> balanced x x R (mret a) s.
Proof.
  intros HR tr Q HQ. specialize (HQ [] a s). rewrite app_nil_r in HQ. apply HQ; [|done].
  by apply fd_effect_refl.
Qed.

Lemma b_bind {A B} x y z (R1 : A -> S -> Prop) (R : B -> S -> Prop) m f s :
  balanced x y R1 m s -> (forall r s', R1 r s' -> balanced y z R (f r) s') -> balanced x z R (m ≫= f) s.
Proof.
  intros Hm Hf tr Q HQ. apply wpp_bind, Hm. intros tr1 r s1 He1 HR1. simpl.
  apply (Hf r s1 HR1). intros tr2 r2 s2 He2 HR2. rewrite <- app_assoc. apply HQ; [|done].
  by eapply fd_effect_trans.
Qed.

Lemma b_call {B} x y (R : B -> S -> Prop) e f s :
  match e with ESocket _ | EClose _ => False | _ => True end ->
  (forall r, possible e r -> balanced x y R (f r) s) -> balanced x y R (call e ≫= f) s.
Proof.
  intros He Hf tr Q HQ. apply wpp_call. intros r Hr. apply (Hf r Hr). intros tr' r' s' He' HR.
  rewrite <- app_assoc. apply HQ; [|done]. eapply fd_effect_trans; [|exact He'].
  apply fd_effect_refl. apply Forall_singleton. exact He.
Qed.

Lemma b_close {B} x y (R : B -> S -> Prop) g (f : Z -> proc S B) s :
  (forall r, balanced x y R (f r) s) -> balanced (g :: x) y R (call (EClose g) ≫= f) s.
Proof.
  intros Hf tr Q HQ. apply wpp_call. intros r Hr. apply (Hf r). intros tr' r' s' He' HR.
  rewrite <- app_assoc. apply HQ; [|done]. eapply fd_effect_trans; [|exact He'].
  apply fd_effect_close.
Qed.

Lemma b_get {A B} x y (R : B -> S -> Prop) (g : S -> A) f s :
  balanced x y R (f (g s)) s -> balanced x y R (pget g ≫= f) s.
Proof. done. Qed.

(** An assignment to the object may give it descriptors. *)
Lemma b_put {B} x x' y (R : B -> S -> Prop) g (f : unit -> proc S B) s :
  x ++ fds s ≡ₚ x' ++ fds (g s) -> balanced x' y R (f tt) (g s) -> balanced x y R (pput g ≫= f) s.
Proof.
  intros Hg Hf tr Q HQ. apply wpp_put, Hf. intros tr' r s' He HR. apply HQ; [|done].
  intros k Hk. apply He. by rewrite <- Hg.
Qed.

Lemma b_lift {A B} x y (R : B -> S -> Prop) (o : option A) f s :
  (strict = true -> is_Some o) -> (forall a, o = Some a -> balanced x y R (f a) s) ->
  balanced x y R (plift o ≫= f) s.
Proof. intros Ho Hf tr Q HQ. apply wpp_lift; [done|]. intros a Ha. by apply (Hf a Ha). Qed.

Lemma b_mono {A} x y (R R' : A -> S -> Prop) m s :
  balanced x y R m s -> (forall r s', R r s' -> R' r s') -> balanced x y R' m s.
Proof. intros Hm HR tr Q HQ. apply Hm. eauto. Qed.

(** The last of a function's steps. *)
Lemma b_plift {A} x (R : A -> S -> Prop) (o : option A) s :
  (strict = true -> is_Some o) -> (forall a, o = Some a -> R a s) -> balanced x x R (plift o) s.
Proof.
  intros Ho HR tr Q HQ. destruct o as [a|]; simpl.
  - specialize (HQ [] a s). rewrite app_nil_r in HQ. apply HQ; [by apply fd_effect_refl | by apply HR].
  - destruct strict; [|done]. by destruct (Ho eq_refl).
Qed.

(** A new socket is held, unless the function fails. *)
Lemma b_socket {B} cfg t x y (R : B -> S -> Prop) (f : Z -> proc S B) s :
  (forall g, balanced (opened g ++ x) y R (f g) s) ->
  balanced x y R (hev_socks5_socket cfg t ≫= f) s.
Proof.
  intros Hf tr Q HQ. apply wpp_bind. unfold hev_socks5_socket. apply wpp_call. intros g _. cbn beta.
  assert (forall tr1 h, fd_effect tr1 (x ++ fds s) ((opened h ++ x) ++ fds s) ->
    wpp strict (f h s) (tr ++ tr1) Q) as Hend.
  { intros tr1 h He. apply Hf. intros tr' r s' He' HR. rewrite <- app_assoc. apply HQ; [|done].
    by eapply fd_effect_trans. }
  case_decide as Hg.
  { apply (Hend [_] (-1)). rewrite (opened_neg (-1)) by lia. intros k Hk. exists k. simpl.
    by rewrite decide_True. }
  assert (forall q, Forall quiet q -> fd_effect (mk_entry (ESocket t) g :: q) (x ++ fds s)
    ((opened g ++ x) ++ fds s)) as He.
  { intros q Hq k Hk. rewrite (opened_pos g Hg). exists (g :: k). cbn [fd_fold fd_step mbind option_bind].
    rewrite decide_False by done. split; [by apply fd_fold_quiet|]. simpl. by rewrite Hk. }
  apply wpp_call. intros r _. case_decide.
  { apply wpp_call. intros r2 _. rewrite <- !app_assoc. apply (Hend [_; _; _] (-1)). rewrite (opened_neg (-1)) by lia.
    intros k Hk. exists k. simpl. rewrite decide_False by done. simpl. by rewrite decide_True. }
  apply wpp_call. intros r1 _. apply wpp_bind.
  assert (forall q, Forall quiet q -> forall Q', (forall q', Forall quiet q' -> Q' (tr ++ mk_entry (ESocket t) g :: q') (tt, s)) ->
    wpp strict ((if decide (r1 < 0) then call (EModFd g);; mret tt else mret tt : proc S unit) s)
      (tr ++ mk_entry (ESocket t) g :: q) Q') as Hmod.
  { intros q Hq Q' HQ'. case_decide; [|by apply HQ']. apply wpp_call. intros r2 _.
    rewrite <- app_assoc. apply (HQ' (q ++ [mk_entry (EModFd g) r2])).
    apply Forall_app. split; [done | by apply Forall_singleton]. }
  rewrite <- !app_assoc. apply (Hmod [_; _]); [repeat (apply Forall_cons; split; [exact I|]); constructor|]. intros q Hq.
  simpl. destruct t.
  - apply (Hend (_ :: q) g). by apply He.
  - intros r3 _. rewrite <- app_assoc. apply (Hend (_ :: q ++ [_]) g). apply (He (q ++ [_])). apply Forall_app.
    split; [done|]. by apply Forall_singleton.
Qed.
End Balanced.

(** ** The interfaces of the classes *)

(** What a [binder] promises: it only sets options of the socket it is given. *)
Class BinderOk (binder : Z -> sockaddr_in6 -> prog Z) : Prop :=
  binder_quiet strict f sa tr Q :
    (forall tr' r, Forall quiet tr' -> Q (tr ++ tr') r) -> wpp strict (binder f sa) tr Q.

#[export] Instance hev_socks5_bind_ok : BinderOk hev_socks5_bind.
Proof.
  intros strict f sa tr Q HQ. simpl. specialize (HQ [] 0). rewrite app_nil_r in HQ. by apply HQ.
Qed.

Ltac bstep :=
  first
  [ apply b_get | apply b_call; [exact I|]; intros ? ?
  | apply b_ret; try done | case_decide ]; cbn beta iota zeta.

Lemma received_at r n i : count r = Z.of_nat n -> (i < n)%nat -> is_Some (rd8 (received r) (Z.of_nat i)).
Proof.
  intros Hc Hi. destruct r as [v|]; simpl in *; [|lia].
  rewrite rd8_lookup, Nat2Z.id by lia. apply lookup_lt_is_Some. lia.
Qed.

End Descriptors.
