(* ===== verification/Socks5Client.v ===== *)
(** * The SOCKS5 client of src/core/src/hev-socks5-client{,-tcp,-udp}.c

    Connecting to the proxy, and the handshake: the method negotiation, the
    authentication and the request, in the standard order (each answer is awaited) or
    pipelined (everything is sent first). *)

From S2P Require Import Prelude Socks5Addr Socks5Io.

Module Socks5Client.
Import Socks5Addr Socks5Io.

Definition HEV_SOCKS5_VERSION_5 : Z := 5.
Definition HEV_SOCKS5_AUTH_METHOD_NONE : Z := 0.
Definition HEV_SOCKS5_AUTH_METHOD_USER : Z := 2.
Definition HEV_SOCKS5_AUTH_METHOD_DENY : Z := 255.
Definition HEV_SOCKS5_AUTH_VERSION_1 : Z := 1.
Definition HEV_SOCKS5_REQ_CMD_CONNECT : Z := 1.
Definition HEV_SOCKS5_REQ_CMD_UDP_ASC : Z := 3.
Definition HEV_SOCKS5_REQ_CMD_FWD_UDP : Z := 5.
Definition HEV_SOCKS5_RES_REP_SUCC : Z := 0.
Definition HEV_SOCKS5_RES_REP_FAIL : Z := 1.
Definition HEV_SOCKS5_RES_REP_HOST : Z := 4.
Definition HEV_SOCKS5_RES_REP_IMPL : Z := 7.
Definition HEV_SOCKS5_RES_REP_ADDR : Z := 8.

(** The two classes of clients: the TCP client has an allocated destination, the UDP
    client the descriptor of its association. *)
Inductive client_class :=
  | ClientTCP (addr : option HevSocks5Addr)
  | ClientUDP (fd : Z).

Record HevSocks5Client := mk_client {
  base : HevSocks5; auth_user : option bytes; auth_pass : option bytes; sub : client_class }.

Definition upd_base (f : HevSocks5 -> HevSocks5) (self : HevSocks5Client) : HevSocks5Client :=
  mk_client (f (base self)) (auth_user self) (auth_pass self) (sub self).
Definition set_sub (c : client_class) (self : HevSocks5Client) : HevSocks5Client :=
  mk_client (base self) (auth_user self) (auth_pass self) c.
Definition hev_socks5_client_set_auth (user pass : option bytes) (self : HevSocks5Client)
  : HevSocks5Client := mk_client (base self) user pass (sub self).

(** The credentials, when there are any. *)
Definition creds (self : HevSocks5Client) : option (bytes * bytes) :=
  u ← auth_user self; p ← auth_pass self; Some (u, p).

Abbreviation cproc := (proc HevSocks5Client).

Section Client.
Context `{Resolver} (cfg : misc_config).
(** The [binder] of the object's class. *)
Context (binder : Z -> sockaddr_in6 -> prog Z).

Definition bind_fd (f : Z) (sa : sockaddr_in6) : cproc Z := fun s =>
  prog_bind (binder f sa) (fun r => Ret (r, s)).

(** ** Messages *)

Definition hev_socks5_client_write_auth_methods : cproc Z :=
  c ← pget creds;
  let method := match c with None => HEV_SOCKS5_AUTH_METHOD_NONE | Some _ => HEV_SOCKS5_AUTH_METHOD_USER end in
  res ← call (ESend [HEV_SOCKS5_VERSION_5; 1; method]);
  if decide ((res : Z) <= 0) then mret (-1) else mret 0.

(** The lengths are stored in bytes. *)
Definition hev_socks5_client_write_auth_creds : cproc Z :=
  c ← pget creds;
  match c with
  | None => mret 0
  | Some (user, pass) =>
      let ulen := u8 (Z.of_nat (length user)) in
      let plen := u8 (Z.of_nat (length pass)) in
      res ← call (ESend ([HEV_SOCKS5_AUTH_VERSION_1; ulen] ++ take (Z.to_nat ulen) user
                          ++ [plen] ++ take (Z.to_nat plen) pass));
      if decide ((res : Z) <= 0) then mret (-1) else mret 0
  end.

(** [klass->get_upstream_addr] *)
Definition get_upstream_addr : cproc (option HevSocks5Addr) :=
  c ← pget sub;
  match c with
  | ClientTCP addr => pput (set_sub (ClientTCP None));; mret addr
  | ClientUDP _ =>
      f ← pget (fun s => hev_socks5_get_addr_family (base s));
      match f with
      | HEV_SOCKS5_ADDR_FAMILY_IPV4 =>
          ok ← call (EMalloc 7);
          if ok : bool then mret (Some (HEV_SOCKS5_ADDR_TYPE_IPV4 :: replicate 6 0)) else mret None
      | HEV_SOCKS5_ADDR_FAMILY_IPV6 =>
          ok ← call (EMalloc 19);
          if ok : bool then mret (Some (HEV_SOCKS5_ADDR_TYPE_IPV6 :: replicate 18 0)) else mret None
      | HEV_SOCKS5_ADDR_FAMILY_UNSPEC => mret None
      end
  end.

Definition request_cmd (t : HevSocks5Type) : option Z :=
  match t with
  | HEV_SOCKS5_TYPE_TCP => Some HEV_SOCKS5_REQ_CMD_CONNECT
  | HEV_SOCKS5_TYPE_UDP_IN_TCP => Some HEV_SOCKS5_REQ_CMD_FWD_UDP
  | HEV_SOCKS5_TYPE_UDP_IN_UDP => Some HEV_SOCKS5_REQ_CMD_UDP_ASC
  | HEV_SOCKS5_TYPE_NONE => None
  end.

Definition hev_socks5_client_write_request : cproc Z :=
  t ← pget (fun s => type (base s));
  match request_cmd t with
  | None => mret (-1)
  | Some cmd =>
      addr ← get_upstream_addr;
      addr ← plift addr;
      len ← plift (hev_socks5_addr_len addr);
      if decide (len = -1) then mret (-1) else
      v ← plift (rd addr 0 len);
      ret ← call (ESend ([HEV_SOCKS5_VERSION_5; cmd; 0] ++ v));
      if decide ((ret : Z) <= 0) then mret (-1) else
      call EFree;;
      mret 0
  end.

Definition hev_socks5_client_read_auth_method : cproc Z :=
  r ← call (ERecv 2);
  if decide (count r ≠ 2) then mret (-1) else
  ver ← plift (rd8 (received r) 0);
  if decide (ver ≠ HEV_SOCKS5_VERSION_5) then mret (-1) else
  plift (rd8 (received r) 1).

Definition hev_socks5_client_read_auth_creds : cproc Z :=
  r ← call (ERecv 2);
  if decide (count r ≠ 2) then mret (-1) else
  ver ← plift (rd8 (received r) 0);
  if decide (ver ≠ HEV_SOCKS5_AUTH_VERSION_1) then mret (-1) else
  rep ← plift (rd8 (received r) 1);
  if decide (rep ≠ HEV_SOCKS5_RES_REP_SUCC) then mret (-1) else mret 0.

(** [klass->set_upstream_addr] *)
Definition set_upstream_addr (addr : HevSocks5Addr) : cproc Z :=
  c ← pget sub;
  match c with
  | ClientTCP _ => mret 0
  | ClientUDP _ =>
      t ← pget (fun s => type (base s));
      if decide (t ≠ HEV_SOCKS5_TYPE_UDP_IN_UDP) then mret 0 else
      f ← pget (fun s => hev_socks5_get_addr_family (base s));
      r ← plift (hev_socks5_addr_into_sockaddr6 addr (mk_sockaddr 0 0 (replicate 16 0)) f);
      let '(res, saddr, _) := r in
      if decide (res < 0) then mret (-1) else
      ufd ← hev_socks5_socket cfg SOCK_DGRAM;
      if decide (ufd < 0) then mret (-1) else
      res ← bind_fd ufd saddr;
      if decide (res < 0) then call (EDelFd ufd);; call (EClose ufd);; mret (-1) else
      res ← call (EConnect ufd saddr);
      if decide ((res : Z) < 0) then call (EDelFd ufd);; call (EClose ufd);; mret (-1) else
      pput (upd_base (set_udp_associated 1));;
      pput (set_sub (ClientUDP ufd));;
      mret 0
  end.

(** [res.addr] is on the stack; what was not received is not read. *)
Definition hev_socks5_client_read_response : cproc Z :=
  r ← call (ERecv 4);
  if decide (count r ≠ 4) then mret (-1) else
  ver ← plift (rd8 (received r) 0);
  if decide (ver ≠ HEV_SOCKS5_VERSION_5) then mret (-1) else
  rep ← plift (rd8 (received r) 1);
  if decide (rep ≠ HEV_SOCKS5_RES_REP_SUCC) then mret (-1) else
  atyp ← plift (rd8 (received r) 3);
  let addrlen :=
    if decide (atyp = HEV_SOCKS5_ADDR_TYPE_IPV4) then Some 6
    else if decide (atyp = HEV_SOCKS5_ADDR_TYPE_IPV6) then Some 18 else None in
  match addrlen with
  | None => mret (-1)
  | Some addrlen =>
      r ← call (ERecv addrlen);
      if decide (count r ≠ addrlen) then mret (-1) else
      ret ← set_upstream_addr (atyp :: received r ++ replicate (sizeof_addr - S (length (received r))) 0);
      if decide (ret < 0) then mret (-1) else mret 0
  end.

(** ** Connecting *)

Definition hev_socks5_client_connect (addr : bytes) (port : Z) : cproc Z :=
  pput (upd_base (hev_socks5_set_timeout (connect_timeout cfg)));;
  f ← pget (fun s => hev_socks5_get_addr_family (base s));
  r ← plift (hev_socks5_name_into_sockaddr6 addr port (mk_sockaddr 0 0 (replicate 16 0)) f);
  let '(res, saddr, family) := r in
  if decide (res < 0) then mret (-1) else
  sfd ← hev_socks5_socket cfg SOCK_STREAM;
  if decide (sfd < 0) then mret (-1) else
  res ← bind_fd sfd saddr;
  if decide (res < 0) then call (EDelFd sfd);; call (EClose sfd);; mret (-1) else
  res ← call (EConnect sfd saddr);
  if decide ((res : Z) < 0) then call (EDelFd sfd);; call (EClose sfd);; mret (-1) else
  pput (upd_base (set_fd sfd));;
  pput (upd_base (hev_socks5_set_addr_family family));;
  mret 0.

(** ** The handshake *)

(** [if (res < 0) return -1;] *)
Definition guard (m : cproc Z) (k : cproc Z) : cproc Z :=
  res ← m; if decide (res < 0) then mret (-1) else k.

Definition hev_socks5_client_handshake_standard : cproc Z :=
  guard hev_socks5_client_write_auth_methods (
  res ← hev_socks5_client_read_auth_method;
  if decide (res < 0) then mret (-1) else
  let rest :=
    guard hev_socks5_client_write_request (
    guard hev_socks5_client_read_response (
    mret 0)) in
  if decide (res = HEV_SOCKS5_AUTH_METHOD_USER) then
    guard hev_socks5_client_write_auth_creds (
    guard hev_socks5_client_read_auth_creds rest)
  else if decide (res ≠ HEV_SOCKS5_AUTH_METHOD_NONE) then mret (-1)
  else rest).

Definition hev_socks5_client_handshake_pipeline : cproc Z :=
  guard hev_socks5_client_write_auth_methods (
  guard hev_socks5_client_write_auth_creds (
  guard hev_socks5_client_write_request (
  res ← hev_socks5_client_read_auth_method;
  if decide (res < 0) then mret (-1) else
  let rest := guard hev_socks5_client_read_response (mret 0) in
  if decide (res = HEV_SOCKS5_AUTH_METHOD_USER) then
    guard hev_socks5_client_read_auth_creds rest
  else if decide (res ≠ HEV_SOCKS5_AUTH_METHOD_NONE) then mret (-1)
  else rest))).

Definition hev_socks5_client_handshake (pipeline : bool) : cproc Z :=
  pput (upd_base (hev_socks5_set_timeout (tcp_timeout cfg)));;
  res ← (if pipeline then hev_socks5_client_handshake_pipeline
         else hev_socks5_client_handshake_standard);
  t ← pget (fun s => type (base s));
  (match t with
   | HEV_SOCKS5_TYPE_UDP_IN_TCP | HEV_SOCKS5_TYPE_UDP_IN_UDP =>
       pput (upd_base (hev_socks5_set_timeout (udp_timeout cfg)))
   | _ => mret tt
   end);;
  mret res.

(** ** Construction and destruction *)

Definition hev_socks5_client_construct (t : HevSocks5Type) (c : client_class) : HevSocks5Client :=
  mk_client (hev_socks5_construct t) None None c.

(** [addr] is the caller's structure; the copy has the length of the wire form. *)
Definition hev_socks5_client_tcp_construct (addr : HevSocks5Addr) : prog (option HevSocks5Client) :=
  match hev_socks5_addr_len addr with
  | None => Crash
  | Some len =>
      Do (EMalloc len) (fun ok =>
        if ok : bool then
          match rd addr 0 len with
          | None => Crash
          | Some v => Ret (Some (hev_socks5_client_construct HEV_SOCKS5_TYPE_TCP (ClientTCP (Some v))))
          end
        else Ret None)
  end.

(** [stack] is the memory of the local structure. *)
Definition client_tcp_new (r : option (Z * HevSocks5Addr)) : prog (option HevSocks5Client) :=
  Do ENew (fun ok =>
    if negb ok then Ret None else
    match r with
    | None => Crash
    | Some (_, addr) =>
        prog_bind (hev_socks5_client_tcp_construct addr) (fun self =>
          match self with
          | None => Do EFree (fun _ => Ret None)
          | Some _ => Ret self
          end)
    end).
Definition hev_socks5_client_tcp_new_name (stack : HevSocks5Addr) (name : bytes) (port : Z) :=
  client_tcp_new (hev_socks5_addr_from_name stack name port).
Definition hev_socks5_client_tcp_new_ipv4 (stack : HevSocks5Addr) (ipv4 : bytes) (port : Z) :=
  client_tcp_new (hev_socks5_addr_from_ipv4 stack ipv4 port).
Definition hev_socks5_client_tcp_new_ipv6 (stack : HevSocks5Addr) (ipv6 : bytes) (port : Z) :=
  client_tcp_new (hev_socks5_addr_from_ipv6 stack ipv6 port).

Definition hev_socks5_client_udp_construct (t : HevSocks5Type) : HevSocks5Client :=
  hev_socks5_client_construct t (ClientUDP (-1)).

Definition hev_socks5_client_udp_new (t : HevSocks5Type) : prog (option HevSocks5Client) :=
  Do ENew (fun ok =>
    if negb ok then Ret None else Ret (Some (hev_socks5_client_udp_construct t))).

Definition hev_socks5_client_udp_get_fd (self : HevSocks5Client) : Z :=
  match type (base self), sub self with
  | HEV_SOCKS5_TYPE_UDP_IN_TCP, _ => fd (base self)
  | HEV_SOCKS5_TYPE_UDP_IN_UDP, ClientUDP ufd => ufd
  | _, _ => -1
  end.

(** The destructors of the class and of its parents. *)
Definition hev_socks5_client_destruct (self : HevSocks5Client) : prog unit :=
  match sub self with
  | ClientTCP (Some _) => Do EFree (fun _ => hev_socks5_destruct (base self))
  | ClientTCP None => hev_socks5_destruct (base self)
  | ClientUDP ufd =>
      if decide (ufd >= 0) then
        Do (EDelFd ufd) (fun _ => Do (EClose ufd) (fun _ => hev_socks5_destruct (base self)))
      else hev_socks5_destruct (base self)
  end.
End Client.

End Socks5Client.
