(* ===== verification/Socks5Server.v ===== *)
(** * The SOCKS5 server of src/core/src/hev-socks5-server.c

    The server's side of the handshake.  The users are behind an interface,
    [Authenticator]; the file on hev-socks5-authenticator.c implements it. *)

From S2P Require Import Prelude Socks5Addr Socks5Io Socks5Client.

Module Socks5Server.
Import Socks5Addr Socks5Io.
Export Socks5Client.

(** What the server needs of the authenticator: finding a user, and checking its
    password. *)
Class Authenticator := {
  user : Type;
  hev_socks5_authenticator_get : bytes -> option user;
  hev_socks5_user_check : user -> bytes -> Z;
}.

Section Server.
Context `{Resolver} `{Authenticator} (cfg : misc_config).

(** The field that holds the authenticator, and then the user. *)
Inductive server_obj := ONone | OAuth | OUser (u : user).

Record HevSocks5Server := mk_server {
  sbase : HevSocks5; fd0 : Z; fd1 : Z; obj : server_obj }.

Definition upd_sbase (f : HevSocks5 -> HevSocks5) (self : HevSocks5Server) : HevSocks5Server :=
  mk_server (f (sbase self)) (fd0 self) (fd1 self) (obj self).
Definition set_fd0 v self := mk_server (sbase self) v (fd1 self) (obj self).
Definition set_fd1 v self := mk_server (sbase self) (fd0 self) v (obj self).
Definition set_obj o self := mk_server (sbase self) (fd0 self) (fd1 self) o.

Abbreviation sproc := (proc HevSocks5Server).

Definition hev_socks5_server_construct (f : Z) : HevSocks5Server :=
  mk_server (set_fd f (hev_socks5_construct HEV_SOCKS5_TYPE_NONE)) (-1) (-1) ONone.

Definition hev_socks5_server_new (f : Z) : prog (option HevSocks5Server) :=
  Do ENew (fun ok => if negb ok then Ret None else Ret (Some (hev_socks5_server_construct f))).

Definition hev_socks5_server_set_auth (self : HevSocks5Server) : HevSocks5Server := set_obj OAuth self.

(** ** The method negotiation *)

(** [for (i = 0; i < auth.method_len; i++)] *)
Fixpoint find_method (methods : bytes) (method : Z) : Z :=
  match methods with
  | [] => -1
  | m :: methods => if decide (m = method) then method else find_method methods method
  end.

Definition hev_socks5_server_read_auth_method : sproc Z :=
  r ← call (ERecv 2);
  if decide (count r ≠ 2) then mret (-1) else
  ver ← plift (rd8 (received r) 0);
  if decide (ver ≠ HEV_SOCKS5_VERSION_5) then mret (-1) else
  method_len ← plift (rd8 (received r) 1);
  r ← call (ERecv method_len);
  if decide (count r ≠ method_len) then mret (-1) else
  o ← pget obj;
  let method := match o with ONone => HEV_SOCKS5_AUTH_METHOD_NONE | _ => HEV_SOCKS5_AUTH_METHOD_USER end in
  mret (find_method (received r) method).

Definition hev_socks5_server_write_auth_method (auth_method : Z) : sproc Z :=
  res ← call (ESend [HEV_SOCKS5_VERSION_5; u8 auth_method]);
  if decide ((res : Z) <= 0) then mret (-1) else mret 0.

(** ** The authentication *)

Definition hev_socks5_server_read_auth_user : sproc Z :=
  r ← call (ERecv 2);
  if decide (count r ≠ 2) then mret (-1) else
  ver ← plift (rd8 (received r) 0);
  if decide (ver ≠ 1) then mret (-1) else
  nlen ← plift (rd8 (received r) 1);
  if decide (nlen = 0) then mret (-1) else
  r ← call (ERecv (nlen + 1));
  if decide (count r ≠ nlen + 1) then mret (-1) else
  let name := received r in
  plen ← plift (rd8 name nlen);
  if decide (plen = 0) then mret (-1) else
  r ← call (ERecv plen);
  if decide (count r ≠ plen) then mret (-1) else
  let pass := received r in
  name ← plift (rd name 0 nlen);
  o ← pget obj;
  match o with
  | OAuth =>
      match hev_socks5_authenticator_get name with
      | None => mret (-1)
      | Some u =>
          if decide (hev_socks5_user_check u pass < 0) then mret (-1) else
          pput (set_obj (OUser u));;
          mret 0
      end
  | _ => plift None
  end.

Definition hev_socks5_server_write_auth_user (auth_res : Z) : sproc Z :=
  res ← call (ESend [1; u8 auth_res]);
  if decide ((res : Z) <= 0) then mret (-1) else mret 0.

Definition hev_socks5_server_auth : sproc Z :=
  method ← hev_socks5_server_read_auth_method;
  res ← hev_socks5_server_write_auth_method method;
  if decide (res < 0) then mret (-1) else
  if decide (method = HEV_SOCKS5_AUTH_METHOD_NONE) then mret 0
  else if decide (method = HEV_SOCKS5_AUTH_METHOD_USER) then
    res ← hev_socks5_server_read_auth_user;
    res' ← hev_socks5_server_write_auth_user res;
    if decide (Z.lor res res' < 0) then mret (-1) else mret 0
  else mret (-1).

(** ** The request *)

(** The result, and the values left in [*cmd], [*rep] and [*addr]; [None] in a local
    variable that was not set. *)
Definition hev_socks5_server_read_request
  : sproc (Z * (option Z * Z * option sockaddr_in6)) :=
  let fail (rep : Z) : sproc (Z * (option Z * Z * option sockaddr_in6)) := mret (0, (None, rep, None)) in
  r ← call (ERecv 5);
  if decide (count r ≠ 5) then mret (-1, (None, HEV_SOCKS5_RES_REP_SUCC, None)) else
  let head := received r in
  ver ← plift (rd8 head 0);
  if decide (ver ≠ HEV_SOCKS5_VERSION_5) then fail HEV_SOCKS5_RES_REP_FAIL else
  cmd ← plift (rd8 head 1);
  atyp ← plift (rd8 head 3);
  b ← plift (rd8 head 4);
  let addrlen :=
    if decide (atyp = HEV_SOCKS5_ADDR_TYPE_IPV4) then Some 5
    else if decide (atyp = HEV_SOCKS5_ADDR_TYPE_IPV6) then Some 17
    else if decide (atyp = HEV_SOCKS5_ADDR_TYPE_NAME) then Some (2 + b) else None in
  match addrlen with
  | None => fail HEV_SOCKS5_RES_REP_ADDR
  | Some addrlen =>
      r ← call (ERecv addrlen);
      if decide (count r ≠ addrlen) then fail HEV_SOCKS5_RES_REP_ADDR else
      f ← pget (fun s => hev_socks5_get_addr_family (sbase s));
      let addr := atyp :: b :: received r ++ replicate (sizeof_addr - 2 - length (received r)) 0 in
      r ← plift (hev_socks5_addr_into_sockaddr6 addr (mk_sockaddr 0 0 (replicate 16 0)) f);
      let '(res, sa, f) := r in
      if decide (res < 0) then fail HEV_SOCKS5_RES_REP_ADDR else
      pput (upd_sbase (hev_socks5_set_addr_family f));;
      mret (0, (Some cmd, HEV_SOCKS5_RES_REP_SUCC, Some sa))
  end.

Definition hev_socks5_server_write_response (rep : Z) (sa : sockaddr_in6) : sproc Z :=
  r ← plift (hev_socks5_addr_from_sockaddr6 (replicate sizeof_addr 0) sa);
  let '(ret, addr) := r in
  v ← plift (rd ([HEV_SOCKS5_VERSION_5; u8 rep; 0] ++ addr) 0 (3 + ret));
  ret ← call (ESend v);
  if decide ((ret : Z) <= 0) then mret (-1) else mret 0.

(** ** Carrying the request out *)

(** The server class's own [binder]: bind next to the control connection. *)
Definition hev_socks5_server_udp_bind (sock : Z) (src : sockaddr_in6) : sproc (Z * sockaddr_in6) :=
  f ← pget (fun s => fd (sbase s));
  r ← call (EGetsockname f);
  if decide (fst (r : Z * sockaddr_in6) < 0) then mret (-1, src) else
  let src := mk_sockaddr (sin6_family (snd r)) 0 (sin6_addr (snd r)) in
  res ← call (EBind sock src);
  if decide ((res : Z) < 0) then mret (-1, src) else
  r ← call (EGetsockname sock);
  if decide (fst (r : Z * sockaddr_in6) < 0) then mret (-1, src) else mret (0, snd r).

Definition lift_prog {A} (p : prog A) : sproc A := fun s => prog_bind p (fun a => Ret (a, s)).

Definition hev_socks5_server_connect (sa : sockaddr_in6) : sproc Z :=
  f ← hev_socks5_socket cfg SOCK_STREAM;
  if decide (f < 0) then mret (-1) else
  res ← lift_prog (hev_socks5_bind f sa);
  if decide (res < 0) then call (EDelFd f);; call (EClose f);; mret (-1) else
  pput (upd_sbase (hev_socks5_set_timeout (connect_timeout cfg)));;
  res ← call (EConnect f sa);
  if decide ((res : Z) < 0) then call (EDelFd f);; call (EClose f);; mret (-1) else
  pput (upd_sbase (hev_socks5_set_timeout (tcp_timeout cfg)));;
  pput (set_fd0 f);;
  mret 0.

(** The binder updates the address in place. *)
Definition hev_socks5_server_bind (addr : option sockaddr_in6) : sproc (Z * option sockaddr_in6) :=
  f ← hev_socks5_socket cfg SOCK_DGRAM;
  if decide (f < 0) then mret (-1, addr) else
  pput (set_fd0 f);;
  match addr with
  | None => mret (0, None)
  | Some sa =>
      f ← hev_socks5_socket cfg SOCK_DGRAM;
      if decide (f < 0) then mret (-1, Some sa) else
      res ← call (EReuse f);
      if decide ((res : Z) < 0) then call (EDelFd f);; call (EClose f);; mret (-1, Some sa) else
      r ← hev_socks5_server_udp_bind f sa;
      let '(res, sa) := r in
      if decide (res < 0) then call (EDelFd f);; call (EClose f);; mret (-1, Some sa) else
      pput (set_fd1 f);;
      mret (0, Some sa)
  end.

(** ** The handshake *)

(** What a request leads to: the reply, and the address to report. *)
Definition server_dispatch (cmd : Z) (sa : sockaddr_in6) : sproc (Z * sockaddr_in6) :=
  if decide (cmd = HEV_SOCKS5_REQ_CMD_CONNECT) then
    res ← hev_socks5_server_connect sa;
    pput (upd_sbase (set_type HEV_SOCKS5_TYPE_TCP));;
    mret (if decide (res < 0) then HEV_SOCKS5_RES_REP_HOST else HEV_SOCKS5_RES_REP_SUCC, sa)
  else if decide (cmd = HEV_SOCKS5_REQ_CMD_UDP_ASC) then
    r ← hev_socks5_server_bind (Some sa);
    pput (upd_sbase (set_type HEV_SOCKS5_TYPE_UDP_IN_UDP));;
    mret (if decide (fst r < 0) then HEV_SOCKS5_RES_REP_FAIL else HEV_SOCKS5_RES_REP_SUCC,
          default sa (snd r))
  else if decide (cmd = HEV_SOCKS5_REQ_CMD_FWD_UDP) then
    r ← hev_socks5_server_bind None;
    pput (upd_sbase (set_type HEV_SOCKS5_TYPE_UDP_IN_TCP));;
    mret (if decide (fst r < 0) then HEV_SOCKS5_RES_REP_FAIL else HEV_SOCKS5_RES_REP_SUCC, sa)
  else mret (HEV_SOCKS5_RES_REP_IMPL, sa).

(** [stack]: what the local [addr] holds before it is set; the response sends it when
    the request was not understood. *)
Definition hev_socks5_server_handshake (stack : sockaddr_in6) : sproc Z :=
  pput (upd_sbase (hev_socks5_set_timeout (tcp_timeout cfg)));;
  res ← hev_socks5_server_auth;
  if decide (res < 0) then mret (-1) else
  r ← hev_socks5_server_read_request;
  let '(res, (cmd, rep, sa)) := r in
  if decide (res < 0) then mret (-1) else
  let sa := default stack sa in
  r ← (if decide (rep = HEV_SOCKS5_RES_REP_SUCC) then cmd ← plift cmd; server_dispatch cmd sa
       else mret (rep, sa));
  let '(rep, sa) := r in
  res ← hev_socks5_server_write_response rep sa;
  if decide (res < 0 \/ rep ≠ HEV_SOCKS5_RES_REP_SUCC) then mret (-1) else mret 0.

(** ** The service *)

(** The two relays are the files on hev-socks5-tcp.c and hev-socks5-udp.c. *)
Inductive service := ServeTCP (f : Z) | ServeUDP (f : Z).

Definition hev_socks5_server_service : sproc (Z * option service) :=
  t ← pget (fun s => type (sbase s));
  f ← pget fd0;
  match t with
  | HEV_SOCKS5_TYPE_TCP => mret (0, Some (ServeTCP f))
  | HEV_SOCKS5_TYPE_UDP_IN_UDP | HEV_SOCKS5_TYPE_UDP_IN_TCP =>
      pput (upd_sbase (hev_socks5_set_timeout (udp_timeout cfg)));;
      mret (0, Some (ServeUDP f))
  | HEV_SOCKS5_TYPE_NONE => mret (-1, None)
  end.

Definition hev_socks5_server_run (stack : sockaddr_in6) : sproc (Z * option service) :=
  f ← pget (fun s => fd (sbase s));
  res ← call (EAddFd f);
  (if decide ((res : Z) < 0) then call (EModFd f);; mret tt else mret tt);;
  res ← hev_socks5_server_handshake stack;
  if decide (res < 0) then mret (-1, None) else
  r ← hev_socks5_server_service;
  if decide (fst r < 0) then mret (-1, None) else mret r.

Definition hev_socks5_server_get_fd (self : HevSocks5Server) : Z :=
  match type (sbase self) with
  | HEV_SOCKS5_TYPE_UDP_IN_TCP => fd (sbase self)
  | HEV_SOCKS5_TYPE_UDP_IN_UDP => fd1 self
  | _ => -1
  end.

(** Dropping the reference to [obj] is the object system's. *)
Definition close_if_open (f : Z) : prog unit :=
  if decide (f >= 0) then Do (EDelFd f) (fun _ => Do (EClose f) (fun _ => Ret tt)) else Ret tt.

Definition hev_socks5_server_destruct (self : HevSocks5Server) : prog unit :=
  prog_bind (close_if_open (fd0 self)) (fun _ =>
  prog_bind (close_if_open (fd1 self)) (fun _ =>
  hev_socks5_destruct (sbase self))).
End Server.

End Socks5Server.
