(* ===== verification/Socks5ServerLife.v ===== *)
(** * The life of a server's connection: src/core/src/hev-socks5-server.c and hev-socks5-tcp.c

    From the accepted socket over the handshake and the relay to the destruction of the
    object: everything it opens is closed, and whatever the client sends, no invalid memory
    is accessed. *)

From S2P Require Import Prelude Socks5Addr Socks5Io Descriptors Socks5Client Socks5Server.

Module Socks5ServerLife.
Import Socks5Addr Socks5Io Descriptors Socks5Server.

(** ** The TCP relay *)

(** [hev_task_io_splice] of the task system copies between the two sockets until both
    directions have ended. *)
Definition hev_socks5_tcp_splicer (hev_task_io_splice : Z -> Z -> prog unit) (self : HevSocks5) (f : Z) : prog Z :=
  let cfd := fd self in
  if decide (cfd < 0) then Ret (-1) else
  Do (EAddFd f) (fun res =>
  prog_bind (if decide (res < 0) then Do (EModFd f) (fun _ => Ret tt) else Ret tt) (fun _ =>
  prog_bind (hev_task_io_splice cfd f) (fun _ => Ret 0))).

Section Life.
Context `{Resolver} `{Authenticator} (cfg : misc_config).
Context (hev_task_io_splice : Z -> Z -> prog unit) (udp : Z -> proc HevSocks5Server Z).

(** [hev_socks5_tcp_splice] or [hev_socks5_udp_splice] of the object's interfaces. *)
Definition relay (sv : service) : proc HevSocks5Server Z :=
  match sv with
  | ServeTCP f => fun s => prog_bind (hev_socks5_tcp_splicer hev_task_io_splice (sbase s) f) (fun r => Ret (r, s))
  | ServeUDP f => udp f
  end.

Definition server_life (stack : sockaddr_in6) (s : HevSocks5Server) : prog unit :=
  prog_bind (hev_socks5_server_run cfg stack s) (fun r =>
  prog_bind (match snd (fst r) with Some sv => relay sv (snd r) | None => Ret (0, snd r) end) (fun r =>
  hev_socks5_server_destruct (snd r))).
End Life.

(** ** Descriptors *)

#[export] Instance server_fds `{Authenticator} : Owner HevSocks5Server := fun s =>
  opened (fd0 s) ++ opened (fd1 s) ++ opened (fd (sbase s)).

Lemma rd8_some m i : 0 <= i < Z.of_nat (length m) -> is_Some (rd8 m i).
Proof. intros Hi. rewrite rd8_lookup by lia. apply lookup_lt_is_Some. lia. Qed.

Lemma name_meaning_size `{ResolverOk} s fam ip f : name_meaning s fam = Some (ip, f) -> length ip = 16%nat.
Proof.
  unfold name_meaning. destruct (inet_pton4 s) as [a|] eqn:E4; [intros [= <- <-]; cbn; by rewrite (pton4_size _ _ E4)|].
  destruct (inet_pton6 s) as [a|] eqn:E6; [intros [= <- <-]; by apply pton6_size in E6|].
  destruct (getaddrinfo s fam) as [[[] a]|] eqn:Eg; intros [= <- <-]; pose proof (getaddrinfo_size _ _ _ _ Eg) as Hs; [|done].
  cbn. by rewrite Hs.
Qed.

(** Addresses as the server handles them: whatever the bytes are, the conversions stay
    inside. *)
Lemma addr_into_sockaddr `{ResolverOk} addr sa fam :
  length addr = sizeof_addr -> length (sin6_addr sa) = 16%nat -> (forall l, domain_len addr = Some l -> 0 <= l < 256) ->
  exists r sa' f, hev_socks5_addr_into_sockaddr6 addr sa fam = Some (r, sa', f) ∧ (0 <= r -> length (sin6_addr sa') = 16%nat).
Proof.
  intros Hl Hsa Hd. unfold sizeof_addr in Hl. unfold hev_socks5_addr_into_sockaddr6.
  assert (is_Some (atype addr)) as [t ->] by (apply rd8_some; lia). cbn [mbind option_bind].
  case_decide; [|case_decide; [|case_decide]].
  - unfold hev_socks5_ipv4_into_sockaddr6. rewrite !rd_bound by lia. cbn [mbind option_bind].
    pose proof (v4mapped_write (sin6_addr sa) (take (Z.to_nat 4) (drop (Z.to_nat 1) addr)) Hsa
      ltac:(rewrite length_take, length_drop; lia)) as Hw.
    wr_steps Hw. rewrite Hw. eexists _, _, _. split; [done|]. intros _. cbn [sin6_addr]. rewrite length_app, length_take, length_drop. simpl length. lia.
  - unfold hev_socks5_ipv6_into_sockaddr6. rewrite !rd_bound by lia. cbn [mbind option_bind].
    rewrite wr_0 by (rewrite length_take, length_drop; lia). eexists _, _, _. split; [done|]. intros _. cbn [sin6_addr].
    rewrite length_app, length_drop, length_take, length_drop. lia.
  - assert (is_Some (domain_len addr)) as [l Hdl] by (apply rd8_some; lia). rewrite Hdl. specialize (Hd l Hdl).
    cbn [mbind option_bind]. rewrite !rd_bound by lia. cbn [mbind option_bind].
    match goal with |- context [cstr_of ?m] => destruct (cstr_of_nul m) as [nm ->] end; [apply elem_of_app; right; by apply list_elem_of_singleton|].
    cbn [mbind option_bind]. match goal with |- context [hev_socks5_name_into_sockaddr6 _ ?p] => pose proof (name_into_ok nm p sa fam Hsa) as Hn end.
    destruct (name_meaning nm fam) as [[ip f]|] eqn:Hm.
    + rewrite Hn. eexists _, _, _. split; [done|]. intros _. cbn. by eapply name_meaning_size.
    + destruct Hn as (sa' & f & ->). eexists _, _, _. split; [done | lia].
  - eexists _, _, _. split; [done | lia].
Qed.

Lemma addr_from_sockaddr sa : length (sin6_addr sa) = 16%nat -> exists r addr,
  hev_socks5_addr_from_sockaddr6 (replicate sizeof_addr 0) sa = Some (r, addr) ∧ 0 <= r <= 19 ∧ length addr = sizeof_addr.
Proof.
  intros Hsa. unfold hev_socks5_addr_from_sockaddr6.
  assert (forall m off v, length m = sizeof_addr -> 0 <= off -> off + Z.of_nat (length v) <= 260 ->
    exists m', wr m off v = Some m' ∧ length m' = sizeof_addr) as Hwr.
  { intros m off v Hm ??. unfold sizeof_addr in *. rewrite wr_bound by lia. eexists. split; [done|].
    rewrite !length_app, length_take, length_drop. lia. }
  assert (forall o l, 0 <= o -> 0 <= l -> o + l <= 16 -> exists v, rd (sin6_addr sa) o l = Some v ∧ Z.of_nat (length v) = l) as Hrd.
  { intros o l ???. rewrite rd_bound by lia. eexists. split; [done|]. rewrite length_take, length_drop. lia. }
  assert (length (replicate sizeof_addr 0) = sizeof_addr) as H0 by apply length_replicate.
  destruct (IN6_IS_ADDR_V4MAPPED (sin6_addr sa)).
  - destruct (Hwr _ 0 [HEV_SOCKS5_ADDR_TYPE_IPV4] H0) as (a1 & -> & H1); [done..|]. cbn [mbind option_bind].
    destruct (Hwr a1 5 (le16 (sin6_port sa)) H1) as (a2 & -> & H2); [done..|]. cbn [mbind option_bind].
    destruct (Hrd 12 4) as (v & -> & Hv); [lia..|]. cbn [mbind option_bind].
    destruct (Hwr a2 1 v H2) as (a3 & -> & H3); [lia..|]. cbn [mbind option_bind]. eexists _, _. split_and!; [done | lia | lia | done].
  - destruct (Hwr _ 0 [HEV_SOCKS5_ADDR_TYPE_IPV6] H0) as (a1 & -> & H1); [done..|]. cbn [mbind option_bind].
    destruct (Hwr a1 17 (le16 (sin6_port sa)) H1) as (a2 & -> & H2); [done..|]. cbn [mbind option_bind].
    destruct (Hrd 0 16) as (v & -> & Hv); [lia..|]. cbn [mbind option_bind].
    destruct (Hwr a2 1 v H2) as (a3 & -> & H3); [lia..|]. cbn [mbind option_bind]. eexists _, _. split_and!; [done | lia | lia | done].
Qed.

Section ServerBalanced.
Context `{Resolver} `{!ResolverOk} `{Authenticator} (cfg : misc_config) (strict : bool).

(** The object is as it was, but for the user and the settings of the base class. *)
Definition like (s s' : HevSocks5Server) : Prop :=
  fd0 s' = fd0 s ∧ fd1 s' = fd1 s ∧ fd (sbase s') = fd (sbase s).
Definition stays {A} (s : HevSocks5Server) : A -> HevSocks5Server -> Prop := fun _ s' => like s s'.

(** No user has been found yet. *)
Definition unauthorised (s : HevSocks5Server) : Prop := match obj s with OUser _ => False | _ => True end.

Lemma like_refl s : like s s.
Proof. by split_and!. Qed.
Lemma like_trans s1 s2 s3 : like s1 s2 -> like s2 s3 -> like s1 s3.
Proof. intros (?&?&?) (?&?&?). split_and!; congruence. Qed.
Lemma like_fds s s' : like s s' -> fds s' = fds s.
Proof. intros (E0 & E1 & E2). unfold fds, server_fds. by rewrite E0, E1, E2. Qed.

(** An assignment that leaves the descriptors alone. *)
Lemma b_set {B} x y (R : B -> HevSocks5Server -> Prop) g (f : unit -> proc HevSocks5Server B) s :
  like s (g s) -> balanced strict x y R (f tt) (g s) -> balanced strict x y R (pput g ≫= f) s.
Proof. intros Hl Hf. eapply b_put; [|exact Hf]. by rewrite (like_fds s (g s) Hl). Qed.

Lemma count_possible n r : possible (ERecv n) r -> 0 <= n -> forall v, r = Some v -> bytes_ok v.
Proof. intros Hp _ v ->. by destruct Hp. Qed.

Lemma find_method_cases l m : find_method l m = m \/ find_method l m = -1.
Proof. induction l as [|x l IH]; simpl; [by right|]. case_decide; [by left | done]. Qed.

Definition read_byte (r : option bytes) (i : Z) (b : Z) : Prop := rd8 (received r) i = Some b.

Lemma read_byte_range n r i b : possible (ERecv n) r -> 0 <= i -> read_byte r i b -> 0 <= b < 256.
Proof.
  intros Hp Hi Hb. unfold read_byte in Hb. rewrite rd8_lookup in Hb by lia. destruct r as [v|]; [|done].
  destruct Hp as [Hv _]. cbn in Hb. by eapply Forall_lookup_1 in Hv.
Qed.

Lemma b_srv_read_auth_method s : balanced strict [] []
  (fun m s' => s' = s ∧ (m = HEV_SOCKS5_AUTH_METHOD_USER -> obj s ≠ ONone)) hev_socks5_server_read_auth_method s.
Proof.
  unfold hev_socks5_server_read_auth_method. do 2 bstep; [by bstep|]. assert (count r = Z.of_nat 2) as Hc by lia.
  apply b_lift; [intros _; by apply (received_at r 2 0); [|lia]|]. intros ver _. bstep; [by bstep|].
  apply b_lift; [intros _; by apply (received_at r 2 1); [|lia]|]. intros n _. bstep. bstep; [by bstep|]. bstep.
  apply b_ret. split; [done|]. intros Hm He. rewrite He in Hm.
  by destruct (find_method_cases (received r0) HEV_SOCKS5_AUTH_METHOD_NONE) as [Hx|Hx]; rewrite Hx in Hm.
Qed.

Lemma b_write_auth_method m s : balanced strict [] [] (stays s) (hev_socks5_server_write_auth_method m) s.
Proof. unfold hev_socks5_server_write_auth_method. repeat bstep; by split_and!. Qed.

Lemma b_write_auth_user m s : balanced strict [] [] (stays s) (hev_socks5_server_write_auth_user m) s.
Proof. unfold hev_socks5_server_write_auth_user. repeat bstep; by split_and!. Qed.

Lemma b_read_auth_user s : obj s = OAuth -> balanced strict [] [] (stays s) hev_socks5_server_read_auth_user s.
Proof.
  intros Ho. pose proof (like_refl s) as Hs. unfold hev_socks5_server_read_auth_user. do 2 bstep; [by bstep|].
  assert (count r = Z.of_nat 2) as Hc by lia. apply b_lift; [intros _; by apply (received_at r 2 0); [|lia]|]. intros ver _.
  bstep; [by bstep|]. apply b_lift; [intros _; by apply (received_at r 2 1); [|lia]|]. intros nlen Hn.
  assert (0 <= nlen < 256) as Hnr by (eapply (read_byte_range 2 r 1); [done | lia | exact Hn]).
  bstep; [by bstep|]. bstep. bstep; [by bstep|].
  assert (count r0 = nlen + 1) as Hc0 by lia.
  apply b_lift; [intros _; replace nlen with (Z.of_nat (Z.to_nat nlen)) by lia; apply (received_at r0 (Z.to_nat (nlen + 1))); lia|].
  intros plen _. bstep; [by bstep|]. bstep. bstep; [by bstep|].
  apply b_lift; [intros _; destruct r0 as [v|]; cbn in Hc0 |- *; [rewrite rd_0 by lia; by eexists | lia]|].
  intros nm _. bstep. rewrite Ho. destruct (hev_socks5_authenticator_get nm) as [u|]; [|by bstep].
  bstep; [by bstep|]. apply b_set; [done|]. by bstep.
Qed.

Lemma b_auth s : unauthorised s -> balanced strict [] [] (stays s) hev_socks5_server_auth s.
Proof.
  intros Hu. unfold hev_socks5_server_auth. eapply b_bind; [apply b_srv_read_auth_method|]. intros m s' [-> Hm].
  eapply (b_bind _ _ _ _ (fun _ s' => s' = s)).
  { unfold hev_socks5_server_write_auth_method. repeat bstep. }
  intros res s' ->. bstep; [apply b_ret, like_refl|]. bstep; [apply b_ret, like_refl|]. bstep; [|apply b_ret, like_refl].
  assert (obj s = OAuth) as Ho by (unfold unauthorised in Hu; destruct (obj s); [by destruct Hm | done | done]).
  eapply b_bind; [by apply b_read_auth_user|]. intros r1 s1 L1. eapply b_bind; [apply b_write_auth_user|]. intros r2 s2 L2.
  bstep; apply b_ret; by eapply like_trans.
Qed.

(** A request that was understood has a command and an address. *)
Definition request_ok (r : Z * (option Z * Z * option sockaddr_in6)) : Prop :=
  let '(res, (cmd, rep, sa)) := r in
  (forall a, sa = Some a -> length (sin6_addr a) = 16%nat) ∧ (0 <= res -> rep = HEV_SOCKS5_RES_REP_SUCC -> is_Some cmd).

Lemma received_length n r k : possible (ERecv n) r -> count r = Z.of_nat k -> length (received r) = k.
Proof. intros _ Hc. destruct r as [v|]; cbn in *; lia. Qed.

Lemma b_read_request s : balanced strict [] [] (fun r s' => like s s' ∧ request_ok r) hev_socks5_server_read_request s.
Proof.
  assert (forall res cmd rep, (0 <= res -> rep ≠ HEV_SOCKS5_RES_REP_SUCC) -> like s s ∧ request_ok (res, (cmd, rep, None))) as Hno.
  { intros res cmd rep Hr. split; [apply like_refl|]. split; [done|]. intros H1' H2'. by destruct (Hr H1'). }
  unfold hev_socks5_server_read_request. do 2 bstep; [apply b_ret, Hno; lia|].
  assert (count r = Z.of_nat 5) as Hc by lia. pose proof (received_length 5 r 5 ltac:(done) Hc) as Hlr.
  apply b_lift; [intros _; by apply (received_at r 5 0); [|lia]|]. intros ver _. bstep; [apply b_ret, Hno; done|].
  apply b_lift; [intros _; by apply (received_at r 5 1); [|lia]|]. intros cmd _.
  apply b_lift; [intros _; by apply (received_at r 5 3); [|lia]|]. intros atyp _.
  apply b_lift; [intros _; by apply (received_at r 5 4); [|lia]|]. intros b Hb.
  assert (0 <= b < 256) as Hbr by (eapply (read_byte_range 5 r 4); [done | lia | exact Hb]).
  match goal with |- context [match ?o with Some _ => _ | None => _ end] =>
    assert (forall n, o = Some n -> 2 <= n <= 257) as Hn by (intros n; repeat case_decide; intros [= <-]; lia);
    destruct o as [n|]; [|apply b_ret, Hno; done] end.
  specialize (Hn n eq_refl). bstep. bstep; [apply b_ret, Hno; done|].
  assert (count r0 = n) as Hc0 by lia. pose proof (received_length n r0 (Z.to_nat n) ltac:(done) ltac:(lia)) as Hl0. bstep.
  match goal with |- context [hev_socks5_addr_into_sockaddr6 ?a ?z ?f] =>
    destruct (addr_into_sockaddr a z f) as (res & sa & fam & -> & Hsa) end.
  - unfold sizeof_addr. simpl length. rewrite length_app, length_replicate. lia.
  - done.
  - intros l [= <-]. lia.
  - apply b_lift; [by eexists|]. intros ? [= <-]. bstep; [apply b_ret, Hno; done|].
    apply b_set; [done|]. apply b_ret. split; [done|]. split; [intros a [= <-]; apply Hsa; lia | by eexists].
Qed.

Lemma b_write_response rep sa s : length (sin6_addr sa) = 16%nat ->
  balanced strict [] [] (stays s) (hev_socks5_server_write_response rep sa) s.
Proof.
  intros Hsa. unfold hev_socks5_server_write_response.
  destruct (addr_from_sockaddr sa Hsa) as (ret & addr & -> & Hret & Hla). unfold sizeof_addr in Hla.
  apply b_lift; [by eexists|]. intros ? [= <-]. apply b_lift.
  { intros _. rewrite rd_bound; [by eexists | lia | lia | rewrite length_app, Hla; cbn; lia]. }
  intros v _. bstep. bstep; apply b_ret, like_refl.
Qed.

Lemma b_connect_server sa s : fd0 s < 0 -> balanced strict [] [] (fun _ _ => True) (hev_socks5_server_connect cfg sa) s.
Proof.
  intros H0'. unfold hev_socks5_server_connect. apply b_socket. intros g. bstep; [rewrite opened_neg by done; by bstep|].
  rewrite opened_pos by done. unfold lift_prog, hev_socks5_bind. cbn [prog_bind].
  eapply (b_bind strict _ [g] _ (fun r s' => r = 0 ∧ s' = s)); [by apply b_ret|]. intros r s' [-> ->].
  rewrite decide_False by lia. apply b_set; [done|]. bstep. bstep; [bstep; apply b_close; intros _; by bstep|].
  apply b_set; [done|]. eapply (b_put strict [g] []); [|by bstep].
  unfold fds, server_fds. cbn. rewrite (opened_neg (fd0 s)), (opened_pos g) by done. done.
Qed.

Lemma b_udp_bind f sa x s : length (sin6_addr sa) = 16%nat ->
  balanced strict x x (fun r s' => s' = s ∧ length (sin6_addr (snd r)) = 16%nat) (hev_socks5_server_udp_bind f sa) s.
Proof.
  intros Hsa. unfold hev_socks5_server_udp_bind. bstep. apply b_call; [done|]. intros r Hr. cbn in Hr.
  bstep; [by apply b_ret|]. bstep. bstep; [by apply b_ret|]. apply b_call; [done|]. intros r1 Hr1. cbn in Hr1.
  bstep; by apply b_ret.
Qed.

Lemma b_server_bind sa s : fd0 s < 0 -> fd1 s < 0 -> (forall a, sa = Some a -> length (sin6_addr a) = 16%nat) ->
  balanced strict [] [] (fun r _ => forall a, snd r = Some a -> length (sin6_addr a) = 16%nat) (hev_socks5_server_bind cfg sa) s.
Proof.
  intros H0' H1' Hsa. unfold hev_socks5_server_bind. apply b_socket. intros g. bstep; [rewrite opened_neg by done; by apply b_ret|].
  rewrite opened_pos by done. eapply (b_put strict [g] []).
  { unfold fds, server_fds. cbn. rewrite (opened_neg (fd0 s)), (opened_pos g) by done. done. }
  destruct sa as [sa|]; [|by apply b_ret]. specialize (Hsa sa eq_refl).
  apply b_socket. intros h. bstep; [rewrite opened_neg by done; apply b_ret; by intros a [= <-]|]. rewrite opened_pos by done. bstep.
  bstep; [bstep; apply b_close; intros _; apply b_ret; by intros a [= <-]|].
  eapply b_bind; [by apply b_udp_bind|]. intros [r1 sa1] s1 [-> Hs1]. cbn in Hs1.
  bstep; [bstep; apply b_close; intros _; apply b_ret; by intros a [= <-]|].
  eapply (b_put strict [h] []); [|apply b_ret; by intros a [= <-]].
  unfold fds, server_fds. cbn. rewrite (opened_neg (fd1 s)), (opened_pos g), (opened_pos h) by done. cbn. apply Permutation_swap.
Qed.

Definition idle (s : HevSocks5Server) : Prop := fd0 s < 0 ∧ fd1 s < 0.

(** What a request leads to may only give the object descriptors. *)
Lemma b_dispatch cmd sa s : idle s -> length (sin6_addr sa) = 16%nat ->
  balanced strict [] [] (fun r _ => length (sin6_addr (snd r)) = 16%nat) (server_dispatch cfg cmd sa) s.
Proof.
  intros [I0 I1] Hsa. unfold server_dispatch.
  case_decide; [|case_decide; [|case_decide; [|by apply b_ret]]].
  - eapply b_bind; [by apply b_connect_server|]. intros res s' _. apply b_set; [done|]. by apply b_ret.
  - eapply b_bind; [apply b_server_bind; [done..|by intros a [= <-]]|]. intros [res sa'] s' Hr. apply b_set; [done|]. apply b_ret.
    destruct sa' as [a|]; [by apply Hr | done].
  - eapply b_bind; [by apply b_server_bind|]. intros [res sa'] s' Hr. apply b_set; [done|]. by apply b_ret.
Qed.

Lemma b_server_handshake stack s : idle s -> unauthorised s -> length (sin6_addr stack) = 16%nat ->
  balanced strict [] [] (fun _ _ => True) (hev_socks5_server_handshake cfg stack) s.
Proof.
  intros [I0 I1] Hu Hst. unfold hev_socks5_server_handshake. apply b_set; [done|].
  eapply b_bind; [by apply b_auth|]. intros res s1 L1. bstep; [by bstep|].
  eapply b_bind; [apply b_read_request|]. intros [res' [[cmd rep] sa]] s2 [L2 [Hsa Hcmd]]. bstep; [by bstep|].
  assert (idle s2) as Hi by (pose proof (like_trans _ _ _ L1 L2) as (E0 & E1 & _); split; [rewrite E0 | rewrite E1]; done).
  assert (length (sin6_addr (default stack sa)) = 16%nat) as Hl by (destruct sa; [by apply Hsa | done]).
  eapply (b_bind _ _ _ _ (fun r _ => length (sin6_addr (snd r)) = 16%nat)).
  - bstep; [|by apply b_ret]. apply b_lift; [intros _; apply Hcmd; lia || done|]. intros c _. by apply b_dispatch.
  - intros [rep' sa'] s3 Hsa'. eapply b_bind; [by apply b_write_response|]. intros r s4 _. bstep; by bstep.
Qed.

Lemma b_server_run stack s : idle s -> unauthorised s -> length (sin6_addr stack) = 16%nat ->
  balanced strict [] [] (fun _ _ => True) (hev_socks5_server_run cfg stack) s.
Proof.
  intros Hi Hu Hst. unfold hev_socks5_server_run. bstep. bstep.
  eapply (b_bind _ _ _ _ (fun _ s' => s' = s)); [bstep; [bstep; by bstep | by bstep]|]. intros _ s' ->.
  eapply b_bind; [by apply b_server_handshake|]. intros res s1 _. bstep; [by bstep|].
  eapply (b_bind _ _ _ _ (fun _ _ => True)).
  - unfold hev_socks5_server_service. do 2 bstep. destruct (type (sbase s1)); try by bstep.
    + apply b_set; [done|]. by bstep.
    + apply b_set; [done|]. by bstep.
  - intros r2 s2 _. bstep; by bstep.
Qed.
End ServerBalanced.

(** ** The end *)

(** What the task system's copying promises: it opens and closes nothing. *)
Class SpliceOk (splice : Z -> Z -> prog unit) : Prop :=
  splice_quiet strict a b tr Q : (forall tr', Forall quiet tr' -> Q (tr ++ tr') tt) -> wpp strict (splice a b) tr Q.

(** So does the UDP relay. *)
Class RelayOk `{Authenticator} (udp : Z -> proc HevSocks5Server Z) : Prop :=
  relay_balanced strict f s : balanced strict [] [] (fun _ _ => True) (udp f) s.

Lemma tcp_splicer_quiet splice `{!SpliceOk splice} strict b f tr Q :
  (forall tr' r, Forall quiet tr' -> Q (tr ++ tr') r) -> wpp strict (hev_socks5_tcp_splicer splice b f) tr Q.
Proof.
  intros HQ. unfold hev_socks5_tcp_splicer. case_decide.
  { specialize (HQ [] (-1)). rewrite app_nil_r in HQ. by apply HQ. }
  cbn [wpp]. intros res _. apply wpp_prog_bind.
  assert (forall q, Forall quiet q -> wpp strict (prog_bind (splice (fd b) f) (fun _ => Ret 0)) (tr ++ q) Q) as Hend.
  { intros q Hq. apply wpp_prog_bind, splice_quiet. intros tr' Hq'. cbn. rewrite <- app_assoc. apply HQ. by apply Forall_app. }
  case_decide; cbn [wpp].
  - intros r _. rewrite <- app_assoc. apply Hend. repeat (apply Forall_cons; split; [exact I|]). constructor.
  - apply Hend. by apply Forall_singleton.
Qed.

Lemma b_relay `{Authenticator} splice `{!SpliceOk splice} udp `{!RelayOk udp} strict sv s :
  balanced strict [] [] (fun _ _ => True) (relay splice udp sv) s.
Proof.
  destruct sv as [f|f]; [|exact (relay_balanced strict f s)]. intros tr Q HQ. cbn [relay]. apply wpp_prog_bind.
  apply tcp_splicer_quiet; [done|]. intros tr' r Hq. cbn. by apply HQ; [apply fd_effect_refl|].
Qed.

Lemma wpp_close_if_open strict f tr (Q : list entry -> unit -> Prop) l :
  (forall tr', fd_effect tr' (opened f ++ l) l -> Q (tr ++ tr') tt) -> wpp strict (close_if_open f) tr Q.
Proof.
  intros HQ. unfold close_if_open. case_decide as Hf; cbn [wpp].
  - intros r1 _ r2 _. rewrite <- app_assoc. apply HQ. rewrite opened_pos by lia.
    eapply (fd_effect_trans [_] [_]); [apply fd_effect_refl; by apply Forall_singleton | apply fd_effect_close].
  - specialize (HQ []). rewrite app_nil_r in HQ. apply HQ. rewrite opened_neg by lia. by apply fd_effect_refl.
Qed.

Lemma wpp_server_destruct `{Authenticator} strict s tr Q :
  (forall tr', fd_effect tr' (fds s) [] -> Q (tr ++ tr') tt) -> wpp strict (hev_socks5_server_destruct s) tr Q.
Proof.
  intros HQ. unfold hev_socks5_server_destruct. unfold fds, server_fds in HQ.
  apply wpp_prog_bind, (wpp_close_if_open _ _ _ _ (opened (fd1 s) ++ opened (fd (sbase s)))). intros tr1 E1.
  apply wpp_prog_bind, (wpp_close_if_open _ _ _ _ (opened (fd (sbase s)))). intros tr2 E2.
  apply (wpp_close_if_open strict (fd (sbase s)) _ _ []). intros tr3 E3. rewrite app_nil_r in E3.
  rewrite <- !app_assoc. apply HQ. eapply fd_effect_trans; [exact E1|]. by eapply fd_effect_trans.
Qed.

(** An object as [hev_socks5_server_new] leaves it, with or without an authenticator. *)
Definition fresh_server `{Authenticator} (f : Z) (s : HevSocks5Server) : Prop :=
  fd (sbase s) = f ∧ 0 <= f ∧ idle s ∧ unauthorised s.

Lemma wpp_server_life `{ResolverOk} `{Authenticator} cfg splice `{!SpliceOk splice} udp `{!RelayOk udp} strict f stack s :
  fresh_server f s -> length (sin6_addr stack) = 16%nat ->
  wpp strict (server_life cfg splice udp stack s) [] (fun tr _ => fd_fold tr [f] = Some []).
Proof.
  intros (Hf & Hp & Hi & Hu) Hst. unfold server_life. apply wpp_prog_bind.
  apply (b_server_run cfg strict stack s Hi Hu Hst). intros tr1 [res sv] s1 E1 _. cbn [fst snd]. apply wpp_prog_bind.
  assert (forall tr2 r s2, fd_effect tr2 (fds s1) (fds s2) ->
    wpp strict (hev_socks5_server_destruct (snd (r : Z, s2))) ([] ++ tr1 ++ tr2) (fun tr _ => fd_fold tr [f] = Some [])) as Hend.
  { intros tr2 r s2 E2. apply wpp_server_destruct. intros tr3 E3. cbn [app] in *.
    assert (fd_effect ((tr1 ++ tr2) ++ tr3) [f] []) as Htot.
    { eapply fd_effect_trans; [|exact E3]. eapply fd_effect_trans; [|exact E2]. intros k Hk. apply E1. unfold fds, server_fds.
      destruct Hi as [I0 I1]. by rewrite (opened_neg (fd0 s)), (opened_neg (fd1 s)), Hf, (opened_pos f) by lia. }
    destruct (Htot [f] (reflexivity _)) as (k' & Hk' & Hk). apply Permutation_nil_r in Hk. by subst. }
  destruct sv as [sv|].
  - apply (b_relay splice udp strict sv s1). intros tr2 r s2 E2 _. rewrite <- app_assoc. by apply Hend.
  - specialize (Hend [] 0 s1). rewrite app_nil_r in Hend. apply Hend. by apply fd_effect_refl.
Qed.

(** ** Properties *)


(** ** A connection *)

Definition no_splice (a b : Z) : prog unit := Ret tt.
Definition no_relay `{Authenticator} (f : Z) : proc HevSocks5Server Z := mret 0.

#[export] Instance no_splice_ok : SpliceOk no_splice.
Proof. intros strict a b tr Q HQ. specialize (HQ []). rewrite app_nil_r in HQ. by apply HQ. Qed.
#[export] Instance no_relay_ok `{Authenticator} : RelayOk no_relay.
Proof. intros strict f s. by apply b_ret. Qed.

#[local] Instance nobody : Authenticator := {|
  user := unit; hev_socks5_authenticator_get := fun _ => None; hev_socks5_user_check := fun _ _ => -1 |}.


End Socks5ServerLife.
