(* ===== verification/SessionTCPLife.v ===== *)
(** * The life of a TCP session: src/hev-socks5-session-tcp.c

    A session and a connection of the network stack refer to each other: the connection has
    the session as the argument of its callbacks, the session has the connection.  Either
    may go first.  The file models the constructor, the destructor and what the stack
    promises about its callbacks, around the copying of SessionTCP. *)

From S2P Require Import Prelude Socks5Addr Socks5Io Socks5Client RingBuffer SessionTCP.

Module SessionTCPLife.
Import Socks5Addr RingBuffer SessionTCP.

(** ** State *)

(** A connection of the stack: whether it is there, the argument of its callbacks, and which
    of the three callbacks are set. *)
Record tcp_pcb := mk_pcb {
  there : bool; arg : ptr; recv : bool; sent : bool; err : bool; local_ip : ip_addr; local_port : Z }.

(** An object: what it has from the client's class, and what the copying works on.  Its
    timeout is the one of [ses]. *)
Record object := mk_object { client : Socks5Client.HevSocks5Client; ses : world }.

(** The connection, the objects, the buffers that were freed, the calls of the system that the
    constructors and destructors of the parent classes made, the last state of a session
    that is gone, and how often the connection was aborted. *)
Record stack := mk_stack {
  conn : tcp_pcb; objects : gmap loc object; dropped : list bytes; calls : list Socks5Io.event;
  past : option world; aborts : nat }.

Definition set_conn v t := mk_stack v (objects t) (dropped t) (calls t) (past t) (aborts t).
Definition set_objects v t := mk_stack (conn t) v (dropped t) (calls t) (past t) (aborts t).
Definition drop_pbufs v t := mk_stack (conn t) (objects t) (dropped t ++ v) (calls t) (past t) (aborts t).
Definition add_calls v t := mk_stack (conn t) (objects t) (dropped t) (calls t ++ v) (past t) (aborts t).
Definition set_past v t := mk_stack (conn t) (objects t) (dropped t) (calls t) v (aborts t).
Definition set_there b c := mk_pcb b (arg c) (recv c) (sent c) (err c) (local_ip c) (local_port c).
Definition set_arg v c := mk_pcb (there c) v (recv c) (sent c) (err c) (local_ip c) (local_port c).
Definition set_recv v c := mk_pcb (there c) (arg c) v (sent c) (err c) (local_ip c) (local_port c).
Definition set_sent v c := mk_pcb (there c) (arg c) (recv c) v (err c) (local_ip c) (local_port c).
Definition set_err v c := mk_pcb (there c) (arg c) (recv c) (sent c) v (local_ip c) (local_port c).

Definition upd (f : stack -> stack) : M stack unit := mput (fun t => Some (f t)).
Definition get {A} (f : stack -> A) : M stack A := mget (fun t => Some (f t)).
Definition object_at (l : loc) : M stack object := mget (fun t => objects t !! l).
Definition put_object (l : loc) (o : object) : M stack unit :=
  mput (fun t => if decide (is_Some (objects t !! l)) then Some (set_objects (<[ l := o ]> (objects t)) t) else None).

(** A callback: its argument must be an object. *)
Definition on_session {A} (p : ptr) (m : M world A) : M stack A := fun t =>
  l ← p;
  o ← objects t !! l;
  '(a, w) ← m (ses o);
  Some (a, set_objects (<[ l := mk_object (client o) w ]> (objects t)) t).

(** ** What the stack offers *)

(** A call on a connection that is gone is an error. *)
Definition on_pcb (f : tcp_pcb -> tcp_pcb) : M stack unit :=
  mput (fun t => if there (conn t) then Some (set_conn (f (conn t)) t) else None).

(** The connection is freed, then its error callback is called. *)
Definition tcp_abort : M stack unit :=
  on_pcb (set_there false);;
  upd (fun t => mk_stack (conn t) (objects t) (dropped t) (calls t) (past t) (S (aborts t)));;
  c ← get conn;
  mwhen (err c) (on_session (arg c) tcp_err_handler).

(** A callback that is not set: data is freed. *)
Definition stack_event (e : event) : M stack unit :=
  c ← get conn;
  if negb (there c) then mfail else
  match e with
  | EvRecv p =>
      if recv c then on_session (arg c) (tcp_recv_handler p);; mret tt
      else match p with Some p => upd (drop_pbufs p) | None => mret tt end
  | EvSent n => mwhen (sent c) (on_session (arg c) (tcp_sent_handler n);; mret tt)
  | EvErr => on_pcb (set_there false);; mwhen (err c) (on_session (arg c) tcp_err_handler)
  end.

(** ** The parent classes *)

(** A program of Socks5Io whose calls are answered by [ans]. *)
Fixpoint answered {A} (ans : forall e, Socks5Io.answer e) (p : Socks5Io.prog A) : option (A * list Socks5Io.event) :=
  match p with
  | Socks5Io.Ret a => Some (a, [])
  | Socks5Io.Crash => None
  | Socks5Io.Do e k => '(a, l) ← answered ans (k (ans e)); Some (a, e :: l)
  end.

Definition run_prog {A} (ans : forall e, Socks5Io.answer e) (p : Socks5Io.prog A) : M stack A := fun t =>
  '(a, l) ← answered ans p; Some (a, add_calls l t).

(** ** Construction and destruction *)

Section Session.
(** The lookup of the mapped DNS, when there is one; the answers of the system. *)
Context (dns : option (Z -> option bytes)) (ans : forall e, Socks5Io.answer e).

Definition lookup_dns : option (Z -> M stack (option bytes)) :=
  match dns with Some f => Some (fun ip => mret (f ip)) | None => None end.

(** The zeroed memory of an object. *)
Definition zeroed : object :=
  mk_object (Socks5Client.mk_client (Socks5Io.mk_socks5 0 0 0 Socks5Io.HEV_SOCKS5_TYPE_NONE HEV_SOCKS5_ADDR_FAMILY_IPV4)
               None None (Socks5Client.ClientTCP None))
    (mk_world (mk_session false false [] (mk_rb 0 0 0 0 0 []) 0) [] [] 0 [] [] 0 false false).

(** [addr]: what the local structure holds before it is set. *)
Definition hev_socks5_session_tcp_construct (self : loc) (addr : bytes) : M stack Z :=
  pcb ← get conn;
  '(res, addr) ← hev_socks5_addr_from_lwip lookup_dns addr (local_ip pcb) (local_port pcb);
  if decide (res < 0) then mret (-1) else
  c ← run_prog ans (Socks5Client.hev_socks5_client_tcp_construct addr);
  match c with
  | None => mret (-1)
  | Some c =>
      on_pcb (set_arg (Some self));;
      on_pcb (set_recv true);;
      on_pcb (set_sent true);;
      on_pcb (set_err true);;
      put_object self (mk_object c
        (mk_world (mk_session true false [] (mk_rb 0 0 0 0 0 []) (Socks5Io.timeout (Socks5Client.base c))) [] [] 0 [] [] 0 false false));;
      mret 0
  end.

(** [mem]: the memory of the new object, if there is any. *)
Definition hev_socks5_session_tcp_new (mem : ptr) (addr : bytes) : M stack ptr :=
  match mem with
  | None => mret None
  | Some self =>
      mput (fun t => if decide (objects t !! self = None) then Some (set_objects (<[ self := zeroed ]> (objects t)) t) else None);;
      res ← hev_socks5_session_tcp_construct self addr;
      if decide (res < 0) then upd (fun t => set_objects (delete self (objects t)) t);; mret None
      else mret (Some self)
  end.

(** [if (self->queue) pbuf_free (self->queue)] *)
Definition free_queue (q : list bytes) : M stack unit := upd (drop_pbufs q).

(** The mutex is free.  The destructor of the base class frees the memory. *)
Definition hev_socks5_session_tcp_destruct (l : loc) : M stack unit :=
  o ← object_at l;
  mwhen (pcb (self (ses o)))
    (on_pcb (set_recv false);;
     on_pcb (set_sent false);;
     on_pcb (set_err false);;
     tcp_abort);;
  o ← object_at l;
  free_queue (queue (self (ses o)));;
  run_prog ans (Socks5Client.hev_socks5_client_destruct (client o));;
  upd (fun t => set_past (Some (ses o)) (set_objects (delete l (objects t)) t)).

(** ** A life *)

(** A step of the stack, or of the session's task between two points where it yields. *)
Inductive label :=
  | Event (e : event) | Alloca (size : Z) (mem : bytes) | Forward (r : write_res) | Backward (r : read_res) (errs : list Z).

Definition do_label (s : loc) (x : label) : M stack unit :=
  match x with
  | Event e => stack_event e
  | Alloca size mem => on_session (Some s) (SessionTCP.upd (set_buffer (hev_ring_buffer_alloca size mem)))
  | Forward r => on_session (Some s) (tcp_splice_f r);; mret tt
  | Backward r errs => on_session (Some s) (tcp_splice_b r errs);; mret tt
  end.

Fixpoint do_labels (s : loc) (ls : list label) : M stack unit :=
  match ls with [] => mret tt | x :: ls => do_label s x;; do_labels s ls end.

(** From the stack's accept to the end of the session. *)
Definition life (mem : ptr) (addr : bytes) (ls : list label) : M stack ptr :=
  s ← hev_socks5_session_tcp_new mem addr;
  match s with
  | None => mret None
  | Some s => do_labels s ls;; hev_socks5_session_tcp_destruct s;; mret (Some s)
  end.
End Session.

End SessionTCPLife.
