(* ===== verification/SessionTCPLifeProofs.v ===== *)
(** * The life of a TCP session: proofs *)

From S2P Require Import Prelude Socks5Addr Socks5Io Socks5Client RingBuffer SessionTCP SessionTCPProofs SessionTCPLife.

Module SessionTCPLifeProofs.
Import Socks5Addr RingBuffer SessionTCP SessionTCPProofs SessionTCPLife.

(** ** What becomes of the connection *)

(** The copying leaves the connection alone; of the handlers only the one for errors drops
    it. *)
Lemma wp_both {A} (m : M world A) w (P Q : A -> world -> Prop) : wp m w P -> wp m w Q -> wp m w (fun a w' => P a w' ∧ Q a w').
Proof. unfold wp. by destruct (m w) as [[]|]. Qed.

Ltac step_get := apply wp_bind; eapply (wp_get (fun w => Some (self w))); [done|]; cbn beta iota.
Ltac step_upd := apply wp_bind; eapply wp_intro; [done|]; cbn beta iota.

Lemma wp_splice_f_pcb r w : wp (tcp_splice_f r) w (fun _ w' => pcb (self w') = pcb (self w)).
Proof.
  unfold tcp_splice_f. step_get. destruct (is_nil (take 64 (queue (self w)))); cbn [negb].
  - case_decide; [step_upd|]; by apply wp_ret.
  - destruct r as [n| |]; [|by apply wp_ret..]. step_upd. step_upd. unfold mwhen.
    destruct (pcb (self w)) eqn:Hp; step_upd; apply wp_ret; cbn; by rewrite Hp.
Qed.

Lemma wp_handle_event_pcb e w : wp (handle_event e) w (fun _ w' =>
  pcb (self w') = match e with EvErr => false | _ => pcb (self w) end).
Proof.
  destruct e as [[p|]|n|]; cbn [handle_event].
  - apply wp_bind. unfold tcp_recv_handler. step_get.
    destruct (is_nil (queue (self w))); [do 2 step_upd; by apply wp_ret|].
    case_decide; [by apply wp_ret|]. do 2 step_upd. by apply wp_ret.
  - apply wp_bind. unfold tcp_recv_handler. step_get. step_upd. by apply wp_ret.
  - apply wp_bind. unfold tcp_sent_handler. step_get. do 2 step_upd. by apply wp_ret.
  - by eapply wp_intro.
Qed.

(** ** Before the copying starts *)

(** The stack may have delivered data. *)
Record waiting (w : world) : Prop := {
  wt_from : from_stack w = concat (queue (self w)); wt_wnd : Z.of_nat (length (concat (queue (self w)))) <= TCP_WND;
  wt_sock : to_sock w = [] ∧ recved w = 0 ∧ from_sock w = []; wt_stack : to_stack w = [] ∧ acked w = 0;
  wt_shut : sock_shut w = false ∧ stack_shut w = false }.

Lemma wp_waiting_event e w : waiting w -> valid_event e w -> (forall n, e = EvSent n -> 0 < n) ->
  wp (handle_event e) w (fun _ w' => waiting w').
Proof.
  intros [H1 H2 H3 [H4 H5] H6] Hv Hs. destruct e as [[p|]|n|]; cbn [handle_event].
  - destruct Hv as (_ & _ & Hwnd). apply wp_bind. unfold tcp_recv_handler. step_get.
    destruct (queue (self w)) as [|b q] eqn:Hq; cbn [is_nil].
    + do 2 step_upd. do 2 apply wp_ret. split; cbn; try done. by rewrite H1.
    + case_decide; [by apply wp_ret, wp_ret; split; rewrite ?Hq|]. do 2 step_upd. do 2 apply wp_ret.
      rewrite <- Hq in *. split; cbn [SessionTCP.self SessionTCP.queue SessionTCP.from_stack set_queue]; rewrite ?concat_app; try done.
      by rewrite H1.
  - apply wp_bind. unfold tcp_recv_handler. step_get. step_upd. by apply wp_ret, wp_ret.
  - destruct Hv as [_ Hv]. specialize (Hs n eq_refl). rewrite H4, H5 in Hv. simpl in Hv. lia.
  - by eapply wp_intro.
Qed.

Lemma waiting_buffer size mem w : waiting w -> 0 < size <= TCP_SND_BUF -> Z.of_nat (length mem) = size ->
  wok (with_buffer (hev_ring_buffer_alloca size mem) w).
Proof.
  intros [H1 H2 (H3 & H4 & H5) [H6 H7] [H8 H9]] Hs Hm. exists [], [].
  split; simpl; try congruence; rewrite ?H3, ?H4, ?H5, ?H6, ?H7; try done.
  - apply alloca_repr; [lia|done].
  - lia.
  - by exists [].
Qed.

(** ** A session and its connection *)

Section Alive.
Context (t0 : stack) (s : loc) (c : Socks5Client.HevSocks5Client) (Hfresh : objects t0 !! s = None).

(** The session is at [s], on top of [t0]. *)
Definition with_session (cn : tcp_pcb) (w : world) : stack :=
  mk_stack cn (<[ s := mk_object c w ]> (objects t0)) (dropped t0) (calls t0) (past t0) (aborts t0).

(** The two sides agree: the session has its connection exactly as long as that is there,
    and then the callbacks lead to the session. *)
Record agree (cn : tcp_pcb) (w : world) : Prop := {
  ag_there : there cn = pcb (self w);
  ag_callbacks : there cn = true -> arg cn = Some s ∧ recv cn = true ∧ sent cn = true ∧ err cn = true }.

Inductive alive (b : bool) (t : stack) : Prop :=
  alive_intro cn w : t = with_session cn w -> agree cn w -> (if b then wok w else waiting w) -> alive b t.

Lemma wp_on_session {A} (m : M world A) cn w (Q : A -> stack -> Prop) :
  wp m w (fun a w' => Q a (with_session cn w')) -> wp (on_session (Some s) m) (with_session cn w) Q.
Proof.
  unfold wp, on_session. cbn. rewrite lookup_insert_eq. cbn. destruct (m w) as [[a w']|]; [|done]. cbn.
  unfold set_objects, with_session. cbn. by rewrite insert_insert_eq.
Qed.

(** What the stack and the system may do next. *)
Definition possible (b : bool) (x : label) (t : stack) : Prop := forall o, objects t !! s = Some o ->
  match x with
  | Event e => there (conn t) = true ∧ valid_event e (ses o) ∧ (forall n, e = EvSent n -> 0 < n)
  | Alloca size mem => b = false ∧ 0 < size <= TCP_SND_BUF ∧ Z.of_nat (length mem) = size
  | Forward r => b = true ∧ valid_write r (ses o)
  | Backward r errs => b = true ∧ stack_shut (ses o) = false ∧ valid_read r (ses o) ∧ (3 <= length errs)%nat
  end.
Definition buffered (b : bool) (x : label) : bool := match x with Alloca _ _ => true | _ => b end.

(** An event goes to the session. *)
Lemma stack_event_alive e cn w (Q : unit -> stack -> Prop) : agree cn w -> there cn = true ->
  wp (handle_event e) w (fun _ w' => Q tt (with_session (match e with EvErr => set_there false cn | _ => cn end) w')) ->
  wp (stack_event e) (with_session cn w) Q.
Proof.
  intros [_ Hc] Hth HQ. destruct (Hc Hth) as (Ha & Hr & Hs & He). unfold stack_event. apply wp_bind.
  eapply wp_get; [done|]. cbn [conn with_session]. rewrite Hth. cbn [negb]. destruct e as [p|n|].
  - rewrite Hr, Ha. apply wp_bind, wp_on_session. unfold wp in *. cbn [handle_event] in HQ. unfold mbind, M_bind in HQ.
    by destruct (tcp_recv_handler p w) as [[]|].
  - rewrite Hs, Ha. unfold mwhen. apply wp_bind, wp_on_session. unfold wp in *. cbn [handle_event] in HQ. unfold mbind, M_bind in HQ.
    by destruct (tcp_sent_handler n w) as [[]|].
  - apply wp_bind. eapply wp_put; [cbn; by rewrite Hth|]. rewrite He, Ha. unfold mwhen.
    apply (wp_on_session tcp_err_handler (set_there false cn) w). exact HQ.
Qed.

Lemma wp_do_label b x t : alive b t -> possible b x t -> wp (do_label s x) t (fun _ t' => alive (buffered b x) t').
Proof.
  intros [cn w -> Hag Hw] Hp. specialize (Hp (mk_object c w)). cbn [objects with_session] in Hp.
  rewrite lookup_insert_eq in Hp. specialize (Hp eq_refl). destruct x as [e|size mem|r|r errs]; cbn [do_label buffered].
  - destruct Hp as (Hth & Hv & Hs). cbn in Hth. apply stack_event_alive; [done..|].
    assert (wp (handle_event e) w (fun _ w' => if b then wok w' else waiting w')) as H1.
    { destruct b; [|by apply wp_waiting_event]. eapply wp_mono; [by apply wp_handle_event|]. by intros _ w' [? _]. }
    eapply wp_mono; [exact (wp_both _ _ _ _ H1 (wp_handle_event_pcb e w))|]. intros _ w' [Hw' Hpcb].
    eapply alive_intro; [reflexivity | | exact Hw']. destruct Hag as [A1 A2]. destruct e; (split; [|done]); cbn; congruence.
  - destruct Hp as (-> & Hs & Hm). apply wp_on_session. eapply wp_intro; [done|].
    eapply alive_intro; [reflexivity | by destruct Hag; split | by apply waiting_buffer].
  - destruct Hp as (-> & Hv). apply wp_bind, wp_on_session. destruct Hw as (u & p & Hi).
    eapply wp_mono; [exact (wp_both _ _ _ _ (wp_splice_f r w u p Hi Hv) (wp_splice_f_pcb r w))|].
    intros a w' [(Hi' & _) Hpcb]. apply wp_ret. eapply alive_intro; [reflexivity | | by exists u, p].
    destruct Hag as [A1 A2]. split; [congruence | done].
  - destruct Hp as (-> & Hsh & Hv & He). apply wp_bind, wp_on_session.
    eapply wp_mono; [exact (wp_splice_b r errs w Hw Hsh Hv He)|].
    intros a w' (Hi' & _ & _ & Hpcb & _). apply wp_ret. eapply alive_intro; [reflexivity | | done].
    destruct Hag as [A1 A2]. split; [congruence | done].
Qed.

(** Every step of a life is possible in the state it meets. *)
Fixpoint valid_life (b : bool) (ls : list label) (t : stack) : Prop :=
  match ls with
  | [] => True
  | x :: ls => possible b x t ∧ forall t', do_label s x t = Some (tt, t') -> valid_life (buffered b x) ls t'
  end.

Lemma wp_do_labels ls : forall b t, alive b t -> valid_life b ls t -> wp (do_labels s ls) t (fun _ t' => exists b', alive b' t').
Proof.
  induction ls as [|x ls IH]; intros b t Ht Hv; cbn [do_labels]; [by apply wp_ret; exists b|].
  destruct Hv as [Hp Hv]. apply wp_bind. destruct (wp_elim _ _ _ (wp_do_label b x t Ht Hp)) as ([] & t1 & Hx & Ht1).
  eapply wp_intro; [exact Hx|]. eapply IH; [exact Ht1 | by apply Hv].
Qed.

(** ** The end *)

Lemma wp_destruct_alive ans b t (Q : unit -> stack -> Prop) : alive b t ->
  (forall w l, answered ans (Socks5Client.hev_socks5_client_destruct c) = Some (tt, l) ->
     from_stack w = to_sock w ++ concat (queue (self w)) ->
     forall cn, there cn = false ->
     Q tt (mk_stack cn (objects t0) (dropped t0 ++ queue (self w)) (calls t0 ++ l) (Some w)
             (aborts t0 + if pcb (self w) then 1 else 0))) ->
  is_Some (answered ans (Socks5Client.hev_socks5_client_destruct c)) ->
  wp (hev_socks5_session_tcp_destruct ans s) t Q.
Proof.
  intros [cn w -> [A1 A2] Hw] HQ [[[] l] Hl]. unfold hev_socks5_session_tcp_destruct.
  assert (from_stack w = to_sock w ++ concat (queue (self w))) as Hup.
  { destruct b; [destruct Hw as (u & p & Hi); exact (wi_up _ _ _ Hi)|]. destruct Hw as [H1 _ (H2 & _) _ _]. by rewrite H1, H2. }
  assert (forall cn' n, there cn' = false -> n = (aborts t0 + if pcb (self w) then 1 else 0)%nat ->
    wp (o ← object_at s; free_queue (queue (self (ses o)));; run_prog ans (Socks5Client.hev_socks5_client_destruct (client o));;
        upd (fun t => set_past (Some (ses o)) (set_objects (delete s (objects t)) t)))
      (mk_stack cn' (<[ s := mk_object c w ]> (objects t0)) (dropped t0) (calls t0) (past t0) n) Q) as Hend.
  { intros cn' n Hth ->. apply wp_bind. eapply wp_get; [cbn; apply lookup_insert_eq|]. cbn [ses client].
    apply wp_bind. eapply wp_put; [done|]. apply wp_bind. eapply wp_intro; [unfold run_prog; by rewrite Hl|].
    eapply wp_put; [done|]. unfold set_past, set_objects, add_calls, drop_pbufs. cbn. rewrite delete_insert_id by done. by apply HQ. }
  apply wp_bind. eapply wp_get; [cbn; apply lookup_insert_eq|]. cbn [ses]. apply wp_bind.
  destruct (pcb (self w)); unfold mwhen.
  - apply wp_bind. eapply wp_put; [cbn; by rewrite A1|]. apply wp_bind. eapply wp_put; [cbn; by rewrite A1|].
    apply wp_bind. eapply wp_put; [cbn; by rewrite A1|]. unfold tcp_abort. apply wp_bind. eapply wp_put; [cbn; by rewrite A1|].
    apply wp_bind. eapply wp_put; [done|]. apply wp_bind. eapply wp_get; [done|]. cbn. apply wp_ret.
    apply Hend; [done | lia].
  - apply wp_ret. apply Hend; [by rewrite A1 | lia].
Qed.
End Alive.

(** ** The beginning *)

Section Begin.
Context (dns : option (Z -> option bytes)) (ans : forall e, Socks5Io.answer e).

(** The name the mapped DNS has for an address. *)
Definition mapped_name (ip : ip_addr) : option bytes :=
  match dns with Some f => f (s32 (ip4_host (take 4 (ip_bytes ip)))) | None => None end.

(** The destination the proxy is asked for, and how many bytes it takes. *)
Definition destination_of (cn : tcp_pcb) : address := lwip_address (local_ip cn) (mapped_name (local_ip cn)) (local_port cn).
Definition copy_size (cn : tcp_pcb) : Z := Z.of_nat (length (encode (destination_of cn))).

Definition client_of (cn : tcp_pcb) : Socks5Client.HevSocks5Client :=
  Socks5Client.hev_socks5_client_construct Socks5Io.HEV_SOCKS5_TYPE_TCP (Socks5Client.ClientTCP (Some (encode (destination_of cn)))).

(** What the constructor is given. *)
Record given (addr : bytes) (cn : tcp_pcb) : Prop := {
  gv_addr : length addr = sizeof_addr; gv_ip : ip_ok (local_ip cn); gv_port : is_u16 (local_port cn);
  gv_name : forall n, mapped_name (local_ip cn) = Some n -> cstr_ok n ∧ (0 < length n <= 255)%nat }.

Lemma client_construct_ok addr a : holds_address addr a -> address_ok a ->
  answered ans (Socks5Client.hev_socks5_client_tcp_construct addr)
  = Some (if ans (Socks5Io.EMalloc (Z.of_nat (length (encode a)))) : bool then
            Some (Socks5Client.hev_socks5_client_construct Socks5Io.HEV_SOCKS5_TYPE_TCP (Socks5Client.ClientTCP (Some (encode a))))
          else None, [Socks5Io.EMalloc (Z.of_nat (length (encode a)))]).
Proof.
  intros (_ & rest & ->) Ha. unfold Socks5Client.hev_socks5_client_tcp_construct.
  assert (hev_socks5_addr_len (encode a ++ rest) = Some (Z.of_nat (length (encode a)))) as ->
    by (rewrite (encode_length a Ha); by destruct a). cbn [answered].
  destruct (ans (Socks5Io.EMalloc _)); [|done]. rewrite (rd_app [] (encode a) rest) by done. done.
Qed.

Definition callbacks_to (s : loc) (cn : tcp_pcb) : tcp_pcb := mk_pcb (there cn) (Some s) true true true (local_ip cn) (local_port cn).

(** The session as its constructor leaves it. *)
Definition new_session : world := mk_world (mk_session true false [] (mk_rb 0 0 0 0 0 []) (-1)) [] [] 0 [] [] 0 false false.

Lemma wp_session_new s addr t (Q : ptr -> stack -> Prop) :
  objects t !! s = None -> there (conn t) = true -> given addr (conn t) ->
  let copy := Socks5Io.EMalloc (copy_size (conn t)) in
  let t1 := add_calls [copy] t in
  (ans copy = false -> Q None t1) ->
  (ans copy = true -> Q (Some s) (with_session t1 s (client_of (conn t)) (callbacks_to s (conn t)) new_session)) ->
  wp (hev_socks5_session_tcp_new dns ans (Some s) addr) t Q.
Proof.
  intros Hs Hth [Ha Hip Hp Hn] copy t1 Hfail Hok. unfold hev_socks5_session_tcp_new. apply wp_bind.
  eapply wp_put; [by rewrite decide_True|]. set (t2 := set_objects _ t). apply wp_bind.
  unfold hev_socks5_session_tcp_construct. apply wp_bind. eapply wp_get; [done|]. change (conn t2) with (conn t).
  destruct (from_lwip_holds (lookup_dns dns) t2 t2 addr (local_ip (conn t)) (local_port (conn t)) (mapped_name (local_ip (conn t)))
    Ha Hip Hp) as (addr' & Hf & Hh & Hok'); [unfold lookup_dns, mapped_name; by destruct dns | done |].
  apply wp_bind. eapply wp_intro; [exact Hf|]. cbn beta iota.
  match goal with |- context [if ?d then t2 else t2] => replace (if d then t2 else t2) with t2 by by destruct d end.
  rewrite decide_False by lia. apply wp_bind.
  eapply wp_intro; [unfold run_prog; by rewrite (client_construct_ok addr' _ Hh Hok')|]. cbn beta iota.
  fold (destination_of (conn t)). fold (copy_size (conn t)). fold copy. destruct (ans copy) eqn:Hans.
  - apply wp_bind. eapply wp_put; [cbn; by rewrite Hth|]. apply wp_bind. eapply wp_put; [cbn; by rewrite Hth|].
    apply wp_bind. eapply wp_put; [cbn; by rewrite Hth|]. apply wp_bind. eapply wp_put; [cbn; by rewrite Hth|].
    apply wp_bind. eapply wp_put; [cbn; rewrite lookup_insert_eq; by rewrite decide_True by eauto|].
    apply wp_ret. rewrite decide_False by lia. apply wp_ret. specialize (Hok eq_refl).
    unfold with_session, set_objects, set_conn, add_calls, t1 in *. cbn in *. by rewrite insert_insert_eq.
  - apply wp_ret. rewrite decide_True by lia. apply wp_bind. eapply wp_put; [done|]. apply wp_ret.
    specialize (Hfail eq_refl). unfold t1, t2, set_objects, add_calls in *. cbn in *. by rewrite delete_insert_id.
Qed.
End Begin.

Lemma client_destruct_ok dns ans cn : answered ans (Socks5Client.hev_socks5_client_destruct (client_of dns cn)) = Some (tt, [Socks5Io.EFree]).
Proof. reflexivity. Qed.

Lemma new_alive t cn s c : there cn = true -> alive t s c false (with_session t s c (callbacks_to s cn) new_session).
Proof.
  intros Hth. eapply alive_intro; [reflexivity | by split |]. split; cbn; try done.
Qed.

(** ** Properties *)


(** When the task of a new session cannot be made, the handler for new connections drops the
    session, whose destructor aborts the connection, and returns ERR_MEM; a connection whose
    handler returns an error other than ERR_ABRT is aborted by the stack, a second time. *)
Theorem accept_aborts_twice dns (ans : forall e, Socks5Io.answer e) s addr t :
  objects t !! s = None -> there (conn t) = true -> given dns addr (conn t) ->
  ans (Socks5Io.EMalloc (copy_size dns (conn t))) = true ->
  exists r t', life dns ans (Some s) addr [] t = Some (r, t') ∧ aborts t' = S (aborts t) ∧ tcp_abort t' = None.
Proof.
  intros Hs Hth Hg Hans. unfold life.
  assert (wp (r ← hev_socks5_session_tcp_new dns ans (Some s) addr;
      match r with None => mret None | Some s => do_labels s [];; hev_socks5_session_tcp_destruct ans s;; mret (Some s) end) t
    (fun _ t' => aborts t' = S (aborts t) ∧ tcp_abort t' = None)) as Hwp.
  { apply wp_bind. apply wp_session_new; [done | done | done | congruence |]. intros _. apply wp_bind, wp_ret. apply wp_bind.
    unfold hev_socks5_session_tcp_destruct. apply wp_bind. eapply wp_get; [apply lookup_insert_eq|]. cbn [ses new_session self pcb].
    unfold mwhen, tcp_abort. apply wp_bind. do 4 (apply wp_bind; eapply wp_put; [cbn; by rewrite Hth|]). apply wp_bind; eapply wp_put; [done|].
    apply wp_bind. eapply wp_get; [done|]. cbn. apply wp_ret. apply wp_bind. eapply wp_get; [apply lookup_insert_eq|].
    apply wp_bind. eapply wp_put; [done|]. apply wp_bind. eapply wp_intro; [done|]. eapply wp_put; [done|]. apply wp_ret. done. }
  destruct (wp_elim _ _ _ Hwp) as (r & t' & He & H). by exists r, t'.
Qed.

(** ** A life: data, the copying starts, data is written, the connection is reset *)

Definition example_conn : tcp_pcb := mk_pcb true None false false false (mk_ip IPADDR_TYPE_V4 (replicate 16 1)) 443.
Definition example_stack : stack := mk_stack example_conn ∅ [] [] None 0.
Definition example_life : list label :=
  [Event (EvRecv (Some [[1; 2; 3]])); Alloca 4 [0; 0; 0; 0]; Forward (Wrote 2); Backward (Got [9]) [0; 0; 0]; Event EvErr].
Definition example_answers (e : Socks5Io.event) : Socks5Io.answer e :=
  match e with
  | Socks5Io.ERecv _ => None | Socks5Io.ENew | Socks5Io.EMalloc _ => true | Socks5Io.EFree => tt
  | Socks5Io.EGetsockname _ => (0, zero_sockaddr) | _ => 0
  end.

Lemma example_given : given None (replicate sizeof_addr 0) example_conn.
Proof.
  split; [apply length_replicate | | unfold is_u16; cbn; lia | done].
  split_and!; [|done | by left]. apply Forall_replicate. unfold is_u8. lia.
Qed.

Lemma example_valid :
  valid_life 1%positive false example_life (with_session (add_calls [Socks5Io.EMalloc (copy_size None example_conn)] example_stack)
    1%positive (client_of None example_conn) (callbacks_to 1%positive example_conn) new_session).
Proof.
  unfold example_life. cbn [valid_life].
  split; [intros o [= <-]; split_and!; [done | | done]; cbn; split_and!; done || lia|]. intros t1 H1. vm_compute in H1. injection H1 as <-.
  split; [intros o [= <-]; cbn; unfold TCP_SND_BUF; split_and!; done || lia|]. intros t2 H2. vm_compute in H2. injection H2 as <-.
  split; [intros o [= <-]; cbn; split_and!; done || lia|]. intros t3 H3. vm_compute in H3. injection H3 as <-.
  split; [intros o [= <-]; split_and!; [done | done | | simpl; lia]; split; vm_compute; lia || discriminate|].
  intros t4 H4. vm_compute in H4. injection H4 as <-.
  split; [intros o [= <-]; split_and!; done|]. done.
Qed.


End SessionTCPLifeProofs.
