(* ===== verification/Socks5Handshake.v ===== *)
(** * The client and the server understand each other

    The messages of the handshake, what each function of the client and of the server
    does with them, and the composition of the two. *)

From S2P Require Import Prelude Socks5Addr Socks5Io Socks5Client Socks5Server.

Module Socks5Handshake.
Import Socks5Addr Socks5Io Socks5Server.

(** ** Messages *)

Definition methods_msg (c : option (bytes * bytes)) : bytes :=
  [5; 1; match c with None => 0 | Some _ => 2 end].
Definition creds_msg (u p : bytes) : bytes :=
  [1; Z.of_nat (length u)] ++ u ++ [Z.of_nat (length p)] ++ p.
Definition request_msg (cmd : Z) (a : address) : bytes := [5; cmd; 0] ++ encode a.
Definition response_msg (rep : Z) (a : address) : bytes := [5; rep; 0] ++ encode a.

(** Strings the authentication can carry. *)
Definition cred_ok (s : bytes) : Prop := (0 < length s <= 255)%nat.

Ltac rstep :=
  first [ eapply runs_get | eapply runs_put | eapply runs_lift; [reflexivity|] ]; cbn [fst snd].

Lemma rd8_at m k b : m !! k = Some b -> rd8 m (Z.of_nat k) = Some b.
Proof. intros H. rewrite rd8_lookup by lia. by rewrite Nat2Z.id. Qed.

(** ** The client *)

Section ClientRuns.
Context `{Resolver} (cfg : misc_config) (binder : Z -> sockaddr_in6 -> prog Z).
Context (sys : system).

Lemma run_write_auth_methods s i :
  runs sys (hev_socks5_client_write_auth_methods s) i (methods_msg (creds s)) i (Ret (0, s)).
Proof.
  unfold hev_socks5_client_write_auth_methods. rstep.
  unfold methods_msg.
  destruct (creds s); apply runs_send0; cbn; apply runs_ret.
Qed.

Lemma run_write_auth_creds s u p i : creds s = Some (u, p) -> cred_ok u -> cred_ok p ->
  runs sys (hev_socks5_client_write_auth_creds s) i (creds_msg u p) i (Ret (0, s)).
Proof.
  unfold cred_ok. intros Hc Hu Hp. unfold hev_socks5_client_write_auth_creds. rstep. rewrite Hc.
  assert (forall x : bytes, (0 < length x <= 255)%nat -> u8 (Z.of_nat (length x)) = Z.of_nat (length x)) as Hl
    by (intros x Hx; apply Z.mod_small; lia).
  rewrite (Hl u Hu), (Hl p Hp), !Nat2Z.id, !firstn_all.
  apply runs_send0.
  rewrite decide_False by (simpl; lia). apply runs_ret.
Qed.

Lemma run_write_auth_creds_none s i : creds s = None ->
  runs sys (hev_socks5_client_write_auth_creds s) i [] i (Ret (0, s)).
Proof. intros Hc. unfold hev_socks5_client_write_auth_creds. rstep. rewrite Hc. apply runs_ret. Qed.

Lemma run_write_request s a i : type (base s) = HEV_SOCKS5_TYPE_TCP ->
  sub s = ClientTCP (Some (encode a)) -> address_ok a ->
  runs sys (hev_socks5_client_write_request s) i (request_msg 1 a) i
    (Ret (0, set_sub (ClientTCP None) s)).
Proof.
  intros Ht Hs Ha. unfold hev_socks5_client_write_request. rstep. rewrite Ht. cbn [request_cmd].
  assert (hev_socks5_addr_len (encode a) = Some (Z.of_nat (length (encode a)))) as Hlen.
  { rewrite (encode_length a Ha). by destruct a. }
  eapply runs_bind0.
  { unfold get_upstream_addr. rstep. rewrite Hs. rstep. apply runs_ret. }
  rstep. eapply runs_lift; [exact Hlen|]. rewrite decide_False by lia.
  eapply runs_lift; [by apply (rd_app [] (encode a) []); rewrite ?app_nil_r|].
  apply runs_send0.
  rewrite decide_False by (simpl; lia). apply runs_call; [done|]. apply runs_ret.
Qed.

Lemma run_read_auth_method s m i :
  runs sys (hev_socks5_client_read_auth_method s) ([5; m] ++ i) [] i (Ret (m, s)).
Proof. apply runs_recv; [done|]. cbn. apply runs_ret. Qed.

Lemma run_read_auth_creds s r i :
  runs sys (hev_socks5_client_read_auth_creds s) ([1; r] ++ i) [] i
    (Ret (if decide (r = 0) then 0 else -1, s)).
Proof.
  apply runs_recv; [done|]. cbn [count length received default]. rewrite decide_False by lia.
  rstep. rewrite decide_False by (unfold HEV_SOCKS5_AUTH_VERSION_1; lia). rstep.
  unfold HEV_SOCKS5_RES_REP_SUCC. destruct (decide (r = 0)) as [->|].
  - rewrite decide_False by lia. apply runs_ret.
  - rewrite decide_True by done. apply runs_ret.
Qed.

Lemma run_read_response_fail s rep t i : rep ≠ 0 ->
  runs sys (hev_socks5_client_read_response cfg binder s) ([5; rep; 0; t] ++ i) [] i (Ret (-1, s)).
Proof.
  intros Hr. apply runs_recv; [done|]. cbn [count length received default].
  rewrite decide_False by lia. rstep. rewrite decide_False by (unfold HEV_SOCKS5_VERSION_5; lia).
  rstep. rewrite decide_True by done. apply runs_ret.
Qed.

Lemma run_read_response s a i : sub s = ClientTCP None -> address_ok a ->
  match a with Name _ _ => False | _ => True end ->
  runs sys (hev_socks5_client_read_response cfg binder s) (response_msg 0 a ++ i) [] i (Ret (0, s)).
Proof.
  intros Hs Ha Hn.
  assert (exists t v, encode a = t :: v ∧ (t = 1 ∧ length v = 6%nat \/ t = 4 ∧ length v = 18%nat))
    as (t & v & He & Ht).
  { destruct a as [x p|x p|]; [| |done]; destruct Ha as (_ & Hl & _); simpl;
      eexists _, _; (split; [done|]); [left|right]; (split; [done|]);
      rewrite length_app, Hl; done. }
  unfold response_msg. rewrite He.
  change (([5; 0; 0] ++ t :: v) ++ i) with ([5; 0; 0; t] ++ v ++ i).
  apply runs_recv; [done|]. cbn [count length received default].
  rewrite decide_False by lia. rstep. rewrite decide_False by (unfold HEV_SOCKS5_VERSION_5; lia).
  rstep. rewrite decide_False by (unfold HEV_SOCKS5_RES_REP_SUCC; lia). rstep.
  unfold HEV_SOCKS5_ADDR_TYPE_IPV4, HEV_SOCKS5_ADDR_TYPE_IPV6.
  assert (forall k, k = Z.of_nat (length v) -> runs sys
    ((r ← call (ERecv k);
      if decide (count r ≠ k) then mret (-1) else
      ret ← set_upstream_addr cfg binder
        (t :: received r ++ replicate (sizeof_addr - S (length (received r))) 0);
      if decide (ret < 0) then mret (-1) else mret 0) s) (v ++ i) [] i (Ret (0, s))) as Hrest.
  { intros k Hk. apply runs_recv; [done|]. cbn [count received default].
    rewrite decide_False by lia. eapply runs_bind0.
    { unfold set_upstream_addr. rstep. rewrite Hs. apply runs_ret. }
    cbn. apply runs_ret. }
  destruct Ht as [[-> Hv]|[-> Hv]].
  - rewrite decide_True by done. apply Hrest. lia.
  - rewrite decide_False, decide_True by (done || lia). apply Hrest. lia.
Qed.
End ClientRuns.

(** ** The server *)

Section ServerRuns.
Context `{Resolver} `{Authenticator} (cfg : misc_config) (sys : system).

Definition server_method (o : server_obj) : Z := match o with ONone => 0 | _ => 2 end.

Lemma run_srv_read_auth_method s c i :
  runs sys (hev_socks5_server_read_auth_method s) (methods_msg c ++ i) [] i
    (Ret (if decide (match c with None => 0 | Some _ => 2 end = server_method (obj s))
          then server_method (obj s) else -1, s)).
Proof.
  change (methods_msg c ++ i) with ([5; 1] ++ [match c with None => 0 | Some _ => 2 end] ++ i).
  unfold hev_socks5_server_read_auth_method. apply runs_recv; [done|].
  cbn [count length received default]. rewrite decide_False by lia. rstep.
  rewrite decide_False by (unfold HEV_SOCKS5_VERSION_5; lia). rstep.
  apply runs_recv; [done|]. cbn [count length received default]. rewrite decide_False by lia.
  rstep. cbn [find_method]. destruct (obj s), c; apply runs_ret.
Qed.

Lemma run_srv_write_auth_method s m i :
  runs sys (hev_socks5_server_write_auth_method m s) i [5; u8 m] i (Ret (0, s)).
Proof.
  unfold hev_socks5_server_write_auth_method.
  apply runs_send0. cbn. apply runs_ret.
Qed.

Lemma run_srv_write_auth_user s m i :
  runs sys (hev_socks5_server_write_auth_user m s) i [1; u8 m] i (Ret (0, s)).
Proof.
  unfold hev_socks5_server_write_auth_user.
  apply runs_send0. cbn. apply runs_ret.
Qed.

(** The user whose credentials these are. *)
Definition login (u p : bytes) : option user :=
  usr ← hev_socks5_authenticator_get u;
  if decide (hev_socks5_user_check usr p < 0) then None else Some usr.

Definition login_result (u p : bytes) : Z := match login u p with Some _ => 0 | None => -1 end.
Definition login_state (u p : bytes) (s : HevSocks5Server) : HevSocks5Server :=
  match login u p with Some usr => set_obj (OUser usr) s | None => s end.

Lemma run_srv_read_auth_user s u p i : obj s = OAuth -> cred_ok u -> cred_ok p ->
  runs sys (hev_socks5_server_read_auth_user s) (creds_msg u p ++ i) [] i
    (Ret (login_result u p, login_state u p s)).
Proof.
  unfold cred_ok. intros Ho Hu Hp.
  replace (creds_msg u p ++ i)
    with ([1; Z.of_nat (length u)] ++ (u ++ [Z.of_nat (length p)]) ++ p ++ i)
    by (unfold creds_msg; rewrite <- !app_assoc; done).
  unfold hev_socks5_server_read_auth_user. apply runs_recv; [done|].
  cbn [count length received default]. rewrite decide_False by lia. rstep.
  rewrite decide_False by lia. rstep. rewrite decide_False by lia.
  apply runs_recv; [rewrite length_app; simpl; lia|]. cbn [count received default].
  rewrite decide_False by (rewrite length_app; simpl; lia).
  eapply runs_lift; [by apply (rd8_app u _ [])|]. rewrite decide_False by lia.
  apply runs_recv; [done|]. cbn [count received default]. rewrite decide_False by lia.
  eapply runs_lift; [by apply (rd_app [] u [Z.of_nat (length p)])|].
  rstep. rewrite Ho. unfold login_result, login_state, login. destruct (hev_socks5_authenticator_get u) as [usr|]; simpl.
  - case_decide; [apply runs_ret|]. rstep. apply runs_ret.
  - apply runs_ret.
Qed.

Lemma run_srv_read_request `{!ResolverOk} s cmd a i : address_ok a ->
  runs sys (hev_socks5_server_read_request s) (request_msg cmd a ++ i) [] i
    (Ret (match destination (addr_family (sbase s)) a with
          | Some (sa, f) => ((0, (Some cmd, 0, Some sa)), upd_sbase (hev_socks5_set_addr_family f) s)
          | None => ((0, (None, 8, None)), s)
          end)).
Proof.
  intros Ha.
  assert (exists t b v, encode a = t :: b :: v
    ∧ (t = 1 ∧ length v = 5%nat \/ t = 4 ∧ length v = 17%nat
       \/ t = 3 ∧ Z.of_nat (length v) = 2 + b)) as (t & b & v & He & Ht).
  { destruct a as [x p|x p|x p]; destruct Ha as (_ & Hl & _).
    - destruct x as [|b x]; [done|]. injection Hl as Hl. eexists _, _, _. split; [done|]. left.
      split; [done|]. by rewrite length_app, Hl.
    - destruct x as [|b x]; [done|]. injection Hl as Hl. eexists _, _, _. split; [done|]. right; left.
      split; [done|]. by rewrite length_app, Hl.
    - eexists _, _, _. split; [done|]. do 2 right. split; [done|].
      rewrite length_app, length_be16. lia. }
  set (addr := encode a ++ replicate (sizeof_addr - 2 - length v) 0).
  assert (holds_address addr a) as Hh.
  { split; [|by eexists]. unfold addr. rewrite length_app, length_replicate, He. simpl.
    apply (f_equal length) in He. pose proof (encode_length a Ha) as Hel. unfold sizeof_addr.
    assert (Z.of_nat (length (encode a)) <= 259) by (destruct a; simpl in *; lia).
    simpl in He. lia. }
  unfold request_msg. rewrite He.
  change (([5; cmd; 0] ++ t :: b :: v) ++ i) with ([5; cmd; 0; t; b] ++ v ++ i).
  unfold hev_socks5_server_read_request.
  apply runs_recv; [done|]. cbn [count length received default]. rewrite decide_False by lia. rstep.
  rewrite decide_False by (unfold HEV_SOCKS5_VERSION_5; lia). do 3 rstep.
  match goal with |- context [match ?o with None => _ | Some _ => _ end] =>
    assert (o = Some (Z.of_nat (length v))) as -> end.
  { unfold HEV_SOCKS5_ADDR_TYPE_IPV4, HEV_SOCKS5_ADDR_TYPE_IPV6, HEV_SOCKS5_ADDR_TYPE_NAME.
    destruct Ht as [[-> Hv]|[[-> Hv]|[-> Hv]]]; repeat (rewrite decide_False by lia);
      (rewrite decide_True by done); by rewrite Hv. }
  apply runs_recv; [done|]. cbn [count received default from_option id]. rewrite decide_False by lia. rstep.
  change (t :: b :: v ++ replicate (sizeof_addr - 2 - length v) 0) with ((t :: b :: v) ++ replicate (sizeof_addr - 2 - length v) 0).
  rewrite <- He. fold addr.
  pose proof (addr_into_destination addr a (mk_sockaddr 0 0 (replicate 16 0))
    (hev_socks5_get_addr_family (sbase s)) Ha (holds_starts_with _ _ Hh) ltac:(done)) as Hd.
  unfold hev_socks5_get_addr_family in *.
  destruct (destination (addr_family (sbase s)) a) as [[sa f]|].
  - eapply runs_lift; [exact Hd|]. cbn. rstep. apply runs_ret.
  - destruct Hd as (sa' & f & Hd). eapply runs_lift; [exact Hd|]. cbn. apply runs_ret.
Qed.

(** A TCP request, given what the system says. *)
Definition socket_fails (f : Z) : bool := bool_decide (f < 0) || bool_decide (sys (EV6Only f) < 0).
Definition connects (sa : sockaddr_in6) : bool :=
  let f := sys (ESocket SOCK_STREAM) in
  negb (socket_fails f) && negb (bool_decide (sys (EConnect f sa) < 0)).

Lemma run_srv_connect s sa i : exists s',
  runs sys (hev_socks5_server_connect cfg sa s) i [] i (Ret (if connects sa then 0 else -1, s'))
  ∧ obj s' = obj s ∧ (connects sa = true -> fd0 s' = sys (ESocket SOCK_STREAM)
                      ∧ timeout (sbase s') = tcp_timeout cfg).
Proof.
  unfold connects, socket_fails. set (f := sys (ESocket SOCK_STREAM)).
  assert (runs sys (hev_socks5_socket cfg SOCK_STREAM s) i [] i
    (Ret (if bool_decide (f < 0) || bool_decide (sys (EV6Only f) < 0) then -1 else f, s))) as Hsock.
  { unfold hev_socks5_socket. apply runs_call; [done|]. fold f.
    case_bool_decide; simpl; [rewrite decide_True by done; apply runs_ret|].
    rewrite decide_False by done. apply runs_call; [done|].
    case_bool_decide as Hv; [rewrite decide_True by done; apply runs_call; [done|]; apply runs_ret|].
    rewrite decide_False by done. apply runs_call; [done|].
    eapply runs_bind0; [|cbn; apply runs_ret].
    case_decide; [apply runs_call; [done|]|]; apply runs_ret. }
  destruct (bool_decide (f < 0) || bool_decide (sys (EV6Only f) < 0)) eqn:Hf; simpl.
  - exists s. split; [|done]. eapply runs_bind0; [exact Hsock|]. rewrite decide_True by lia. apply runs_ret.
  - assert (~ f < 0) as Hf0 by (by apply orb_false_iff in Hf as [Hf%bool_decide_eq_false _]).
    clear Hf. case_bool_decide as Hc; simpl; eexists; (split; [|split]).
    + eapply runs_bind0; [exact Hsock|].
      rewrite decide_False by done.
      eapply runs_bind0; [constructor|]. cbn beta. rewrite decide_False by lia. rstep.
      apply runs_call; [done|]. rewrite decide_True by done.
      apply runs_call; [done|]. apply runs_call; [done|]. apply runs_ret.
    + done.
    + done.
    + eapply runs_bind0; [exact Hsock|].
      rewrite decide_False by done.
      eapply runs_bind0; [constructor|]. cbn beta. rewrite decide_False by lia. rstep.
      apply runs_call; [done|]. rewrite decide_False by done. do 2 rstep. apply runs_ret.
    + done.
    + done.
Qed.

Lemma run_srv_write_response s rep sa i : sockaddr_ok sa ->
  runs sys (hev_socks5_server_write_response rep sa s) i (response_msg (u8 rep) (sockaddr_address sa)) i
    (Ret (0, s)).
Proof.
  intros Hsa. destruct (from_sockaddr6_ok (replicate sizeof_addr 0) sa ltac:(done) Hsa)
    as (addr & Hf & _ & rest & ->).
  unfold hev_socks5_server_write_response. eapply runs_lift; [exact Hf|].
  eapply runs_lift.
  { apply (rd_app [] (response_msg (u8 rep) (sockaddr_address sa)) rest); [|done|].
    - unfold response_msg. by rewrite <- app_assoc.
    - unfold response_msg. rewrite length_app. simpl length. lia. }
  apply runs_send0.
  rewrite decide_False by (simpl; lia). apply runs_ret.
Qed.
End ServerRuns.

(** ** The server's side, put together *)

Section ServerPhases.
Context `{Resolver} `{Authenticator} `{!ResolverOk} (cfg : misc_config) (sys : system).

(** What the server does after it has sent the method. *)
Definition auth_rest (method : Z) : proc HevSocks5Server Z :=
  if decide (method = HEV_SOCKS5_AUTH_METHOD_NONE) then mret 0
  else if decide (method = HEV_SOCKS5_AUTH_METHOD_USER) then
    res ← hev_socks5_server_read_auth_user;
    res' ← hev_socks5_server_write_auth_user res;
    if decide (Z.lor res res' < 0) then mret (-1) else mret 0
  else mret (-1).

Definition chosen (c : option (bytes * bytes)) (o : server_obj) : Z :=
  if decide (match c with None => 0 | Some _ => 2 end = server_method o) then server_method o else -1.

Lemma run_srv_auth_method s c i :
  runs sys (hev_socks5_server_auth s) (methods_msg c ++ i) [5; u8 (chosen c (obj s))] i
    (auth_rest (chosen c (obj s)) s).
Proof.
  unfold hev_socks5_server_auth. eapply runs_bind0; [apply run_srv_read_auth_method|].
  rewrite <- (app_nil_r [5; _]). eapply runs_bind; [apply run_srv_write_auth_method|].
  constructor.
Qed.

Lemma run_srv_auth_user s u p i : obj s = OAuth -> cred_ok u -> cred_ok p ->
  runs sys (auth_rest 2 s) (creds_msg u p ++ i) [1; u8 (login_result u p)] i
    (Ret (login_result u p, login_state u p s)).
Proof.
  intros Ho Hu Hp. unfold auth_rest.
  rewrite decide_False by (unfold HEV_SOCKS5_AUTH_METHOD_NONE; lia).
  rewrite decide_True by done.
  eapply runs_bind0; [by apply run_srv_read_auth_user|].
  rewrite <- (app_nil_r [1; _]). eapply runs_bind; [apply run_srv_write_auth_user|].
  unfold login_result. destruct (login u p); constructor.
Qed.

(** What the server does once the client is authenticated. *)
Definition srv_tail (stack : sockaddr_in6) : proc HevSocks5Server Z :=
  r ← hev_socks5_server_read_request;
  let '(res, (cmd, rep, sa)) := r in
  if decide (res < 0) then mret (-1) else
  let sa := default stack sa in
  r ← (if decide (rep = HEV_SOCKS5_RES_REP_SUCC) then cmd ← plift cmd; server_dispatch cfg cmd sa
       else mret (rep, sa));
  let '(rep, sa) := r in
  res ← hev_socks5_server_write_response rep sa;
  if decide (res < 0 \/ rep ≠ HEV_SOCKS5_RES_REP_SUCC) then mret (-1) else mret 0.

Definition request_reply (f : HevSocks5AddrFamily) (a : address) : Z :=
  match destination f a with
  | None => HEV_SOCKS5_RES_REP_ADDR
  | Some (sa, _) => if connects sys sa then HEV_SOCKS5_RES_REP_SUCC else HEV_SOCKS5_RES_REP_HOST
  end.

Lemma run_srv_tail stack s a i : address_ok a -> sockaddr_ok stack ->
  exists s' sa, runs sys (srv_tail stack s) (request_msg 1 a ++ i)
      (response_msg (request_reply (addr_family (sbase s)) a) (sockaddr_address sa)) i
      (Ret (if decide (request_reply (addr_family (sbase s)) a = 0) then 0 else -1, s'))
    ∧ sockaddr_ok sa ∧ obj s' = obj s
    ∧ (request_reply (addr_family (sbase s)) a = 0 ->
       fst <$> destination (addr_family (sbase s)) a = Some sa
       ∧ type (sbase s') = HEV_SOCKS5_TYPE_TCP ∧ fd0 s' = sys (ESocket SOCK_STREAM)).
Proof.
  intros Ha Hst. unfold request_reply. pose proof (run_srv_read_request sys s 1 a i Ha) as Hr.
  destruct (destination (addr_family (sbase s)) a) as [[sa f]|] eqn:Hd.
  - pose proof (destination_ok _ _ _ _ Ha Hd) as Hsa.
    destruct (run_srv_connect cfg sys (upd_sbase (hev_socks5_set_addr_family f) s) sa i)
      as (s1 & Hc & Ho & Hfd).
    set (s2 := upd_sbase (set_type HEV_SOCKS5_TYPE_TCP) s1).
    exists s2, sa. split_and!; [|done|done|].
    + eapply runs_bind0; [exact Hr|]. cbn beta iota zeta. rewrite decide_False by lia. cbn [default from_option id].
      eapply runs_bind0.
      { rewrite decide_True by done. eapply runs_lift; [reflexivity|].
        unfold server_dispatch. rewrite decide_True by done.
        eapply runs_bind0; [exact Hc|]. eapply runs_put. apply runs_ret. }
      cbn beta iota. fold s2.
      assert (forall b : bool, (if decide ((if b then 0 else -1) < 0) then HEV_SOCKS5_RES_REP_HOST
        else HEV_SOCKS5_RES_REP_SUCC) = (if b then HEV_SOCKS5_RES_REP_SUCC else HEV_SOCKS5_RES_REP_HOST))
        as -> by (by intros []).
      rewrite <- (app_nil_r (response_msg _ _)).
      eapply runs_bind; [|].
      { assert (forall b : bool, (if b then HEV_SOCKS5_RES_REP_SUCC else HEV_SOCKS5_RES_REP_HOST)
          = u8 (if b then HEV_SOCKS5_RES_REP_SUCC else HEV_SOCKS5_RES_REP_HOST)) as Hu8 by (by intros []).
        rewrite (Hu8 (connects sys sa)) at 2. by apply run_srv_write_response. }
      destruct (connects sys sa); simpl; constructor.
    + intros Hz. destruct (connects sys sa); [|done]. split_and!; [done|done|].
      by apply Hfd.
  - exists s, stack. split_and!; [|done|done|done].
    eapply runs_bind0; [exact Hr|]. cbn beta iota zeta. rewrite decide_False by lia. cbn [default from_option id].
    eapply runs_bind0; [constructor|]. cbn beta iota. rewrite <- (app_nil_r (response_msg _ _)).
    eapply runs_bind; [by apply run_srv_write_response|]. constructor.
Qed.

Definition after_auth (stack : sockaddr_in6) (r : Z * HevSocks5Server) : prog (Z * HevSocks5Server) :=
  (if decide (fst r < 0) then mret (-1) else srv_tail stack : proc HevSocks5Server Z) (snd r).

Lemma handshake_phases stack s :
  hev_socks5_server_handshake cfg stack s
  = prog_bind (hev_socks5_server_auth (upd_sbase (hev_socks5_set_timeout (tcp_timeout cfg)) s))
      (after_auth stack).
Proof. done. Qed.
End ServerPhases.

End Socks5Handshake.
