(* ===== verification/Socks5Interop.v ===== *)
(** * The handshake of a client with a server

    The client and the server of the program, connected by two streams: whatever the
    order in which they proceed, both come to the same verdict, and the verdict is the
    right one. *)

From S2P Require Import Prelude Socks5Addr Socks5Io Socks5Client Socks5Server Socks5Handshake.

Module Socks5Interop.
Import Socks5Addr Socks5Io Socks5Server Socks5Handshake.

Section Interop.
Context `{Resolver} `{Authenticator} `{!ResolverOk}.
Context (cfgc cfgs : misc_config) (binder : Z -> sockaddr_in6 -> prog Z) (sysc syss : system).

(** A client for a TCP destination, and a server that waits for a request. *)
Record ready_client (s : HevSocks5Client) (a : address) : Prop := {
  rc_type : type (base s) = HEV_SOCKS5_TYPE_TCP;
  rc_sub : sub s = ClientTCP (Some (encode a));
  rc_addr : address_ok a;
  rc_creds : forall u p, creds s = Some (u, p) -> cred_ok u ∧ cred_ok p;
}.
Definition ready_server (s : HevSocks5Server) : Prop := obj s = ONone \/ obj s = OAuth.

(** The credentials satisfy the server: none when it asks for none, those of a user
    when it has an authenticator. *)
Definition accepted (c : option (bytes * bytes)) (o : server_obj) : bool :=
  match c, o with
  | None, ONone => true
  | Some (u, p), OAuth => bool_decide (login_result u p = 0)
  | _, _ => false
  end.

Definition verdict (s : HevSocks5Client) (sv : HevSocks5Server) (a : address) : Z :=
  if accepted (creds s) (obj sv) then
    if decide (request_reply syss (addr_family (sbase sv)) a = 0) then 0 else -1
  else -1.

(** What the server's side of a success is. *)
Definition served (s : HevSocks5Client) (sv sv' : HevSocks5Server) (a : address) : Prop :=
  (exists sa, fst <$> destination (addr_family (sbase sv)) a = Some sa ∧ connects syss sa = true)
  ∧ type (sbase sv') = HEV_SOCKS5_TYPE_TCP ∧ fd0 sv' = syss (ESocket SOCK_STREAM)
  ∧ match creds s with
    | None => obj sv' = ONone
    | Some (u, p) => exists usr, login u p = Some usr ∧ obj sv' = OUser usr
    end.

(** ** The client's last steps *)

Definition wait_response : proc HevSocks5Client Z :=
  guard (hev_socks5_client_read_response cfgc binder) (mret 0).
Definition send_request : proc HevSocks5Client Z :=
  guard hev_socks5_client_write_request wait_response.

Lemma run_guard {sys} (m k : proc HevSocks5Client Z) s i v i1 s1 v2 i2 p2 :
  runs sys (m s) i v i1 (Ret (0, s1)) -> runs sys (k s1) i1 v2 i2 p2 ->
  runs sys (guard m k s) i (v ++ v2) i2 p2.
Proof. intros E1 E2. unfold guard. eapply runs_bind; [exact E1|]. by rewrite decide_False by lia. Qed.

Lemma run_guard_fail {sys} (m k : proc HevSocks5Client Z) s i v i1 s1 :
  runs sys (m s) i v i1 (Ret (-1, s1)) -> runs sys (guard m k s) i v i1 (Ret (-1, s1)).
Proof.
  intros E1. unfold guard. rewrite <- (app_nil_r v). eapply runs_bind; [exact E1|].
  rewrite decide_True by lia. apply runs_ret.
Qed.

Lemma run_send_request s a i : ready_client s a ->
  runs sysc (send_request s) i (request_msg 1 a) i (wait_response (set_sub (ClientTCP None) s)).
Proof.
  intros [E1 E2 E3 _]. unfold send_request. rewrite <- (app_nil_r (request_msg 1 a)).
  eapply run_guard; [by apply run_write_request | constructor].
Qed.

Lemma run_wait_response s rep sa : sub s = ClientTCP None -> sockaddr_ok sa ->
  exists i, runs sysc (wait_response s) (response_msg rep (sockaddr_address sa)) [] i
    (Ret (if decide (rep = 0) then 0 else -1, s)).
Proof.
  intros Hs Hsa. pose proof (sockaddr_address_ok sa Hsa) as Ha.
  destruct (decide (rep = 0)) as [->|Hr].
  - exists []. rewrite <- (app_nil_r (response_msg 0 _)). apply (run_guard _ _ _ _ [] [] s []); [|constructor].
    apply run_read_response; [done|done|]. unfold sockaddr_address.
    by destruct (IN6_IS_ADDR_V4MAPPED (sin6_addr sa)).
  - assert (exists t v, encode (sockaddr_address sa) = t :: v) as (t & v & He)
      by (destruct (sockaddr_address sa); by eexists _, _).
    exists v. unfold response_msg. rewrite He.
    change ([5; rep; 0] ++ t :: v) with ([5; rep; 0; t] ++ v).
    apply run_guard_fail. by apply run_read_response_fail.
Qed.

(** Both sides from the request on, when nothing else is on the way. *)
Lemma net_request sv s a stack : ready_client s a -> sockaddr_ok stack ->
  exists s' sv' o i,
    reach sysc syss (mk_net (wait_response (set_sub (ClientTCP None) s)) (srv_tail cfgs stack sv)
                       (request_msg 1 a) [])
      (mk_net (Ret (if decide (request_reply syss (addr_family (sbase sv)) a = 0) then 0 else -1, s'))
              (Ret (if decide (request_reply syss (addr_family (sbase sv)) a = 0) then 0 else -1, sv')) o i)
    ∧ base s' = base s ∧ obj sv' = obj sv
    ∧ (request_reply syss (addr_family (sbase sv)) a = 0 ->
       (exists sa, fst <$> destination (addr_family (sbase sv)) a = Some sa ∧ connects syss sa = true)
       ∧ type (sbase sv') = HEV_SOCKS5_TYPE_TCP ∧ fd0 sv' = syss (ESocket SOCK_STREAM)).
Proof.
  intros Hc Hst. pose proof (rc_addr _ _ Hc) as Ha.
  destruct (run_srv_tail cfgs syss stack sv a [] Ha Hst) as (sv' & sa & Hr & Hsa & Ho & Hok).
  rewrite app_nil_r in Hr.
  destruct (run_wait_response (set_sub (ClientTCP None) s)
    (request_reply syss (addr_family (sbase sv)) a) sa eq_refl Hsa) as (i & Hw).
  exists (set_sub (ClientTCP None) s), sv', [], i. split_and!; [|done|done|].
  - eapply reach_right; [exact Hr|]. eapply reach_left; [exact Hw|]. apply reach_refl.
  - intros Hz. destruct (Hok Hz) as (Hd & Ht & Hf). split_and!; [|done|done].
    exists sa. split; [done|]. unfold request_reply in Hz.
    destruct (destination (addr_family (sbase sv)) a) as [[sa' f]|]; [|done].
    injection Hd as ->. by destruct (connects syss sa).
Qed.

(** ** The two orders *)

Definition goal_net (s : HevSocks5Client) (sv : HevSocks5Server) (a : address)
  (n : net (Z * HevSocks5Client) (Z * HevSocks5Server)) : Prop :=
  exists s' sv' o i,
    reach sysc syss n (mk_net (Ret (verdict s sv a, s')) (Ret (verdict s sv a, sv')) o i)
    ∧ base s' = base s ∧ (verdict s sv a = 0 -> served s sv sv' a).

Lemma goal_left s sv a p q o i v i' p' :
  runs sysc p i v i' p' -> goal_net s sv a (mk_net p' q (o ++ v) i') -> goal_net s sv a (mk_net p q o i).
Proof.
  intros Hr (s' & sv' & o' & i2 & Hn & Hg). exists s', sv', o', i2. split; [|done].
  by eapply reach_left.
Qed.
Lemma goal_right s sv a p q o i v i' q' :
  runs syss q i v i' q' -> goal_net s sv a (mk_net p q' i' (o ++ v)) -> goal_net s sv a (mk_net p q i o).
Proof.
  intros Hr (s' & sv' & o' & i2 & Hn & Hg). exists s', sv', o', i2. split; [|done].
  by eapply reach_right.
Qed.

Lemma goal_request s sv sv1 a stack : ready_client s a -> sockaddr_ok stack ->
  accepted (creds s) (obj sv) = true -> sbase sv1 = sbase sv ->
  match creds s with
  | None => obj sv1 = ONone
  | Some (u, p) => exists usr, login u p = Some usr ∧ obj sv1 = OUser usr
  end ->
  goal_net s sv a (mk_net (wait_response (set_sub (ClientTCP None) s)) (srv_tail cfgs stack sv1)
                     (request_msg 1 a) []).
Proof.
  intros Hc Hst Hacc Hb Ho. destruct (net_request sv1 s a stack Hc Hst)
    as (s' & sv' & o & i & Hn & Hbs & Hob & Hok).
  unfold goal_net, verdict. rewrite Hacc. rewrite Hb in *. exists s', sv', o, i.
  split_and!; [done|done|]. case_decide as Hz; [|lia]. intros _. destruct (Hok Hz) as (E1 & E2 & E3).
  split_and!; [done..|]. rewrite Hob. done.
Qed.

Lemma goal_end s sv a o i s' sv' : accepted (creds s) (obj sv) = false -> base s' = base s ->
  goal_net s sv a (mk_net (Ret (-1, s')) (Ret (-1, sv')) o i).
Proof.
  intros Hacc Hb. exists s', sv', o, i. unfold verdict. rewrite Hacc.
  split_and!; [apply reach_refl | done | done].
Qed.

Definition server_start (stack : sockaddr_in6) (sv : HevSocks5Server) : prog (Z * HevSocks5Server) :=
  prog_bind (hev_socks5_server_auth sv) (after_auth cfgs stack).

Lemma run_srv_prefix {sys} (p : prog (Z * HevSocks5Server)) i v i' r stack :
  runs sys p i v i' (Ret r) ->
  runs sys (prog_bind p (after_auth cfgs stack)) i v i' (after_auth cfgs stack r).
Proof. intros Hr. exact (runs_prog_bind sys p _ i v i' (Ret r) Hr). Qed.

Lemma standard_net s sv a stack : ready_client s a -> ready_server sv -> sockaddr_ok stack ->
  goal_net s sv a (mk_net (hev_socks5_client_handshake_standard cfgc binder s) (server_start stack sv) [] []).
Proof.
  intros Hc Hsv Hst. unfold hev_socks5_client_handshake_standard.
  eapply goal_left; [eapply run_guard; [apply run_write_auth_methods | constructor]|]. cbn [app].
  eapply goal_right; [apply runs_prog_bind, run_srv_auth_method|]. cbn [app].
  fold wait_response. fold send_request.
  change (obj sv = ONone \/ obj sv = OAuth) in Hsv.
  match goal with |- goal_net _ _ _ (mk_net (mbind ?f _ s) _ _ _) => set (K := f) end.
  assert (forall m i, runs sysc ((hev_socks5_client_read_auth_method ≫= K) s) ([5; m] ++ i) [] i (K m s))
    as Hread by (intros m i; eapply runs_bind0; [apply run_read_auth_method | constructor]).
  assert (K 0 s = send_request s) as K0 by done.
  assert (K 2 s = guard hev_socks5_client_write_auth_creds
                    (guard hev_socks5_client_read_auth_creds send_request) s) as K2 by done.
  assert (K 255 s = Ret (-1, s)) as K255 by done.
  destruct (accepted (creds s) (obj sv)) eqn:Hacc; cycle 1.
  - (* the method or the login fails *)
    unfold accepted in Hacc. destruct (creds s) as [[u p]|] eqn:Hcr.
    + destruct (obj sv) eqn:Ho; [|clear Hsv|by destruct Hsv].
      * eapply goal_left; [exact (Hread 255 [])|]. rewrite K255. apply goal_end; [|done].
        by rewrite Hcr, Ho.
      * apply bool_decide_eq_false in Hacc.
        assert (login_result u p = -1) as Hlog by (unfold login_result in *; by destruct (login u p)).
        destruct (rc_creds _ _ Hc u p Hcr) as [Hu Hp].
        eapply goal_left; [exact (Hread 2 [])|]. rewrite K2. cbn [app].
        eapply goal_left; [eapply run_guard; [by eapply run_write_auth_creds | constructor]|]. cbn [app].
        eapply goal_right; [apply run_srv_prefix; by apply run_srv_auth_user|]. cbn [app].
        rewrite Hlog. eapply goal_left.
        { apply run_guard_fail. exact (run_read_auth_creds sysc s 255 []). }
        apply goal_end; [|done]. rewrite Hcr, Ho. unfold accepted. by rewrite Hlog.
    + destruct (obj sv) eqn:Ho; [done|clear Hsv|by destruct Hsv].
      eapply goal_left; [exact (Hread 255 [])|]. rewrite K255. apply goal_end; [|done].
      by rewrite Hcr, Ho.
  - pose proof Hacc as Hacc'. unfold accepted in Hacc. destruct (creds s) as [[u p]|] eqn:Hcr, (obj sv) eqn:Ho; try done.
    + apply bool_decide_eq_true in Hacc. unfold login_result in Hacc.
      destruct (login u p) as [usr|] eqn:Hlog; [clear Hacc|done].
      destruct (rc_creds _ _ Hc u p Hcr) as [Hu Hp].
      eapply goal_left; [exact (Hread 2 [])|]. rewrite K2. cbn [app].
      eapply goal_left; [eapply run_guard; [by eapply run_write_auth_creds | constructor]|]. cbn [app].
      eapply goal_right; [apply run_srv_prefix; by apply run_srv_auth_user|]. cbn [app].
      unfold login_result, login_state. rewrite Hlog.
      eapply goal_left.
      { eapply run_guard; [exact (run_read_auth_creds sysc s 0 []) | by apply run_send_request]. }
      cbn [app]. eapply goal_request; [done | done | by rewrite Hcr, Ho | done |].
      rewrite Hcr. by exists usr.
    + eapply goal_left; [exact (Hread 0 [])|]. rewrite K0.
      eapply goal_left; [by apply run_send_request|]. cbn [app].
      eapply goal_request; [done | done | by rewrite Hcr, Ho | done |]. by rewrite Hcr.
Qed.

Lemma pipeline_net s sv a stack : ready_client s a -> ready_server sv -> sockaddr_ok stack ->
  goal_net s sv a (mk_net (hev_socks5_client_handshake_pipeline cfgc binder s) (server_start stack sv) [] []).
Proof.
  intros Hc Hsv Hst. unfold ready_server in Hsv.
  unfold hev_socks5_client_handshake_pipeline. fold wait_response.
  match goal with |- context [guard hev_socks5_client_write_request (mbind ?f _)] => set (K := f) end.
  set (s0 := set_sub (ClientTCP None) s).
  assert (forall m i, runs sysc ((hev_socks5_client_read_auth_method ≫= K) s0) ([5; m] ++ i) [] i (K m s0))
    as Hread by (intros m i; eapply runs_bind0; [apply run_read_auth_method | constructor]).
  assert (K 0 s0 = wait_response s0) as K0 by done.
  assert (K 2 s0 = guard hev_socks5_client_read_auth_creds wait_response s0) as K2 by done.
  assert (K 255 s0 = Ret (-1, s0)) as K255 by done.
  assert (forall i, runs sysc (guard hev_socks5_client_write_request
    (hev_socks5_client_read_auth_method ≫= K) s) i (request_msg 1 a) i
    ((hev_socks5_client_read_auth_method ≫= K) s0)) as Hreq.
  { intros i. destruct Hc as [E1 E2 E3 _]. rewrite <- (app_nil_r (request_msg 1 a)).
    eapply run_guard; [by apply run_write_request | constructor]. }
  eapply goal_left; [eapply run_guard; [apply run_write_auth_methods | constructor]|]. cbn [app].
  rewrite app_nil_r.
  destruct (creds s) as [[u p]|] eqn:Hcr.
  - destruct (rc_creds _ _ Hc u p Hcr) as [Hu Hp].
    eapply goal_left; [eapply run_guard; [by eapply run_write_auth_creds | apply Hreq]|].
    eapply goal_right; [apply runs_prog_bind, run_srv_auth_method|]. cbn [app].
    destruct (obj sv) eqn:Ho; [|clear Hsv|by destruct Hsv].
    + eapply goal_left; [exact (Hread 255 [])|]. rewrite K255. apply goal_end; [|done].
      by rewrite Hcr, Ho.
    + eapply goal_left; [exact (Hread 2 [])|]. rewrite K2.
      change (chosen (Some (u, p)) OAuth) with 2. rewrite ?app_nil_r.
      eapply goal_right; [apply run_srv_prefix; by apply run_srv_auth_user|]. cbn [app].
      destruct (login u p) as [usr|] eqn:Hlog; unfold login_result, login_state; rewrite Hlog.
      * eapply goal_left; [eapply run_guard; [exact (run_read_auth_creds sysc s0 0 []) | constructor]|].
        cbn [app]. rewrite app_nil_r.
        eapply goal_request; [done | done | | done |]; rewrite Hcr.
        -- rewrite Ho. unfold accepted, login_result. by rewrite Hlog.
        -- by exists usr.
      * eapply goal_left; [apply run_guard_fail; exact (run_read_auth_creds sysc s0 255 [])|].
        apply goal_end; [|done]. rewrite Hcr, Ho. unfold accepted, login_result. by rewrite Hlog.
  - eapply goal_left; [eapply run_guard; [by apply run_write_auth_creds_none | apply Hreq]|].
    eapply goal_right; [apply runs_prog_bind, run_srv_auth_method|]. cbn [app].
    destruct (obj sv) eqn:Ho; [|clear Hsv|by destruct Hsv].
    + eapply goal_left; [exact (Hread 0 [])|]. rewrite K0.
      change (auth_rest (chosen None ONone) sv) with (Ret (0, sv) : prog (Z * HevSocks5Server)).
      change (prog_bind (Ret (0, sv)) (after_auth cfgs stack)) with (srv_tail cfgs stack sv).
      cbn [app]. rewrite ?app_nil_r.
      eapply goal_request; [done | done | by rewrite Hcr, Ho | done |]. by rewrite Hcr.
    + eapply goal_left; [exact (Hread 255 [])|]. rewrite K255. apply goal_end; [|done].
      by rewrite Hcr, Ho.
Qed.

(** ** The whole handshake *)

Definition start (pipeline : bool) (stack : sockaddr_in6) (s : HevSocks5Client) (sv : HevSocks5Server)
  : net (Z * HevSocks5Client) (Z * HevSocks5Server) :=
  mk_net (hev_socks5_client_handshake cfgc binder pipeline s)
         (hev_socks5_server_handshake cfgs stack sv) [] [].

Lemma handshake_end pipeline stack s sv a :
  ready_client s a -> ready_server sv -> sockaddr_ok stack ->
  exists s' sv' o i,
    reach sysc syss (start pipeline stack s sv)
      (mk_net (Ret (verdict s sv a, s')) (Ret (verdict s sv a, sv')) o i)
    ∧ (verdict s sv a = 0 -> served s sv sv' a).
Proof.
  intros Hc Hsv Hst. unfold start. rewrite handshake_phases.
  set (s1 := upd_base (hev_socks5_set_timeout (tcp_timeout cfgc)) s).
  set (sv1 := upd_sbase (hev_socks5_set_timeout (tcp_timeout cfgs)) sv).
  assert (ready_client s1 a) as Hc1 by (by destruct Hc).
  assert (ready_server sv1) as Hsv1 by done.
  change (verdict s sv a) with (verdict s1 sv1 a).
  change (served s sv) with (served s1 sv1).
  assert (goal_net s1 sv1 a (mk_net
    ((if pipeline then hev_socks5_client_handshake_pipeline cfgc binder
      else hev_socks5_client_handshake_standard cfgc binder) s1) (server_start stack sv1) [] []))
    as (s' & sv' & o & i & Hn & Hb & Hv).
  { destruct pipeline; [by apply pipeline_net | by apply standard_net]. }
  exists s', sv', o, i. split; [|done].
  unfold hev_socks5_client_handshake.
  match goal with |- context [mk_net ((_ ≫= ?f) s)] =>
    change ((pput (upd_base (hev_socks5_set_timeout (tcp_timeout cfgc))) ≫= f) s) with (f tt s1) end.
  cbn beta.
  match goal with |- context [mk_net ((mbind ?f _) s1)] =>
    pose proof (reach_bind sysc syss (fun r => f (fst r) (snd r)) _ _ _ _ _ _ _ _ Hn) as Hb2 end.
  cbn [fst snd prog_bind] in Hb2.
  assert (type (base s') = HEV_SOCKS5_TYPE_TCP) as Ht by (rewrite Hb; apply Hc1).
  unfold pget in Hb2. unfold mbind, proc_bind in Hb2. cbn [prog_bind fst snd] in Hb2.
  rewrite Ht in Hb2. exact Hb2.
Qed.
End Interop.

(** C2: The client and the server of the program understand each other, in the standard
    and in the pipelined order.  From every state the two can be in, whatever the order
    of their steps so far, they go on to an end, after a bounded number of steps; both
    report the same verdict; it is a success exactly when the client's credentials are
    those the server wants, the server finds the destination's address and its system
    connects to it; and after a success the server is connected to that address, in the
    name of that user. *)
Theorem hev_socks5_handshake_interop `{Resolver} `{Authenticator} `{!ResolverOk} cfgc cfgs binder sysc syss
    pipeline stack s sv a :
  ready_client s a -> ready_server sv -> sockaddr_ok stack ->
  exists s' sv' o i,
    let final := mk_net (Ret (verdict syss s sv a, s')) (Ret (verdict syss s sv a, sv')) o i in
    (forall n, reach sysc syss (start cfgc cfgs binder pipeline stack s sv) n -> reach sysc syss n final)
    ∧ (exists bound, forall j n,
        nsteps sysc syss j (start cfgc cfgs binder pipeline stack s sv) n -> (j <= bound)%nat)
    ∧ (verdict syss s sv a = 0 -> served syss s sv sv' a).
Proof.
  intros Hc Hsv Hst.
  destruct (handshake_end cfgc cfgs binder sysc syss pipeline stack s sv a Hc Hsv Hst)
    as (s' & sv' & o & i & Hn & Hv).
  exists s', sv', o, i. cbn zeta. split_and!; [|destruct Hn as [k Hk]; exists k|done].
  - intros n. eapply reach_confluent; [exact Hn | apply ret_stuck].
  - intros j n Hj. destruct (nsteps_confluent _ _ _ _ _ Hk (ret_stuck _ _ _ _ _ _) _ _ Hj) as (m & -> & _).
    lia.
Qed.

(** ** An instance: user "u" with password "p" asks for a name *)

Definition example_authenticator : Authenticator := {|
  user := bytes;
  hev_socks5_authenticator_get n := if decide (n = [117]) then Some [112] else None;
  hev_socks5_user_check usr p := if decide (usr = p) then 0 else -1 |}.

Definition example_system : system := fun e =>
  match e return answer e with
  | ERecv _ => None
  | ENew | EMalloc _ => true
  | EFree => tt
  | EGetsockname _ => (0, zero_sockaddr)
  | ESocket _ => 7
  | _ => 0
  end.

Definition example_client : HevSocks5Client :=
  mk_client (hev_socks5_construct HEV_SOCKS5_TYPE_TCP) (Some [117]) (Some [112])
    (ClientTCP (Some (encode (Name [97; 46; 98] 443)))).
Definition example_cfg : misc_config := mk_misc 10000 300000 60000 524288.
Definition example_stack : sockaddr_in6 := mk_sockaddr AF_INET6 0 (replicate 16 0).

Lemma example_client_ready : ready_client example_client (Name [97; 46; 98] 443).
Proof.
  split; [done|done| |].
  - split_and!; [|simpl; lia|simpl; lia|by vm_compute].
    repeat (apply Forall_cons; split; [by vm_compute|]). constructor.
  - intros u p [= <- <-]. unfold cred_ok. simpl. lia.
Qed.

Lemma hev_socks5_handshake_interop_witness :
  let sv := @set_obj example_authenticator OAuth (@hev_socks5_server_construct example_authenticator 3) in
  @verdict example_resolver example_authenticator example_system example_client sv (Name [97; 46; 98] 443) = 0
  ∧ exists s' sv' o i,
    let final := mk_net (Ret (0, s')) (Ret (0, sv')) o i in
    let begin := @start example_resolver example_authenticator example_cfg example_cfg hev_socks5_bind
                   true example_stack example_client sv in
    (forall n, reach example_system example_system begin n -> reach example_system example_system n final)
    ∧ (exists bound, forall j n, nsteps example_system example_system j begin n -> (j <= bound)%nat)
    ∧ (0 = 0 -> @served example_resolver example_authenticator example_system example_client sv sv'
                  (Name [97; 46; 98] 443)).
Proof.
  split; [by vm_compute|].
  refine (@hev_socks5_handshake_interop example_resolver example_authenticator example_resolver_ok
    example_cfg example_cfg hev_socks5_bind example_system example_system true example_stack example_client
    (@set_obj example_authenticator OAuth (@hev_socks5_server_construct example_authenticator 3))
    (Name [97; 46; 98] 443) example_client_ready _ _).
  - by right.
  - split_and!; [|done|by vm_compute]. repeat (apply Forall_cons; split; [by vm_compute|]). constructor.
Defined.

End Socks5Interop.
