(* ===== verification/Socks5Session.v ===== *)
(** * Sessions: src/hev-socks5-session.c

    A session connects to the proxy, does the handshake and then copies data.  The
    theorem of this file: over its life it closes every descriptor it opened, exactly
    once, whatever the system answers. *)

From S2P Require Import Prelude Socks5Addr Socks5Io Descriptors Socks5Client.

Module Socks5Session.
Import Socks5Addr Socks5Io Descriptors Socks5Client.

(** ** Definitions *)

(** The part of the configuration that describes the proxy. *)
Record HevConfigServer := mk_srv {
  srv_addr : bytes; srv_port : Z; srv_user : option bytes; srv_pass : option bytes;
  srv_mark : Z; srv_pipeline : bool }.

(** The [binder] of the two session classes: [set_sock_mark]. *)
Definition set_sock_mark (f mark : Z) : prog Z := Do (EMark f mark) (fun r => Ret r).

Definition hev_socks5_session_tcp_bind (srv : HevConfigServer) (f : Z) (dest : sockaddr_in6) : prog Z :=
  if decide (srv_mark srv ≠ 0) then
    prog_bind (set_sock_mark f (srv_mark srv)) (fun res => if decide (res < 0) then Ret (-1) else Ret 0)
  else Ret 0.

Definition hev_socks5_session_udp_bind (srv : HevConfigServer) (f : Z) (dest : sockaddr_in6) : prog Z :=
  if decide (srv_mark srv ≠ 0) then
    prog_bind (set_sock_mark f (srv_mark srv)) (fun res => if decide (res < 0) then Ret (-1) else Ret 0)
  else Ret 0.

Section Run.
Context `{Resolver} (cfg : misc_config) (srv : HevConfigServer).
Context (binder : Z -> sockaddr_in6 -> prog Z).
(** [iface->splicer]: the relays are modelled in the files on the two sessions. *)
Context (splicer : cproc unit).

Definition hev_socks5_session_run : cproc unit :=
  res ← hev_socks5_client_connect cfg binder (srv_addr srv) (srv_port srv);
  if decide (res < 0) then mret tt else
  (match srv_user srv, srv_pass srv with
   | Some u, Some p => pput (hev_socks5_client_set_auth (Some u) (Some p))
   | _, _ => mret tt
   end);;
  res ← hev_socks5_client_handshake cfg binder (srv_pipeline srv);
  if decide (res < 0) then mret tt else
  splicer.

(** The task of a session: it runs, and the object is destroyed. *)
Definition session_life (s : HevSocks5Client) : prog unit :=
  prog_bind (hev_socks5_session_run s) (fun r => hev_socks5_client_destruct (snd r)).
End Run.

(** A session that is told to end before its task runs, or after it has connected and before
    the handshake, does not notice: the first thing both functions do is to set the timeout
    that [hev_socks5_session_terminate] has set to 0. *)
Theorem session_terminate_forgotten `{Resolver} cfg srv binder splicer s :
  hev_socks5_session_run cfg srv binder splicer (upd_base (hev_socks5_set_timeout 0) s)
    = hev_socks5_session_run cfg srv binder splicer s
  ∧ hev_socks5_client_handshake cfg binder (srv_pipeline srv) (upd_base (hev_socks5_set_timeout 0) s)
    = hev_socks5_client_handshake cfg binder (srv_pipeline srv) s.
Proof. by split. Qed.

(** ** Descriptors *)

#[export] Instance client_fds : Owner HevSocks5Client := fun s =>
  match sub s with ClientUDP ufd => opened ufd | ClientTCP _ => [] end ++ opened (fd (base s)).

#[export] Instance hev_socks5_session_tcp_bind_ok srv : BinderOk (hev_socks5_session_tcp_bind srv).
Proof.
  intros strict f sa tr Q HQ. unfold hev_socks5_session_tcp_bind. case_decide; simpl.
  - intros r _. case_decide; apply HQ; by apply Forall_singleton.
  - specialize (HQ [] 0). rewrite app_nil_r in HQ. by apply HQ.
Qed.

#[export] Instance hev_socks5_session_udp_bind_ok srv : BinderOk (hev_socks5_session_udp_bind srv).
Proof. apply hev_socks5_session_tcp_bind_ok. Qed.

(** What a splicer promises: it opens and closes nothing. *)
Class SplicerOk (splicer : cproc unit) : Prop :=
  splicer_balanced strict s : balanced strict [] [] (fun _ s' => True) splicer s.

(** ** The client's functions *)

Section ClientBalanced.
Context `{Resolver} `{!ResolverOk} (cfg : misc_config).
Context (binder : Z -> sockaddr_in6 -> prog Z) `{!BinderOk binder} (strict : bool).

Definition kept {A} (s : HevSocks5Client) : A -> HevSocks5Client -> Prop := fun _ s' => s' = s.

Lemma b_guard R m k s (R1 : Z -> HevSocks5Client -> Prop) :
  balanced strict [] [] R1 m s -> (forall r s', R1 r s' -> R (-1) s') ->
  (forall r s', R1 r s' -> balanced strict [] [] R k s') ->
  balanced strict [] [] R (guard m k) s.
Proof.
  intros Hm Hf Hk. eapply b_bind; [exact Hm|]. intros r s' Hr.
  case_decide; [apply b_ret|]; eauto.
Qed.

Lemma b_write_auth_methods s : balanced strict [] [] (kept s) hev_socks5_client_write_auth_methods s.
Proof. unfold hev_socks5_client_write_auth_methods. repeat bstep. Qed.

Lemma b_write_auth_creds s : balanced strict [] [] (kept s) hev_socks5_client_write_auth_creds s.
Proof. unfold hev_socks5_client_write_auth_creds. bstep. destruct (creds s) as [[]|]; repeat bstep. Qed.

Lemma b_read_auth_method s : balanced strict [] [] (kept s) hev_socks5_client_read_auth_method s.
Proof.
  unfold hev_socks5_client_read_auth_method. do 2 bstep; [bstep|].
  assert (count r = Z.of_nat 2) as Hc by lia.
  apply b_lift; [intros _; by apply (received_at r 2 0); [|lia]|]. intros ver _.
  bstep; [bstep|]. apply b_plift; [|done]. intros _. by apply (received_at r 2 1); [|lia].
Qed.

Lemma b_read_auth_creds s : balanced strict [] [] (kept s) hev_socks5_client_read_auth_creds s.
Proof.
  unfold hev_socks5_client_read_auth_creds. do 2 bstep; [bstep|].
  assert (count r = Z.of_nat 2) as Hc by lia.
  apply b_lift; [intros _; by apply (received_at r 2 0); [|lia]|]. intros ver _.
  bstep; [bstep|]. apply b_lift; [intros _; by apply (received_at r 2 1); [|lia]|]. intros rep _.
  repeat bstep.
Qed.

(** A TCP client gives its destination away; it must have one. *)
Definition request_ready (s : HevSocks5Client) : Prop :=
  strict = true -> exists a, sub s = ClientTCP (Some (encode a)) ∧ address_ok a.
Definition requested (s : HevSocks5Client) : Z -> HevSocks5Client -> Prop := fun _ s' =>
  s' = s \/ s' = set_sub (ClientTCP None) s ∧ exists addr, sub s = ClientTCP addr.

Lemma b_write_request s : request_ready s ->
  balanced strict [] [] (requested s) hev_socks5_client_write_request s.
Proof.
  intros Hready. unfold hev_socks5_client_write_request. bstep.
  destruct (request_cmd (type (base s))); [|bstep; by left].
  eapply (b_bind strict [] [] [] (fun addr s' => requested s 0 s' ∧
    (strict = true -> exists a, addr = Some (encode a) ∧ address_ok a))).
  - unfold get_upstream_addr. bstep. destruct (sub s) as [addr|ufd] eqn:Hs.
    + eapply b_put; [|apply b_ret]; [by unfold fds, client_fds; rewrite Hs|]. split; [right; eauto|].
      intros Hst. destruct (Hready Hst) as (a & Ha & Hok). rewrite Hs in Ha. injection Ha as ->. eauto.
    + assert (strict ≠ true) as Hns by (intros Hst; destruct (Hready Hst) as (a & Ha & _); congruence).
      bstep. destruct (hev_socks5_get_addr_family (base s)); repeat bstep; try (split; [by left | done]);
        match goal with |- context [if ?b then _ else _] => destruct b end; bstep;
        (split; [by left | done]).
  - intros addr s' [Hreq Ha]. apply b_lift.
    { intros Hst. destruct (Ha Hst) as (a & -> & _). by eexists. }
    intros v ->. apply b_lift.
    { intros Hst. destruct (Ha Hst) as (a & [= ->] & Hok).
      destruct a; simpl; eauto. }
    intros len Hlen. bstep; [bstep|]. apply b_lift.
    { intros Hst. destruct (Ha Hst) as (a & [= ->] & Hok).
      assert (hev_socks5_addr_len (encode a) = Some (Z.of_nat (length (encode a)))) as Hl
        by (rewrite (encode_length a Hok); by destruct a).
      rewrite Hl in Hlen. injection Hlen as <-. rewrite rd_0 by lia. eauto. }
    intros w _. repeat bstep.
Qed.

Lemma addr_into_total addr fam : length addr = sizeof_addr ->
  (atype addr = Some HEV_SOCKS5_ADDR_TYPE_IPV4 \/ atype addr = Some HEV_SOCKS5_ADDR_TYPE_IPV6) ->
  is_Some (hev_socks5_addr_into_sockaddr6 addr (mk_sockaddr 0 0 (replicate 16 0)) fam).
Proof.
  unfold sizeof_addr. intros Hl [Ht|Ht]; unfold hev_socks5_addr_into_sockaddr6; rewrite Ht;
    cbn [mbind option_bind].
  - rewrite decide_True by done. unfold hev_socks5_ipv4_into_sockaddr6.
    rewrite !rd_bound by lia. cbn [mbind option_bind].
    pose proof (v4mapped_write (replicate 16 0) (take (Z.to_nat 4) (drop (Z.to_nat 1) addr)) eq_refl
      ltac:(rewrite length_take, length_drop; lia)) as Hw.
    wr_steps Hw. cbn [sin6_addr]. rewrite E. cbn [mbind option_bind]. rewrite E0.
    cbn [mbind option_bind]. rewrite E1. cbn [mbind option_bind]. rewrite Hw. by eexists.
  - rewrite decide_False, decide_True by done. unfold hev_socks5_ipv6_into_sockaddr6.
    rewrite !rd_bound by lia. cbn [mbind option_bind sin6_addr].
    rewrite wr_0 by (rewrite length_take, length_drop, length_replicate; lia). by eexists.
Qed.

Definition unassociated (s : HevSocks5Client) : Prop :=
  match sub s with ClientTCP _ => True | ClientUDP ufd => ufd < 0 end.

Lemma b_set_upstream_addr addr s : unassociated s -> length addr = sizeof_addr ->
  (atype addr = Some HEV_SOCKS5_ADDR_TYPE_IPV4 \/ atype addr = Some HEV_SOCKS5_ADDR_TYPE_IPV6) ->
  balanced strict [] [] (fun _ _ => True) (set_upstream_addr cfg binder addr) s.
Proof.
  intros Hu Hl Ht. unfold set_upstream_addr. bstep. unfold unassociated in Hu.
  destruct (sub s) as [|ufd] eqn:Hs; [by bstep|]. do 2 bstep; [by bstep|]. bstep.
  apply b_lift; [intros _; by apply addr_into_total|]. intros [[res sa] fam] _. bstep; [by bstep|].
  apply b_socket. intros g. bstep; [rewrite opened_neg by done; by bstep|]. rewrite opened_pos by done.
  eapply (b_bind strict _ [g] _ (kept s)).
  { intros tr Q HQ. unfold bind_fd. apply wpp_prog_bind, binder_quiet. intros tr' r Hq. simpl.
    apply HQ; [by apply fd_effect_refl | done]. }
  intros r s' ->. bstep; [bstep; apply b_close; intros _; by bstep|].
  bstep. bstep; [bstep; apply b_close; intros _; by bstep|].
  eapply b_put; [done|]. eapply (b_put strict [g] []); [|by bstep].
  unfold fds, client_fds. simpl. rewrite Hs. rewrite (opened_neg ufd), (opened_pos g) by done. done.
Qed.

Lemma b_read_response s : unassociated s ->
  balanced strict [] [] (fun _ _ => True) (hev_socks5_client_read_response cfg binder) s.
Proof.
  intros Hu. unfold hev_socks5_client_read_response. do 2 bstep; [by bstep|].
  assert (count r = Z.of_nat 4) as Hc by lia.
  apply b_lift; [intros _; by apply (received_at r 4 0); [|lia]|]. intros ver _. bstep; [by bstep|].
  apply b_lift; [intros _; by apply (received_at r 4 1); [|lia]|]. intros rep _. bstep; [by bstep|].
  apply b_lift; [intros _; by apply (received_at r 4 3); [|lia]|]. intros atyp _.
  assert (forall n, (n <= 18)%nat -> (atyp = HEV_SOCKS5_ADDR_TYPE_IPV4 \/ atyp = HEV_SOCKS5_ADDR_TYPE_IPV6) ->
    balanced strict [] [] (fun _ _ => True)
    (r ← call (ERecv (Z.of_nat n));
     if decide (count r ≠ Z.of_nat n) then mret (-1) else
     ret ← set_upstream_addr cfg binder
       (atyp :: received r ++ replicate (sizeof_addr - S (length (received r))) 0);
     if decide (ret < 0) then mret (-1) else mret 0) s) as Hrest.
  { intros n Hn Hty. bstep. bstep; [by bstep|]. eapply b_bind.
    - apply b_set_upstream_addr; [done| |].
      + destruct r0 as [v|]; simpl in *; [|lia]. rewrite length_app, length_replicate.
        unfold sizeof_addr. lia.
      + by destruct Hty as [->| ->]; [left|right].
    - intros ret s' _. case_decide; by bstep. }
  case_decide; [apply (Hrest 6%nat); [lia|by left]|].
  case_decide; [apply (Hrest 18%nat); [lia|by right]|]. by bstep.
Qed.

Definition ready (s : HevSocks5Client) : Prop := unassociated s ∧ request_ready s.

Lemma requested_unassociated s r s' : unassociated s -> requested s r s' -> unassociated s'.
Proof. by intros Hu [->|[-> _]]. Qed.

Lemma b_response s : unassociated s -> balanced strict [] [] (fun _ _ => True)
  (guard (hev_socks5_client_read_response cfg binder) (mret 0)) s.
Proof.
  intros Hu. eapply b_guard; [by apply b_read_response | done |]. intros r s' _. by bstep.
Qed.

Lemma b_handshake_standard s : ready s ->
  balanced strict [] [] (fun _ _ => True) (hev_socks5_client_handshake_standard cfg binder) s.
Proof.
  intros [Hu Hr]. unfold hev_socks5_client_handshake_standard.
  eapply b_guard; [apply b_write_auth_methods | done |]. intros r1 s' ->.
  eapply b_bind; [apply b_read_auth_method|]. intros method s' ->.
  assert (balanced strict [] [] (fun _ _ => True) (guard hev_socks5_client_write_request
    (guard (hev_socks5_client_read_response cfg binder) (mret 0))) s) as Hrest.
  { eapply b_guard; [by apply b_write_request | done |]. intros r2 s2 Hs2.
    apply b_response. by eapply requested_unassociated. }
  bstep; [by bstep|]. bstep.
  - eapply b_guard; [apply b_write_auth_creds | done |]. intros r3 s3 ->.
    eapply b_guard; [apply b_read_auth_creds | done |]. by intros r4 s4 ->.
  - bstep; [by bstep | done].
Qed.

Lemma b_handshake_pipeline s : ready s ->
  balanced strict [] [] (fun _ _ => True) (hev_socks5_client_handshake_pipeline cfg binder) s.
Proof.
  intros [Hu Hr]. unfold hev_socks5_client_handshake_pipeline.
  eapply b_guard; [apply b_write_auth_methods | done |]. intros r1 s' ->.
  eapply b_guard; [apply b_write_auth_creds | done |]. intros r2 s' ->.
  eapply b_guard; [by apply b_write_request | done |]. intros r3 s2 Hs2.
  assert (unassociated s2) as Hu2 by (by eapply requested_unassociated).
  eapply b_bind; [apply b_read_auth_method|]. intros method s3 ->.
  bstep; [by bstep|]. bstep.
  - eapply b_guard; [apply b_read_auth_creds | done |]. intros r4 s4 ->. by apply b_response.
  - bstep; [by bstep | by apply b_response].
Qed.

Lemma b_handshake pipeline s : ready s ->
  balanced strict [] [] (fun _ _ => True) (hev_socks5_client_handshake cfg binder pipeline) s.
Proof.
  intros Hr. unfold hev_socks5_client_handshake. eapply (b_put strict [] []); [done|].
  eapply (b_bind strict [] [] [] (fun _ _ => True)).
  { destruct pipeline; [by apply b_handshake_pipeline | by apply b_handshake_standard]. }
  intros res s' _. bstep. eapply (b_bind strict [] [] [] (fun _ _ => True)); [|intros; by bstep].
  destruct (type (base s')); try by bstep.
  - intros tr Q HQ. specialize (HQ [] tt (upd_base (hev_socks5_set_timeout (udp_timeout cfg)) s')).
    rewrite app_nil_r in HQ. apply HQ; [by apply fd_effect_refl | done].
  - intros tr Q HQ. specialize (HQ [] tt (upd_base (hev_socks5_set_timeout (udp_timeout cfg)) s')).
    rewrite app_nil_r in HQ. apply HQ; [by apply fd_effect_refl | done].
Qed.

(** Connecting gives the object a descriptor; it must have none. *)
Lemma b_connect addr port s : fd (base s) < 0 -> ready s ->
  balanced strict [] [] (fun res s' => res < 0 \/ (ready s' ∧ sub s' = sub s ∧ type (base s') = type (base s)))
    (hev_socks5_client_connect cfg binder addr port) s.
Proof.
  intros Hfd Hready. unfold hev_socks5_client_connect. eapply (b_put strict [] []); [done|]. bstep.
  apply b_lift.
  { intros _. pose proof (name_into_ok addr port (mk_sockaddr 0 0 (replicate 16 0))
      (hev_socks5_get_addr_family (base (upd_base (hev_socks5_set_timeout (connect_timeout cfg)) s)))
      ltac:(done)) as Hn.
    destruct (name_meaning _ _) as [[ip f]|]; [by rewrite Hn; eexists|].
    destruct Hn as (sa' & f & ->). by eexists. }
  intros [[res sa] fam] _. bstep; [bstep; left; lia|].
  apply b_socket. intros g. bstep; [rewrite opened_neg by done; bstep; left; lia|].
  rewrite opened_pos by done.
  eapply (b_bind strict _ [g] _ (kept _)).
  { intros tr Q HQ. unfold bind_fd. apply wpp_prog_bind, binder_quiet. intros tr' r Hq. simpl.
    apply HQ; [by apply fd_effect_refl | done]. }
  intros r s' ->. bstep; [bstep; apply b_close; intros _; bstep; left; lia|].
  bstep. bstep; [bstep; apply b_close; intros _; bstep; left; lia|].
  eapply (b_put strict [g] []).
  { unfold fds, client_fds. simpl. rewrite (opened_neg (fd (base s))), (opened_pos g), app_nil_r by done.
    apply Permutation_cons_append. }
  eapply (b_put strict [] []); [done|]. bstep. right. done.
Qed.
End ClientBalanced.

(** ** The whole life of a session *)

Lemma wpp_destruct strict s tr Q :
  (forall tr', fd_effect tr' (fds s) [] -> Q (tr ++ tr') tt) ->
  wpp strict (hev_socks5_client_destruct s) tr Q.
Proof.
  intros HQ. unfold hev_socks5_client_destruct, fds, client_fds in *.
  assert (forall tr1, fd_effect tr1 (match sub s with ClientUDP ufd => opened ufd | ClientTCP _ => [] end
      ++ opened (fd (base s))) (opened (fd (base s))) ->
    wpp strict (hev_socks5_destruct (base s)) (tr ++ tr1) Q) as Hbase.
  { intros tr1 H1. unfold hev_socks5_destruct. case_decide as Hf; simpl.
    - intros r1 _ r2 _. rewrite <- !app_assoc. apply HQ. eapply fd_effect_trans; [exact H1|].
      rewrite opened_pos by lia. eapply (fd_effect_trans [_] [_]); [|apply fd_effect_close].
      apply fd_effect_refl. by apply Forall_singleton.
    - apply HQ. rewrite (opened_neg (fd (base s))) in H1 by lia.
      by rewrite (opened_neg (fd (base s))) by lia. }
  destruct (sub s) as [[addr|]|ufd]; simpl in *.
  - intros r _. apply (Hbase [_]). apply fd_effect_refl. by apply Forall_singleton.
  - specialize (Hbase []). rewrite app_nil_r in Hbase. apply Hbase. by apply fd_effect_refl.
  - case_decide as Hu.
    + simpl. intros r1 _ r2 _. rewrite <- !app_assoc. apply (Hbase ([_] ++ [_])).
      rewrite opened_pos by lia. eapply fd_effect_trans; [|apply fd_effect_close].
      apply fd_effect_refl. by apply Forall_singleton.
    + specialize (Hbase []). rewrite app_nil_r in Hbase. apply Hbase.
      rewrite (opened_neg ufd) by lia. by apply fd_effect_refl.
Qed.

(** An object as its constructor leaves it. *)
Definition fresh_session (s : HevSocks5Client) : Prop :=
  fd (base s) = -1 ∧ match sub s with ClientTCP _ => True | ClientUDP ufd => ufd = -1 end.

Section Life.
Context `{Resolver} `{!ResolverOk} (cfg : misc_config) (srv : HevConfigServer).
Context (binder : Z -> sockaddr_in6 -> prog Z) `{!BinderOk binder}.
Context (splicer : cproc unit) `{!SplicerOk splicer}.

Lemma wpp_session_life strict s : fresh_session s -> request_ready strict s ->
  wpp strict (session_life cfg srv binder splicer s) [] (fun tr _ => fd_fold tr [] = Some []).
Proof.
  intros [Hfd Hsub] Hreq. unfold session_life. apply wpp_prog_bind.
  assert (ready strict s) as Hr.
  { split; [|done]. unfold unassociated. destruct (sub s); [done|lia]. }
  assert (balanced strict [] [] (fun _ _ => True) (hev_socks5_session_run cfg srv binder splicer) s) as Hb.
  { unfold hev_socks5_session_run.
    eapply b_bind; [apply b_connect; [done|lia|done]|]. intros res s1 Hs1.
    bstep; [by bstep|]. destruct Hs1 as [?|(Hr1 & Hsub1 & _)]; [lia|].
    assert (forall s2, ready strict s2 -> balanced strict [] [] (fun _ _ => True)
      (res ← hev_socks5_client_handshake cfg binder (srv_pipeline srv);
       if decide (res < 0) then mret tt else splicer) s2) as Hrest.
    { intros s2 Hr2. eapply b_bind; [by apply b_handshake|]. intros res2 s3 _.
      bstep; [by bstep | apply splicer_balanced]. }
    destruct (srv_user srv), (srv_pass srv);
      try (eapply (b_bind strict [] [] [] (kept s1)); [by bstep|]; intros r s2 ->; by apply Hrest).
    eapply (b_put strict [] []); [done|]. by apply Hrest. }
  apply Hb. intros tr' r s' He _. apply wpp_destruct. intros tr2 He2. simpl.
  assert (fd_effect (tr' ++ tr2) [] []) as Htot.
  { eapply fd_effect_trans; [|exact He2]. intros k Hk. apply He. simpl. unfold fds, client_fds.
    destruct (sub s); rewrite ?Hsub, Hfd, ?(opened_neg (-1)) by lia; done. }
  destruct (Htot [] ltac:(done)) as (k' & Hk' & Hp). apply Permutation_nil_r in Hp. by subst.
Qed.
End Life.


(** A UDP client whose allocation fails reads through NULL. *)
Lemma hev_socks5_client_write_request_null t user pass :
  ~ crash_free (hev_socks5_client_write_request
      (mk_client (mk_socks5 5 (-1) 0 HEV_SOCKS5_TYPE_UDP_IN_TCP HEV_SOCKS5_ADDR_FAMILY_IPV4) user pass
         (ClientUDP t))).
Proof. intros Hc. exact (Hc false I). Qed.

#[export] Instance no_splicer_ok : SplicerOk (mret tt).
Proof. intros strict s. by apply b_ret. Qed.

Definition example_session : HevSocks5Client :=
  hev_socks5_client_construct HEV_SOCKS5_TYPE_TCP (ClientTCP (Some (encode (IPv4 [192; 0; 2; 1] 80)))).


End Socks5Session.
