(* ===== verification/Socks5ClientTrace.v ===== *)
(** * What a client says, and what it takes for a success

    Over everything a proxy may answer: the exact traces of a successful handshake, and
    when the credentials go out. *)

From S2P Require Import Prelude Socks5Addr Socks5Io Socks5Client Socks5Handshake.

Module Socks5ClientTrace.
Import Socks5Addr Socks5Io Socks5Client Socks5Handshake.

(** The credentials are the only message that starts with the version byte 1; each of
    them directly follows the proxy's choice of that method. *)
Fixpoint creds_on_demand (prev : option entry) (tr : list entry) : Prop :=
  match tr with
  | [] => True
  | en :: tr =>
      match en with
      | mk_entry (ESend v) _ => head v = Some 1 -> prev = Some (mk_entry (ERecv 2) (Some [5; 2]))
      | _ => True
      end ∧ creds_on_demand (Some en) tr
  end.

(** The answers to a request that mean success. *)
Definition success_response (tr : list entry) : Prop :=
  exists rsv t v, (t = 1 ∧ length v = 6%nat \/ t = 4 ∧ length v = 18%nat)
    ∧ tr = [mk_entry (ERecv 4) (Some [5; 0; rsv; t]);
            mk_entry (ERecv (Z.of_nat (length v))) (Some v)].

(** The traces of success: the method exchange, the login if the proxy chose it, and the
    request with its response. *)
Definition success_trace (c : option (bytes * bytes)) (a : address) (tr : list entry) : Prop :=
  exists k1 k2 u tr',
    success_response tr'
    ∧ (tr = [mk_entry (ESend (methods_msg c)) k1; mk_entry (ERecv 2) (Some [5; 0]);
             mk_entry (ESend (request_msg 1 a)) k2; mk_entry EFree u] ++ tr'
       \/ exists login, (match c with
                        | None => login = []
                        | Some (u, p) => exists k, login = [mk_entry (ESend (creds_msg u p)) k]
                        end)
          ∧ tr = [mk_entry (ESend (methods_msg c)) k1; mk_entry (ERecv 2) (Some [5; 2])] ++ login
             ++ [mk_entry (ERecv 2) (Some [1; 0]); mk_entry (ESend (request_msg 1 a)) k2; mk_entry EFree u]
             ++ tr').

Section Trace.
Context `{Resolver} (cfg : misc_config) (binder : Z -> sockaddr_in6 -> prog Z).

Lemma t_write_auth_methods s tr Q :
  (forall k res, Q (tr ++ [mk_entry (ESend (methods_msg (creds s))) k]) (res, s)) ->
  wpp true (hev_socks5_client_write_auth_methods s) tr Q.
Proof.
  intros HQ. unfold hev_socks5_client_write_auth_methods, methods_msg in *. apply wpp_get.
  destruct (creds s); apply wpp_call; intros k _; case_decide; apply HQ.
Qed.

Lemma t_write_auth_creds s u p tr Q : creds s = Some (u, p) -> cred_ok u -> cred_ok p ->
  (forall k res, Q (tr ++ [mk_entry (ESend (creds_msg u p)) k]) (res, s)) ->
  wpp true (hev_socks5_client_write_auth_creds s) tr Q.
Proof.
  unfold cred_ok. intros Hc Hu Hp HQ. unfold hev_socks5_client_write_auth_creds. apply wpp_get. rewrite Hc.
  assert (forall x : bytes, (0 < length x <= 255)%nat -> u8 (Z.of_nat (length x)) = Z.of_nat (length x)) as Hl
    by (intros x Hx; apply Z.mod_small; lia).
  rewrite (Hl u Hu), (Hl p Hp), !Nat2Z.id, !firstn_all. apply wpp_call. intros k _.
  case_decide; apply HQ.
Qed.

Ltac two_bytes r Hc a b :=
  destruct r as [[|a [|b [|? ?]]]|]; simpl in Hc; try lia.

Lemma t_read_auth_method s tr Q :
  (forall r, Q (tr ++ [mk_entry (ERecv 2) r]) (-1, s)) ->
  (forall m, 0 <= m -> Q (tr ++ [mk_entry (ERecv 2) (Some [5; m])]) (m, s)) ->
  wpp true (hev_socks5_client_read_auth_method s) tr Q.
Proof.
  intros Hf Hok. apply wpp_call. intros r Hr. case_decide as Hc; [apply Hf|].
  two_bytes r Hc a m. eapply wpp_lift_some; [reflexivity|]. case_decide as Ha; [apply Hf|]. subst.
  change (Q (tr ++ [mk_entry (ERecv 2) (Some [5; m])]) (m, s)).
  apply Hok. destruct Hr as [Hb _]. apply Forall_cons in Hb as [_ Hb].
  apply Forall_cons in Hb as [Hb _]. unfold is_u8 in Hb. lia.
Qed.

Lemma t_read_auth_creds s tr Q :
  (forall r, Q (tr ++ [mk_entry (ERecv 2) r]) (-1, s)) ->
  Q (tr ++ [mk_entry (ERecv 2) (Some [1; 0])]) (0, s) ->
  wpp true (hev_socks5_client_read_auth_creds s) tr Q.
Proof.
  intros Hf Hok. apply wpp_call. intros r Hr. case_decide as Hc; [apply Hf|].
  two_bytes r Hc a m. eapply wpp_lift_some; [reflexivity|]. case_decide as Ha; [apply Hf|]. subst.
  eapply wpp_lift_some; [reflexivity|]. case_decide as Hm; [apply Hf|]. by subst.
Qed.

Lemma t_write_request s a tr Q : type (base s) = HEV_SOCKS5_TYPE_TCP ->
  sub s = ClientTCP (Some (encode a)) -> address_ok a ->
  (forall k, Q (tr ++ [mk_entry (ESend (request_msg 1 a)) k]) (-1, set_sub (ClientTCP None) s)) ->
  (forall k u, Q (tr ++ [mk_entry (ESend (request_msg 1 a)) k; mk_entry EFree u]) (0, set_sub (ClientTCP None) s)) ->
  wpp true (hev_socks5_client_write_request s) tr Q.
Proof.
  intros Ht Hs Ha Hf Hok. unfold hev_socks5_client_write_request. apply wpp_get. rewrite Ht. cbn [request_cmd].
  assert (hev_socks5_addr_len (encode a) = Some (Z.of_nat (length (encode a)))) as Hlen.
  { rewrite (encode_length a Ha). by destruct a. }
  assert (rd (encode a) 0 (Z.of_nat (length (encode a))) = Some (encode a)) as Hrd
    by (apply (rd_app [] (encode a) []); by rewrite ?app_nil_r).
  apply wpp_bind. unfold get_upstream_addr. apply wpp_get. rewrite Hs. apply wpp_put. cbn [fst snd].
  apply wpp_lift; [by eexists|]. intros v [= <-].
  apply wpp_lift; [by rewrite Hlen; eexists|]. intros l Hl. rewrite Hlen in Hl. injection Hl as <-.
  rewrite decide_False by lia.
  apply wpp_lift; [by rewrite Hrd; eexists|]. intros w Hw. rewrite Hrd in Hw. injection Hw as <-.
  apply wpp_call. intros k _. case_decide; [apply Hf|]. apply wpp_call. intros u _.
  rewrite <- app_assoc. apply Hok.
Qed.

Lemma t_read_response s tr Q : sub s = ClientTCP None ->
  (forall tr', Forall (fun en => match call_of en with ERecv _ => True | _ => False end) tr' -> Q (tr ++ tr') (-1, s)) ->
  (forall tr', success_response tr' -> Q (tr ++ tr') (0, s)) ->
  wpp true (hev_socks5_client_read_response cfg binder s) tr Q.
Proof.
  intros Hs Hf Hok. apply wpp_call. intros r Hr.
  assert (forall r', Q (tr ++ [mk_entry (ERecv 4) r']) (-1, s)) as Hf1
    by (intros r'; apply Hf; by apply Forall_singleton).
  case_decide as Hc; [apply Hf1|]. destruct r as [[|ver [|rep [|rsv [|t [|? ?]]]]]|]; simpl in Hc; try lia.
  eapply wpp_lift_some; [reflexivity|].
  case_decide as Hver; [apply Hf1|]. subst.
  eapply wpp_lift_some; [reflexivity|].
  case_decide as Hrep; [apply Hf1|]. subst.
  eapply wpp_lift_some; [reflexivity|].
  assert (forall n, n = 6%nat ∧ t = 1 \/ n = 18%nat ∧ t = 4 -> wpp true
    ((r ← call (ERecv (Z.of_nat n));
      if decide (count r ≠ Z.of_nat n) then mret (-1) else
      ret ← set_upstream_addr cfg binder
        (t :: received r ++ replicate (sizeof_addr - S (length (received r))) 0);
      if decide (ret < 0) then mret (-1) else mret 0) s)
    (tr ++ [mk_entry (ERecv 4) (Some [5; 0; rsv; t])]) Q) as Hrest.
  { intros n Hn. apply wpp_call. intros r2 _. case_decide as Hc2.
    { rewrite <- app_assoc. apply Hf. repeat (apply Forall_cons; split; [exact I|]). constructor. }
    apply wpp_bind. unfold set_upstream_addr. apply wpp_get. rewrite Hs. cbn [fst snd wpp mret proc_ret].
    rewrite decide_False by lia. change (Q ((tr ++ [mk_entry (ERecv 4) (Some [5; 0; rsv; t])]) ++ [mk_entry (ERecv (Z.of_nat n)) r2]) (0, s)).
    rewrite <- app_assoc. apply Hok.
    destruct r2 as [v|]; simpl in Hc2; [|lia]. assert (length v = n) as Hv by lia.
    exists rsv, t, v. split; [lia|]. by rewrite Hv. }
  case_decide as Ht; [apply (Hrest 6%nat); by left|].
  case_decide as Ht2; [apply (Hrest 18%nat); by right|]. apply Hf1.
Qed.
End Trace.

(** The receives of a trace do not carry credentials. *)
Lemma creds_on_demand_recv prev tr :
  Forall (fun en => match call_of en with ERecv _ => True | _ => False end) tr -> creds_on_demand prev tr.
Proof.
  revert prev. induction tr as [|[e r] tr IH]; intros prev; [done|].
  intros [He Htr]%Forall_cons. split; [by destruct e | by apply IH].
Qed.

Lemma success_response_recv tr : success_response tr ->
  Forall (fun en => match call_of en with ERecv _ => True | _ => False end) tr.
Proof. intros (rsv & t & v & _ & ->). repeat (apply Forall_cons; split; [exact I|]). constructor. Qed.

Section Standard.
Context `{Resolver} (cfg : misc_config) (binder : Z -> sockaddr_in6 -> prog Z).
Context (s : HevSocks5Client) (a : address).
Context (Ht : type (base s) = HEV_SOCKS5_TYPE_TCP) (Hs : sub s = ClientTCP (Some (encode a))).
Context (Ha : address_ok a).
Context (Hc : forall u p, creds s = Some (u, p) -> cred_ok u ∧ cred_ok p).

Definition standard_post (tr : list entry) (r : Z * HevSocks5Client) : Prop :=
  creds_on_demand None tr ∧ (fst r = 0 -> success_trace (creds s) a tr).

Lemma wpp_request_response tr :
  creds_on_demand None tr ->
  (forall tr', Forall (fun en => match en with
                       | mk_entry (ESend v) _ => head v ≠ Some 1
                       | _ => True end) tr' -> creds_on_demand None (tr ++ tr')) ->
  (forall k u tr', success_response tr' ->
     success_trace (creds s) a (tr ++ [mk_entry (ESend (request_msg 1 a)) k; mk_entry EFree u] ++ tr')) ->
  wpp true (guard hev_socks5_client_write_request
    (guard (hev_socks5_client_read_response cfg binder) (mret 0)) s) tr standard_post.
Proof.
  intros H1 H2 H3. unfold guard at 1. apply wpp_bind. apply (t_write_request s a); [done..| |]; cbn -[decide].
  - intros k. rewrite decide_True by lia. split; [|done]. apply H2. by repeat constructor.
  - intros k u. rewrite decide_False by lia. unfold guard. apply wpp_bind.
    apply t_read_response; [done| |]; cbn -[decide].
    + intros tr' Hr. rewrite decide_True by lia. split; [|done]. rewrite <- app_assoc. apply H2.
      repeat (apply Forall_cons; split; [done|]). eapply Forall_impl; [exact Hr|]. by intros [[] ?].
    + intros tr' Hr. rewrite decide_False by lia. rewrite <- app_assoc. split; [|intros _; by apply H3].
      apply H2. repeat (apply Forall_cons; split; [done|]).
      eapply Forall_impl; [by apply success_response_recv|]. by intros [[] ?].
Qed.

Lemma methods_quiet c : head (methods_msg c) ≠ Some 1.
Proof. done. Qed.

Lemma wpp_standard : wpp true (hev_socks5_client_handshake_standard cfg binder s) [] standard_post.
Proof.
  unfold hev_socks5_client_handshake_standard. unfold guard at 1. apply wpp_bind.
  apply t_write_auth_methods. intros k1 res. cbn [app fst snd].
  case_decide; [by split|]. apply wpp_bind. apply t_read_auth_method; cbn [app fst snd].
  { intros r. rewrite decide_True by lia. by split. }
  intros m Hm. rewrite decide_False by lia. case_decide as Hu; [|case_decide as Hn; [by split|]].
  - unfold HEV_SOCKS5_AUTH_METHOD_USER in Hu. subst m. unfold guard at 1. apply wpp_bind.
    assert (forall login, (match creds s with
        | None => login = []
        | Some (u, p) => exists k, login = [mk_entry (ESend (creds_msg u p)) k] end) ->
      wpp true (guard hev_socks5_client_read_auth_creds (guard hev_socks5_client_write_request
        (guard (hev_socks5_client_read_response cfg binder) (mret 0))) s)
        ([mk_entry (ESend (methods_msg (creds s))) k1; mk_entry (ERecv 2) (Some [5; 2])] ++ login)
        standard_post) as Hrest.
    { intros login Hlogin.
      assert (forall tr', Forall (fun en => match en with
                         | mk_entry (ESend v) _ => head v ≠ Some 1
                         | _ => True end) tr' ->
        creds_on_demand None (([mk_entry (ESend (methods_msg (creds s))) k1;
          mk_entry (ERecv 2) (Some [5; 2])] ++ login) ++ tr')) as Hdem.
      { intros tr' Htr'.
        assert (forall prev, creds_on_demand prev tr') as Hq.
        { clear -Htr'. induction tr' as [|[e r] tr' IH]; intros prev; [done|].
          apply Forall_cons in Htr' as [He Htr']. split; [by destruct e | by apply IH]. }
        rewrite <- app_assoc. split; [by intros ?|]. split; [done|].
        destruct (creds s) as [[u p]|]; [destruct Hlogin as [k ->]; by split | subst; apply Hq]. }
      unfold guard at 1. apply wpp_bind. apply t_read_auth_creds; cbn [fst snd].
      - intros r. rewrite decide_True by lia. split; [|done]. apply Hdem. by apply Forall_singleton.
      - rewrite decide_False by lia. apply wpp_request_response.
        + apply Hdem. by apply Forall_singleton.
        + intros tr' Htr'. rewrite <- app_assoc. apply Hdem. by apply Forall_cons.
        + intros k u tr' Hok. exists k1, k, u, tr'. split; [done|]. right. exists login.
          split; [done|]. by rewrite <- !app_assoc. }
    destruct (creds s) as [[u p]|] eqn:Hcr.
    + destruct (Hc u p eq_refl) as [Hu Hp]. eapply t_write_auth_creds; [done..|].
      intros k res2. cbn [fst snd]. case_decide; [|apply Hrest; by exists k].
      split; [|done]. split; [by intros ?|]. split; [done|]. by split.
    + unfold hev_socks5_client_write_auth_creds. apply wpp_get. rewrite Hcr. cbn [wpp mret proc_ret fst snd].
      rewrite decide_False by lia. by apply (Hrest []).
  - unfold HEV_SOCKS5_AUTH_METHOD_NONE in Hn.
    assert (m = 0) as -> by (destruct (decide (m = 0)); [done|tauto]).
    apply wpp_request_response.
    + by split.
    + intros tr' Htr'. split; [by intros ?|]. split; [done|].
      generalize (Some (mk_entry (ERecv 2) (Some [5; 0]))). clear -Htr'.
      induction tr' as [|[e r] tr' IH]; intros prev; [done|].
      apply Forall_cons in Htr' as [He Htr']. split; [by destruct e | by apply IH].
    + intros k u tr' Hok. exists k1, k, u, tr'. split; [done|]. by left.
Qed.
End Standard.

(** C37: What a TCP client says in the standard handshake.  Whatever the proxy answers,
    the client never accesses invalid memory; it sends its credentials only directly
    after the proxy chose that method; and it reports success only after exactly the
    exchange the protocol prescribes: the methods and the proxy's choice, the login and
    its acceptance if that was the choice, the request in its wire form, and a response
    of success with a complete address. *)
Theorem hev_socks5_client_handshake_standard_trace `{Resolver} cfg binder s a :
  type (base s) = HEV_SOCKS5_TYPE_TCP -> sub s = ClientTCP (Some (encode a)) -> address_ok a ->
  (forall u p, creds s = Some (u, p) -> cred_ok u ∧ cred_ok p) ->
  crash_free (hev_socks5_client_handshake_standard cfg binder s)
  ∧ forall tr res s', exec (hev_socks5_client_handshake_standard cfg binder s) tr (res, s') ->
      creds_on_demand None tr ∧ (res = 0 -> success_trace (creds s) a tr).
Proof.
  intros Ht Hs Ha Hc. pose proof (wpp_standard cfg binder s a Ht Hs Ha Hc) as Hw. split.
  - by eapply wpp_crash_free.
  - intros tr res s' He. exact (wpp_exec true _ [] _ Hw tr (res, s') He).
Qed.

Lemma hev_socks5_client_handshake_standard_trace_witness :
  let a := Name [97; 46; 98] 443 in
  let s := mk_client (hev_socks5_construct HEV_SOCKS5_TYPE_TCP) (Some [117]) (Some [112])
             (ClientTCP (Some (encode a))) in
  let hs := @hev_socks5_client_handshake_standard example_resolver (mk_misc 1 2 3 4) hev_socks5_bind s in
  crash_free hs
  ∧ forall tr res s', exec hs tr (res, s') ->
      creds_on_demand None tr ∧ (res = 0 -> success_trace (Some ([117], [112])) a tr).
Proof.
  cbn zeta. apply (@hev_socks5_client_handshake_standard_trace example_resolver); [done|done| |].
  - split_and!; [|simpl; lia|simpl; lia|by vm_compute].
    repeat (apply Forall_cons; split; [by vm_compute|]). constructor.
  - intros u p [= <- <-]. unfold cred_ok. simpl. lia.
Defined.

End Socks5ClientTrace.
