(* ===== verification/Authenticator.v ===== *)
(** * Users and the authenticator: src/core/src/hev-socks5-{user,authenticator}.c

    The users of a server, in a red-black tree by name: shorter names are smaller, and
    names of one length are compared bytewise.  A user is a counted object that holds its
    tree node. *)

From stdpp Require Import sorting.
From S2P Require Import Prelude HevRBTree HevRBTreeProofs HevRBTreeFrame HevRBTreeSpec Socks5Server Socks5Handshake.

Module Authenticator.
Import HevRBTreeSpec.

(** ** Data *)

(** [name_len] and [pass_len] are the lengths of the blocks. *)
Record HevSocks5User := mk_user { name : bytes; pass : bytes; refs : Z }.

Record HevSocks5Authenticator := mk_auth {
  tree : HevRBTree.state; users : gmap loc HevSocks5User }.

Definition set_tree v s := mk_auth v (users s).
Definition set_users v s := mk_auth (tree s) v.

Definition with_tree {A} (m : M HevRBTree.state A) : M HevSocks5Authenticator A := fun s =>
  match m (tree s) with Some (a, t) => Some (a, set_tree t s) | None => None end.
Definition load (l : loc) : M HevSocks5Authenticator HevSocks5User := mget (fun s => users s !! l).

(** ** Users *)

(** The name and the password are copied into new blocks; [ok]: the allocations
    succeed, which the code does not check.  A new object has one reference. *)
Definition hev_socks5_user_construct (ok : bool) (nm pw : bytes) : option HevSocks5User :=
  if ok then Some (mk_user nm pw 1) else None.

Definition hev_socks5_user_new (mem : ptr) (ok : bool) (nm pw : bytes) : M HevSocks5Authenticator ptr :=
  match mem with
  | None => mret None
  | Some l =>
      u ← mget (fun _ => hev_socks5_user_construct ok nm pw);
      with_tree (HevRBTree.alloc_node l);;
      mput (fun s => Some (set_users (<[l := u]> (users s)) s));;
      mret (Some l)
  end.

Definition hev_socks5_user_checker (self : HevSocks5User) (pw : bytes) : Z :=
  if decide (length (pass self) ≠ length pw) then -1
  else if decide (memcmp (pass self) pw (length pw) ≠ 0) then -1
  else 0.

Definition hev_socks5_user_check : HevSocks5User -> bytes -> Z := hev_socks5_user_checker.

(** The object is freed, and the tree node in it. *)
Definition hev_socks5_user_destruct (l : loc) : M HevSocks5Authenticator unit :=
  with_tree (HevRBTree.free_node l);;
  mput (fun s => Some (set_users (delete l (users s)) s)).

(** Dropping a reference; the last one destroys the object. *)
Definition unref (l : loc) : M HevSocks5Authenticator unit :=
  u ← load l;
  if decide (refs u - 1 = 0) then hev_socks5_user_destruct l
  else mput (fun s => Some (set_users (<[l := mk_user (name u) (pass u) (refs u - 1)]> (users s)) s)).

(** ** The authenticator *)

Definition key_cmp (this : bytes) (key : bytes) : Z :=
  if decide (length this < length key)%nat then -1
  else if decide (length key < length this)%nat then 1
  else memcmp this key (length this).

Definition user_cmp (s : HevSocks5Authenticator) (key : bytes) (l : loc) : option Z :=
  u ← users s !! l; Some (key_cmp (name u) key).

Definition hev_socks5_authenticator_construct : HevSocks5Authenticator :=
  mk_auth HevRBTree.empty_tree ∅.

(** [ok]: the allocation succeeds. *)
Definition hev_socks5_authenticator_new (ok : bool) : option HevSocks5Authenticator :=
  if ok then Some hev_socks5_authenticator_construct else None.

Definition hev_socks5_authenticator_add (user : loc) : M HevSocks5Authenticator Z :=
  u ← load user;
  s ← mget Some;
  r ← with_tree (HevRBTree.search (user_cmp s (name u)));
  match r with
  | inl _ => mret (-1)
  | inr (parent, new) =>
      with_tree (HevRBTree.hev_rbtree_node_link user parent new);;
      with_tree (HevRBTree.hev_rbtree_insert_color user);;
      mret 0
  end.

Definition hev_socks5_authenticator_del (nm : bytes) : M HevSocks5Authenticator Z :=
  s ← mget Some;
  r ← with_tree (HevRBTree.search (user_cmp s nm));
  match r with
  | inl this =>
      with_tree (HevRBTree.hev_rbtree_erase this);;
      unref this;;
      mret 0
  | inr _ => mret (-1)
  end.

Definition hev_socks5_authenticator_get (nm : bytes) : M HevSocks5Authenticator ptr :=
  s ← mget Some;
  r ← with_tree (HevRBTree.search (user_cmp s nm));
  match r with inl this => mret (Some this) | inr _ => mret None end.

Fixpoint clear_loop (fuel : nat) : M HevSocks5Authenticator unit :=
  n ← with_tree HevRBTree.hev_rbtree_first;
  match n with
  | None => mret tt
  | Some t =>
      match fuel with
      | O => mfail
      | S fuel =>
          with_tree (HevRBTree.hev_rbtree_erase t);;
          unref t;;
          clear_loop fuel
      end
  end.

Definition hev_socks5_authenticator_clear : M HevSocks5Authenticator unit :=
  fuel ← mget (fun s => Some (size (users s)));
  clear_loop fuel.

Definition hev_socks5_authenticator_destruct : M HevSocks5Authenticator unit :=
  hev_socks5_authenticator_clear.

(** ** The order of the names *)

Lemma memcmp_eq a b : length a = length b -> memcmp a b (length a) = 0 ↔ a = b.
Proof.
  revert b. induction a as [|x a IH]; intros [|y b] Hl; simpl in *; try done.
  injection Hl as Hl. case_decide as Hx.
  - subst. rewrite (IH b Hl). split; congruence.
  - split; [lia | congruence].
Qed.

Lemma memcmp_sym a b n : memcmp b a n = - memcmp a b n.
Proof.
  revert a b. induction n as [|n IH]; intros a b; [by destruct a, b|].
  destruct a as [|x a], b as [|y b]; simpl; try done.
  destruct (decide (y = x)) as [->|]; [by rewrite decide_True|].
  rewrite decide_False by congruence. lia.
Qed.

Lemma memcmp_trans a b c n : length a = n -> length b = n -> length c = n ->
  memcmp a b n < 0 -> memcmp b c n < 0 -> memcmp a c n < 0.
Proof.
  revert a b c. induction n as [|n IH]; intros [|x a] [|y b] [|z c]; simpl; try done; try lia.
  intros [= Ha] [= Hb] [= Hc]. repeat case_decide; try lia. by apply IH.
Qed.

Lemma key_cmp_eq a b : key_cmp a b = 0 ↔ a = b.
Proof.
  unfold key_cmp. repeat case_decide; try (split; [lia | intros ->; lia]).
  apply memcmp_eq. lia.
Qed.

Lemma key_cmp_sym a b : key_cmp a b < 0 ↔ 0 < key_cmp b a.
Proof.
  unfold key_cmp. repeat case_decide; try lia.
  rewrite (memcmp_sym a b). replace (length b) with (length a) by lia. lia.
Qed.

Lemma key_cmp_trans a b c : key_cmp a b < 0 -> key_cmp b c < 0 -> key_cmp a c < 0.
Proof.
  unfold key_cmp. repeat case_decide; try lia. intros Hab Hbc.
  replace (length b) with (length a) in Hbc by lia.
  eapply (memcmp_trans a b c); lia.
Qed.

(** ** The representation *)

Definition name_of (s : HevSocks5Authenticator) (l : loc) : bytes :=
  default [] (name <$> users s !! l).

(** The tree is ordered by decreasing name. *)
Record auth_inv (s : HevSocks5Authenticator) (lt : list loc) : Prop := {
  ai_tree : rb_repr (tree s) lt;
  ai_dom : dom (HevRBTree.nodes (tree s)) = dom (users s);
  ai_in : forall l, l ∈ lt -> is_Some (users s !! l);
  ai_sorted : StronglySorted (fun x y => key_cmp (name_of s y) (name_of s x) < 0) lt;
  ai_refs : forall l u, users s !! l = Some u -> 0 < refs u;
}.

(** What the tree stands for: the users by name. *)
Definition accounts (s : HevSocks5Authenticator) (m : gmap (list Z) loc) : Prop :=
  exists lt, auth_inv s lt ∧ forall n l, m !! n = Some l ↔ l ∈ lt ∧ name_of s l = n.

Lemma wp_auth_tree {A} (m : M HevRBTree.state A) s Q :
  wp m (tree s) (fun a t => Q a (set_tree t s)) -> wp (with_tree m) s Q.
Proof. unfold wp, with_tree. by destruct (m (tree s)) as [[]|]. Qed.

Lemma wp_auth_tree2 {A B} (m1 : M HevRBTree.state A) (m2 : M HevRBTree.state B) {C}
  (k : B -> M HevSocks5Authenticator C) s Q :
  wp (m1;; m2) (tree s) (fun a t => wp (k a) (set_tree t s) Q) ->
  wp (with_tree m1;; x ← with_tree m2; k x) s Q.
Proof.
  unfold wp, with_tree, mbind, M_bind. destruct (m1 (tree s)) as [[a t]|]; [|done]. simpl.
  by destruct (m2 t) as [[b t']|].
Qed.

Lemma wp_search_user s lt key Q : auth_inv s lt ->
  (forall x, x ∈ lt -> name_of s x = key -> Q (inl x) s) ->
  (forall l1 l2 pl, lt = l1 ++ l2 -> rb_gap (tree s) l1 l2 pl ->
     Forall (fun x => key_cmp key (name_of s x) < 0) l1 ->
     Forall (fun x => key_cmp (name_of s x) key < 0) l2 -> Q (inr pl) s) ->
  wp (with_tree (HevRBTree.search (user_cmp s key))) s Q.
Proof.
  intros [Ht Hd Hin Hs Hr] HQ1 HQ2. apply wp_auth_tree.
  eapply wp_mono; [apply (wp_search _ (fun x => key_cmp (name_of s x) key)); [exact Ht| |]|].
  - intros x Hx. destruct (Hin x Hx) as [u Hu]. unfold user_cmp, name_of. by rewrite Hu.
  - assert (forall l, (forall x, x ∈ l -> x ∈ lt) ->
      StronglySorted (fun x y => key_cmp (name_of s y) (name_of s x) < 0) l ->
      cmp_sorted (fun x => key_cmp (name_of s x) key) l) as Hcs; [|by apply Hcs].
    intros l Hl Hsl. induction Hsl as [|x l Hsl IH Hx]; [constructor|].
    constructor; [apply IH; set_solver|]. eapply Forall_impl; [exact Hx|]. simpl. intros y Hyx Hk.
    destruct (decide (key_cmp (name_of s x) key = 0)) as [He|]; [|eapply key_cmp_trans; [exact Hyx|lia]].
    apply key_cmp_eq in He. by rewrite <- He.
  - intros r t [-> Hr2]. replace (set_tree (tree s) s) with s by by destruct s. destruct r as [x|pl].
    + destruct Hr2 as [Hx Hk]. apply HQ1; [done|]. by apply key_cmp_eq.
    + destruct Hr2 as (l1 & l2 & Hl & Hg & H1 & H2). eapply HQ2; [done|exact Hg| |done].
      eapply Forall_impl; [exact H1|]. simpl. intros x Hx. by apply key_cmp_sym.
Qed.

(** ** The operations *)

Lemma sorted_split s l1 x l2 (R := fun x y => key_cmp (name_of s y) (name_of s x) < 0) :
  StronglySorted R (l1 ++ x :: l2) ->
  StronglySorted R (l1 ++ l2) ∧ Forall (fun y => R y x) l1 ∧ Forall (R x) l2.
Proof.
  induction l1 as [|y l1 IH]; simpl; intros Hs; apply StronglySorted_inv in Hs as [Hs Hy].
  - done.
  - destruct (IH Hs) as (H1 & H2 & H3). apply Forall_app in Hy as [Hy1 Hy2].
    apply Forall_cons in Hy2 as [Hyx Hy2]. split_and!; [|by constructor|done].
    constructor; [done|]. by apply Forall_app.
Qed.

Lemma names_insert s l1 x l2 (R := fun x y => key_cmp (name_of s y) (name_of s x) < 0) :
  StronglySorted R (l1 ++ l2) -> Forall (fun y => R y x) l1 -> Forall (R x) l2 ->
  StronglySorted R (l1 ++ x :: l2).
Proof.
  induction l1 as [|y l1 IH]; simpl; intros Hs H1 H2; [by constructor|].
  apply StronglySorted_inv in Hs as [Hs Hy]. apply Forall_cons in H1 as [Hyx H1].
  constructor; [by apply IH|]. apply Forall_app in Hy as [Hy1 Hy2]. apply Forall_app.
  split; [done|]. by constructor.
Qed.

(** No two users of the tree have the same name. *)
Lemma inv_unique s lt x y : auth_inv s lt -> x ∈ lt -> y ∈ lt -> name_of s x = name_of s y -> x = y.
Proof.
  intros [_ _ _ Hs _] Hx Hy He. destruct (decide (x = y)) as [|Hne]; [done|].
  apply list_elem_of_split in Hx as (l1 & l2 & ->). destruct (sorted_split _ _ _ _ Hs) as (_ & H1 & H2).
  assert (key_cmp (name_of s x) (name_of s x) = 0) as Hz by by apply key_cmp_eq.
  apply elem_of_app in Hy as [Hy|Hy].
  - eapply Forall_forall in H1; [|exact Hy]. simpl in H1. rewrite <- He in H1. lia.
  - apply elem_of_cons in Hy as [->|Hy]; [done|].
    eapply Forall_forall in H2; [|exact Hy]. simpl in H2. rewrite <- He in H2. lia.
Qed.

Lemma accounts_found (s : HevSocks5Authenticator) (lt : list loc) (m : gmap (list Z) loc) (x : loc) : auth_inv s lt -> (forall n l, m !! n = Some l ↔ l ∈ lt ∧ name_of s l = n) ->
  x ∈ lt -> m !! name_of s x = Some x.
Proof. intros _ Hm Hx. by apply Hm. Qed.

Lemma accounts_missing (s : HevSocks5Authenticator) (lt : list loc) (m : gmap (list Z) loc) (key : bytes) (l1 l2 : list loc) : (forall n l, m !! n = Some l ↔ l ∈ lt ∧ name_of s l = n) ->
  lt = l1 ++ l2 -> Forall (fun x => key_cmp key (name_of s x) < 0) l1 ->
  Forall (fun x => key_cmp (name_of s x) key < 0) l2 -> m !! key = None.
Proof.
  intros Hm -> H1 H2. destruct (m !! key) as [x|] eqn:Hx; [|done].
  apply Hm in Hx as [Hx Hn]. assert (key_cmp key key = 0) as Hz by by apply key_cmp_eq.
  apply elem_of_app in Hx as [Hx|Hx].
  - eapply Forall_forall in H1; [|exact Hx]. simpl in H1. rewrite Hn in H1. lia.
  - eapply Forall_forall in H2; [|exact Hx]. simpl in H2. rewrite Hn in H2. lia.
Qed.

Lemma wp_auth_get s m key : accounts s m ->
  wp (hev_socks5_authenticator_get key) s (fun r s' => s' = s ∧ r = m !! key).
Proof.
  intros (lt & Hi & Hm). unfold hev_socks5_authenticator_get. apply wp_bind. eapply wp_get; [done|].
  apply wp_bind. apply (wp_search_user s lt key); [done| |].
  - intros x Hx <-. apply wp_ret. split; [done|]. symmetry. by apply Hm.
  - intros l1 l2 pl Hl _ H1 H2. apply wp_ret. split; [done|]. symmetry.
    by eapply accounts_missing.
Qed.

Lemma wp_auth_add s m x u : accounts s m -> users s !! x = Some u -> (forall n, m !! n ≠ Some x) ->
  wp (hev_socks5_authenticator_add x) s (fun r s' => users s' = users s ∧
    match m !! name u with
    | Some _ => r = -1 ∧ s' = s
    | None => r = 0 ∧ accounts s' (<[name u := x]> m)
    end).
Proof.
  intros (lt & Hi & Hm) Hx Hnew. assert (name_of s x = name u) as Hnm by (unfold name_of; by rewrite Hx).
  unfold hev_socks5_authenticator_add. apply wp_bind. eapply wp_get; [exact Hx|].
  apply wp_bind. eapply wp_get; [done|]. apply wp_bind. apply (wp_search_user s lt); [done| |].
  - intros y Hy Hn. apply wp_ret. rewrite <- Hn, (accounts_found s lt m y Hi Hm Hy). done.
  - intros l1 l2 pl Hl Hg H1 H2. rewrite (accounts_missing s lt m (name u) l1 l2 Hm Hl H1 H2).
    destruct pl as [parent new]. apply wp_auth_tree2.
    destruct Hi as [Ht Hd Hin Hs Hr]. subst lt.
    assert (x ∉ l1 ++ l2) as Hxl by (intros Hin2; apply (Hnew (name_of s x)); by apply Hm).
    eapply wp_mono; [apply (wp_insert_at (tree s) l1 l2 (parent, new) x Hg); [|done]|].
    { apply elem_of_dom. rewrite Hd. by apply elem_of_dom. }
    intros [] t [Ht' Hd']. apply wp_ret. split; [done|]. split; [done|].
    exists (l1 ++ x :: l2). split.
    + split; simpl; [done | by rewrite Hd', Hd | | | done].
      * intros l Hl. apply elem_of_app in Hl as [Hl|Hl]; [apply Hin; set_solver|].
        apply elem_of_cons in Hl as [->|Hl]; [by eexists | apply Hin; set_solver].
      * apply (names_insert s); [done| |].
        -- eapply Forall_impl; [exact H1|]. simpl. by rewrite Hnm.
        -- eapply Forall_impl; [exact H2|]. simpl. by rewrite Hnm.
    + intros n l. change (name_of (set_tree t s) l) with (name_of s l).
      rewrite lookup_insert_Some. rewrite Hm. split.
      * intros [[<- <-]|[Hne [Hl <-]]]; set_solver.
      * intros [Hl Hn]. destruct (decide (l = x)) as [->|Hne]; [left; split; congruence|right].
        assert (l ∈ l1 ++ l2) as Hl' by set_solver. split; [|done].
        intros He. assert (m !! name u = Some l) as Hml by (apply Hm; split; congruence).
        rewrite (accounts_missing s (l1 ++ l2) m (name u) l1 l2 Hm eq_refl H1 H2) in Hml. done.
Qed.

(** The users that are left after a reference to [l] was dropped. *)
Definition unref_users (l : loc) (us : gmap loc HevSocks5User) : gmap loc HevSocks5User :=
  match us !! l with
  | None => us
  | Some u => if decide (refs u = 1) then delete l us
              else <[l := mk_user (name u) (pass u) (refs u - 1)]> us
  end.

(** Erasing a user from the tree and dropping the tree's reference. *)
Lemma wp_remove s l1 x l2 : auth_inv s (l1 ++ x :: l2) ->
  wp (with_tree (HevRBTree.hev_rbtree_erase x);; unref x) s
    (fun _ s' => auth_inv s' (l1 ++ l2) ∧ users s' = unref_users x (users s)).
Proof.
  intros [Ht Hd Hin Hs Hr]. apply wp_bind, wp_auth_tree.
  pose proof Ht as (t0 & _ & Hin0 & _ & Hnd). rewrite NoDup_middle in Hnd.
  destruct Hnd as (Hx1 & Hx2 & _). assert (x ∉ l1 ++ l2) as Hxl by set_solver.
  destruct (Hin x ltac:(set_solver)) as [u Hu]. destruct (sorted_split _ _ _ _ Hs) as (Hs' & _ & _).
  assert (forall l, l ∈ l1 ++ l2 -> is_Some (users s !! l)) as Hin' by (intros l Hl; apply Hin; set_solver).
  eapply wp_mono; [by apply wp_erase|]. intros _ t [Ht' Hd']. unfold unref.
  apply wp_bind. eapply wp_get; [exact Hu|]. unfold unref_users. rewrite Hu.
  assert (forall us : gmap loc HevSocks5User, (forall l, l ∈ l1 ++ l2 -> name <$> us !! l = name <$> users s !! l) ->
    StronglySorted (fun a b => key_cmp (default [] (name <$> us !! b)) (default [] (name <$> us !! a)) < 0)
      (l1 ++ l2)) as Hsorted.
  { intros us Hus. clear -Hs' Hus. revert Hs' Hus. generalize (l1 ++ l2) as l. intros l Hs' Hus.
    induction Hs' as [|a l Hs' IH Ha]; constructor; [apply IH; set_solver|].
    apply Forall_forall. intros b Hb. rewrite !Hus by set_solver.
    eapply Forall_forall in Ha; [exact Ha | done]. }
  pose proof (Hr x u Hu) as Hru. case_decide as Hz.
  - apply wp_bind, wp_auth_tree.
    eapply wp_mono; [apply HevRBTreeSpec.wp_free_node; [|exact Hxl|exact Ht']|].
    { apply elem_of_dom. simpl. rewrite Hd', Hd. by apply elem_of_dom. }
    intros _ t2 [Ht2 Hn2]. eapply wp_put; [done|]. rewrite decide_True by lia. split; [|done].
    assert (forall l, l ∈ l1 ++ l2 -> delete x (users s) !! l = users s !! l) as Hdel
      by (intros l Hl; apply lookup_delete_ne; set_solver).
    split; simpl; [done | by rewrite Hn2, !dom_delete_L; simpl; rewrite Hd', Hd | | |].
    + intros l Hl. rewrite Hdel by done. by apply Hin'.
    + apply Hsorted. intros l Hl. by rewrite Hdel.
    + intros l v Hv. apply lookup_delete_Some in Hv as [_ Hv]. by eapply Hr.
  - eapply wp_put; [done|]. rewrite decide_False by lia. split; [|done].
    assert (forall l, l ∈ l1 ++ l2 -> <[x := mk_user (name u) (pass u) (refs u - 1)]> (users s) !! l = users s !! l)
      as Hins by (intros l Hl; apply lookup_insert_ne; set_solver).
    split; simpl; [done | | | |].
    + rewrite Hd', Hd, dom_insert_L. apply elem_of_dom_2 in Hu. set_solver.
    + intros l Hl. rewrite Hins by done. by apply Hin'.
    + apply Hsorted. intros l Hl. by rewrite Hins.
    + intros l v Hv. apply lookup_insert_Some in Hv as [[<- <-]|[_ Hv]]; [simpl; lia | by eapply Hr].
Qed.

Lemma wp_auth_del s m key : accounts s m ->
  wp (hev_socks5_authenticator_del key) s (fun r s' =>
    match m !! key with
    | Some x => r = 0 ∧ accounts s' (delete key m) ∧ users s' = unref_users x (users s)
    | None => r = -1 ∧ s' = s
    end).
Proof.
  intros (lt & Hi & Hm). unfold hev_socks5_authenticator_del. apply wp_bind. eapply wp_get; [done|].
  apply wp_bind. apply (wp_search_user s lt key); [done| |].
  - intros x Hx Hn. rewrite <- Hn, (accounts_found s lt m x Hi Hm Hx).
    apply list_elem_of_split in Hx as (l1 & l2 & ->).
    assert (forall s', users s' = unref_users x (users s) -> forall l, l ∈ l1 ++ l2 -> name_of s' l = name_of s l) as Hkeep.
    { intros s' Hs' l Hl. unfold name_of. rewrite Hs'. pose proof (ai_tree _ _ Hi) as (t0 & _ & _ & _ & Hnd).
      rewrite NoDup_middle in Hnd. assert (l ≠ x) by set_solver. unfold unref_users.
      destruct (users s !! x); [|done]. case_decide; [by rewrite lookup_delete_ne by done|].
      by rewrite lookup_insert_ne by done. }
    eapply wp_assoc; [apply (wp_remove s l1 x l2 Hi)|]. intros [] s' [Hi' Hu']. apply wp_ret.
    split_and!; [done| |done]. exists (l1 ++ l2). split; [done|]. intros n l.
    rewrite lookup_delete_Some, Hm.
    pose proof (ai_tree _ _ Hi) as (t0 & _ & _ & _ & Hnd). rewrite NoDup_middle in Hnd. split.
    + intros (Hne & Hl & <-). assert (l ≠ x) by congruence. assert (l ∈ l1 ++ l2) by set_solver.
      split; [done|]. by apply Hkeep.
    + intros [Hl <-]. rewrite (Hkeep s' Hu' l Hl). split_and!; [|set_solver|done].
      intros He. assert (x = l) by (eapply inv_unique; [exact Hi|set_solver|set_solver|done]). set_solver.
  - intros l1 l2 pl Hl _ H1 H2. rewrite (accounts_missing s lt m key l1 l2 Hm Hl H1 H2). by apply wp_ret.
Qed.

(** Every user of the tree loses the tree's reference. *)
Lemma wp_clear_loop fuel : forall s lt, auth_inv s lt -> (length lt <= fuel)%nat ->
  wp (clear_loop fuel) s (fun _ s' => auth_inv s' []
    ∧ users s' = foldl (fun us x => unref_users x us) (users s) lt).
Proof.
  induction fuel as [|fuel IH]; intros s lt Hi Hl; cbn [clear_loop]; apply wp_bind, wp_auth_tree;
    (eapply wp_mono; [apply (wp_rb_first _ lt), Hi|]); intros r t [-> ->];
    replace (set_tree (tree s) s) with s by (by destruct s); destruct lt as [|x lt]; simpl head; cbn iota.
  - by apply wp_ret.
  - simpl in Hl. lia.
  - by apply wp_ret.
  - simpl in Hl. eapply wp_assoc; [apply (wp_remove s [] x lt Hi)|]. intros [] s1 [Hi1 Hu1].
    eapply wp_mono; [apply (IH s1 lt Hi1); lia|]. intros [] s2 [Hi2 Hu2].
    split; [done|]. simpl. by rewrite Hu2, Hu1.
Qed.

Lemma auth_inv_bound s lt : auth_inv s lt -> (length lt <= size (users s))%nat.
Proof.
  intros [(t0 & _ & _ & _ & Hnd) _ Hin _ _].
  rewrite <- (size_list_to_set (C := gset loc) lt Hnd), <- (size_dom (users s)).
  apply subseteq_size. intros l Hl. apply elem_of_list_to_set in Hl. by apply elem_of_dom, Hin.
Qed.

Lemma wp_auth_clear s m : accounts s m ->
  wp hev_socks5_authenticator_clear s (fun _ s' => accounts s' ∅
    ∧ exists lt, (forall x, x ∈ lt ↔ exists n, m !! n = Some x) ∧ NoDup lt
        ∧ users s' = foldl (fun us x => unref_users x us) (users s) lt).
Proof.
  intros (lt & Hi & Hm). unfold hev_socks5_authenticator_clear. apply wp_bind.
  eapply (wp_get (fun s => Some (size (users s)))); [done|].
  eapply wp_mono; [apply (wp_clear_loop _ s lt Hi), auth_inv_bound, Hi|].
  intros _ s' [Hi' Hu']. split.
  - exists []. split; [done|]. intros n l. split; [by rewrite lookup_empty|]. by intros [?%not_elem_of_nil _].
  - exists lt. split_and!; [|by destruct (ai_tree _ _ Hi) as (? & _ & _ & _ & ?)|done].
    intros x. split; [intros Hx; exists (name_of s x); by apply Hm|]. by intros (n & [? _]%Hm).
Qed.

Lemma checker_ok u p : hev_socks5_user_checker u p = (if decide (pass u = p) then 0 else -1).
Proof.
  unfold hev_socks5_user_checker. destruct (decide (length (pass u) = length p)) as [Hl|Hl].
  - rewrite decide_False by tauto. rewrite <- Hl. pose proof (memcmp_eq (pass u) p Hl) as Hm.
    destruct (decide (pass u = p)) as [Heq|Hne].
    + rewrite decide_False; [done|]. intros Hc. apply Hc. by apply Hm.
    + rewrite decide_True; [done|]. by rewrite Hm.
  - rewrite decide_True by done. rewrite decide_False; [done|]. by intros <-.
Qed.

Lemma accounts_new : accounts hev_socks5_authenticator_construct ∅.
Proof.
  exists []. split.
  - split; simpl; [apply rb_repr_empty | done | by intros l ?%not_elem_of_nil | constructor | done].
  - intros n l. split; [by rewrite lookup_empty|]. by intros [?%not_elem_of_nil _].
Qed.

(** ** The contract *)

(** C39: The authenticator is a finite map from names to users.  Whatever users it holds,
    looking a name up finds its user and changes nothing; adding a user succeeds exactly
    when its name is free, and otherwise changes nothing; deleting a name removes its
    user and drops one reference, which frees the user exactly when it was the last; and
    clearing empties the map and drops one reference of every user.  No operation
    accesses invalid memory or loops forever. *)
Theorem hev_socks5_authenticator_ok s m key x u :
  accounts s m -> users s !! x = Some u -> (forall n, m !! n ≠ Some x) ->
  hev_socks5_authenticator_get key s = Some (m !! key, s)
  ∧ (exists s', hev_socks5_authenticator_add x s
       = Some (match m !! name u with Some _ => -1 | None => 0 end, s')
     ∧ accounts s' (match m !! name u with Some _ => m | None => <[name u := x]> m end)
     ∧ users s' = users s)
  ∧ (exists s', hev_socks5_authenticator_del key s
       = Some (match m !! key with Some _ => 0 | None => -1 end, s')
     ∧ accounts s' (delete key m)
     ∧ users s' = match m !! key with Some y => unref_users y (users s) | None => users s end)
  ∧ (exists s' lt, hev_socks5_authenticator_clear s = Some (tt, s') ∧ accounts s' ∅
     ∧ NoDup lt ∧ (forall y, y ∈ lt ↔ exists n, m !! n = Some y)
     ∧ users s' = foldl (fun us y => unref_users y us) (users s) lt).
Proof.
  intros Ha Hx Hnew. split_and!.
  - destruct (wp_elim _ _ _ (wp_auth_get s m key Ha)) as (r & s' & -> & -> & ->). done.
  - destruct (wp_elim _ _ _ (wp_auth_add s m x u Ha Hx Hnew)) as (r & s' & -> & Hu & Hr).
    exists s'. destruct (m !! name u); destruct Hr as [-> Hr]; [by subst|done].
  - destruct (wp_elim _ _ _ (wp_auth_del s m key Ha)) as (r & s' & -> & Hr). exists s'.
    destruct (m !! key) as [y|] eqn:Hk; [by destruct Hr as (-> & ? & ?)|].
    destruct Hr as [-> ->]. by rewrite delete_id.
  - destruct (wp_elim _ _ _ (wp_auth_clear s m Ha)) as ([] & s' & -> & Ha' & lt & H1 & H2 & H3).
    by exists s', lt.
Qed.

(** ** The directory the server uses *)

#[export] Instance directory (s : HevSocks5Authenticator) : Socks5Server.Authenticator := {|
  Socks5Server.user := HevSocks5User;
  Socks5Server.hev_socks5_authenticator_get nm :=
    match hev_socks5_authenticator_get nm s with Some (Some l, _) => users s !! l | _ => None end;
  Socks5Server.hev_socks5_user_check := hev_socks5_user_check |}.

(** The server logs a client in exactly when it knows the name and the password is
    that user's: the server's check, run with the tree and the checker of the program,
    finds the user whose name and password these are, and nobody otherwise. *)
Theorem login_directory s m nm pw (usr : HevSocks5User) : accounts s m ->
  @Socks5Handshake.login (directory s) nm pw = Some usr
  ↔ exists l, m !! nm = Some l ∧ users s !! l = Some usr ∧ pass usr = pw.
Proof.
  intros Ha. destruct (wp_elim _ _ _ (wp_auth_get s m nm Ha)) as (r & s' & Hg & -> & ->).
  unfold Socks5Handshake.login. cbn [Socks5Server.hev_socks5_authenticator_get
    Socks5Server.hev_socks5_user_check directory]. rewrite Hg.
  destruct (m !! nm) as [l|]; [|split; [done | by intros (? & ? & _)]].
  destruct (users s !! l) as [v|] eqn:Hv; cbn [mbind option_bind];
    [|split; [done | intros (? & [= <-] & Hu & _); rewrite Hv in Hu; done]].
  unfold hev_socks5_user_check. rewrite checker_ok. destruct (decide (pass v = pw)) as [Hp|Hp].
  - rewrite decide_False by lia. split; [intros [= <-]; eauto|].
    intros (l' & [= <-] & Hu & _). rewrite Hv in Hu. by injection Hu as ->.
  - rewrite decide_True by lia. split; [done|]. intros (l' & [= <-] & Hu & Hpw). rewrite Hv in Hu. injection Hu as ->. done.
Qed.

(** *** Two users, one of them added *)

Definition two_users : HevSocks5Authenticator :=
  match (hev_socks5_user_new (Some 1%positive) true [97] [49];;
         hev_socks5_user_new (Some 2%positive) true [98] [50];;
         hev_socks5_authenticator_add 1%positive) hev_socks5_authenticator_construct with
  | Some (_, s) => s
  | None => hev_socks5_authenticator_construct
  end.

Lemma two_users_accounts : accounts two_users {[ [97] := 1%positive ]}.
Proof.
  assert (users two_users = {[ 1%positive := mk_user [97] [49] 1; 2%positive := mk_user [98] [50] 1 ]}) as Hu
    by by vm_compute.
  exists [1%positive]. split.
  - split.
    + exists (HevRBTreeProofs.T HevRBTreeProofs.Black HevRBTreeProofs.E 1%positive HevRBTreeProofs.E).
      split_and!; [by vm_compute; repeat split | done | | apply NoDup_singleton].
      exists 1%nat. by repeat econstructor.
    + by vm_compute.
    + intros l ->%list_elem_of_singleton. rewrite Hu. by eexists.
    + repeat constructor.
    + intros l v. rewrite Hu. intros [[<- <-]|[_ [<- <-]%lookup_singleton_Some]]%lookup_insert_Some; simpl; lia.
  - intros n l. rewrite lookup_singleton_Some, list_elem_of_singleton. split.
    + intros [<- <-]. by vm_compute.
    + intros [-> <-]. by vm_compute.
Qed.

Lemma hev_socks5_authenticator_ok_witness :
  exists s', hev_socks5_authenticator_add 2%positive two_users = Some (0, s')
    ∧ accounts s' {[ [98] := 2%positive; [97] := 1%positive ]}.
Proof.
  destruct (hev_socks5_authenticator_ok two_users {[ [97] := 1%positive ]} [98] 2%positive
    (mk_user [98] [50] 1)) as (_ & (s' & H1 & H2 & _) & _).
  - exact two_users_accounts.
  - by vm_compute.
  - by intros n [_ ?]%lookup_singleton_Some.
  - exists s'. split; [exact H1 | exact H2].
Defined.

Lemma login_directory_witness :
  @Socks5Handshake.login (directory two_users) [97] [49] = Some (mk_user [97] [49] 1).
Proof.
  apply (login_directory two_users {[ [97] := 1%positive ]}); [exact two_users_accounts|].
  exists 1%positive. by vm_compute.
Defined.

End Authenticator.
