(* ===== verification/TunnelPacket.v ===== *)
(** * Packets of the tunnel device: src/hev-socks5-tunnel.c

    The reader of the tunnel device: it parses each packet, answers the UDP packets it
    rejects with an ICMP message and hands the others to the network stack. *)

From S2P Require Import Prelude.

Module TunnelPacket.

(** ** Parsing *)

(** [data] is the memory of the packet's pbuf, [len] its 16-bit length; the second
    result is what [*dst_port_out] receives. *)
Definition parse_udp_packet (data : bytes) (len : Z) : option (Z * option Z) :=
  if decide (len < 28) then Some (0, None) else
  b0 ← rd8 data 0;
  if decide (Z.shiftr b0 4 ≠ 4) then Some (0, None) else
  let iphdr_len := u16 (Z.land b0 15 * 4) in
  if decide (iphdr_len < 20 ∨ len < iphdr_len + 4) then Some (0, None) else
  proto ← rd8 data 9;
  if decide (proto ≠ 17) then Some (0, None) else
  hi ← rd8 data (iphdr_len + 2);
  lo ← rd8 data (iphdr_len + 3);
  Some (iphdr_len, Some (u16 (Z.lor (Z.shiftl hi 8) lo))).

(** ** The ICMP reply *)

(** [for (i = 0; i < 20; i += 2)]: the sum of the header's words. *)
Fixpoint sum_header (fuel : nat) (out : bytes) (i sum : Z) : option Z :=
  if decide (i < 20) then
    match fuel with
    | O => None
    | S fuel =>
        hi ← rd8 out i; lo ← rd8 out (i + 1);
        sum_header fuel out (i + 2) (u32 (sum + Z.lor (Z.shiftl hi 8) lo))
    end
  else Some sum.

(** The second loop pads an odd last byte. *)
Fixpoint sum_icmp (fuel : nat) (icmp : bytes) (icmp_total i sum : Z) : option Z :=
  if decide (i < icmp_total) then
    match fuel with
    | O => None
    | S fuel =>
        w ← (if decide (i + 1 < icmp_total) then
               hi ← rd8 icmp i; lo ← rd8 icmp (i + 1); Some (Z.lor (Z.shiftl hi 8) lo)
             else hi ← rd8 icmp i; Some (Z.shiftl hi 8));
        sum_icmp fuel icmp icmp_total (i + 2) (u32 (sum + w))
    end
  else Some sum.

(** [while (sum >> 16)] *)
Fixpoint fold_carry (fuel : nat) (sum : Z) : option Z :=
  if decide (Z.shiftr sum 16 ≠ 0) then
    match fuel with
    | O => None
    | S fuel => fold_carry fuel (u32 (Z.land sum 65535 + Z.shiftr sum 16))
    end
  else Some sum.

(** [~sum & 0xFFFF] of the folded sum; three rounds of folding are enough for 32 bits. *)
Definition cksum_of (sum : Z) : option Z :=
  f ← fold_carry 3 sum; Some (u16 (Z.land (Z.lnot f) 65535)).

(** The packet given to [netif_output_handler], if any; [alloc]: [pbuf_alloc] succeeds. *)
Definition send_icmp_port_unreachable (orig : bytes) (orig_len iphdr_len : Z) (alloc : bool)
  : option (option bytes) :=
  let icmp_data_len := u16 (iphdr_len + 8) in
  if decide (orig_len < icmp_data_len) then Some None else
  let icmp_total := u16 (8 + icmp_data_len) in
  let ip_total := u16 (20 + icmp_total) in
  if negb alloc then Some None else
  let out := replicate (Z.to_nat ip_total) 0 in
  out ← wr out 0 [69];
  out ← wr out 2 [Z.land (Z.shiftr ip_total 8) 255];
  out ← wr out 3 [Z.land ip_total 255];
  out ← wr out 8 [64];
  out ← wr out 9 [1];
  dst ← rd orig 16 4;
  out ← wr out 12 dst;
  src ← rd orig 12 4;
  out ← wr out 16 src;
  sum ← sum_header 10 out 0 0;
  cksum ← cksum_of sum;
  out ← wr out 10 [Z.land (Z.shiftr cksum 8) 255];
  out ← wr out 11 [Z.land cksum 255];
  out ← wr out 20 [3];
  out ← wr out 21 [3];
  quoted ← rd orig 0 icmp_data_len;
  out ← wr out 28 quoted;
  sum ← sum_icmp (Z.to_nat icmp_total) (drop 20 out) icmp_total 0 0;
  cksum ← cksum_of sum;
  out ← wr out 22 [Z.land (Z.shiftr cksum 8) 255];
  out ← wr out 23 [Z.land cksum 255];
  Some (Some out).

(** ** The reader's loop *)

(** The global variables the loop and the device's writer use. *)
Record tunnel_io := mk_tio {
  reject_quic : Z; reject_non_dns_udp : Z;
  stat_tx_packets : Z; stat_tx_bytes : Z; stat_rx_packets : Z; stat_rx_bytes : Z }.

(** What becomes of packets: written to the device, given to the stack, freed. *)
Inductive action := Written (p : bytes) | Input (p : bytes) | Freed (p : bytes).

(** What the environment does in one round: the packet [hev_tunnel_read] returns, the
    result of an allocation and of a write, and whether [netif.input] takes the packet. *)
Record round := mk_round { rd_buf : option bytes; rn_alloc : bool; rn_written : Z; rn_taken : bool }.

(** [ERR_OK] is 0; the errors are told apart by errno only. *)
Definition netif_output_handler (p : bytes) (s : Z) (st : tunnel_io) : bool * tunnel_io * list action :=
  if decide (s <= 0) then (false, st, [Written p]) else
  (true, mk_tio (reject_quic st) (reject_non_dns_udp st) (stat_tx_packets st) (stat_tx_bytes st)
           (u64 (stat_rx_packets st + 1)) (u64 (stat_rx_bytes st + s)), [Written p]).

(** One round of the loop of [lwip_io_task_entry]. *)
Definition lwip_io_round (r : round) (st : tunnel_io) : option (tunnel_io * list action) :=
  match rd_buf r with
  | None => Some (st, [])
  | Some buf =>
      let len := u16 (Z.of_nat (length buf)) in
      let st := mk_tio (reject_quic st) (reject_non_dns_udp st) (u64 (stat_tx_packets st + 1))
                  (u64 (stat_tx_bytes st + len)) (stat_rx_packets st) (stat_rx_bytes st) in
      '(iphdr_len, port) ← parse_udp_packet buf len;
      let dst_port := default 0 port in
      if decide (iphdr_len ≠ 0 ∧ ((reject_non_dns_udp st ≠ 0 ∧ dst_port ≠ 53)
                                  ∨ (reject_quic st ≠ 0 ∧ dst_port = 443))) then
        reply ← send_icmp_port_unreachable buf len iphdr_len (rn_alloc r);
        match reply with
        | None => Some (st, [Freed buf])
        | Some p =>
            let '(_, st, acts) := netif_output_handler p (rn_written r) st in
            Some (st, acts ++ [Freed p; Freed buf])
        end
      else Some (st, Input buf :: if rn_taken r then [] else [Freed buf])
  end.

(** [for (; run;)]: the rounds until [run] is cleared. *)
Fixpoint lwip_io_task_entry (rs : list round) (st : tunnel_io) : option (tunnel_io * list action) :=
  match rs with
  | [] => Some (st, [])
  | r :: rs =>
      '(st, acts) ← lwip_io_round r st;
      '(st, acts') ← lwip_io_task_entry rs st;
      Some (st, acts ++ acts')
  end.

Definition hev_socks5_tunnel_set_reject_quic (enabled : Z) (st : tunnel_io) : tunnel_io :=
  mk_tio enabled (reject_non_dns_udp st) (stat_tx_packets st) (stat_tx_bytes st)
    (stat_rx_packets st) (stat_rx_bytes st).
Definition hev_socks5_tunnel_set_reject_non_dns_udp (enabled : Z) (st : tunnel_io) : tunnel_io :=
  mk_tio (reject_quic st) enabled (stat_tx_packets st) (stat_tx_bytes st)
    (stat_rx_packets st) (stat_rx_bytes st).
Definition hev_socks5_tunnel_stats (st : tunnel_io) : Z * Z * Z * Z :=
  (stat_tx_packets st, stat_tx_bytes st, stat_rx_packets st, stat_rx_bytes st).

(** ** IPv4 packets *)

(** An IPv4 header with a UDP header's ports: [opts] are the IP options. *)
Record udp_fields := mk_udp {
  tos : Z; iplen : bytes; ident : bytes; frag : bytes; ttl : Z; ipsum : bytes;
  src : bytes; dst : bytes; opts : bytes; sport : bytes; dport : Z; tail : bytes }.

Definition udp_packet (f : udp_fields) : bytes :=
  [69 + Z.of_nat (length (opts f)) / 4; tos f] ++ iplen f ++ ident f ++ frag f ++ [ttl f; 17] ++ ipsum f
  ++ src f ++ dst f ++ opts f ++ sport f ++ be16 (dport f) ++ tail f.

Record udp_ok (f : udp_fields) : Prop := {
  uo_iplen : length (iplen f) = 2%nat; uo_ident : length (ident f) = 2%nat;
  uo_frag : length (frag f) = 2%nat; uo_ipsum : length (ipsum f) = 2%nat;
  uo_src : length (src f) = 4%nat; uo_dst : length (dst f) = 4%nat;
  uo_opts : exists n, (n <= 10)%nat ∧ length (opts f) = (4 * n)%nat;
  uo_sport : length (sport f) = 2%nat; uo_dport : is_u16 (dport f);
  uo_tail : (4 <= length (opts f) + length (tail f))%nat;
  uo_size : Z.of_nat (length (udp_packet f)) < 2 ^ 16 }.

Definition udp_header_len (f : udp_fields) : Z := 20 + Z.of_nat (length (opts f)).

(** The sum of the 16-bit words of a message, the last padded, and what the receiver of
    an Internet checksum verifies (RFC 1071). *)
Fixpoint words_sum (m : bytes) : Z :=
  match m with
  | [] => 0
  | [a] => 256 * a
  | a :: b :: m => 256 * a + b + words_sum m
  end.
Definition checksum_valid (m : bytes) : Prop := words_sum m ≠ 0 ∧ words_sum m mod 65535 = 0.

(** The reply to [f]: an IPv4 header with the addresses exchanged, and an ICMP message
    "port unreachable" that quotes the header and eight bytes more. *)
Definition unreachable (s d : bytes) (q : bytes) (c c' : Z) : bytes :=
  [69; 0] ++ be16 (28 + Z.of_nat (length q)) ++ [0; 0; 0; 0; 64; 1] ++ be16 c ++ d ++ s
  ++ [3; 3] ++ be16 c' ++ [0; 0; 0; 0] ++ q.

End TunnelPacket.
