(* ===== verification/TunnelPacketProofs.v ===== *)
(** * Packets of the tunnel device: proofs

    Parsing recognises exactly the IPv4 UDP packets, the ICMP reply is well formed with
    valid checksums, and the reader's loop rejects by the policy and loses no packet. *)

From S2P Require Import Prelude TunnelPacket.

Module TunnelPacketProofs.
Import TunnelPacket.

(** ** Checksums *)

Lemma words_sum_app a b : Nat.even (length a) = true ->
  words_sum (a ++ b) = words_sum a + words_sum b.
Proof.
  assert (forall n a, (length a <= n)%nat -> Nat.even (length a) = true ->
    words_sum (a ++ b) = words_sum a + words_sum b) as H; [|by apply (H (length a))].
  induction n as [|n IH]; intros [|x [|y a']] Hl He; simpl in *; try done; try lia.
  rewrite IH by (done || lia). lia.
Qed.

Lemma words_sum_bound m : bytes_ok m -> 0 <= words_sum m <= 65535 * Z.of_nat (length m).
Proof.
  assert (forall n m, (length m <= n)%nat -> bytes_ok m ->
    0 <= words_sum m <= 65535 * Z.of_nat (length m)) as H; [|by apply (H (length m))].
  induction n as [|n IH]; intros [|x [|y a']] Hl Hb; simpl words_sum; simpl length in *; try lia.
  - apply Forall_cons in Hb as [Hx _]. unfold is_u8 in Hx. lia.
  - apply Forall_cons in Hb as [Hx Hb]. apply Forall_cons in Hb as [Hy Hb].
    specialize (IH a' ltac:(lia) Hb). unfold is_u8 in *. lia.
Qed.

Lemma word_value a b : is_u8 a -> is_u8 b -> Z.lor (Z.shiftl a 8) b = 256 * a + b.
Proof. intros Ha Hb. rewrite lor_shift_8 by (done || apply Ha). lia. Qed.

Lemma sum_header_ok fuel : forall pre rest other i s,
  (length rest <= 2 * fuel)%nat -> Nat.even (length rest) = true ->
  Z.of_nat (length pre) = i -> Z.of_nat (length pre + length rest) = 20 -> bytes_ok rest ->
  0 <= s -> s + words_sum rest < 2 ^ 32 ->
  sum_header fuel (pre ++ rest ++ other) i s = Some (s + words_sum rest).
Proof.
  induction fuel as [|fuel IH]; intros pre rest other i s Hf He Hi H20 Hb Hs Hlt.
  - destruct rest; simpl in *; [|lia]. rewrite decide_False by lia. f_equal. lia.
  - destruct rest as [|x [|y rest]]; simpl length in *; try done.
    + cbn [sum_header]. rewrite decide_False by lia. simpl. f_equal. lia.
    + apply Forall_cons in Hb as [Hx Hb]. apply Forall_cons in Hb as [Hy Hb].
      pose proof (words_sum_bound rest Hb) as Hw. simpl words_sum in *.
      cbn [sum_header]. rewrite decide_True by lia.
      rewrite (rd8_app pre x (y :: rest ++ other) _ i) by done. cbn [mbind option_bind].
      rewrite (rd8_app (pre ++ [x]) y (rest ++ other) _ (i + 1))
        by (rewrite <- ?app_assoc, ?length_app; simpl; done || lia).
      cbn [mbind option_bind]. rewrite word_value by done. unfold is_u8, u32 in *.
      rewrite Z.mod_small by lia.
      replace (pre ++ (x :: y :: rest) ++ other) with ((pre ++ [x; y]) ++ rest ++ other)
        by by rewrite <- app_assoc.
      rewrite IH; rewrite ?length_app; simpl length; try done; try lia. f_equal. lia.
Qed.

Lemma sum_icmp_ok fuel : forall pre rest i s,
  (length rest <= 2 * fuel)%nat -> Z.of_nat (length pre) = i -> bytes_ok rest ->
  0 <= s -> s + words_sum rest < 2 ^ 32 ->
  sum_icmp fuel (pre ++ rest) (Z.of_nat (length (pre ++ rest))) i s = Some (s + words_sum rest).
Proof.
  induction fuel as [|fuel IH]; intros pre rest i s Hf Hi Hb Hs Hlt; rewrite length_app in *.
  - destruct rest; simpl in *; [|lia]. rewrite decide_False by lia. f_equal. lia.
  - destruct rest as [|x [|y rest]]; simpl length in *; cbn [sum_icmp].
    + rewrite decide_False by lia. simpl. f_equal. lia.
    + apply Forall_cons in Hb as [Hx _].
      rewrite decide_True, decide_False by lia. rewrite (rd8_app pre x [] _ i) by done.
      cbn [mbind option_bind]. simpl words_sum in *. unfold is_u8, u32 in *.
      rewrite Z.shiftl_mul_pow2, (Z.mod_small (s + _)) by lia.
      destruct fuel; cbn [sum_icmp]; rewrite decide_False by lia; f_equal; lia.
    + apply Forall_cons in Hb as [Hx Hb]. apply Forall_cons in Hb as [Hy Hb].
      pose proof (words_sum_bound rest Hb) as Hw. simpl words_sum in *.
      rewrite !decide_True by lia. rewrite (rd8_app pre x (y :: rest) _ i) by done.
      cbn [mbind option_bind].
      rewrite (rd8_app (pre ++ [x]) y rest _ (i + 1))
        by (rewrite <- ?app_assoc, ?length_app; simpl; done || lia).
      cbn [mbind option_bind]. rewrite word_value by done. unfold is_u8, u32 in *.
      rewrite Z.mod_small by lia.
      replace (pre ++ x :: y :: rest) with ((pre ++ [x; y]) ++ rest) by by rewrite <- app_assoc.
      replace (Z.of_nat (length pre + S (S (length rest))))
        with (Z.of_nat (length ((pre ++ [x; y]) ++ rest))) by (rewrite !length_app; simpl; lia).
      rewrite IH; rewrite ?length_app; simpl length; try done; try lia. f_equal. lia.
Qed.

Lemma split16 s : 0 <= s ->
  Z.shiftr s 16 = s / 65536 ∧ Z.land s 65535 = s mod 65536.
Proof.
  intros Hs. rewrite Z.shiftr_div_pow2 by lia. change 65535 with (Z.ones 16).
  by rewrite Z.land_ones by lia.
Qed.

Lemma fold_carry_ok s : 0 <= s < 2 ^ 32 ->
  exists f, fold_carry 3 s = Some f ∧ 0 <= f <= 65535 ∧ f mod 65535 = s mod 65535 ∧ (f = 0 -> s = 0).
Proof.
  assert (forall n s, 0 <= s < 2 ^ 32 -> (s <= 65535 \/ (s <= 65536 /\ (1 <= n)%nat)
      \/ (s <= 131070 /\ (2 <= n)%nat) \/ (3 <= n)%nat) ->
    exists f, fold_carry n s = Some f ∧ 0 <= f <= 65535 ∧ f mod 65535 = s mod 65535 ∧ (f = 0 -> s = 0)) as H;
    [|intros Hs; apply H; [done | lia]].
  induction n as [|n IH]; intros t Ht Hn; cbn [fold_carry]; destruct (split16 t ltac:(lia)) as [Hsh Hla];
    rewrite ?Hla, Hsh.
  - rewrite decide_False by (Z.div_mod_to_equations; lia). exists t. split_and!; [done|lia|lia|done|done].
  - case_decide as Hd.
    + unfold u32. rewrite (Z.mod_small (t mod 65536 + t / 65536)) by (Z.div_mod_to_equations; lia).
      destruct (IH (t mod 65536 + t / 65536)) as (f & -> & Hf & Hm & H0).
      { Z.div_mod_to_equations. lia. }
      { Z.div_mod_to_equations. lia. }
      exists f. split_and!; [done | lia | lia | | ].
      * rewrite Hm. rewrite (Z.div_mod t 65536) at 3 by lia.
        replace (65536 * (t / 65536) + t mod 65536)
          with (t mod 65536 + t / 65536 + t / 65536 * 65535) by lia.
        by rewrite Z.mod_add by lia.
      * intros Hf0. specialize (H0 Hf0). Z.div_mod_to_equations. lia.
    + exists t. split_and!; [done|lia| |done|done]. Z.div_mod_to_equations. lia.
Qed.

Lemma cksum_of_ok s : 0 < s < 2 ^ 32 ->
  exists c, cksum_of s = Some c ∧ is_u16 c ∧ s + c ≠ 0 ∧ (s + c) mod 65535 = 0.
Proof.
  intros Hs. unfold cksum_of. destruct (fold_carry_ok s) as (f & -> & Hf & Hm & H0); [lia|].
  cbn [mbind option_bind]. assert (f ≠ 0) by (intros ?; lia).
  assert (Z.land (Z.lnot f) 65535 = 65535 - f) as ->.
  { change 65535 with (Z.ones 16). rewrite Z.land_ones by lia. unfold Z.lnot.
    replace (Z.pred (- f)) with (65535 - f + (-1) * 2 ^ 16) by lia.
    rewrite Z.mod_add by lia. rewrite Z.mod_small by lia. done. }
  exists (65535 - f). unfold u16, is_u16. rewrite Z.mod_small by lia.
  split_and!; [done|lia|lia|lia|]. rewrite Z.add_mod, <- Hm, <- Z.add_mod by lia.
  by replace (f + (65535 - f)) with 65535 by lia.
Qed.

Lemma words_sum_be16 v : is_u16 v -> words_sum (be16 v) = v.
Proof. unfold is_u16. intros. simpl. Z.div_mod_to_equations. lia. Qed.

(** ** The reply *)

Lemma is_u8_be16 v : is_u8 ((v / 2 ^ 8) mod 2 ^ 8) ∧ is_u8 (v mod 2 ^ 8).
Proof. split; by apply Z.mod_pos_bound. Qed.

(** The header, up to its checksum; the source and the destination are exchanged. *)
Lemma header_checksum l s d : bytes_ok s -> bytes_ok d -> length s = 4%nat -> length d = 4%nat ->
  let hdr c := [69; 0] ++ be16 l ++ [0; 0; 0; 0; 64; 1] ++ be16 c ++ d ++ s in
  bytes_ok (hdr 0) ∧ exists c, cksum_of (words_sum (hdr 0)) = Some c ∧ is_u16 c ∧ checksum_valid (hdr c).
Proof.
  intros Hs Hd Hls Hld hdr.
  assert (forall c, is_u16 c -> words_sum (hdr c) = 17664 + words_sum (be16 l) + 16385 + c + words_sum d + words_sum s) as Hc.
  { intros c Hc. unfold hdr.
    rewrite (words_sum_app [69; 0]), (words_sum_app (be16 l)), (words_sum_app [0; 0; 0; 0; 64; 1]),
      (words_sum_app (be16 c)), (words_sum_app d) by (done || by rewrite Hld).
    rewrite (words_sum_be16 c Hc). change (words_sum [69; 0]) with 17664.
    change (words_sum [0; 0; 0; 0; 64; 1]) with 16385. lia. }
  assert (bytes_ok (hdr 0)) as Hok.
  { unfold hdr. rewrite !bytes_ok_app. split_and!; try done; try apply be16_ok; by repeat constructor. }
  split; [done|]. pose proof (words_sum_bound (hdr 0) Hok) as Hb.
  destruct (cksum_of_ok (words_sum (hdr 0))) as (c & Hcc & Hu & H1 & H2).
  { assert (length (hdr 0) = 20%nat) as Hl by (unfold hdr; rewrite !length_app, Hls, Hld; done).
    rewrite Hl in Hb. split; [|lia]. rewrite (Hc 0) by done.
    pose proof (words_sum_bound d Hd). pose proof (words_sum_bound s Hs).
    pose proof (words_sum_bound (be16 l) (be16_ok l)). lia. }
  rewrite (Hc 0) in H1, H2 by done.
  exists c. split; [done|]. split; [done|]. unfold checksum_valid. rewrite (Hc c Hu). split.
  - intros H0. apply H1. lia.
  - rewrite <- H2. f_equal. lia.
Qed.

Lemma icmp_checksum q : bytes_ok q -> (length q < 1000)%nat ->
  let msg c := [3; 3] ++ be16 c ++ [0; 0; 0; 0] ++ q in
  bytes_ok (msg 0) ∧ exists c, cksum_of (words_sum (msg 0)) = Some c ∧ is_u16 c ∧ checksum_valid (msg c).
Proof.
  intros Hq Hl msg.
  assert (forall c, is_u16 c -> words_sum (msg c) = 771 + c + words_sum q) as Hc.
  { intros c Hc. unfold msg.
    rewrite (words_sum_app [3; 3]), (words_sum_app (be16 c)), (words_sum_app [0; 0; 0; 0]) by done.
    rewrite (words_sum_be16 c Hc). change (words_sum [3; 3]) with 771. change (words_sum [0; 0; 0; 0]) with 0. lia. }
  assert (bytes_ok (msg 0)) as Hok.
  { unfold msg. rewrite !bytes_ok_app. split_and!; try done; try apply be16_ok; by repeat constructor. }
  split; [done|]. pose proof (words_sum_bound q Hq) as Hb.
  destruct (cksum_of_ok (words_sum (msg 0))) as (c & Hcc & Hu & H1 & H2).
  { rewrite (Hc 0) by done. lia. }
  rewrite (Hc 0) in H1, H2 by done.
  exists c. split; [done|]. split; [done|]. unfold checksum_valid. rewrite (Hc c Hu). split.
  - by replace (771 + c + words_sum q) with (771 + 0 + words_sum q + c) by lia.
  - by replace (771 + c + words_sum q) with (771 + 0 + words_sum q + c) by lia.
Qed.

Lemma be16_hi v : Z.land (Z.shiftr v 8) 255 = (v / 2 ^ 8) mod 2 ^ 8.
Proof. pose proof (be16_bytes v) as H. by injection H. Qed.
Lemma be16_lo v : Z.land v 255 = v mod 2 ^ 8.
Proof. pose proof (be16_bytes v) as H. by injection H. Qed.

Lemma take_unreachable s d q c c' : length s = 4%nat -> length d = 4%nat ->
  take 20 (unreachable s d q c c')
  = [69; 0] ++ be16 (28 + Z.of_nat (length q)) ++ [0; 0; 0; 0; 64; 1] ++ be16 c ++ d ++ s.
Proof.
  intros Hs Hd. destruct s as [|s0 [|s1 [|s2 [|s3 [|? ?]]]]]; try done.
  by destruct d as [|d0 [|d1 [|d2 [|d3 [|? ?]]]]].
Qed.

Lemma drop_unreachable s d q c c' : length s = 4%nat -> length d = 4%nat ->
  drop 20 (unreachable s d q c c') = [3; 3] ++ be16 c' ++ [0; 0; 0; 0] ++ q.
Proof.
  intros Hs Hd. destruct s as [|s0 [|s1 [|s2 [|s3 [|? ?]]]]]; try done.
  by destruct d as [|d0 [|d1 [|d2 [|d3 [|? ?]]]]].
Qed.

(** A write at a constant offset into a message that starts with known bytes. *)
Lemma wr_step m off v pre old rest :
  m = pre ++ old ++ rest -> off = Z.of_nat (length pre) -> length old = length v ->
  exists m', wr m off v = Some m' ∧ m' = pre ++ v ++ rest.
Proof.
  intros -> -> Hl. eexists. split; [|done].
  rewrite (wr_app pre (old ++ rest)); [by rewrite <- Hl, drop_app_length | done | done |].
  rewrite length_app. lia.
Qed.

Ltac put_here :=
  match goal with Hm : ?m = ?e |- context [wr ?m ?off ?v] =>
    let n := eval compute in (Z.to_nat off) in
    let k := eval cbn in (length v) in
    let pre := eval cbn in (take n e) in
    let old := eval cbn in (take k (drop n e)) in
    let rest := eval cbn in (drop k (drop n e)) in
    let m' := fresh "m" in let Hw := fresh "Hw" in let Hm' := fresh "Hm" in
    destruct (wr_step m off v pre old rest Hm eq_refl eq_refl) as (m' & Hw & Hm');
    cbn [app] in Hm'; rewrite Hw; clear Hw; cbn [mbind option_bind]; clear Hm
  end.

Lemma send_icmp_exec orig a s d r hl :
  orig = a ++ s ++ d ++ r -> length a = 12%nat -> length s = 4%nat -> length d = 4%nat ->
  bytes_ok orig -> 20 <= hl <= 60 -> hl + 8 <= Z.of_nat (length orig) < 2 ^ 16 ->
  exists c c', let q := take (Z.to_nat (hl + 8)) orig in let out := unreachable s d q c c' in
    send_icmp_port_unreachable orig (Z.of_nat (length orig)) hl true = Some (Some out)
    ∧ checksum_valid (take 20 out) ∧ checksum_valid (drop 20 out).
Proof.
  intros Horig Ha Hls Hld Hok Hhl Hlen. cbv zeta.
  assert (rd orig 16 4 = Some d) as Hrd by (apply (rd_app (a ++ s) d r);
    rewrite ?Horig, ?length_app, ?Ha, ?Hls, ?Hld, <- ?app_assoc; done).
  assert (rd orig 12 4 = Some s) as Hrs by (apply (rd_app a s (d ++ r)); rewrite ?Ha, ?Hls; done).
  assert (bytes_ok s ∧ bytes_ok d) as [Hsok Hdok] by (rewrite Horig, !bytes_ok_app in Hok; tauto).
  set (q := take (Z.to_nat (hl + 8)) orig).
  assert (rd orig 0 (hl + 8) = Some q) as Hrq by (apply rd_0; lia).
  assert (Z.of_nat (length q) = hl + 8) as Hlq by by apply (length_rd orig 0).
  assert (bytes_ok q) as Hqok by by apply bytes_ok_take.
  destruct (header_checksum (28 + Z.of_nat (length q)) s d Hsok Hdok Hls Hld) as (Hhok & c & Hc & Hcu & Hcv).
  assert (forall rest, sum_header 10 (([69; 0] ++ be16 (28 + Z.of_nat (length q)) ++ [0; 0; 0; 0; 64; 1] ++ be16 0
    ++ d ++ s) ++ rest) 0 0 = Some (words_sum ([69; 0] ++ be16 (28 + Z.of_nat (length q)) ++ [0; 0; 0; 0; 64; 1]
    ++ be16 0 ++ d ++ s))) as Hsum.
  { intros rest. pose proof (words_sum_bound _ Hhok) as Hb.
    rewrite !length_app, Hls, Hld, !length_be16 in Hb. cbn [length] in Hb.
    apply (sum_header_ok 10 []); rewrite ?length_app, ?Hls, ?Hld; try done. lia. }
  destruct (icmp_checksum q Hqok ltac:(lia)) as (Hiok & c' & Hc' & Hcu' & Hcv').
  assert (sum_icmp (Z.to_nat (8 + (hl + 8))) ([3; 3] ++ be16 0 ++ [0; 0; 0; 0] ++ q) (8 + (hl + 8)) 0 0
    = Some (words_sum ([3; 3] ++ be16 0 ++ [0; 0; 0; 0] ++ q))) as Hsum'.
  { pose proof (words_sum_bound _ Hiok) as Hb.
    replace (8 + (hl + 8)) with (Z.of_nat (length ([3; 3] ++ be16 0 ++ [0; 0; 0; 0] ++ q)))
      by (rewrite !length_app; simpl; lia).
    set (msg := [3; 3] ++ be16 0 ++ [0; 0; 0; 0] ++ q) in *.
    assert (length msg = 8 + length q)%nat as Hlm by by unfold msg; rewrite !length_app.
    apply (sum_icmp_ok _ [] msg); try done; lia. }
  exists c, c'. unfold send_icmp_port_unreachable, u16.
  rewrite !(Z.mod_small (hl + 8)), !(Z.mod_small (8 + _)), !(Z.mod_small (20 + _)) by lia.
  rewrite decide_False by lia. cbn [negb].
  replace (Z.to_nat (20 + (8 + (hl + 8)))) with (28 + length q)%nat by lia.
  rewrite replicate_add. change (replicate 28 0) with [0;0;0;0;0;0;0;0;0;0;0;0;0;0;0;0;0;0;0;0;0;0;0;0;0;0;0;0].
  replace (20 + (8 + (hl + 8))) with (28 + Z.of_nat (length q)) by lia.
  set (z := replicate (length q) 0). assert (length z = length q) as Hz by by apply length_replicate.
  clearbody z. destruct s as [|s0 [|s1 [|s2 [|s3 [|? ?]]]]]; try done.
  destruct d as [|d0 [|d1 [|d2 [|d3 [|? ?]]]]]; try done.
  rewrite !be16_hi, !be16_lo. set (total := 28 + Z.of_nat (length q)) in *.
  assert (total = 28 + Z.of_nat (length q)) as Htot by done. clearbody total. clearbody q.
  match goal with |- context [wr ?m 0 [69]] => remember m as m0 eqn:Hm0 end. cbn [app] in Hm0.
  do 5 put_here. rewrite Hrd. cbn [mbind option_bind]. put_here. rewrite Hrs. cbn [mbind option_bind]. put_here.
  match goal with Hm : ?m = ?e |- context [sum_header 10 ?m 0 0] =>
    let rest := eval cbn in (drop 20 e) in
    assert (sum_header 10 m 0 0 = Some (words_sum ([69; 0] ++ be16 total ++ [0; 0; 0; 0; 64; 1]
      ++ be16 0 ++ [d0; d1; d2; d3] ++ [s0; s1; s2; s3]))) as Hs1 by (rewrite <- (Hsum rest), Hm; reflexivity);
    rewrite Hs1
  end.
  cbn [mbind option_bind]. rewrite Hc. cbn [mbind option_bind]. rewrite be16_hi, be16_lo. do 4 put_here.
  rewrite Hrq. cbn [mbind option_bind].
  match goal with Hm : ?m = ?e |- context [wr ?m 28 q] =>
    let pre := eval cbn in (take 28 e) in
    destruct (wr_step m 28 q pre z []) as (m' & Hw & Hm'); [by rewrite app_nil_r|done|done|]
  end.
  rewrite app_nil_r in Hm'. cbn [app] in Hm'. rewrite Hw. cbn [mbind option_bind].
  assert (drop 20 m' = [3; 3] ++ be16 0 ++ [0; 0; 0; 0] ++ q) as -> by by rewrite Hm'.
  rewrite Hsum'. cbn [mbind option_bind]. rewrite Hc'. cbn [mbind option_bind].
  rewrite be16_hi, be16_lo. do 2 put_here.
  rewrite take_unreachable, drop_unreachable, <- Htot by done. split; [|by split].
  match goal with Hm : ?m = ?e |- Some (Some ?m) = _ => rewrite Hm end. unfold unreachable. by rewrite <- Htot.
Qed.

(** ** Parsing *)

Lemma high_nibble b : is_u8 b -> Z.shiftr b 4 = b / 16 ∧ Z.land b 15 = b mod 16.
Proof.
  intros Hb. rewrite Z.shiftr_div_pow2 by lia. change 15 with (Z.ones 4). by rewrite Z.land_ones by lia.
Qed.

Lemma udp_packet_length f : udp_ok f ->
  Z.of_nat (length (udp_packet f)) = udp_header_len f + 4 + Z.of_nat (length (tail f)).
Proof.
  intros [Hl1 Hl2 Hl3 Hl4 Hl5 Hl6 _ Hl7 _ _ _]. unfold udp_packet, udp_header_len.
  rewrite !length_app, Hl1, Hl2, Hl3, Hl4, Hl5, Hl6, Hl7, length_be16. cbn [length]. lia.
Qed.

Lemma udp_packet_head f : udp_ok f ->
  exists hdr, udp_packet f = hdr ++ sport f ++ be16 (dport f) ++ tail f
    ∧ Z.of_nat (length hdr) = udp_header_len f
    ∧ rd8 (udp_packet f) 9 = Some 17 ∧ rd8 (udp_packet f) 0 = Some (69 + Z.of_nat (length (opts f)) / 4).
Proof.
  intros [Hl1 Hl2 Hl3 Hl4 Hl5 Hl6 _ Hl7 _ _ _]. unfold udp_packet, udp_header_len.
  exists ([69 + Z.of_nat (length (opts f)) / 4; tos f] ++ iplen f ++ ident f ++ frag f ++ [ttl f; 17] ++ ipsum f
          ++ src f ++ dst f ++ opts f).
  split; [by rewrite <- !app_assoc|]. split.
  { rewrite !length_app, Hl1, Hl2, Hl3, Hl4, Hl5, Hl6. cbn [length]. lia. }
  split; [|done].
  apply (rd8_app ([69 + Z.of_nat (length (opts f)) / 4; tos f] ++ iplen f ++ ident f ++ frag f ++ [ttl f])
    _ (ipsum f ++ src f ++ dst f ++ opts f ++ sport f ++ be16 (dport f) ++ tail f)).
  - by rewrite <- !app_assoc.
  - by rewrite !length_app, Hl1, Hl2, Hl3.
Qed.

Lemma parse_udp f : udp_ok f ->
  parse_udp_packet (udp_packet f) (Z.of_nat (length (udp_packet f)))
  = Some (udp_header_len f, Some (dport f)).
Proof.
  intros Hf. pose proof (udp_packet_length f Hf) as Hlen.
  destruct (udp_packet_head f Hf) as (hdr & Hp & Hh & H9 & H0).
  destruct Hf as [_ _ _ _ _ _ (n & Hn & Hopts) Hsp Hdp Htl Hsz].
  assert (udp_header_len f = 20 + 4 * Z.of_nat n) as Hhl by (unfold udp_header_len; lia).
  unfold parse_udp_packet. rewrite decide_False by lia. rewrite H0. cbn [mbind option_bind].
  replace (Z.of_nat (length (opts f)) / 4) with (Z.of_nat n) by (rewrite Hopts; Z.div_mod_to_equations; lia).
  destruct (high_nibble (69 + Z.of_nat n)) as [-> ->]; [unfold is_u8; lia|].
  replace ((69 + Z.of_nat n) / 16) with 4 by (Z.div_mod_to_equations; lia).
  replace ((69 + Z.of_nat n) mod 16) with (5 + Z.of_nat n) by (Z.div_mod_to_equations; lia).
  rewrite decide_False by tauto. unfold u16. rewrite !(Z.mod_small ((5 + _) * 4)) by lia.
  rewrite decide_False by lia. rewrite H9. cbn [mbind option_bind]. rewrite decide_False by tauto.
  assert (forall k b rest, udp_packet f = (hdr ++ sport f ++ k) ++ b :: rest ->
    rd8 (udp_packet f) ((5 + Z.of_nat n) * 4 + 2 + Z.of_nat (length k)) = Some b) as Hrd.
  { intros k b rest Hk. apply (rd8_app (hdr ++ sport f ++ k) b rest _ _ Hk).
    rewrite !length_app, Hsp. lia. }
  pose proof (Hrd [] ((dport f / 2 ^ 8) mod 2 ^ 8) ([dport f mod 2 ^ 8] ++ tail f)) as Hhi.
  pose proof (Hrd [(dport f / 2 ^ 8) mod 2 ^ 8] (dport f mod 2 ^ 8) (tail f)) as Hlo.
  cbn [length] in Hhi, Hlo. rewrite Z.add_0_r in Hhi.
  replace ((5 + Z.of_nat n) * 4 + 3) with ((5 + Z.of_nat n) * 4 + 2 + Z.of_nat 1) by lia.
  rewrite Hhi by (rewrite Hp, <- !app_assoc; done). cbn [mbind option_bind].
  rewrite Hlo by (rewrite Hp, <- !app_assoc; done). cbn [mbind option_bind].
  destruct (is_u8_be16 (dport f)) as [Hu1 Hu2]. rewrite word_value by done.
  unfold is_u16 in Hdp. do 3 f_equal; [lia|].
  rewrite Z.mod_small; Z.div_mod_to_equations; lia.
Qed.

Lemma split_ports (p : bytes) k : (k + 4 <= length p)%nat ->
  p = take k p ++ take 2 (drop k p) ++ [nth (2 + k) p 0; nth (3 + k) p 0] ++ drop (4 + k) p.
Proof.
  intros Hl. rewrite <- (take_drop k p) at 1. f_equal.
  rewrite (Nat.add_comm 4 k), <- (drop_drop p 4 k).
  assert (forall i, nth (i + k) p 0 = nth i (drop k p) 0) as Hn.
  { intros i. by rewrite !nth_lookup, lookup_drop, Nat.add_comm. }
  rewrite !Hn. assert (4 <= length (drop k p))%nat as Hd by (rewrite length_drop; lia).
  destruct (drop k p) as [|x0 [|x1 [|x2 [|x3 r]]]]; cbn [length] in Hd; try lia. done.
Qed.

(** A packet with a header as long as it says, and a protocol number 17, is [udp_packet] of
    its fields. *)
Lemma udp_packet_of p b0 n : bytes_ok p -> Z.of_nat (length p) < 2 ^ 16 -> (28 <= length p)%nat ->
  rd8 p 0 = Some b0 -> b0 = 69 + Z.of_nat n -> (n <= 10)%nat -> (20 + 4 * n + 4 <= length p)%nat ->
  rd8 p 9 = Some 17 -> exists f, udp_ok f ∧ p = udp_packet f.
Proof.
  intros Hok Hsz H28 H0 Hb0 Hn Hlen H9.
  set (k := (4 * n)%nat).
  set (dp := 256 * nth (22 + k) p 0 + nth (23 + k) p 0).
  assert (forall i, is_u8 (nth i p 0)) as Hnth.
  { intros i. destruct (decide (i < length p)%nat).
    - eapply Forall_forall; [exact Hok|]. apply list_elem_of_In, nth_In. lia.
    - rewrite nth_overflow by lia. unfold is_u8. lia. }
  assert (is_u16 dp) as Hdp by (pose proof (Hnth (22 + k)%nat); pose proof (Hnth (23 + k)%nat);
    unfold is_u16, is_u8, dp in *; lia).
  assert (be16 dp = [nth (22 + k) p 0; nth (23 + k) p 0]) as Hbe.
  { pose proof (Hnth (22 + k)%nat); pose proof (Hnth (23 + k)%nat). unfold be16, dp, is_u8 in *.
    f_equal; [|f_equal]; Z.div_mod_to_equations; lia. }
  exists (mk_udp (nth 1 p 0) (take 2 (drop 2 p)) (take 2 (drop 4 p)) (take 2 (drop 6 p)) (nth 8 p 0)
    (take 2 (drop 10 p)) (take 4 (drop 12 p)) (take 4 (drop 16 p)) (take k (drop 20 p))
    (take 2 (drop (20 + k) p)) dp (drop (24 + k) p)).
  set (f := mk_udp _ _ _ _ _ _ _ _ _ _ _ _).
  assert (p = udp_packet f) as Hp.
  { unfold udp_packet, f. cbn [iplen ident frag ttl ipsum src dst opts sport dport tail tos]. rewrite Hbe.
    rewrite length_take, length_drop, Nat.min_l by lia.
    replace (69 + Z.of_nat k / 4) with b0 by (subst k; Z.div_mod_to_equations; lia).
    apply (f_equal (fun o => default 0 o)) in H0, H9.
    unfold rd8 in H0, H9. rewrite decide_True, <- nth_lookup in H0 by lia.
    rewrite decide_True, <- nth_lookup in H9 by lia.
    change (nth 0 p 0 = b0) in H0. change (nth 9 p 0 = 17) in H9.
    rewrite <- H0, <- H9. clear -Hlen H28. subst k.
    destruct p as [|z0 [|z1 [|z2 [|z3 [|z4 [|z5 [|z6 [|z7 [|z8 [|z9 [|z10 [|z11 [|z12 [|z13 [|z14
      [|z15 [|z16 [|z17 [|z18 [|z19 p]]]]]]]]]]]]]]]]]]]]; cbn [length] in H28; try lia.
    change ([z0; z1; z2; z3; z4; z5; z6; z7; z8; z9; z10; z11; z12; z13; z14; z15; z16; z17; z18; z19] ++ p
      = [z0; z1; z2; z3; z4; z5; z6; z7; z8; z9; z10; z11; z12; z13; z14; z15; z16; z17; z18; z19]
        ++ (take (4 * n) p ++ take 2 (drop (4 * n) p)
            ++ [nth (2 + 4 * n) p 0; nth (3 + 4 * n) p 0] ++ drop (4 + 4 * n) p)).
    f_equal. apply split_ports. cbn [length] in Hlen. lia. }
  split; [|done]. rewrite Hp in Hsz.
  split; cbn [f iplen ident frag ttl ipsum src dst opts sport dport tail tos]; try done;
    rewrite ?length_take, ?length_drop; try lia.
  exists n. split; [done | lia].
Qed.

Lemma parse_total p : bytes_ok p -> Z.of_nat (length p) < 2 ^ 16 ->
  parse_udp_packet p (Z.of_nat (length p)) = Some (0, None)
  \/ exists f, udp_ok f ∧ p = udp_packet f.
Proof.
  intros Hok Hsz. unfold parse_udp_packet. case_decide as H28; [by left|].
  destruct (rd8_bound p 0) as [b0 H0]; [lia|]. rewrite H0. cbn [mbind option_bind].
  assert (is_u8 b0) as Hb0 by by eapply bytes_ok_lookup; [exact Hok|exact H0].
  destruct (high_nibble b0 Hb0) as [-> ->]. case_decide as H4; [by left|].
  unfold is_u8, u16 in *. rewrite Z.mod_small by (Z.div_mod_to_equations; lia).
  case_decide as Hl; [by left|].
  destruct (rd8_bound p 9) as [b9 H9]; [lia|]. rewrite H9. cbn [mbind option_bind].
  case_decide as Hpr; [by left|]. right.
  assert (b9 = 17) as -> by lia.
  apply (udp_packet_of p b0 (Z.to_nat (b0 mod 16 - 5))); try done; Z.div_mod_to_equations; lia.
Qed.

(** ** The loop *)

(** The policy of the tunnel. *)
Definition rejects (st : tunnel_io) (f : udp_fields) : Prop :=
  (reject_non_dns_udp st ≠ 0 ∧ dport f ≠ 53) \/ (reject_quic st ≠ 0 ∧ dport f = 443).

Definition count_tx (p : bytes) (st : tunnel_io) : tunnel_io :=
  mk_tio (reject_quic st) (reject_non_dns_udp st) (u64 (stat_tx_packets st + 1))
    (u64 (stat_tx_bytes st + Z.of_nat (length p))) (stat_rx_packets st) (stat_rx_bytes st).
Definition count_rx (n : Z) (st : tunnel_io) : tunnel_io :=
  mk_tio (reject_quic st) (reject_non_dns_udp st) (stat_tx_packets st) (stat_tx_bytes st)
    (u64 (stat_rx_packets st + 1)) (u64 (stat_rx_bytes st + n)).

(** The reply to [f], with valid checksums. *)
Definition valid_reply (f : udp_fields) (q : bytes) : Prop :=
  exists c c', q = unreachable (src f) (dst f) (take (Z.to_nat (udp_header_len f + 8)) (udp_packet f)) c c'
    ∧ checksum_valid (take 20 q) ∧ checksum_valid (drop 20 q).

(** What a round does with the packet it read. *)
Inductive handled (st : tunnel_io) : round -> list action -> tunnel_io -> Prop :=
  | HandledNothing r : rd_buf r = None -> handled st r [] st
  | HandledTaken r p : rd_buf r = Some p -> rn_taken r = true ->
      (forall f, udp_ok f -> p = udp_packet f -> ~ rejects st f) ->
      handled st r [Input p] (count_tx p st)
  | HandledRefused r p : rd_buf r = Some p -> rn_taken r = false ->
      (forall f, udp_ok f -> p = udp_packet f -> ~ rejects st f) ->
      handled st r [Input p; Freed p] (count_tx p st)
  | HandledDropped r f : rd_buf r = Some (udp_packet f) -> udp_ok f -> rejects st f ->
      rn_alloc r = false \/ (length (tail f) < 4)%nat ->
      handled st r [Freed (udp_packet f)] (count_tx (udp_packet f) st)
  | HandledReplied r f q : rd_buf r = Some (udp_packet f) -> udp_ok f -> rejects st f ->
      rn_alloc r = true -> (4 <= length (tail f))%nat -> valid_reply f q ->
      handled st r [Written q; Freed q; Freed (udp_packet f)]
        (let st := count_tx (udp_packet f) st in
         if decide (rn_written r <= 0) then st else count_rx (rn_written r) st).

Inductive handled_all : tunnel_io -> list round -> list action -> tunnel_io -> Prop :=
  | HandledEnd st : handled_all st [] [] st
  | HandledStep st r acts st1 rs acts' st2 :
      handled st r acts st1 -> handled_all st1 rs acts' st2 ->
      handled_all st (r :: rs) (acts ++ acts') st2.

Definition packet_ok (r : round) : Prop :=
  match rd_buf r with Some p => bytes_ok p ∧ Z.of_nat (length p) < 2 ^ 16 | None => True end.

Lemma send_short f alloc : udp_ok f -> alloc = false \/ (length (tail f) < 4)%nat ->
  send_icmp_port_unreachable (udp_packet f) (Z.of_nat (length (udp_packet f))) (udp_header_len f) alloc
  = Some None.
Proof.
  intros Hf Hs. pose proof (udp_packet_length f Hf) as Hl.
  destruct Hf as [_ _ _ _ _ _ (n & Hn & Ho) _ _ _ Hsz]. unfold send_icmp_port_unreachable, u16.
  assert (udp_header_len f = 20 + 4 * Z.of_nat n) as Hh by (unfold udp_header_len; lia).
  rewrite !(Z.mod_small (udp_header_len f + 8)) by lia.
  case_decide; [done|]. destruct Hs as [->|]; [done | lia].
Qed.

Lemma send_reply f : udp_ok f -> bytes_ok (udp_packet f) -> (4 <= length (tail f))%nat ->
  exists q, send_icmp_port_unreachable (udp_packet f) (Z.of_nat (length (udp_packet f))) (udp_header_len f) true
    = Some (Some q) ∧ valid_reply f q.
Proof.
  intros Hf Hok Ht. pose proof (udp_packet_length f Hf) as Hl.
  destruct Hf as [H1 H2 H3 H4 H5 H6 (n & Hn & Ho) _ _ _ Hsz].
  assert (udp_header_len f = 20 + 4 * Z.of_nat n) as Hh by (unfold udp_header_len; lia).
  destruct (send_icmp_exec (udp_packet f)
    ([69 + Z.of_nat (length (opts f)) / 4; tos f] ++ iplen f ++ ident f ++ frag f ++ [ttl f; 17] ++ ipsum f)
    (src f) (dst f) (opts f ++ sport f ++ be16 (dport f) ++ tail f) (udp_header_len f)) as (c & c' & Hs & Hv & Hv');
    try done; try lia.
  - unfold udp_packet. by rewrite <- !app_assoc.
  - by rewrite !length_app, H1, H2, H3, H4.
  - eexists. split; [exact Hs|]. by exists c, c'.
Qed.

Lemma lwip_io_round_ok r st : packet_ok r ->
  exists st' acts, lwip_io_round r st = Some (st', acts) ∧ handled st r acts st'.
Proof.
  unfold packet_ok, lwip_io_round. destruct (rd_buf r) as [p|] eqn:Hr; intros Hok.
  2: { do 2 eexists. split; [done|]. by apply HandledNothing. }
  destruct Hok as [Hok Hsz]. unfold u16. rewrite Z.mod_small by lia.
  destruct (parse_total p Hok Hsz) as [Hp|(f & Hf & ->)].
  - rewrite Hp. cbn [mbind option_bind]. rewrite decide_False by tauto. do 2 eexists. split; [done|].
    assert (forall f, udp_ok f -> p = udp_packet f -> ~ rejects st f) as Hno.
    { intros f Hf -> _. rewrite (parse_udp f Hf) in Hp. injection Hp as Hp _. unfold udp_header_len in Hp. lia. }
    destruct (rn_taken r) eqn:Ht; by constructor.
  - rewrite (parse_udp f Hf). cbn [mbind option_bind default reject_quic reject_non_dns_udp]. case_decide as Hrej.
    + destruct Hrej as [_ Hrej].
      destruct (decide (rn_alloc r = false \/ (length (tail f) < 4)%nat)) as [Hs|Hs].
      * rewrite (send_short f _ Hf Hs). cbn [mbind option_bind]. do 2 eexists. split; [done|].
        by apply HandledDropped.
      * assert (rn_alloc r = true) as Ha by (destruct (rn_alloc r); tauto). rewrite Ha.
        destruct (send_reply f Hf Hok ltac:(lia)) as (q & -> & Hq). cbn [mbind option_bind].
        unfold netif_output_handler. destruct (decide (rn_written r <= 0)) as [Hw|Hw]; do 2 eexists;
          (split; [done|]); pose proof (HandledReplied st r f q Hr Hf Hrej Ha ltac:(lia) Hq) as Hh; cbv zeta in Hh.
        -- rewrite decide_True in Hh by done. exact Hh.
        -- rewrite decide_False in Hh by done. exact Hh.
    + do 2 eexists. split; [done|].
      assert (~ rejects st f) as Hn.
      { intros Hrj. apply Hrej. split; [unfold udp_header_len; lia | exact Hrj]. }
      assert (forall g, udp_ok g -> udp_packet f = udp_packet g -> ~ rejects st g) as Hno.
      { intros g Hg Heq Hrj. apply Hn. pose proof (parse_udp g Hg) as H1. rewrite <- Heq, (parse_udp f Hf) in H1.
        injection H1 as _ Hd. unfold rejects in *. by rewrite Hd. }
      destruct (rn_taken r) eqn:Ht; by constructor.
Qed.

Lemma lwip_io_ok rs : forall st, Forall packet_ok rs ->
  exists st' acts, lwip_io_task_entry rs st = Some (st', acts) ∧ handled_all st rs acts st'.
Proof.
  induction rs as [|r rs IH]; intros st Hok; cbn [lwip_io_task_entry].
  - do 2 eexists. split; [done|]. constructor.
  - apply Forall_cons in Hok as [Hr Hok].
    destruct (lwip_io_round_ok r st Hr) as (st1 & acts & -> & H1). cbn [mbind option_bind].
    destruct (IH st1 Hok) as (st2 & acts' & -> & H2). do 2 eexists. split; [done|].
    by eapply HandledStep.
Qed.

(** ** Properties *)


(** C28: The ICMP reply to a UDP packet is an IPv4 packet with the addresses exchanged that
    carries "port unreachable" and quotes the packet's header and eight bytes more; the
    checksums of both headers verify.  There is no reply when the packet is too short to
    quote or no buffer is left; only memory of the packet and of the buffer is accessed. *)
Theorem send_icmp_port_unreachable_ok f alloc : udp_ok f -> bytes_ok (udp_packet f) ->
  let p := udp_packet f in
  exists r, send_icmp_port_unreachable p (Z.of_nat (length p)) (udp_header_len f) alloc = Some r
    ∧ match r with
      | Some q => alloc = true ∧ (4 <= length (tail f))%nat ∧ valid_reply f q
      | None => alloc = false \/ (length (tail f) < 4)%nat
      end.
Proof.
  intros Hf Hok p. destruct (decide (alloc = false \/ (length (tail f) < 4)%nat)) as [Hs|Hs].
  - exists None. split; [by apply send_short | done].
  - destruct alloc; [|tauto]. destruct (send_reply f Hf Hok ltac:(lia)) as (q & Hq & Hv).
    exists (Some q). split; [done|]. split_and!; [done | lia | done].
Qed.

(** C16: The reader of the tunnel device follows the policy and loses no packet: whatever
    is read, each packet is counted and then either given to the stack once, and freed if
    the stack refuses it, or, exactly when it is an IPv4 UDP packet the policy rejects,
    answered with a valid ICMP reply (when it can be quoted and a buffer is left) and
    freed once. *)
Theorem lwip_io_task_entry_ok rs st : Forall packet_ok rs ->
  exists st' acts, lwip_io_task_entry rs st = Some (st', acts) ∧ handled_all st rs acts st'.
Proof. apply lwip_io_ok. Qed.

(** *** A QUIC packet *)

Definition quic_packet : udp_fields :=
  mk_udp 0 [0; 32] [18; 52] [64; 0] 64 [0; 0] [10; 0; 0; 2] [1; 1; 1; 1] [] [200; 0] 443 [0; 12; 0; 0; 1; 2; 3; 4].

Lemma quic_packet_ok : udp_ok quic_packet ∧ bytes_ok (udp_packet quic_packet).
Proof.
  split; [|by repeat constructor].
  split; try done; [by exists 0%nat; split; [lia|] | cbn; lia].
Qed.


Lemma send_icmp_port_unreachable_ok_witness :
  exists q, send_icmp_port_unreachable (udp_packet quic_packet) 32 20 true = Some (Some q)
    ∧ valid_reply quic_packet q.
Proof.
  destruct (send_icmp_port_unreachable_ok quic_packet true) as (r & Hr & Hv).
  - apply quic_packet_ok.
  - apply quic_packet_ok.
  - destruct r as [q|]; [by exists q; split; [exact Hr | apply Hv]|].
    destruct Hv as [Hv|Hv]; [done | cbn in Hv; lia].
Defined.

Definition initial_io : tunnel_io := mk_tio 1 0 0 0 0 0.

Lemma lwip_io_task_entry_ok_witness :
  exists st acts, lwip_io_task_entry [mk_round (Some (udp_packet quic_packet)) true 56 true] initial_io
    = Some (st, acts) ∧ stat_rx_packets st = 1 ∧ length acts = 3%nat.
Proof.
  destruct (lwip_io_task_entry_ok [mk_round (Some (udp_packet quic_packet)) true 56 true] initial_io)
    as (st & acts & H & _).
  - repeat constructor; apply quic_packet_ok || done.
  - exists st, acts. split; [exact H|]. by vm_compute in H; injection H as <- <-.
Defined.

End TunnelPacketProofs.
