(* ===== verification/Config.v ===== *)
(** * The configuration: src/hev-config.c

    The interpretation of a YAML document as the program's settings.  The settings are
    static variables: they start at the defaults and every document changes what it
    mentions. *)

From Stdlib Require Import String.
From S2P Require Import Prelude Socks5Addr.

Module Config.
Import Socks5Addr.

(** ** Documents

    A document is the array of its nodes; the pairs of a mapping are indices, from 1, and
    0 for a missing node.  A scalar is a C string. *)
Inductive yaml_node := ScalarNode (value : bytes) | SequenceNode | MappingNode (pairs : list (Z * Z)).
Definition yaml_document : Type := list yaml_node.

Definition yaml_document_get_node (doc : yaml_document) (index : Z) : option yaml_node :=
  if decide (index > 0) then doc !! Z.to_nat (index - 1) else None.
Definition yaml_document_get_root_node (doc : yaml_document) : option yaml_node := head doc.

(** ** Numbers in strings: the C library's conversions, with a 64-bit [long] *)

Definition isspace (b : Z) : bool := bool_decide (b = 32 \/ 9 <= b <= 13).
Definition digit_val (b : Z) : Z :=
  if decide (48 <= b <= 57) then b - 48
  else if decide (97 <= b <= 122) then b - 87
  else if decide (65 <= b <= 90) then b - 55
  else 36.

Fixpoint skip_spaces (s : bytes) : bytes :=
  match s with b :: s' => if isspace b then skip_spaces s' else s | [] => [] end.
Fixpoint digits (base : Z) (s : bytes) (acc : Z) : Z :=
  match s with
  | b :: s => if decide (digit_val b < base) then digits base s (acc * base + digit_val b) else acc
  | [] => acc
  end.

Definition sign_of (s : bytes) : bool * bytes :=
  match s with b :: s' => if decide (b = 45) then (true, s') else if decide (b = 43) then (false, s') else (false, s)
  | [] => (false, []) end.

(** Base 0: the prefix tells the base. *)
Definition base_of (base : Z) (s : bytes) : Z * bytes :=
  if decide (base ≠ 0) then (base, s) else
  match s with
  | z :: x :: d :: s' =>
      if decide (z = 48 ∧ (x = 120 \/ x = 88) ∧ digit_val d < 16) then (16, d :: s')
      else if decide (z = 48) then (8, x :: d :: s') else (10, s)
  | z :: s' => if decide (z = 48) then (8, s') else (10, s)
  | [] => (10, [])
  end.

Definition strtoul (s : bytes) (base : Z) : Z :=
  let '(neg, s) := sign_of (skip_spaces s) in
  let '(b, s) := base_of base s in
  let n := digits b s 0 in
  if decide (n >= 2 ^ 64) then 2 ^ 64 - 1 else if neg : bool then (- n) mod 2 ^ 64 else n.
Definition strtol (s : bytes) (base : Z) : Z :=
  let '(neg, s) := sign_of (skip_spaces s) in
  let '(b, s) := base_of base s in
  let n := digits b s 0 in
  if neg : bool then Z.max (- n) (- 2 ^ 63) else Z.min n (2 ^ 63 - 1).

Definition tolower (b : Z) : Z := if decide (65 <= b <= 90) then b + 32 else b.
Definition strcasecmp (a b : bytes) : Z := strcmp (tolower <$> a) (tolower <$> b).

(** ** Settings *)

Record tunnel_config := mk_tunnel {
  tun_name : bytes; tun_mtu : Z; multi_queue : Z; tun_ipv4_address : bytes; tun_ipv6_address : bytes;
  tun_post_up_script : bytes; tun_pre_down_script : bytes }.

(** [_user] and [_pass] are the static buffers; [user] and [pass]: whether the pointers of
    [srv] are set to them. *)
Record socks5_config := mk_socks5 {
  user : bool; pass : bool; mark : Z; udp_in_udp : Z; port : Z; pipeline : Z;
  udp_addr : bytes; addr : bytes; _user : bytes; _pass : bytes }.

Record mapdns_config := mk_mapdns {
  mapdns_address : Z; mapdns_port : Z; mapdns_network : Z; mapdns_netmask : Z; mapdns_cache_size : Z }.

Record misc_settings := mk_misc {
  log_file : bytes; pid_file : bytes; max_session_count : Z; task_stack_size : Z; tcp_buffer_size : Z;
  udp_recv_buffer_size : Z; udp_copy_buffer_nums : Z; connect_timeout : Z; tcp_read_write_timeout : Z;
  udp_read_write_timeout : Z; limit_nofile : Z; log_level : Z }.

Record config := mk_config {
  tunnel : tunnel_config; srv : socks5_config; mapdns : mapdns_config; misc : misc_settings }.

Definition zeros (n : nat) : bytes := replicate n 0.

Definition HEV_LOGGER_DEBUG : Z := 0.
Definition HEV_LOGGER_INFO : Z := 1.
Definition HEV_LOGGER_WARN : Z := 2.
Definition HEV_LOGGER_ERROR : Z := 3.

(** The static initialisers. *)
Definition initial_config : config := mk_config
  (mk_tunnel (zeros 64) 8500 0 (zeros 16) (zeros 64) (zeros 1024) (zeros 1024))
  (mk_socks5 false false 0 0 0 0 (zeros 256) (zeros 256) (zeros 256) (zeros 256))
  (mk_mapdns 0 0 0 0 0)
  (mk_misc (zeros 1024) (zeros 1024) 0 86016 65536 524288 10 10000 300000 60000 65535 HEV_LOGGER_WARN).

(** [strncpy] of a scalar to the start of a buffer. *)
Definition copy_str (buf value : bytes) (n : nat) : option bytes := wr buf 0 (strncpy value n).

(** ** The loop over the pairs of a mapping

    Every section uses it; [body] gets the key and the node of the value.  The loop ends
    at the first pair that is not as expected. *)
Inductive flow (S : Type) := Continue (s : S) | Break (s : S) | Return (s : S).
Arguments Continue {S}. Arguments Break {S}. Arguments Return {S}.

Section Pairs.
Context {S : Type} (doc : yaml_document) (body : bytes -> option yaml_node -> S -> option (flow S)).

Fixpoint each_pair (pairs : list (Z * Z)) (s : S) : option (flow S) :=
  match pairs with
  | [] => Some (Break s)
  | (k, v) :: pairs =>
      if decide (k = 0 \/ v = 0) then Some (Break s) else
      match yaml_document_get_node doc k with
      | Some (ScalarNode key) =>
          f ← body key (yaml_document_get_node doc v) s;
          match f with Continue s => each_pair pairs s | f => Some f end
      | _ => Some (Break s)
      end
  end.
End Pairs.

Definition state_of {S} (f : flow S) : S := match f with Continue s | Break s | Return s => s end.

(** A section whose values are scalars: [item key value] changes the settings. *)
Definition scalar_section {S} (doc : yaml_document) (item : bytes -> bytes -> S -> option S)
    (pairs : list (Z * Z)) (s : S) : option S :=
  f ← each_pair doc (fun key node s =>
        match node with
        | Some (ScalarNode value) => s ← item key value s; Some (Continue s)
        | _ => Some (Break s)
        end) pairs s;
  Some (state_of f).

(** ** The tunnel section *)

Definition set_tun_name v c := mk_tunnel v (tun_mtu c) (multi_queue c) (tun_ipv4_address c)
  (tun_ipv6_address c) (tun_post_up_script c) (tun_pre_down_script c).
Definition set_tun_mtu v c := mk_tunnel (tun_name c) v (multi_queue c) (tun_ipv4_address c)
  (tun_ipv6_address c) (tun_post_up_script c) (tun_pre_down_script c).
Definition set_multi_queue v c := mk_tunnel (tun_name c) (tun_mtu c) v (tun_ipv4_address c)
  (tun_ipv6_address c) (tun_post_up_script c) (tun_pre_down_script c).
Definition set_tun_ipv4_address v c := mk_tunnel (tun_name c) (tun_mtu c) (multi_queue c) v
  (tun_ipv6_address c) (tun_post_up_script c) (tun_pre_down_script c).
Definition set_tun_ipv6_address v c := mk_tunnel (tun_name c) (tun_mtu c) (multi_queue c)
  (tun_ipv4_address c) v (tun_post_up_script c) (tun_pre_down_script c).
Definition set_tun_post_up_script v c := mk_tunnel (tun_name c) (tun_mtu c) (multi_queue c)
  (tun_ipv4_address c) (tun_ipv6_address c) v (tun_pre_down_script c).
Definition set_tun_pre_down_script v c := mk_tunnel (tun_name c) (tun_mtu c) (multi_queue c)
  (tun_ipv4_address c) (tun_ipv6_address c) (tun_post_up_script c) v.

Definition hev_config_parse_tunnel_ipv4 (doc : yaml_document) (base : option yaml_node)
    (c : tunnel_config) : option (Z * tunnel_config) :=
  match base with
  | Some (MappingNode pairs) =>
      c ← scalar_section doc (fun key value c =>
            if decide (key = lit "address") then
              b ← copy_str (tun_ipv4_address c) value 15; Some (set_tun_ipv4_address b c)
            else Some c) pairs c;
      Some (0, c)
  | _ => Some (-1, c)
  end.

Definition hev_config_parse_tunnel_ipv6 (doc : yaml_document) (base : option yaml_node)
    (c : tunnel_config) : option (Z * tunnel_config) :=
  match base with
  | Some (MappingNode pairs) =>
      c ← scalar_section doc (fun key value c =>
            if decide (key = lit "address") then
              b ← copy_str (tun_ipv6_address c) value 63; Some (set_tun_ipv6_address b c)
            else Some c) pairs c;
      Some (0, c)
  | _ => Some (-1, c)
  end.

Definition tunnel_item (key value : bytes) (c : tunnel_config) : option tunnel_config :=
  if decide (key = lit "name") then b ← copy_str (tun_name c) value 63; Some (set_tun_name b c)
  else if decide (key = lit "mtu") then Some (set_tun_mtu (u32 (strtoul value 10)) c)
  else if decide (key = lit "multi-queue") then Some (set_multi_queue (strcasecmp value (lit "false")) c)
  else if decide (key = lit "ipv4") then
    b ← copy_str (tun_ipv4_address c) value 15; Some (set_tun_ipv4_address b c)
  else if decide (key = lit "ipv6") then
    b ← copy_str (tun_ipv6_address c) value 63; Some (set_tun_ipv6_address b c)
  else if decide (key = lit "post-up-script") then
    b ← copy_str (tun_post_up_script c) value 63; Some (set_tun_post_up_script b c)
  else if decide (key = lit "pre-down-script") then
    b ← copy_str (tun_pre_down_script c) value 63; Some (set_tun_pre_down_script b c)
  else Some c.

(** The values of [ipv4] and [ipv6] may be mappings. *)
Definition hev_config_parse_tunnel (doc : yaml_document) (base : option yaml_node) (c : tunnel_config)
    : option (Z * tunnel_config) :=
  match base with
  | Some (MappingNode pairs) =>
      f ← each_pair doc (fun key node c =>
            match node with
            | None => Some (Break c)
            | Some (ScalarNode value) => c ← tunnel_item key value c; Some (Continue c)
            | Some _ =>
                if decide (key = lit "ipv4") then
                  '(_, c) ← hev_config_parse_tunnel_ipv4 doc node c; Some (Continue c)
                else if decide (key = lit "ipv6") then
                  '(_, c) ← hev_config_parse_tunnel_ipv6 doc node c; Some (Continue c)
                else Some (Continue c)
            end) pairs c;
      Some (0, state_of f)
  | _ => Some (-1, c)
  end.

(** ** The socks5 section *)

(** The local pointers, to the values of the last pairs. *)
Record socks5_locals := mk_locals {
  l_addr : option bytes; l_port : option bytes; l_udpm : option bytes; l_udpa : option bytes;
  l_user : option bytes; l_pass : option bytes; l_mark : option bytes; l_pipe : option bytes }.

Definition no_locals : socks5_locals := mk_locals None None None None None None None None.

Definition socks5_item (key value : bytes) (l : socks5_locals) : option socks5_locals :=
  let '(mk_locals a p um ua u w m pi) := l in
  Some (if decide (key = lit "port") then mk_locals a (Some value) um ua u w m pi
  else if decide (key = lit "address") then mk_locals (Some value) p um ua u w m pi
  else if decide (key = lit "udp") then mk_locals a p (Some value) ua u w m pi
  else if decide (key = lit "udp-address") then mk_locals a p um (Some value) u w m pi
  else if decide (key = lit "pipeline") then mk_locals a p um ua u w m (Some value)
  else if decide (key = lit "username") then mk_locals a p um ua (Some value) w m pi
  else if decide (key = lit "password") then mk_locals a p um ua u (Some value) m pi
  else if decide (key = lit "mark") then mk_locals a p um ua u w (Some value) pi
  else l).

(** [v && strcasecmp (v, s) == 0] *)
Definition is_text (v : option bytes) (s : bytes) : bool :=
  match v with Some v => bool_decide (strcasecmp v s = 0) | None => false end.

(** What follows the loop: the values found change the settings. *)
Definition socks5_apply (l : socks5_locals) (c : socks5_config) : option (Z * socks5_config) :=
  match l_port l, l_addr l with
  | None, _ => Some (-1, c)
  | _, None => Some (-1, c)
  | Some prt, Some adr =>
      match l_user l, l_pass l with
      | Some _, None | None, Some _ => Some (-1, c)
      | _, _ =>
          a ← copy_str (addr c) adr 255;
          ua ← match l_udpa l with Some v => copy_str (udp_addr c) v 255 | None => Some (udp_addr c) end;
          '(u, p, ub, pb) ←
            match l_user l, l_pass l with
            | Some us, Some pw =>
                ub ← copy_str (_user c) us 255;
                pb ← copy_str (_pass c) pw 255;
                Some (true, true, ub, pb)
            | _, _ => Some (user c, pass c, _user c, _pass c)
            end;
          Some (0, mk_socks5 u p
                     (match l_mark l with Some m => u32 (strtoul m 0) | None => mark c end)
                     (if is_text (l_udpm l) (lit "udp") then 1 else udp_in_udp c)
                     (u16 (strtoul prt 10))
                     (if is_text (l_pipe l) (lit "true") then 1 else pipeline c)
                     ua a ub pb)
      end
  end.

Definition hev_config_parse_socks5 (doc : yaml_document) (base : option yaml_node) (c : socks5_config)
    : option (Z * socks5_config) :=
  match base with
  | Some (MappingNode pairs) =>
      l ← scalar_section doc socks5_item pairs no_locals;
      socks5_apply l c
  | _ => Some (-1, c)
  end.

(** ** The mapdns section *)

(** The [int] of a value, and the bytes of an address as an [int]. *)
Definition int_of (s : bytes) : Z := s32 (strtoul s 10).
Definition of_le32 (b : bytes) : Z :=
  match b with [x; y; z; w] => x + 2 ^ 8 * y + 2 ^ 16 * z + 2 ^ 24 * w | _ => 0 end.

Section Address.
Context `{Resolver}.

(** [inet_pton (AF_INET, value, &old)] *)
Definition address_of (value : bytes) (old : Z) : Z :=
  match inet_pton4 value with Some b => s32 (of_le32 b) | None => old end.

Definition mapdns_item (key value : bytes) (c : mapdns_config) : option mapdns_config :=
  let '(mk_mapdns a p n m s) := c in
  Some (if decide (key = lit "address") then mk_mapdns (address_of value a) p n m s
  else if decide (key = lit "port") then mk_mapdns a (int_of value) n m s
  else if decide (key = lit "network") then mk_mapdns a p (address_of value n) m s
  else if decide (key = lit "netmask") then mk_mapdns a p n (address_of value m) s
  else if decide (key = lit "cache-size") then mk_mapdns a p n m (int_of value)
  else c).

Definition hev_config_parse_mapdns (doc : yaml_document) (base : option yaml_node) (c : mapdns_config)
    : option (Z * mapdns_config) :=
  match base with
  | Some (MappingNode pairs) =>
      c ← scalar_section doc mapdns_item pairs c;
      Some (0, mk_mapdns (mapdns_address c) (mapdns_port c) (s32 (ntohl (mapdns_network c)))
                 (s32 (ntohl (mapdns_netmask c))) (mapdns_cache_size c))
  | _ => Some (-1, c)
  end.
End Address.

(** ** The misc section *)

Definition hev_config_parse_log_level (value : bytes) : Z :=
  if decide (value = lit "debug") then HEV_LOGGER_DEBUG
  else if decide (value = lit "info") then HEV_LOGGER_INFO
  else if decide (value = lit "error") then HEV_LOGGER_ERROR
  else HEV_LOGGER_WARN.

(** The settings, and the locals [tcp_rw_timeout], [udp_rw_timeout] and [rw_timeout]. *)
Record misc_locals := mk_ml { m_set : misc_settings; m_tcp : Z; m_udp : Z; m_rw : Z }.

Definition misc_item (key value : bytes) (l : misc_locals) : option misc_locals :=
  let '(mk_ml (mk_misc lf pf ms ts tb ur uc ct tr ut ln ll as c) tcp udp rw) := l in
  if decide (key = lit "task-stack-size") then
    Some (mk_ml (mk_misc lf pf ms (int_of value) tb ur uc ct tr ut ln ll) tcp udp rw)
  else if decide (key = lit "tcp-buffer-size") then
    Some (mk_ml (mk_misc lf pf ms ts (int_of value) ur uc ct tr ut ln ll) tcp udp rw)
  else if decide (key = lit "udp-recv-buffer-size") then
    Some (mk_ml (mk_misc lf pf ms ts tb (int_of value) uc ct tr ut ln ll) tcp udp rw)
  else if decide (key = lit "udp-copy-buffer-nums") then
    Some (mk_ml (mk_misc lf pf ms ts tb ur (int_of value) ct tr ut ln ll) tcp udp rw)
  else if decide (key = lit "max-session-count") then
    Some (mk_ml (mk_misc lf pf (int_of value) ts tb ur uc ct tr ut ln ll) tcp udp rw)
  else if decide (key = lit "connect-timeout") then
    Some (mk_ml (mk_misc lf pf ms ts tb ur uc (int_of value) tr ut ln ll) tcp udp rw)
  else if decide (key = lit "read-write-timeout") then Some (mk_ml c tcp udp (int_of value))
  else if decide (key = lit "tcp-read-write-timeout") then Some (mk_ml c (int_of value) udp rw)
  else if decide (key = lit "udp-read-write-timeout") then Some (mk_ml c tcp (int_of value) rw)
  else if decide (key = lit "pid-file") then
    b ← copy_str pf value 1023; Some (mk_ml (mk_misc lf b ms ts tb ur uc ct tr ut ln ll) tcp udp rw)
  else if decide (key = lit "log-file") then
    b ← copy_str lf value 1023; Some (mk_ml (mk_misc b pf ms ts tb ur uc ct tr ut ln ll) tcp udp rw)
  else if decide (key = lit "log-level") then
    Some (mk_ml (mk_misc lf pf ms ts tb ur uc ct tr ut ln (hev_config_parse_log_level value)) tcp udp rw)
  else if decide (key = lit "limit-nofile") then
    Some (mk_ml (mk_misc lf pf ms ts tb ur uc ct tr ut (s32 (strtol value 10)) ll) tcp udp rw)
  else Some l.

(** The timeouts: the specific one, else the general one, else the old one. *)
Definition misc_timeouts (l : misc_locals) : misc_settings :=
  let '(mk_ml (mk_misc lf pf ms ts tb ur uc ct tr ut ln ll) tcp udp rw) := l in
  let tcp := if decide (tcp <= 0) then rw else tcp in
  let udp := if decide (udp <= 0) then rw else udp in
  mk_misc lf pf ms ts tb ur uc ct (if decide (tcp > 0) then tcp else tr)
    (if decide (udp > 0) then udp else ut) ln ll.

Definition hev_config_parse_misc (doc : yaml_document) (base : option yaml_node) (c : misc_settings)
    : option (Z * misc_settings) :=
  match base with
  | Some (MappingNode pairs) =>
      l ← scalar_section doc misc_item pairs (mk_ml c (-1) (-1) (-1));
      Some (0, misc_timeouts l)
  | _ => Some (-1, c)
  end.

(** ** The document *)

Definition set_tunnel v c := mk_config v (srv c) (mapdns c) (misc c).
Definition set_srv v c := mk_config (tunnel c) v (mapdns c) (misc c).
Definition set_mapdns v c := mk_config (tunnel c) (srv c) v (misc c).
Definition set_misc v c := mk_config (tunnel c) (srv c) (mapdns c) v.

Definition TCP_SND_BUF : Z := 8 * 8191.
Definition UDP_BUF_SIZE : Z := 1500.
Definition TASK_STACK_SIZE : Z := 20480.

(** The limits of the buffers, and the stack they need; signed overflow is undefined. *)
Definition no_overflow (z : Z) : option Z := if decide (is_s32 z) then Some z else None.

Definition misc_limits (c : misc_settings) : option misc_settings :=
  let '(mk_misc lf pf ms ts tb ur uc ct tr ut ln ll) := c in
  let tb := if decide (tb > TCP_SND_BUF) then TCP_SND_BUF else tb in
  udp_buffer_size ← no_overflow (UDP_BUF_SIZE * uc);
  min ← no_overflow (TASK_STACK_SIZE + if decide (tb > udp_buffer_size) then tb else udp_buffer_size);
  Some (mk_misc lf pf ms (if decide (ts < min) then min else ts) tb ur uc ct tr ut ln ll).

Section Document.
Context `{Resolver}.

Definition parse_section (doc : yaml_document) (key : bytes) (node : option yaml_node) (c : config)
    : option (Z * config) :=
  if decide (key = lit "tunnel") then
    '(res, v) ← hev_config_parse_tunnel doc node (tunnel c); Some (res, set_tunnel v c)
  else if decide (key = lit "socks5") then
    '(res, v) ← hev_config_parse_socks5 doc node (srv c); Some (res, set_srv v c)
  else if decide (key = lit "mapdns") then
    '(res, v) ← hev_config_parse_mapdns doc node (mapdns c); Some (res, set_mapdns v c)
  else if decide (key = lit "misc") then
    '(res, v) ← hev_config_parse_misc doc node (misc c); Some (res, set_misc v c)
  else Some (0, c).

Definition hev_config_parse_doc (doc : yaml_document) (c : config) : option (Z * config) :=
  match yaml_document_get_root_node doc with
  | Some (MappingNode pairs) =>
      f ← each_pair doc (fun key node c =>
            '(res, c) ← parse_section doc key node c;
            Some (if decide (res < 0) then Return c else Continue c)) pairs c;
      match f with
      | Return c => Some (-1, c)
      | Continue c | Break c => m ← misc_limits (misc c); Some (0, set_misc m c)
      end
  | _ => Some (-1, c)
  end.

(** [load]: what the parser makes of the string or the file; [None] on an error. *)
Definition hev_config_init_from_str (load : option yaml_document) (c : config) : option (Z * config) :=
  match load with Some doc => hev_config_parse_doc doc c | None => Some (-1, c) end.
Definition hev_config_init_from_file (opened : bool) (load : option yaml_document) (c : config)
    : option (Z * config) :=
  if opened then
    match load with Some doc => hev_config_parse_doc doc c | None => Some (-1, c) end
  else Some (-1, c).
Definition hev_config_fini (c : config) : config := c.
End Document.

(** ** What the program asks for *)

(** [if (!buf[0]) return NULL; return buf;] as the string read there. *)
Definition get_str (buf : bytes) : option (option bytes) :=
  s ← cstr_of buf; Some (match s with [] => None | _ => Some s end).
Definition hev_config_get_tunnel_name (c : config) := get_str (tun_name (tunnel c)).
Definition hev_config_get_tunnel_mtu (c : config) : Z := tun_mtu (tunnel c).
Definition hev_config_get_tunnel_multi_queue (c : config) : Z := multi_queue (tunnel c).
Definition hev_config_get_tunnel_ipv4_address (c : config) := get_str (tun_ipv4_address (tunnel c)).
Definition hev_config_get_tunnel_ipv6_address (c : config) := get_str (tun_ipv6_address (tunnel c)).
Definition hev_config_get_tunnel_post_up_script (c : config) := get_str (tun_post_up_script (tunnel c)).
Definition hev_config_get_tunnel_pre_down_script (c : config) := get_str (tun_pre_down_script (tunnel c)).
Definition hev_config_get_socks5_server (c : config) : socks5_config := srv c.
Definition hev_config_get_mapdns_address (c : config) : Z := mapdns_address (mapdns c).
Definition hev_config_get_mapdns_port (c : config) : Z := mapdns_port (mapdns c).
Definition hev_config_get_mapdns_network (c : config) : Z := mapdns_network (mapdns c).
Definition hev_config_get_mapdns_netmask (c : config) : Z := mapdns_netmask (mapdns c).
Definition hev_config_get_mapdns_cache_size (c : config) : Z := mapdns_cache_size (mapdns c).
Definition hev_config_get_misc_task_stack_size (c : config) : Z := task_stack_size (misc c).
Definition hev_config_get_misc_tcp_buffer_size (c : config) : Z := tcp_buffer_size (misc c).
Definition hev_config_get_misc_udp_recv_buffer_size (c : config) : Z := udp_recv_buffer_size (misc c).
Definition hev_config_get_misc_udp_copy_buffer_nums (c : config) : Z := udp_copy_buffer_nums (misc c).
Definition hev_config_get_misc_max_session_count (c : config) : Z := max_session_count (misc c).
Definition hev_config_get_misc_connect_timeout (c : config) : Z := connect_timeout (misc c).
Definition hev_config_get_misc_tcp_read_write_timeout (c : config) : Z := tcp_read_write_timeout (misc c).
Definition hev_config_get_misc_udp_read_write_timeout (c : config) : Z := udp_read_write_timeout (misc c).
Definition hev_config_get_misc_limit_nofile (c : config) : Z := limit_nofile (misc c).
Definition hev_config_get_misc_pid_file (c : config) := get_str (pid_file (misc c)).
Definition hev_config_get_misc_log_file (c : config) : option bytes :=
  s ← get_str (log_file (misc c)); Some (default (lit "stderr") s).
Definition hev_config_get_misc_log_level (c : config) : Z := log_level (misc c).

End Config.
