(* ===== verification/ConfigProofs.v ===== *)
(** * The configuration: proofs

    Any document leaves well-formed settings, and a section whose values are scalars
    means what its last values say. *)

From Stdlib Require Import String.
From S2P Require Import Prelude Socks5Addr Config.

Module ConfigProofs.
Import Socks5Addr Config.

(** ** Buffers *)

(** A buffer of [size] bytes whose first [n] bytes are written: the byte behind them is
    the NUL it started with. *)
Definition buf_ok (size n : nat) (b : bytes) : Prop := length b = size ∧ b !! n = Some 0.

Lemma buf_ok_zeros size n : (n < size)%nat -> buf_ok size n (zeros size).
Proof. intros Hn. split; [apply length_replicate | by apply lookup_replicate_2]. Qed.

Lemma cstr_of_prefix s m : cstr_ok s -> m !! 0%nat = Some 0 -> cstr_of (s ++ m) = Some s.
Proof. intros Hs Hm. destruct m as [|b m]; [done|]. injection Hm as ->. by apply cstr_of_app. Qed.

Lemma copy_ok size n b v : buf_ok size n b ->
  exists b', copy_str b v n = Some b' ∧ buf_ok size n b' ∧ (cstr_ok v -> cstr_of b' = Some (take n v)).
Proof.
  intros [Hl H0]. assert (n < size)%nat by (rewrite <- Hl; by eapply lookup_lt_Some).
  unfold copy_str. rewrite wr_0 by (rewrite length_strncpy; lia). rewrite length_strncpy.
  exists (strncpy v n ++ drop n b). split; [done|]. split.
  - split; [rewrite length_app, length_strncpy, length_drop; lia|].
    rewrite lookup_app_r by (rewrite length_strncpy; lia). rewrite length_strncpy, Nat.sub_diag, lookup_drop.
    by rewrite Nat.add_0_r.
  - intros Hv. unfold strncpy. rewrite <- app_assoc. apply cstr_of_prefix; [by apply Forall_take|].
    destruct (n - length v)%nat as [|k] eqn:Hk; [|done].
    change (drop n b !! 0%nat = Some 0). by rewrite lookup_drop, Nat.add_0_r.
Qed.

(** ** Well-formed settings *)

Record tunnel_ok (c : tunnel_config) : Prop := {
  to_name : buf_ok 64 63 (tun_name c); to_mtu : is_u32 (tun_mtu c);
  to_ipv4 : buf_ok 16 15 (tun_ipv4_address c); to_ipv6 : buf_ok 64 63 (tun_ipv6_address c);
  to_up : buf_ok 1024 63 (tun_post_up_script c); to_down : buf_ok 1024 63 (tun_pre_down_script c) }.

Record socks5_ok (c : socks5_config) : Prop := {
  so_both : user c = pass c; so_mark : is_u32 (mark c); so_port : is_u16 (port c);
  so_udp_addr : buf_ok 256 255 (udp_addr c); so_addr : buf_ok 256 255 (addr c);
  so_user : buf_ok 256 255 (_user c); so_pass : buf_ok 256 255 (_pass c) }.

Record mapdns_ok (c : mapdns_config) : Prop := {
  mo_address : is_s32 (mapdns_address c); mo_port : is_s32 (mapdns_port c);
  mo_network : is_s32 (mapdns_network c); mo_netmask : is_s32 (mapdns_netmask c);
  mo_size : is_s32 (mapdns_cache_size c) }.

Record misc_ok (c : misc_settings) : Prop := {
  io_log : buf_ok 1024 1023 (log_file c); io_pid : buf_ok 1024 1023 (pid_file c);
  io_stack : is_s32 (task_stack_size c); io_tcp : is_s32 (tcp_buffer_size c) }.

Record config_ok (c : config) : Prop := {
  co_tunnel : tunnel_ok (tunnel c); co_srv : socks5_ok (srv c);
  co_mapdns : mapdns_ok (mapdns c); co_misc : misc_ok (misc c) }.

Lemma initial_config_ok : config_ok initial_config.
Proof.
  split; split; cbn -[zeros]; try apply buf_ok_zeros; unfold is_u32, is_u16, is_s32; lia || done.
Qed.

Lemma s32_ok z : is_s32 (s32 z).
Proof. unfold is_s32, s32. pose proof (Z.mod_pos_bound (z + 2 ^ 31) (2 ^ 32)). lia. Qed.
Lemma u32_ok z : is_u32 (u32 z).
Proof. apply Z.mod_pos_bound. lia. Qed.
Lemma u16_ok z : is_u16 (u16 z).
Proof. apply Z.mod_pos_bound. lia. Qed.

(** ** Invariants of the loops *)

Lemma get_node_elem doc i n : yaml_document_get_node doc i = Some n -> n ∈ doc.
Proof. unfold yaml_document_get_node. case_decide; [|done]. by intros ?%list_elem_of_lookup_2. Qed.

Lemma each_pair_inv {S} (I : S -> Prop) doc body :
  (forall key node s, I s -> (forall n, node = Some n -> n ∈ doc) ->
    exists f, body key node s = Some f ∧ I (state_of f)) ->
  forall pairs s, I s -> exists f, each_pair doc body pairs s = Some f ∧ I (state_of f).
Proof.
  intros Hbody pairs. induction pairs as [|[k v] pairs IH]; intros s Hs; cbn [each_pair].
  { by exists (Break s). }
  case_decide; [by exists (Break s)|].
  destruct (yaml_document_get_node doc k) as [[key| |]|]; try by exists (Break s).
  destruct (Hbody key (yaml_document_get_node doc v) s Hs) as (f & -> & Hf); [intros n; apply get_node_elem|].
  cbn [mbind option_bind]. destruct f; [by apply IH | by exists (Break s0) | by exists (Return s0)].
Qed.

Lemma scalar_section_inv {S} (I : S -> Prop) doc item :
  (forall key value s, I s -> ScalarNode value ∈ doc -> exists s', item key value s = Some s' ∧ I s') ->
  forall pairs s, I s -> exists s', scalar_section doc item pairs s = Some s' ∧ I s'.
Proof.
  intros Hitem pairs s Hs. unfold scalar_section.
  destruct (each_pair_inv I doc (fun key node s =>
        match node with
        | Some (ScalarNode value) => s ← item key value s; Some (Continue s)
        | _ => Some (Break s)
        end)) with (pairs := pairs) (s := s) as (f & -> & Hf); [|done|].
  - intros key node t Ht Hn. destruct node as [[value| |]|]; try by exists (Break t).
    destruct (Hitem key value t Ht) as (t' & -> & Ht'); [by apply Hn|]. by exists (Continue t').
  - by exists (state_of f).
Qed.

(** Reading a scalar into a field keeps the settings well formed. *)
Ltac copies :=
  repeat match goal with
  | |- context [copy_str ?b ?v ?n] =>
      let b' := fresh "b" in let Hb := fresh "Hb" in
      destruct (copy_ok _ n b v ltac:(eassumption)) as (b' & -> & Hb & _); cbn [mbind option_bind]
  end.

Ltac branches :=
  repeat (case_decide; [eexists; split; [reflexivity|]; try (by split; cbn; first [assumption | apply s32_ok | apply u32_ok])|]).

Lemma tunnel_item_ok key value c : tunnel_ok c ->
  exists c', tunnel_item key value c = Some c' ∧ tunnel_ok c'.
Proof.
  intros [H1 H2 H3 H4 H5 H6]. unfold tunnel_item. copies. branches.
  exists c. split; [done | by split].
Qed.

Lemma parse_tunnel_ok doc base c : tunnel_ok c ->
  exists r c', hev_config_parse_tunnel doc base c = Some (r, c') ∧ (r = 0 \/ r = -1) ∧ tunnel_ok c'.
Proof.
  intros Hc. assert (forall item (t : tunnel_config),
    (forall value (t : tunnel_config), tunnel_ok t -> exists t', item value t = Some t' ∧ tunnel_ok t') ->
    tunnel_ok t -> forall pairs, exists t', scalar_section doc (fun key value t =>
      if decide (key = lit "address") then item value t else Some t) pairs t = Some t' ∧ tunnel_ok t') as Hsec.
  { intros item t Hitem Ht pairs. apply scalar_section_inv; [|done]. intros key value u Hu _.
    case_decide; [by apply Hitem | by exists u]. }
  unfold hev_config_parse_tunnel. destruct base as [[| |pairs]|]; try (by exists (-1), c; auto).
  destruct (each_pair_inv tunnel_ok doc (fun key node c =>
            match node with
            | None => Some (Break c)
            | Some (ScalarNode value) => c ← tunnel_item key value c; Some (Continue c)
            | Some _ =>
                if decide (key = lit "ipv4") then
                  '(_, c) ← hev_config_parse_tunnel_ipv4 doc node c; Some (Continue c)
                else if decide (key = lit "ipv6") then
                  '(_, c) ← hev_config_parse_tunnel_ipv6 doc node c; Some (Continue c)
                else Some (Continue c)
            end)) with (pairs := pairs) (s := c) as (f & -> & Hf); [|done|by exists 0, (state_of f); auto].
  intros key node t Ht _. destruct node as [[value| |prs]|]; try (by exists (Break t)).
  - destruct (tunnel_item_ok key value t Ht) as (t' & -> & Ht'). by exists (Continue t').
  - unfold hev_config_parse_tunnel_ipv4, hev_config_parse_tunnel_ipv6. repeat case_decide; by exists (Continue t).
  - unfold hev_config_parse_tunnel_ipv4, hev_config_parse_tunnel_ipv6. case_decide; [|case_decide; [|by exists (Continue t)]].
    + destruct (Hsec (fun value c => b ← copy_str (tun_ipv4_address c) value 15; Some (set_tun_ipv4_address b c)) t)
        with (pairs := prs) as (t' & -> & Ht'); [|done|by exists (Continue t')].
      intros value u [H1 H2 H3 H4 H5 H6]. copies. eexists. split; [done|]. by split.
    + destruct (Hsec (fun value c => b ← copy_str (tun_ipv6_address c) value 63; Some (set_tun_ipv6_address b c)) t)
        with (pairs := prs) as (t' & -> & Ht'); [|done|by exists (Continue t')].
      intros value u [H1 H2 H3 H4 H5 H6]. copies. eexists. split; [done|]. by split.
Qed.

(** ** Sections of scalars *)

(** The pairs [pairs] of the document are the scalars [kvs]. *)
Definition scalars (doc : yaml_document) (pairs : list (Z * Z)) (kvs : list (bytes * bytes)) : Prop :=
  Forall2 (fun p kv => yaml_document_get_node doc (fst p) = Some (ScalarNode (fst kv))
    ∧ yaml_document_get_node doc (snd p) = Some (ScalarNode (snd kv))) pairs kvs.

Fixpoint last_value (key : bytes) (kvs : list (bytes * bytes)) : option bytes :=
  match kvs with
  | [] => None
  | (k, v) :: kvs =>
      match last_value key kvs with
      | Some w => Some w
      | None => if decide (k = key) then Some v else None
      end
  end.

Fixpoint run_items {S} (item : bytes -> bytes -> S -> option S) (kvs : list (bytes * bytes)) (s : S)
    : option S :=
  match kvs with [] => Some s | (k, v) :: kvs => s ← item k v s; run_items item kvs s end.

Lemma get_node_pos doc i n : yaml_document_get_node doc i = Some n -> i > 0.
Proof. unfold yaml_document_get_node. by case_decide. Qed.

Lemma scalar_section_run {S} doc (item : bytes -> bytes -> S -> option S) pairs kvs s :
  scalars doc pairs kvs -> scalar_section doc item pairs s = run_items item kvs s.
Proof.
  intros Hs. unfold scalar_section. revert s.
  induction Hs as [|[k v] [key value] pairs kvs [Hk Hv] _ IH]; intros s; cbn [each_pair run_items]; [done|].
  cbn [fst snd] in Hk, Hv. pose proof (get_node_pos _ _ _ Hk). pose proof (get_node_pos _ _ _ Hv).
  rewrite decide_False by lia. rewrite Hk, Hv.
  destruct (item key value s) as [s'|]; cbn [mbind option_bind]; [apply IH | done].
Qed.

Lemma last_value_cons key k v kvs (o : option bytes) :
  last_value key ((k, v) :: kvs) ∪ o = last_value key kvs ∪ (if decide (k = key) then Some v else o).
Proof. simpl. by destruct (last_value key kvs), (decide (k = key)), o. Qed.

Definition located (l : socks5_locals) (kvs : list (bytes * bytes)) : socks5_locals :=
  mk_locals (last_value (lit "address") kvs ∪ l_addr l) (last_value (lit "port") kvs ∪ l_port l)
    (last_value (lit "udp") kvs ∪ l_udpm l) (last_value (lit "udp-address") kvs ∪ l_udpa l)
    (last_value (lit "username") kvs ∪ l_user l) (last_value (lit "password") kvs ∪ l_pass l)
    (last_value (lit "mark") kvs ∪ l_mark l) (last_value (lit "pipeline") kvs ∪ l_pipe l).

Lemma socks5_items kvs : forall l, run_items socks5_item kvs l = Some (located l kvs).
Proof.
  induction kvs as [|[k v] kvs IH]; intros l; cbn [run_items].
  - unfold located. cbn [last_value].
    assert (forall o : option bytes, None ∪ o = o) as Hnone by by intros [].
    rewrite !Hnone. by destruct l.
  - destruct l as [a p um ua u w m pi]. unfold socks5_item. cbn [mbind option_bind]. rewrite IH. f_equal.
    unfold located. rewrite !last_value_cons. cbn [l_addr l_port l_udpm l_udpa l_user l_pass l_mark l_pipe].
    repeat (case_decide as Hk; [subst k; reflexivity|clear Hk]). done.
Qed.

(** The loop accepts every document. *)
Lemma socks5_locals_some doc pairs l : exists l', scalar_section doc socks5_item pairs l = Some l'.
Proof.
  destruct (scalar_section_inv (fun _ => True) doc socks5_item) with (pairs := pairs) (s := l)
    as (l' & H & _); [|done|by exists l'].
  intros key value [a p um ua u w m pi] _ _. eexists. by split.
Qed.

Lemma socks5_apply_ok l c : socks5_ok c ->
  exists r c', socks5_apply l c = Some (r, c') ∧ (r = 0 \/ r = -1) ∧ socks5_ok c'.
Proof.
  intros Hc. destruct Hc as [H1 H2 H3 H4 H5 H6 H7] eqn:Heq. unfold socks5_apply.
  destruct (l_port l) as [prt|]; [|by exists (-1), c; auto].
  destruct (l_addr l) as [adr|]; [|by exists (-1), c; auto].
  destruct (l_user l) as [us|], (l_pass l) as [pw|]; try (by exists (-1), c; auto);
    destruct (l_udpa l) as [udpa|]; copies; do 2 eexists; (split; [reflexivity|]); (split; [by left|]);
    split; cbn; try assumption; try done; destruct (l_mark l); assumption || apply u32_ok || apply u16_ok.
Qed.

Lemma parse_socks5_ok doc base c : socks5_ok c ->
  exists r c', hev_config_parse_socks5 doc base c = Some (r, c') ∧ (r = 0 \/ r = -1) ∧ socks5_ok c'.
Proof.
  intros Hc. unfold hev_config_parse_socks5. destruct base as [[| |pairs]|]; try (by exists (-1), c; auto).
  destruct (socks5_locals_some doc pairs no_locals) as (l & ->). by apply socks5_apply_ok.
Qed.

Lemma parse_misc_ok doc base c : misc_ok c ->
  exists r c', hev_config_parse_misc doc base c = Some (r, c') ∧ (r = 0 \/ r = -1) ∧ misc_ok c'
    ∧ (udp_copy_buffer_nums c' = udp_copy_buffer_nums c
       \/ exists value, ScalarNode value ∈ doc ∧ udp_copy_buffer_nums c' = int_of value).
Proof.
  intros Hc. unfold hev_config_parse_misc. destruct base as [[| |pairs]|]; try (by exists (-1), c; auto).
  set (I := fun l => misc_ok (m_set l) ∧ (udp_copy_buffer_nums (m_set l) = udp_copy_buffer_nums c
       \/ exists value, ScalarNode value ∈ doc ∧ udp_copy_buffer_nums (m_set l) = int_of value)).
  destruct (scalar_section_inv I doc misc_item) with (pairs := pairs) (s := mk_ml c (-1) (-1) (-1))
    as (l & -> & Hl); [|by split; [|left]|].
  - intros key value [[lf pf ms ts tb ur uc ct tr ut ln ll] tcp udp rw] [[H1 H2 H3 H4] Hn] Hin.
    cbn in H1, H2, H3, H4, Hn. unfold misc_item. copies.
    repeat (case_decide; [eexists; split; [reflexivity|]; split; cbn;
      [by split; cbn; assumption || apply s32_ok | eauto]|]).
    eexists. split; [reflexivity|]. split; cbn; [by split | done].
  - cbn [mbind option_bind]. do 2 eexists. split; [done|]. split; [by left|].
    destruct l as [[lf pf ms ts tb ur uc ct tr ut ln ll] tcp udp rw], Hl as [[H1 H2 H3 H4] Hn].
    by split; [split|].
Qed.

Section Resolved.
Context `{Resolver}.

Lemma parse_mapdns_ok doc base c : mapdns_ok c ->
  exists r c', hev_config_parse_mapdns doc base c = Some (r, c') ∧ (r = 0 \/ r = -1) ∧ mapdns_ok c'.
Proof.
  intros Hc. unfold hev_config_parse_mapdns. destruct base as [[| |pairs]|]; try (by exists (-1), c; auto).
  destruct (scalar_section_inv mapdns_ok doc mapdns_item) with (pairs := pairs) (s := c)
    as (c1 & -> & [H1 H2 H3 H4 H5]); [|done|].
  - intros key value [a p n m s] [H1 H2 H3 H4 H5] _. eexists. split; [done|]. cbn in *.
    assert (forall o, is_s32 o -> is_s32 (address_of value o)) as Ha.
    { intros o Ho. unfold address_of. destruct (inet_pton4 value); [apply s32_ok | done]. }
    repeat case_decide; split; cbn; auto using s32_ok. all: apply s32_ok.
  - cbn [mbind option_bind]. do 2 eexists. split; [done|]. split; [by left|].
    split; cbn; assumption || apply s32_ok.
Qed.

(** The number of UDP buffers is the old one or a number of the document. *)
Definition nums_from (doc : yaml_document) (old new : Z) : Prop :=
  new = old \/ exists value, ScalarNode value ∈ doc ∧ new = int_of value.

Lemma parse_section_ok doc key node c n : config_ok c -> nums_from doc n (udp_copy_buffer_nums (misc c)) ->
  exists r c', parse_section doc key node c = Some (r, c') ∧ (r = 0 \/ r = -1) ∧ config_ok c'
    ∧ nums_from doc n (udp_copy_buffer_nums (misc c')).
Proof.
  intros [H1 H2 H3 H4] Hn. unfold parse_section. case_decide; [|case_decide; [|case_decide; [|case_decide]]].
  - destruct (parse_tunnel_ok doc node _ H1) as (r & v & -> & Hr & Hv). by exists r, (set_tunnel v c).
  - destruct (parse_socks5_ok doc node _ H2) as (r & v & -> & Hr & Hv). by exists r, (set_srv v c).
  - destruct (parse_mapdns_ok doc node _ H3) as (r & v & -> & Hr & Hv). by exists r, (set_mapdns v c).
  - destruct (parse_misc_ok doc node _ H4) as (r & v & -> & Hr & Hv & Hu). exists r, (set_misc v c).
    split_and!; [done | done | done|]. unfold nums_from in *. cbn. destruct Hu as [->|Hu]; [done | by right].
  - exists 0, c. split_and!; auto. by split.
Qed.

Definition within_limits (c : misc_settings) : Prop :=
  tcp_buffer_size c <= TCP_SND_BUF
  ∧ TASK_STACK_SIZE + tcp_buffer_size c <= task_stack_size c
  ∧ TASK_STACK_SIZE + UDP_BUF_SIZE * udp_copy_buffer_nums c <= task_stack_size c.

Definition few_buffers (n : Z) : Prop := - 1400000 <= n <= 1400000.

Lemma misc_limits_ok c : misc_ok c ->
  match misc_limits c with
  | Some c' => misc_ok c' ∧ within_limits c'
  | None => ~ few_buffers (udp_copy_buffer_nums c)
  end.
Proof.
  intros [H1 H2 H3 H4]. unfold misc_limits, no_overflow, within_limits, few_buffers.
  unfold UDP_BUF_SIZE, TASK_STACK_SIZE, TCP_SND_BUF.
  destruct c as [lf pf ms ts tb ur uc ct tr ut ln ll]. unfold is_s32 in *. cbn [log_file pid_file task_stack_size
    tcp_buffer_size udp_copy_buffer_nums] in *.
  destruct (decide (- 2 ^ 31 <= 1500 * uc < 2 ^ 31)) as [Hu|Hu]; cbn [mbind option_bind]; [|lia].
  set (tb' := if decide (tb > 8 * 8191) then 8 * 8191 else tb).
  assert (- 2 ^ 31 <= tb' <= 65528) by (unfold tb'; case_decide; lia).
  set (need := if decide (tb' > 1500 * uc) then tb' else 1500 * uc).
  assert (tb' <= need ∧ 1500 * uc <= need ∧ (need = tb' \/ need = 1500 * uc)) as (Ht1 & Ht2 & Ht3)
    by (unfold need; case_decide; lia).
  destruct (decide (- 2 ^ 31 <= 20480 + need < 2 ^ 31)) as [Hm|Hm]; cbn [mbind option_bind]; [|lia].
  split; [split; cbn; unfold is_s32|cbn]; try assumption; try case_decide; lia.
Qed.

(** ** Properties *)

Lemma parse_doc_ok doc c : config_ok c -> few_buffers (udp_copy_buffer_nums (misc c)) ->
  match hev_config_parse_doc doc c with
  | Some (r, c') => config_ok c' ∧ (r = -1 \/ r = 0 ∧ within_limits (misc c'))
  | None => exists value, ScalarNode value ∈ doc ∧ ~ few_buffers (int_of value)
  end.
Proof.
  intros Hc Hn. unfold hev_config_parse_doc.
  destruct (yaml_document_get_root_node doc) as [[| |pairs]|]; try by (split; [|left]).
  set (n := udp_copy_buffer_nums (misc c)) in *.
  set (I := fun c' => config_ok c' ∧ nums_from doc n (udp_copy_buffer_nums (misc c'))).
  destruct (each_pair_inv I doc (fun key node c =>
            '(res, c) ← parse_section doc key node c;
            Some (if decide (res < 0) then Return c else Continue c))) with (pairs := pairs) (s := c)
    as (f & -> & Hf); [|by split; [|left]|].
  - intros key node t [Ht Htn] _.
    destruct (parse_section_ok doc key node t n Ht Htn) as (r & t' & -> & _ & H1 & H2). cbn [mbind option_bind].
    case_decide; eexists; (split; [done|]); by split.
  - cbn [mbind option_bind]. assert (forall c', I c' ->
      match (m ← misc_limits (misc c'); Some (0, set_misc m c')) with
      | Some (r, c') => config_ok c' ∧ (r = -1 \/ r = 0 ∧ within_limits (misc c'))
      | None => exists value, ScalarNode value ∈ doc ∧ ~ few_buffers (int_of value)
      end) as Hend.
    { intros c' [[H1 H2 H3 H4] Hnum]. pose proof (misc_limits_ok _ H4) as Hl.
      destruct (misc_limits (misc c')) as [m|]; cbn [mbind option_bind].
      - destruct Hl as [Hm Hl]. split; [by split | by right].
      - destruct Hnum as [Hnum|(value & Hin & Hv)]; [by rewrite Hnum in Hl|]. exists value. by rewrite <- Hv. }
    destruct f as [c'|c'|c']; cbn [state_of] in Hf; [by apply Hend | by apply Hend |].
    split; [apply Hf | by left].
Qed.

(** The strings the program reads are terminated. *)
Lemma get_str_ok size n b : buf_ok size n b -> is_Some (get_str b).
Proof.
  intros [_ H0]. unfold get_str. destruct (cstr_of_nul b) as [s ->]; [by eapply list_elem_of_lookup_2|].
  by eexists.
Qed.

Definition strings_readable (c : config) : Prop :=
  is_Some (hev_config_get_tunnel_name c) ∧ is_Some (hev_config_get_tunnel_ipv4_address c)
  ∧ is_Some (hev_config_get_tunnel_ipv6_address c) ∧ is_Some (hev_config_get_tunnel_post_up_script c)
  ∧ is_Some (hev_config_get_tunnel_pre_down_script c) ∧ is_Some (hev_config_get_misc_pid_file c)
  ∧ is_Some (hev_config_get_misc_log_file c) ∧ is_Some (cstr_of (addr (srv c)))
  ∧ is_Some (cstr_of (udp_addr (srv c))) ∧ is_Some (cstr_of (_user (srv c))) ∧ is_Some (cstr_of (_pass (srv c))).

Lemma config_ok_readable c : config_ok c -> strings_readable c.
Proof.
  intros [[T1 _ T2 T3 T4 T5] [_ _ _ S1 S2 S3 S4] _ [M1 M2 _ _]].
  assert (forall size n b, buf_ok size n b -> is_Some (cstr_of b)) as Hc.
  { intros size n b [_ H0]. apply cstr_of_nul. by eapply list_elem_of_lookup_2. }
  unfold strings_readable. split_and!; try (by eapply get_str_ok; eassumption); try (by eapply Hc; eassumption).
  unfold hev_config_get_misc_log_file. destruct (get_str_ok _ _ _ M1) as [s ->]. by eexists.
Qed.

(** C27: Any YAML document is safe to interpret.  Starting from settings the program can
    have, the interpretation writes only inside its buffers and ends with an error or a
    success; the strings the program reads afterwards are terminated, and after a success
    the task stack has room for the TCP ring buffer, which fits the send buffer of the
    stack, and for the UDP buffers.  Only a document with a number beyond 1400000, taken as
    the number of UDP buffers, can make the computation of their size overflow. *)
Theorem hev_config_parse_doc_ok doc c :
  config_ok c -> few_buffers (udp_copy_buffer_nums (misc c)) ->
  match hev_config_parse_doc doc c with
  | Some (r, c') => config_ok c' ∧ strings_readable c' ∧ (r = -1 \/ r = 0 ∧ within_limits (misc c'))
  | None => exists value, ScalarNode value ∈ doc ∧ ~ few_buffers (int_of value)
  end.
Proof.
  intros Hc Hn. pose proof (parse_doc_ok doc c Hc Hn) as H1.
  destruct (hev_config_parse_doc doc c) as [[r c']|]; [|done]. destruct H1 as [H1 H2].
  split_and!; [done | by apply config_ok_readable | done].
Qed.

(** The section is complete: a port, an address, and both or none of the credentials. *)
Definition complete (kvs : list (bytes * bytes)) : Prop :=
  is_Some (last_value (lit "port") kvs) ∧ is_Some (last_value (lit "address") kvs)
  ∧ (is_Some (last_value (lit "username") kvs) ↔ is_Some (last_value (lit "password") kvs)).


Lemma misc_item_timeouts key value l : misc_ok (m_set l) ->
  exists l', misc_item key value l = Some l' ∧ misc_ok (m_set l')
    ∧ m_tcp l' = (if decide (key = lit "tcp-read-write-timeout") then int_of value else m_tcp l)
    ∧ m_udp l' = (if decide (key = lit "udp-read-write-timeout") then int_of value else m_udp l)
    ∧ m_rw l' = (if decide (key = lit "read-write-timeout") then int_of value else m_rw l)
    ∧ tcp_read_write_timeout (m_set l') = tcp_read_write_timeout (m_set l)
    ∧ udp_read_write_timeout (m_set l') = udp_read_write_timeout (m_set l).
Proof.
  destruct l as [[lf pf ms ts tb ur uc ct tr ut ln ll] tcp udp rw]. intros [H1 H2 H3 H4]. cbn in H1, H2, H3, H4.
  unfold misc_item. copies. cbn [m_tcp m_udp m_rw m_set tcp_read_write_timeout udp_read_write_timeout].
  repeat (case_decide as Hk; [subst key; eexists; split; [reflexivity|]; split;
    [split; cbn [m_set log_file pid_file task_stack_size tcp_buffer_size]; assumption || apply s32_ok
    | by split_and!; reflexivity]|clear Hk]).
  eexists. split; [reflexivity|]. by split_and!.
Qed.

Definition value_or (o : option bytes) (old : Z) : Z := match o with Some v => int_of v | None => old end.

Lemma misc_items_timeouts kvs : forall l, misc_ok (m_set l) ->
  exists l', run_items misc_item kvs l = Some l' ∧ misc_ok (m_set l')
    ∧ m_tcp l' = value_or (last_value (lit "tcp-read-write-timeout") kvs) (m_tcp l)
    ∧ m_udp l' = value_or (last_value (lit "udp-read-write-timeout") kvs) (m_udp l)
    ∧ m_rw l' = value_or (last_value (lit "read-write-timeout") kvs) (m_rw l)
    ∧ tcp_read_write_timeout (m_set l') = tcp_read_write_timeout (m_set l)
    ∧ udp_read_write_timeout (m_set l') = udp_read_write_timeout (m_set l).
Proof.
  assert (forall key k v kvs old, value_or (last_value key ((k, v) :: kvs)) old
    = value_or (last_value key kvs) (if decide (k = key) then int_of v else old)) as Hcons.
  { intros. simpl. destruct (last_value key kvs0); [done|]. by case_decide. }
  induction kvs as [|[k v] kvs IH]; intros l Hl; [by exists l|]. cbn [run_items].
  destruct (misc_item_timeouts k v l Hl) as (l1 & -> & H1 & E1 & E2 & E3 & E4 & E5). cbn [mbind option_bind].
  destruct (IH l1 H1) as (l' & -> & H2 & F1 & F2 & F3 & F4 & F5). exists l'.
  rewrite !Hcons, <- E1, <- E2, <- E3. split_and!; try done; congruence.
Qed.

(** What a timeout becomes: the specific value, else the general one, else the old one. *)
Definition timeout_of (specific general : option bytes) (old : Z) : Z :=
  let value o := match o with Some v => int_of v | None => -1 end in
  if decide (value specific > 0) then value specific
  else if decide (value general > 0) then value general else old.

Lemma pick_timeout (t rw old : Z) :
  (if decide ((if decide (t <= 0) then rw else t) > 0) then (if decide (t <= 0) then rw else t) else old)
  = (if decide (t > 0) then t else if decide (rw > 0) then rw else old).
Proof. destruct (decide (t <= 0)); repeat case_decide; lia. Qed.

(** The read-write timeouts of the misc section: the value given for the protocol, if
    it is positive, else the general value, if that is, else the timeout that was in
    force; the last value of each key counts. *)
Theorem hev_config_parse_misc_timeouts doc pairs kvs c : misc_ok c -> scalars doc pairs kvs ->
  let v key := last_value (lit key) kvs in
  exists c', hev_config_parse_misc doc (Some (MappingNode pairs)) c = Some (0, c')
    ∧ tcp_read_write_timeout c'
      = timeout_of (v "tcp-read-write-timeout"%string) (v "read-write-timeout"%string) (tcp_read_write_timeout c)
    ∧ udp_read_write_timeout c'
      = timeout_of (v "udp-read-write-timeout"%string) (v "read-write-timeout"%string) (udp_read_write_timeout c).
Proof.
  intros Hc Hs v. unfold hev_config_parse_misc. rewrite (scalar_section_run _ _ _ kvs _ Hs).
  destruct (misc_items_timeouts kvs (mk_ml c (-1) (-1) (-1)) Hc) as (l & -> & _ & E1 & E2 & E3 & E4 & E5).
  cbn [mbind option_bind]. eexists. split; [done|]. destruct l as [[lf pf ms ts tb ur uc ct tr ut ln ll] tcp udp rw].
  cbn [m_set m_tcp m_udp m_rw tcp_read_write_timeout udp_read_write_timeout misc_timeouts] in *.
  subst tcp udp rw tr ut. split; apply pick_timeout.
Qed.

(** The bytes of the last value of [key] that is an IPv4 literal. *)
Fixpoint last_address (key : bytes) (kvs : list (bytes * bytes)) : option bytes :=
  match kvs with
  | [] => None
  | (k, v) :: kvs =>
      match last_address key kvs with
      | Some b => Some b
      | None => if decide (k = key) then inet_pton4 v else None
      end
  end.

Definition address_or (o : option bytes) (old : Z) : Z :=
  match o with Some b => s32 (of_le32 b) | None => old end.

(** An address, as the number whose digits its bytes are. *)
Definition be32_of (b : bytes) : Z :=
  match b with [x; y; z; w] => 2 ^ 24 * x + 2 ^ 16 * y + 2 ^ 8 * z + w | _ => 0 end.

Lemma mapdns_items kvs : forall c, run_items mapdns_item kvs c
  = Some (mk_mapdns (address_or (last_address (lit "address") kvs) (mapdns_address c))
      (value_or (last_value (lit "port") kvs) (mapdns_port c))
      (address_or (last_address (lit "network") kvs) (mapdns_network c))
      (address_or (last_address (lit "netmask") kvs) (mapdns_netmask c))
      (value_or (last_value (lit "cache-size") kvs) (mapdns_cache_size c))).
Proof.
  assert (forall key k v r old, value_or (last_value key ((k, v) :: r)) old
    = value_or (last_value key r) (if decide (k = key) then int_of v else old)) as Hv.
  { intros. simpl. destruct (last_value key r); [done|]. by case_decide. }
  assert (forall key k v r old, address_or (last_address key ((k, v) :: r)) old
    = address_or (last_address key r) (if decide (k = key) then address_of v old else old)) as Ha.
  { intros. simpl. destruct (last_address key r); [done|]. by case_decide. }
  induction kvs as [|[k v] kvs IH]; intros [a p n m sz]; [done|]. cbn [run_items].
  unfold mapdns_item. cbn [mbind option_bind]. rewrite IH, !Hv, !Ha. f_equal.
  cbn [mapdns_address mapdns_port mapdns_network mapdns_netmask mapdns_cache_size].
  repeat (case_decide as Hk; [subst k; reflexivity|clear Hk]). done.
Qed.

Lemma ntohl_of_le32 b : length b = 4%nat -> bytes_ok b -> s32 (ntohl (s32 (of_le32 b))) = s32 (be32_of b).
Proof.
  intros Hl Hb. destruct b as [|x [|y [|z [|w [|? ?]]]]]; try done.
  repeat (apply Forall_cons in Hb as [? Hb]). unfold is_u8 in *. cbn [of_le32 be32_of].
  assert (forall v, u32 (s32 v) = u32 v) as Hu.
  { intros v. unfold u32, s32. rewrite Zminus_mod_idemp_l. by replace (v + 2 ^ 31 - 2 ^ 31) with v by lia. }
  unfold ntohl. rewrite Hu. 
  assert (u32 (x + 2 ^ 8 * y + 2 ^ 16 * z + 2 ^ 24 * w) = x + 2 ^ 8 * y + 2 ^ 16 * z + 2 ^ 24 * w) as ->
    by (apply Z.mod_small; lia).
  f_equal. unfold swap32. set (v := x + 2 ^ 8 * y + 2 ^ 16 * z + 2 ^ 24 * w).
  assert (v mod 2 ^ 8 = x) as -> by (unfold v; Z.div_mod_to_equations; lia).
  assert ((v / 2 ^ 8) mod 2 ^ 8 = y) as -> by (unfold v; Z.div_mod_to_equations; lia).
  assert ((v / 2 ^ 16) mod 2 ^ 8 = z) as -> by (unfold v; Z.div_mod_to_equations; lia).
  assert ((v / 2 ^ 24) mod 2 ^ 8 = w) as -> by (unfold v; Z.div_mod_to_equations; lia). lia.
Qed.

Lemma parse_mapdns_values doc pairs kvs c : ResolverOk -> scalars doc pairs kvs ->
  exists c', hev_config_parse_mapdns doc (Some (MappingNode pairs)) c = Some (0, c')
    ∧ mapdns_address c' = address_or (last_address (lit "address") kvs) (mapdns_address c)
    ∧ mapdns_port c' = value_or (last_value (lit "port") kvs) (mapdns_port c)
    ∧ mapdns_network c' = (match last_address (lit "network") kvs with
        Some b => s32 (be32_of b) | None => s32 (ntohl (mapdns_network c)) end)
    ∧ mapdns_netmask c' = (match last_address (lit "netmask") kvs with
        Some b => s32 (be32_of b) | None => s32 (ntohl (mapdns_netmask c)) end)
    ∧ mapdns_cache_size c' = value_or (last_value (lit "cache-size") kvs) (mapdns_cache_size c).
Proof.
  intros Hok Hs. unfold hev_config_parse_mapdns.
  rewrite (scalar_section_run _ _ _ kvs _ Hs), mapdns_items. cbn [mbind option_bind].
  eexists. split; [done|]. cbn [mapdns_address mapdns_port mapdns_network mapdns_netmask mapdns_cache_size].
  assert (forall key b, last_address key kvs = Some b -> s32 (ntohl (s32 (of_le32 b))) = s32 (be32_of b)) as Hb.
  { intros key b. clear Hs. induction kvs as [|[k v] r IH]; simpl; [done|].
    destruct (last_address key r); [exact IH|]. case_decide; [|done]. intros Hp.
    apply ntohl_of_le32; [by eapply pton4_size | by eapply pton4_bytes]. }
  split_and!; try done; unfold address_or.
  - destruct (last_address (lit "network") kvs) eqn:He; [by eapply Hb | done].
  - destruct (last_address (lit "netmask") kvs) eqn:He; [by eapply Hb | done].
Qed.
End Resolved.

(** *** A document *)

Definition example_doc : yaml_document :=
  [MappingNode [(2, 3); (12, 13)];
   ScalarNode (lit "socks5"); MappingNode [(4, 5); (6, 7); (8, 9); (10, 11)];
   ScalarNode (lit "port"); ScalarNode (lit "1080");
   ScalarNode (lit "address"); ScalarNode (lit "127.0.0.1");
   ScalarNode (lit "username"); ScalarNode (lit "me");
   ScalarNode (lit "password"); ScalarNode (lit "secret");
   ScalarNode (lit "misc"); MappingNode [(14, 15); (16, 17); (18, 19)];
   ScalarNode (lit "tcp-buffer-size"); ScalarNode (lit "131072");
   ScalarNode (lit "read-write-timeout"); ScalarNode (lit "5000");
   ScalarNode (lit "udp-read-write-timeout"); ScalarNode (lit " 7000ms")].

Definition example_kvs : list (bytes * bytes) :=
  [(lit "port", lit "1080"); (lit "address", lit "127.0.0.1"); (lit "username", lit "me");
   (lit "password", lit "secret")].

Lemma hev_config_parse_doc_ok_witness :
  exists c', @hev_config_parse_doc example_resolver example_doc initial_config = Some (0, c')
    ∧ within_limits (misc c').
Proof.
  pose proof (@hev_config_parse_doc_ok example_resolver example_doc initial_config initial_config_ok
    ltac:(vm_compute; split; discriminate)) as H.
  destruct (@hev_config_parse_doc example_resolver example_doc initial_config) as [[r c']|] eqn:He;
    vm_compute in He; [|discriminate].
  injection He as <- Hc. exists c'. split; [done|]. destruct H as (_ & _ & [H|[_ H]]); [discriminate | exact H].
Defined.


Lemma hev_config_parse_misc_timeouts_witness :
  exists c', hev_config_parse_misc example_doc (example_doc !! 12%nat) (misc initial_config) = Some (0, c')
    ∧ tcp_read_write_timeout c' = 5000 ∧ udp_read_write_timeout c' = 7000.
Proof.
  destruct (hev_config_parse_misc_timeouts example_doc [(14, 15); (16, 17); (18, 19)]
    [(lit "tcp-buffer-size", lit "131072"); (lit "read-write-timeout", lit "5000");
     (lit "udp-read-write-timeout", lit " 7000ms")] (misc initial_config)) as (c' & H & H1 & H2).
  - apply initial_config_ok.
  - repeat (constructor; [by vm_compute|]). constructor.
  - exists c'. split; [exact H|]. by split.
Defined.

End ConfigProofs.
