(* ===== verification/TunnelLife.v ===== *)
(** * The life cycle of the tunnel: src/hev-socks5-tunnel.c

    Initialisation acquires the device, the network interface, the event sockets, the
    three tasks and the mapped DNS, and what it finds wrong ends in the release of
    everything; finalisation releases it.  The world counts what is acquired. *)

From S2P Require Import Prelude Socks5Addr Config MappedDNS TunnelPacket.

Module TunnelLife.
Import Socks5Addr Config MappedDNS TunnelPacket.

(** ** State *)

(** The pointers [udp] and [tcp]: NULL, the gateway's, or those of a gateway that is gone. *)
Inductive pcbs := PcbNull | PcbLive | PcbDangling.

(** The static variables. *)
Record statics := mk_statics {
  tun_fd : Z; tun_fd_local : Z; event_fds : Z * Z;
  task_event : bool; task_lwip_io : bool; task_lwip_timer : bool;
  dns : option HevMappedDNS; gateway : pcbs; io : tunnel_io }.

(** The resources of the process: open descriptors, tasks, interfaces. *)
Record world := mk_world { st : statics; open_fds : gset Z; tasks : Z; netifs : Z }.

Definition initial_io : tunnel_io := mk_tio 1 0 0 0 0 0.
Definition initial_world : world :=
  mk_world (mk_statics (-1) 0 (-1, -1) false false false None PcbNull initial_io) ∅ 0 0.

Definition upd (f : statics -> statics) : M world unit :=
  mput (fun w => Some (mk_world (f (st w)) (open_fds w) (tasks w) (netifs w))).
Definition set_tun_fd v s := mk_statics v (tun_fd_local s) (event_fds s) (task_event s) (task_lwip_io s)
  (task_lwip_timer s) (dns s) (gateway s) (io s).
Definition set_tun_fd_local v s := mk_statics (tun_fd s) v (event_fds s) (task_event s) (task_lwip_io s)
  (task_lwip_timer s) (dns s) (gateway s) (io s).
Definition set_event_fds v s := mk_statics (tun_fd s) (tun_fd_local s) v (task_event s) (task_lwip_io s)
  (task_lwip_timer s) (dns s) (gateway s) (io s).
Definition set_task_event v s := mk_statics (tun_fd s) (tun_fd_local s) (event_fds s) v (task_lwip_io s)
  (task_lwip_timer s) (dns s) (gateway s) (io s).
Definition set_task_lwip_io v s := mk_statics (tun_fd s) (tun_fd_local s) (event_fds s) (task_event s) v
  (task_lwip_timer s) (dns s) (gateway s) (io s).
Definition set_task_lwip_timer v s := mk_statics (tun_fd s) (tun_fd_local s) (event_fds s) (task_event s)
  (task_lwip_io s) v (dns s) (gateway s) (io s).
Definition set_dns v s := mk_statics (tun_fd s) (tun_fd_local s) (event_fds s) (task_event s)
  (task_lwip_io s) (task_lwip_timer s) v (gateway s) (io s).
Definition set_gateway v s := mk_statics (tun_fd s) (tun_fd_local s) (event_fds s) (task_event s)
  (task_lwip_io s) (task_lwip_timer s) (dns s) v (io s).
Definition set_io v s := mk_statics (tun_fd s) (tun_fd_local s) (event_fds s) (task_event s)
  (task_lwip_io s) (task_lwip_timer s) (dns s) (gateway s) v.

Definition get {A} (f : statics -> A) : M world A := mget (fun w => Some (f (st w))).

(** Acquiring and releasing; releasing what is not there is an error. *)
Definition fd_open (f : Z) : M world unit :=
  mput (fun w => Some (mk_world (st w) ({[ f ]} ∪ open_fds w) (tasks w) (netifs w))).
Definition close (f : Z) : M world unit :=
  mput (fun w => if decide (f ∈ open_fds w) then
                   Some (mk_world (st w) (open_fds w ∖ {[ f ]}) (tasks w) (netifs w)) else None).
Definition count_task (n : Z) : M world unit :=
  mput (fun w => Some (mk_world (st w) (open_fds w) (tasks w + n) (netifs w))).
Definition count_netif (n : Z) : M world unit :=
  mput (fun w => Some (mk_world (st w) (open_fds w) (tasks w) (netifs w + n))).

(** What the calls of the system return; every one is called at most once. *)
Record env := mk_env {
  r_nonblock : Z;                (* ioctl on the given descriptor *)
  r_open : Z;                    (* hev_tunnel_open *)
  r_mtu : Z; r_ipv4 : Z; r_ipv6 : Z; r_state : Z;
  r_pair : option (Z * Z);       (* socketpair *)
  r_event_nonblock : Z;
  r_task_event : bool; r_task_io : bool; r_task_timer : bool;  (* hev_task_new *)
  r_dns : bool }.                (* the allocation in hev_mapped_dns_new *)

Section Init.
Context (e : env) (cfg : config).

(** ** The device *)

Definition tunnel_init (extern_tun_fd : Z) : M world Z :=
  if decide (extern_tun_fd >= 0) then
    if decide (r_nonblock e < 0) then mret (-1) else
    upd (set_tun_fd extern_tun_fd);; mret 0
  else
  mget (fun _ => hev_config_get_tunnel_name cfg);;
  (if decide (r_open e < 0) then mret tt else fd_open (r_open e));;
  upd (set_tun_fd (r_open e));;
  if decide (r_open e < 0) then mret (-1) else
  if decide (r_mtu e < 0) then mret (-1) else
  ipv4 ← mget (fun _ => hev_config_get_tunnel_ipv4_address cfg);
  if decide (is_Some ipv4 ∧ r_ipv4 e < 0) then mret (-1) else
  ipv6 ← mget (fun _ => hev_config_get_tunnel_ipv6_address cfg);
  if decide (is_Some ipv6 ∧ r_ipv6 e < 0) then mret (-1) else
  if decide (r_state e < 0) then mret (-1) else
  mget (fun _ => hev_config_get_tunnel_post_up_script cfg);;
  upd (set_tun_fd_local 1);;
  mret 0.

Definition tunnel_fini : M world unit :=
  local ← get tun_fd_local;
  if decide (local = 0) then mret tt else
  mget (fun _ => hev_config_get_tunnel_pre_down_script cfg);;
  f ← get tun_fd;
  close f;;
  upd (set_tun_fd_local 0);;
  upd (set_tun_fd (-1)).

(** ** The interface and the listening connections of the stack *)

Definition gateway_init : M world Z :=
  count_netif 1;; upd (set_gateway PcbLive);; mret 0.

(** The stack ignores NULL; the pointers keep their values. *)
Definition gateway_fini : M world unit :=
  g ← get gateway;
  match g with
  | PcbNull => mret tt
  | PcbLive => count_netif (-1);; upd (set_gateway PcbDangling)
  | PcbDangling => mfail
  end.

(** ** Tasks *)

Definition event_task_init : M world Z :=
  match r_pair e with
  | None => mret (-1)
  | Some (a, b) =>
      fd_open a;; fd_open b;; upd (set_event_fds (a, b));;
      if decide (r_event_nonblock e < 0) then mret (-1) else
      if r_task_event e then count_task 1;; upd (set_task_event true);; mret 0
      else upd (set_task_event false);; mret (-1)
  end.

Definition event_task_fini : M world unit :=
  t ← get task_event;
  mwhen t (count_task (-1);; upd (set_task_event false));;
  a ← get (fun s => fst (event_fds s));
  mwhen (bool_decide (a >= 0)) (close a;; upd (fun s => set_event_fds (-1, snd (event_fds s)) s));;
  b ← get (fun s => snd (event_fds s));
  mwhen (bool_decide (b >= 0)) (close b;; upd (fun s => set_event_fds (fst (event_fds s), -1) s)).

Definition lwip_io_task_init : M world Z :=
  if r_task_io e then count_task 1;; upd (set_task_lwip_io true);; mret 0
  else upd (set_task_lwip_io false);; mret (-1).
Definition lwip_io_task_fini : M world unit :=
  t ← get task_lwip_io; mwhen t (count_task (-1);; upd (set_task_lwip_io false)).

Definition lwip_timer_task_init : M world Z :=
  if r_task_timer e then count_task 1;; upd (set_task_lwip_timer true);; mret 0
  else upd (set_task_lwip_timer false);; mret (-1).
Definition lwip_timer_task_fini : M world unit :=
  t ← get task_lwip_timer; mwhen t (count_task (-1);; upd (set_task_lwip_timer false)).

(** ** The mapped DNS *)

Definition mapped_dns_init : M world Z :=
  let network := hev_config_get_mapdns_network cfg in
  let netmask := hev_config_get_mapdns_netmask cfg in
  let cache_size := hev_config_get_mapdns_cache_size cfg in
  if decide (cache_size = 0) then mret 0 else
  if negb (r_dns e) then mret (-1) else
  match hev_mapped_dns_new network netmask cache_size with
  | None => mret (-1)
  | Some d => upd (set_dns (Some d));; mret 0
  end.

(** The last reference: the object is destroyed. *)
Definition mapped_dns_fini : M world unit :=
  d ← get dns;
  match d with
  | None => mret tt
  | Some d =>
      mget (fun _ => hev_mapped_dns_destruct d);;
      upd (set_dns None)
  end.

(** ** The whole *)

Definition hev_socks5_tunnel_fini : M world unit :=
  mapped_dns_fini;;
  lwip_timer_task_fini;;
  lwip_io_task_fini;;
  event_task_fini;;
  gateway_fini;;
  tunnel_fini;;
  upd (set_io initial_io).

(** [if (res < 0) goto exit;] *)
Definition step (m : M world Z) (k : M world Z) : M world Z :=
  res ← m;
  if decide (res < 0) then hev_socks5_tunnel_fini;; mret (-1) else k.

Definition hev_socks5_tunnel_init (extern_tun_fd : Z) : M world Z :=
  step (tunnel_init extern_tun_fd) (
  step gateway_init (
  step event_task_init (
  step lwip_io_task_init (
  step lwip_timer_task_init (
  step mapped_dns_init (
  mret 0)))))).
End Init.

End TunnelLife.
