(* ===== verification/TunnelLifeProofs.v ===== *)
(** * The life cycle of the tunnel: proofs *)

From S2P Require Import Prelude Socks5Addr Config ConfigProofs MappedDNS MappedDNSProofs TunnelPacket TunnelLife.

Module TunnelLifeProofs.
Import Config ConfigProofs TunnelPacket TunnelLife.

(** ** Finalisation *)

Definition ev_set (s : statics) : gset Z :=
  (if decide (fst (event_fds s) >= 0) then {[ fst (event_fds s) ]} else ∅)
  ∪ (if decide (snd (event_fds s) >= 0) then {[ snd (event_fds s) ]} else ∅).
Definition tun_set (s : statics) : gset Z :=
  if decide (tun_fd_local s = 0) then ∅ else {[ tun_fd s ]}.
Definition b2z (b : bool) : Z := if b then 1 else 0.
Definition task_count (s : statics) : Z := b2z (task_event s) + b2z (task_lwip_io s) + b2z (task_lwip_timer s).
Definition live (s : statics) : bool := match gateway s with PcbLive => true | _ => false end.

(** What the static variables name is there to be released. *)
Record releasable (w : world) : Prop := {
  rl_events : event_fds (st w) = (-1, -1)
    \/ (fst (event_fds (st w)) >= 0 ∧ snd (event_fds (st w)) >= 0 ∧ fst (event_fds (st w)) ≠ snd (event_fds (st w)));
  rl_open : ev_set (st w) ∪ tun_set (st w) ⊆ open_fds w;
  rl_apart : ev_set (st w) ## tun_set (st w);
  rl_dns : forall d, dns (st w) = Some d -> exists c, MappedDNSProofs.cache d c;
  rl_gateway : gateway (st w) ≠ PcbDangling }.

Definition cleaned (s : statics) : statics :=
  mk_statics (if decide (tun_fd_local s = 0) then tun_fd s else -1) 0 (-1, -1) false false false None
    (if live s then PcbDangling else gateway s) initial_io.

Ltac run_steps := unfold mwhen, get, upd, count_task, count_netif, fd_open, close, mget, mput, mbind, M_bind, mret, M_ret.

Lemma event_task_fini_exact w : releasable w ->
  event_task_fini w = Some (tt, mk_world (set_event_fds (-1, -1) (set_task_event false (st w)))
    (open_fds w ∖ ev_set (st w)) (tasks w - b2z (task_event (st w))) (netifs w)).
Proof.
  intros [He Ho _ _ _]. destruct w as [[tf tl [a b] te ti tm dn gw i] fs tk nf].
  unfold ev_set, b2z in *. cbn in *. unfold event_task_fini. run_steps. cbn.
  destruct He as [[= -> ->]|(Ha & Hb & Hne)].
  - rewrite !decide_False by lia. rewrite union_empty_l_L, difference_empty_L.
    assert (bool_decide (-1 >= 0) = false) as Hm by done.
    destruct te; cbn; rewrite ?Hm; cbn; rewrite ?Hm; do 3 f_equal; lia.
  - rewrite (decide_True (P := a >= 0)), (decide_True (P := b >= 0)) in * by done.
    assert (bool_decide (a >= 0) = true) as Ha' by by apply bool_decide_eq_true_2.
    assert (bool_decide (b >= 0) = true) as Hb' by by apply bool_decide_eq_true_2.
    rewrite <- difference_difference_l_L.
    destruct te; cbn; rewrite Ha'; cbn; rewrite (decide_True (P := a ∈ fs)) by set_solver; cbn; rewrite Hb'; cbn;
      rewrite (decide_True (P := b ∈ fs ∖ {[a]})) by set_solver; cbn; do 3 f_equal; lia.
Qed.

Lemma tunnel_fini_exact cfg w : tun_set (st w) ⊆ open_fds w -> strings_readable cfg ->
  tunnel_fini cfg w = Some (tt, mk_world
    (mk_statics (if decide (tun_fd_local (st w) = 0) then tun_fd (st w) else -1) 0 (event_fds (st w))
      (task_event (st w)) (task_lwip_io (st w)) (task_lwip_timer (st w)) (dns (st w)) (gateway (st w)) (io (st w)))
    (open_fds w ∖ tun_set (st w)) (tasks w) (netifs w)).
Proof.
  intros Ho Hs. destruct Hs as (_ & _ & _ & _ & [d Hd] & _).
  destruct w as [[tf tl [a b] te ti tm dn gw i] fs tk nf]. unfold tun_set in *. cbn in *.
  unfold tunnel_fini. run_steps. cbn. destruct (decide (tl = 0)) as [->|Hl].
  - by rewrite difference_empty_L.
  - rewrite Hd. cbn. rewrite (decide_True (P := tf ∈ fs)) by set_solver. done.
Qed.

Lemma mapped_dns_fini_exact w : (forall d, dns (st w) = Some d -> exists c, MappedDNSProofs.cache d c) ->
  mapped_dns_fini w = Some (tt, mk_world (set_dns None (st w)) (open_fds w) (tasks w) (netifs w)).
Proof.
  intros Hd. unfold mapped_dns_fini. run_steps. destruct (dns (st w)) as [d|] eqn:Hdn.
  - destruct (Hd d eq_refl) as [c Hc].
    by destruct (wp_elim _ _ _ (MappedDNSProofs.wp_destruct d c Hc)) as ([] & d' & -> & _).
  - destruct w as [[] fs tk nf]. cbn in *. by rewrite Hdn.
Qed.

Lemma lwip_timer_task_fini_exact w : lwip_timer_task_fini w
  = Some (tt, mk_world (set_task_lwip_timer false (st w)) (open_fds w) (tasks w - b2z (task_lwip_timer (st w))) (netifs w)).
Proof.
  unfold lwip_timer_task_fini. run_steps. destruct w as [[tf tl ev te ti tm dn gw i] fs tk nf].
  cbn. destruct tm; cbn; do 3 f_equal; lia.
Qed.

Lemma lwip_io_task_fini_exact w : lwip_io_task_fini w
  = Some (tt, mk_world (set_task_lwip_io false (st w)) (open_fds w) (tasks w - b2z (task_lwip_io (st w))) (netifs w)).
Proof.
  unfold lwip_io_task_fini. run_steps. destruct w as [[tf tl ev te ti tm dn gw i] fs tk nf].
  cbn. destruct ti; cbn; do 3 f_equal; lia.
Qed.

Lemma gateway_fini_exact w : gateway (st w) ≠ PcbDangling -> gateway_fini w
  = Some (tt, mk_world (set_gateway (if live (st w) then PcbDangling else gateway (st w)) (st w)) (open_fds w)
      (tasks w) (netifs w - b2z (live (st w)))).
Proof.
  intros Hg. unfold gateway_fini, live. run_steps. destruct w as [[tf tl ev te ti tm dn gw i] fs tk nf].
  cbn in *. destruct gw; cbn; try done; do 3 f_equal; lia.
Qed.

Lemma hev_socks5_tunnel_fini_exact cfg w : releasable w -> strings_readable cfg ->
  hev_socks5_tunnel_fini cfg w = Some (tt, mk_world (cleaned (st w))
    (open_fds w ∖ (ev_set (st w) ∪ tun_set (st w))) (tasks w - task_count (st w)) (netifs w - b2z (live (st w)))).
Proof.
  intros Hr Hs. pose proof Hr as [He Ho Ha Hd Hg]. unfold hev_socks5_tunnel_fini.
  rewrite (bind_some _ _ _ _ _ (mapped_dns_fini_exact w Hd)).
  rewrite (bind_some _ _ _ _ _ (lwip_timer_task_fini_exact _)).
  rewrite (bind_some _ _ _ _ _ (lwip_io_task_fini_exact _)).
  destruct w as [[tf tl ev te ti tm dn gw i] fs tk nf]. cbn in *.
  erewrite bind_some; [|by apply event_task_fini_exact]. cbn.
  erewrite bind_some; [|by apply gateway_fini_exact]. cbn.
  erewrite bind_some; [|apply tunnel_fini_exact; [|exact Hs]].
  - unfold upd, mput, ev_set, tun_set, task_count, live, cleaned in *. cbn.
    rewrite difference_difference_l_L. do 3 f_equal. lia.
  - unfold ev_set, tun_set in *. cbn in *. set_solver.
Qed.

(** ** What was acquired since a start *)

(** Nothing is acquired: before the first start, and after every stop. *)
Record clean (w : world) : Prop := {
  cl_local : tun_fd_local (st w) = 0; cl_events : event_fds (st w) = (-1, -1);
  cl_tasks : task_event (st w) = false ∧ task_lwip_io (st w) = false ∧ task_lwip_timer (st w) = false;
  cl_dns : dns (st w) = None; cl_gateway : gateway (st w) ≠ PcbLive }.

(** From the world [w0] to [w], the static variables account for what was acquired, and
    [leak] is what they have lost. *)
Record accounted (w0 : world) (leak : gset Z) (w : world) : Prop := {
  ac_events : event_fds (st w) = (-1, -1)
    \/ (fst (event_fds (st w)) >= 0 ∧ snd (event_fds (st w)) >= 0 ∧ fst (event_fds (st w)) ≠ snd (event_fds (st w)));
  ac_open : open_fds w = open_fds w0 ∪ leak ∪ (ev_set (st w) ∪ tun_set (st w));
  ac_fresh : ev_set (st w) ∪ tun_set (st w) ## open_fds w0 ∪ leak;
  ac_apart : ev_set (st w) ## tun_set (st w);
  ac_tasks : tasks w = tasks w0 + task_count (st w);
  ac_netifs : netifs w = netifs w0 + b2z (live (st w));
  ac_dns : forall d, dns (st w) = Some d -> exists c, MappedDNSProofs.cache d c }.

(** Everything acquired since [w0] is released, but [leak]. *)
Definition released (w0 : world) (leak : gset Z) (w : world) : Prop :=
  clean w ∧ open_fds w = open_fds w0 ∪ leak ∧ tasks w = tasks w0 ∧ netifs w = netifs w0.

Lemma accounted_releasable w0 leak w : accounted w0 leak w -> gateway (st w) ≠ PcbDangling -> releasable w.
Proof. intros [H1 H2 _ H3 _ _ H4] Hg. split; try done. rewrite H2. set_solver. Qed.

Lemma wp_fini cfg w0 leak w : strings_readable cfg -> accounted w0 leak w -> gateway (st w) ≠ PcbDangling ->
  wp (hev_socks5_tunnel_fini cfg) w (fun _ w' => released w0 leak w' ∧ (live (st w) -> gateway (st w') = PcbDangling)).
Proof.
  intros Hs Ha Hg. unfold wp. rewrite hev_socks5_tunnel_fini_exact by eauto using accounted_releasable.
  destruct Ha as [_ Ho Hf _ Ht Hn _]. split; [split_and!; cbn|].
  - split; cbn; try done. destruct w as [[tf tl ev te ti tm dn [] i] fs tk nf]; done.
  - rewrite Ho. set_solver.
  - lia.
  - lia.
  - cbn. by destruct (live (st w)).
Qed.

Lemma clean_accounted w : clean w -> accounted w ∅ w.
Proof.
  intros [Hl He (H1 & H2 & H3) Hd Hg].
  assert (ev_set (st w) = ∅) as Hev by (unfold ev_set; rewrite He; vm_compute; done).
  assert (tun_set (st w) = ∅) as Htun by (unfold tun_set; by rewrite decide_True).
  split; rewrite ?Hev, ?Htun; [by left | set_solver | set_solver | set_solver | | |].
  - unfold task_count. rewrite H1, H2, H3. cbn. lia.
  - unfold live. destruct (gateway (st w)); cbn; try done; lia.
  - rewrite Hd. done.
Qed.

(** ** Initialisation *)

(** The descriptors the system hands out are new and different. *)
Record env_ok (e : env) (w : world) : Prop := {
  eo_open : r_open e >= 0 -> r_open e ∉ open_fds w;
  eo_pair : forall a b, r_pair e = Some (a, b) ->
    a >= 0 ∧ b >= 0 ∧ a ≠ b ∧ a ∉ open_fds w ∧ b ∉ open_fds w ∧ a ≠ r_open e ∧ b ≠ r_open e }.

Definition given (o : option (option bytes)) : Prop := match o with Some (Some _) => True | _ => False end.

#[local] Instance given_dec o : Decision (given o).
Proof. destruct o as [[|]|]; cbn; apply _. Defined.

(** Every call [tunnel_init] makes succeeds. *)
Definition device_up (e : env) (cfg : config) (ext : Z) : Prop :=
  if decide (ext >= 0) then r_nonblock e >= 0
  else r_open e >= 0 ∧ r_mtu e >= 0 ∧ (given (hev_config_get_tunnel_ipv4_address cfg) -> r_ipv4 e >= 0)
    ∧ (given (hev_config_get_tunnel_ipv6_address cfg) -> r_ipv6 e >= 0) ∧ r_state e >= 0.

(** What the mapped DNS of the configuration needs. *)
Definition mapdns_up (e : env) (cfg : config) : Prop :=
  hev_config_get_mapdns_cache_size cfg = 0
  \/ r_dns e = true ∧ hev_config_get_mapdns_cache_size cfg <= MappedDNS.s32_lnot (hev_config_get_mapdns_netmask cfg).

Definition all_up (e : env) (cfg : config) (ext : Z) : Prop :=
  device_up e cfg ext ∧ is_Some (r_pair e) ∧ r_event_nonblock e >= 0
  ∧ r_task_event e = true ∧ r_task_io e = true ∧ r_task_timer e = true ∧ mapdns_up e cfg.

(** The descriptor [tunnel_init] loses when it fails after opening the device. *)
Definition lost (e : env) (cfg : config) (ext : Z) : gset Z :=
  if decide (ext >= 0) then ∅ else
  if decide (r_open e >= 0 ∧ (r_mtu e < 0 \/ (given (hev_config_get_tunnel_ipv4_address cfg) ∧ r_ipv4 e < 0)
     \/ (given (hev_config_get_tunnel_ipv6_address cfg) ∧ r_ipv6 e < 0) \/ r_state e < 0))
  then {[ r_open e ]} else ∅.

(** The world after [tunnel_init]. *)
Definition with_tun (tf tl : Z) (fs : gset Z) (w : world) : world :=
  mk_world (set_tun_fd_local tl (set_tun_fd tf (st w))) (fs ∪ open_fds w) (tasks w) (netifs w).

Lemma tunnel_init_cases e cfg ext w : strings_readable cfg -> tun_fd_local (st w) = 0 ->
  (device_up e cfg ext ∧ tunnel_init e cfg ext w = Some (0,
     if decide (ext >= 0) then with_tun ext 0 ∅ w else with_tun (r_open e) 1 {[ r_open e ]} w))
  \/ (~ device_up e cfg ext ∧ exists tf, tunnel_init e cfg ext w = Some (-1, with_tun tf 0 (lost e cfg ext) w)).
Proof.
  intros ([nm Hnm] & [i4 H4] & [i6 H6] & [pu Hpu] & _) Hl.
  destruct w as [[tf tl ev te ti tm dn gw i] fs tk nf]. cbn in Hl. subst tl.
  unfold device_up, lost, tunnel_init, with_tun. run_steps. rewrite Hnm, H4, H6, Hpu. cbn.
  destruct (decide (ext >= 0)) as [He|He].
  - destruct (decide (r_nonblock e < 0)); [right; split; [lia|]; exists tf | left; split; [lia|]]; cbn; by rewrite union_empty_l_L.
  - destruct (decide (r_open e < 0)) as [Ho|Ho]; cbn.
    { right. split; [lia|]. exists (r_open e). rewrite decide_False by lia. by rewrite union_empty_l_L. }
    destruct (decide (r_mtu e < 0)) as [Hm|Hm]; cbn.
    { right. split; [lia|]. exists (r_open e). rewrite decide_True; [done | split; [lia | by left]]. }
    assert (forall i, is_Some i ↔ given (Some i)) as Hgiven.
    { intros [s|]; cbn; split; (done || by eexists). }
    destruct (decide (is_Some i4 ∧ r_ipv4 e < 0)) as [H4'|H4']; cbn.
    { rewrite Hgiven in H4'. right. split; [intros (_ & _ & H & _); destruct H4' as [G ?]; specialize (H G); lia|].
      exists (r_open e). rewrite decide_True; [done | split; [lia | right; by left]]. }
    destruct (decide (is_Some i6 ∧ r_ipv6 e < 0)) as [H6'|H6']; cbn.
    { rewrite Hgiven in H6'. right. split; [intros (_ & _ & _ & H & _); destruct H6' as [G ?]; specialize (H G); lia|].
      exists (r_open e). rewrite decide_True; [done | split; [lia | right; right; by left]]. }
    destruct (decide (r_state e < 0)) as [Hst|Hst]; cbn.
    { right. split; [lia|]. exists (r_open e). rewrite decide_True; [done | split; [lia | right; right; by right]]. }
    left. rewrite Hgiven in H4', H6'. split; [|done].
    split_and!; [lia | lia | | | lia]; intros Hx; [destruct (decide (r_ipv4 e < 0)) | destruct (decide (r_ipv6 e < 0))]; tauto || lia.
Qed.

(** What [hev_socks5_tunnel_init] leaves when it succeeds: all is running. *)
Definition running (e : env) (cfg : config) (ext : Z) (w0 w : world) : Prop :=
  accounted w0 ∅ w ∧ gateway (st w) = PcbLive ∧ task_count (st w) = 3
  ∧ tun_fd (st w) = (if decide (ext >= 0) then ext else r_open e)
  ∧ tun_fd_local (st w) = (if decide (ext >= 0) then 0 else 1)
  ∧ r_pair e = Some (event_fds (st w))
  ∧ (is_Some (dns (st w)) ↔ hev_config_get_mapdns_cache_size cfg ≠ 0).

Definition outcome (e : env) (cfg : config) (ext : Z) (w0 : world) (r : Z) (w : world) : Prop :=
  (all_up e cfg ext ∧ r = 0 ∧ running e cfg ext w0 w)
  \/ (~ all_up e cfg ext ∧ r = -1 ∧ released w0 (lost e cfg ext) w).

Lemma step_done cfg m k w w' Q : m w = Some (0, w') -> wp k w' Q -> wp (step cfg m k) w Q.
Proof. intros Hm Hk. unfold step. apply wp_bind. unfold wp at 1. rewrite Hm. done. Qed.

(** A step fails: everything accounted for is released. *)
Lemma step_failed e cfg ext m k w0 w w' : strings_readable cfg -> ~ all_up e cfg ext ->
  m w = Some (-1, w') -> accounted w0 (lost e cfg ext) w' -> gateway (st w') ≠ PcbDangling ->
  wp (step cfg m k) w (outcome e cfg ext w0).
Proof.
  intros Hs Hn Hm Ha Hg. unfold step. apply wp_bind. unfold wp at 1. rewrite Hm.
  rewrite decide_True by lia. apply wp_bind. eapply wp_mono; [by apply wp_fini|].
  intros _ w'' [Hr _]. apply wp_ret. by right.
Qed.

(** The descriptors of the event sockets and of the device do not meet. *)
Definition tun_of (tf tl : Z) : gset Z := if decide (tl = 0) then ∅ else {[ tf ]}.

Lemma lost_nothing e cfg ext : device_up e cfg ext -> lost e cfg ext = ∅.
Proof.
  unfold lost, device_up. intros Hup. case_decide; [done|]. rewrite decide_False; [done|].
  intros [? [?|[[Hg ?]|[[Hg ?]|?]]]]; destruct Hup as (? & ? & H4 & H6 & ?); try lia;
    [specialize (H4 Hg) | specialize (H6 Hg)]; lia.
Qed.

Definition evs (ev : Z * Z) : gset Z :=
  (if decide (fst ev >= 0) then {[ fst ev ]} else ∅) ∪ (if decide (snd ev >= 0) then {[ snd ev ]} else ∅).

Section Acquire.
Context (e : env) (cfg : config) (ext : Z) (w0 : world).
Context (Hs : strings_readable cfg) (Hclean : clean w0) (Henv : env_ok e w0).
Context (Hsize : 0 <= hev_config_get_mapdns_cache_size cfg).
Context (tf tl : Z) (i : tunnel_io) (Hfresh : tun_of tf tl ## open_fds w0).
Context (Hpair : forall a b, r_pair e = Some (a, b) -> a ∉ tun_of tf tl ∧ b ∉ tun_of tf tl).
Context (Hup : device_up e cfg ext) (Htf : tf = if decide (ext >= 0) then ext else r_open e)
  (Htl : tl = if decide (ext >= 0) then 0 else 1).

(** The world once the device and the interface are up. *)
Definition at_work (ev : Z * Z) (te ti tm : bool) (d : option MappedDNS.HevMappedDNS) : world :=
  mk_world (mk_statics tf tl ev te ti tm d PcbLive i) (open_fds w0 ∪ (evs ev ∪ tun_of tf tl))
    (tasks w0 + (b2z te + b2z ti + b2z tm)) (netifs w0 + 1).

Lemma at_work_accounted ev te ti tm d :
  ev = (-1, -1) \/ r_pair e = Some ev -> (forall d', d = Some d' -> exists c, MappedDNSProofs.cache d' c) ->
  accounted w0 (lost e cfg ext) (at_work ev te ti tm d).
Proof.
  intros Hev Hd. rewrite lost_nothing by done. destruct Henv as [_ Hp]. destruct ev as [a b].
  assert (evs (a, b) ## open_fds w0 ∪ tun_of tf tl) as Hdis.
  { unfold evs. cbn. destruct Hev as [[= -> ->]|Hev]; [rewrite !decide_False by lia; set_solver|].
    destruct (Hp _ _ Hev) as (? & ? & ? & ? & ? & _). destruct (Hpair _ _ Hev).
    rewrite !decide_True by done. set_solver. }
  split; unfold ev_set, tun_set, live, task_count; cbn -[evs]; fold (tun_of tf tl); fold (evs (a, b)).
  - destruct Hev as [Hev|Hev]; [by left|]. right. destruct (Hp _ _ Hev) as (? & ? & ? & _). tauto.
  - set_solver.
  - set_solver.
  - set_solver.
  - lia.
  - lia.
  - done.
Qed.

Lemma mapped_dns_init_cases ev : let w := at_work ev true true true None in
  (mapdns_up e cfg ∧ exists d, mapped_dns_init e cfg w = Some (0, at_work ev true true true d)
    ∧ (is_Some d ↔ hev_config_get_mapdns_cache_size cfg ≠ 0)
    ∧ forall d', d = Some d' -> exists c, MappedDNSProofs.cache d' c)
  \/ (~ mapdns_up e cfg ∧ mapped_dns_init e cfg w = Some (-1, w)).
Proof.
  intros w. unfold mapped_dns_init, mapdns_up. set (size := hev_config_get_mapdns_cache_size cfg) in *.
  set (mask := hev_config_get_mapdns_netmask cfg). set (net := hev_config_get_mapdns_network cfg).
  destruct (decide (size = 0)) as [H0|H0].
  { left. split; [by left|]. exists None. split_and!; [done | | done]. split; [by intros [? [=]] | done]. }
  destruct (r_dns e) eqn:Hr; cbn [negb]; [|right; split; [naive_solver | done]].
  destruct (decide (size <= MappedDNS.s32_lnot mask)) as [Hm|Hm].
  - destruct (MappedDNSProofs.new_cache net mask size ltac:(lia) Hm) as (d & -> & Hc & _).
    left. split; [by right|]. exists (Some d). split_and!; [done | by split; [|eexists] |].
    intros d' [= <-]. by exists [].
  - right. split; [naive_solver|]. unfold MappedDNS.hev_mapped_dns_new, MappedDNS.hev_mapped_dns_construct.
    rewrite decide_True by lia. done.
Qed.

Lemma event_task_init_cases : let w := at_work (-1, -1) false false false None in
  (r_event_nonblock e >= 0 ∧ r_task_event e = true ∧ exists ev, r_pair e = Some ev
    ∧ event_task_init e w = Some (0, at_work ev true false false None))
  \/ (~ (is_Some (r_pair e) ∧ r_event_nonblock e >= 0 ∧ r_task_event e = true) ∧ exists ev,
    (ev = (-1, -1) \/ r_pair e = Some ev) ∧ event_task_init e w = Some (-1, at_work ev false false false None)).
Proof.
  intros w. destruct Henv as [_ Hp]. unfold event_task_init. destruct (r_pair e) as [[a b]|] eqn:Hev in |- *.
  2:{ right. split; [by intros [[? [=]] _]|]. exists (-1, -1). split; [by left | done]. }
  destruct (Hp a b Hev) as (Ha & Hb & _).
  assert (forall te, mk_world (mk_statics tf tl (a, b) te false false None PcbLive i)
    ({[ b ]} ∪ ({[ a ]} ∪ (open_fds w0 ∪ (evs (-1, -1) ∪ tun_of tf tl)))) (tasks w0 + 0 + b2z te) (netifs w0 + 1)
    = at_work (a, b) te false false None) as Hw.
  { intros te. unfold at_work, evs. cbn. rewrite !(decide_True (P := a >= 0)), !(decide_True (P := b >= 0)) by done. rewrite !(decide_False (P := -1 >= 0)) by lia.
    match goal with |- mk_world _ ?x ?y _ = mk_world _ ?x' ?y' _ =>
      replace x with x' by set_solver; replace y with y' by lia end. done. }
  pose proof (Hw true) as Ht. pose proof (Hw false) as Hf. rewrite Z.add_0_r in Hf.
  run_steps. subst w. cbn -[evs union] in *.
  destruct (decide (r_event_nonblock e < 0)) as [Hn|Hn].
  - right. split; [lia|]. exists (a, b). split; [by right|]. by rewrite <- Hf.
  - destruct (r_task_event e); [left | right]; (split; [lia || naive_solver|]).
    + split; [done|]. exists (a, b). by rewrite <- Ht.
    + exists (a, b). split; [by right | by rewrite <- Hf].
Qed.

Lemma task_inits ev ti : 
  lwip_io_task_init e (at_work ev true false false None)
    = Some (if r_task_io e then 0 else -1, at_work ev true (r_task_io e) false None)
  ∧ lwip_timer_task_init e (at_work ev true ti false None)
    = Some (if r_task_timer e then 0 else -1, at_work ev true ti (r_task_timer e) None).
Proof.
  unfold lwip_io_task_init, lwip_timer_task_init, at_work. run_steps.
  split; [destruct (r_task_io e) | destruct (r_task_timer e)]; cbn -[evs union]; do 3 f_equal; lia.
Qed.

Lemma wp_acquire : wp (
  step cfg (event_task_init e) (
  step cfg (lwip_io_task_init e) (
  step cfg (lwip_timer_task_init e) (
  step cfg (mapped_dns_init e cfg) (
  mret 0))))) (at_work (-1, -1) false false false None) (outcome e cfg ext w0).
Proof.
  destruct event_task_init_cases as [(Hn & Ht & ev & Hev & Hm)|(Hno & ev & Hev & Hm)].
  2:{ eapply step_failed; [done | intros (_ & ? & ? & ? & _); tauto | exact Hm | by apply at_work_accounted | done]. }
  eapply step_done; [exact Hm|]. clear Hm.
  destruct (task_inits ev true) as [Hio Htm].
  destruct (r_task_io e) eqn:Hrio.
  2:{ eapply step_failed; [done | intros (_ & _ & _ & _ & ? & _); congruence | exact Hio
      | apply at_work_accounted; [by right | done] | done]. }
  eapply step_done; [exact Hio|]. clear Hio.
  destruct (r_task_timer e) eqn:Hrtm.
  2:{ eapply step_failed; [done | intros (_ & _ & _ & _ & _ & ? & _); congruence | exact Htm
      | apply at_work_accounted; [by right | done] | done]. }
  eapply step_done; [exact Htm|]. clear Htm.
  destruct (mapped_dns_init_cases ev) as [(Hd & d & Hm & Hsome & Hc)|(Hd & Hm)].
  2:{ eapply step_failed; [done | intros (_ & _ & _ & _ & _ & _ & ?); done | exact Hm
      | apply at_work_accounted; [by right | done] | done]. }
  eapply step_done; [exact Hm|]. apply wp_ret. left. split; [|split; [done|]].
  - split_and!; try done; by eexists.
  - split_and!; try done. rewrite <- (lost_nothing e cfg ext Hup). apply at_work_accounted; [by right | done].
Qed.
End Acquire.

(** After a failing [tunnel_init] nothing is acquired, but the lost descriptor. *)
Lemma failed_device_accounted e cfg ext w0 tf : clean w0 ->
  accounted w0 (lost e cfg ext) (with_tun tf 0 (lost e cfg ext) w0).
Proof.
  intros Hc. destruct (clean_accounted w0 Hc) as [H1 H2 _ H4 H5 H6 H7].
  destruct Hc as [Hl Hev _ _ _]. destruct w0 as [[tf0 tl ev te ti tm dn gw i] fs tk nf]. cbn in *. subst tl ev.
  assert (ev_set (mk_statics tf 0 (-1, -1) te ti tm dn gw i) = ∅) as Hes by (unfold ev_set; cbn; set_solver).
  unfold with_tun. split; cbn -[ev_set]; try done; unfold tun_set; cbn -[ev_set]; rewrite ?Hes; set_solver.
Qed.

(** The whole, when the interface is not used before it is up again. *)
Lemma wp_tunnel_init e cfg ext w0 : strings_readable cfg -> clean w0 -> env_ok e w0 ->
  0 <= hev_config_get_mapdns_cache_size cfg ->
  (gateway (st w0) = PcbDangling -> device_up e cfg ext) ->
  wp (hev_socks5_tunnel_init e cfg ext) w0 (outcome e cfg ext w0).
Proof.
  intros Hs Hc He Hsize Hg. unfold hev_socks5_tunnel_init.
  destruct (tunnel_init_cases e cfg ext w0 Hs (cl_local _ Hc)) as [[Hup Hm]|(Hup & tf & Hm)].
  2:{ eapply step_failed; [done | by intros [? _] | exact Hm | by apply failed_device_accounted
      | intros ?; by apply Hup, Hg]. }
  eapply step_done; [exact Hm|]. clear Hm. set (tf := if decide (ext >= 0) then ext else r_open e).
  set (tl := if decide (ext >= 0) then 0 else 1).
  eapply step_done with (w' := at_work w0 tf tl (io (st w0)) (-1, -1) false false false None).
  - destruct Hc as [Hl Hev (H1 & H2 & H3) Hd _]. unfold gateway_init. run_steps. unfold with_tun, at_work, tf, tl.
    assert (evs (-1, -1) = ∅) as -> by (unfold evs; cbn; set_solver).
    destruct w0 as [[tf0 tl0 ev te ti tm dn gw i] fs tk nf]. cbn -[union] in *. subst.
    destruct (decide (ext >= 0)); cbn -[union]; unfold tun_of; cbn -[union]; do 3 f_equal; set_solver || lia.
  - apply wp_acquire; try done; unfold tun_of, tf, tl; destruct He as [Ho Hp].
    + unfold device_up in Hup. destruct (decide (ext >= 0)); cbn; [set_solver|].
      destruct Hup as (Hup & _). specialize (Ho Hup). set_solver.
    + intros a b Hab. destruct (Hp a b Hab) as (_ & _ & _ & _ & _ & ? & ?).
      destruct (decide (ext >= 0)); cbn; set_solver.
Qed.

(** ** Runs *)

(** What the tunnel does between its start and its stop, as far as the life cycle sees it. *)
Definition serving (f : option MappedDNS.HevMappedDNS -> option MappedDNS.HevMappedDNS) : Prop :=
  forall o, (forall d, o = Some d -> exists c, MappedDNSProofs.cache d c) ->
    forall d, f o = Some d -> exists c, MappedDNSProofs.cache d c.

(** A start, the traffic, a stop. *)
Definition run_once (cfg : config) (e : env) (ext : Z)
    (f : option MappedDNS.HevMappedDNS -> option MappedDNS.HevMappedDNS) (i : tunnel_io) : M world unit :=
  res ← hev_socks5_tunnel_init e cfg ext;
  if decide (res < 0) then mret tt else
  upd (fun s => set_io i (set_dns (f (dns s)) s));;
  hev_socks5_tunnel_fini cfg.

Abbreviation life :=
  (env * Z * (option MappedDNS.HevMappedDNS -> option MappedDNS.HevMappedDNS) * tunnel_io)%type.

Fixpoint runs (cfg : config) (l : list life) : M world unit :=
  match l with
  | [] => mret tt
  | (e, ext, f, i) :: l => run_once cfg e ext f i;; runs cfg l
  end.

Lemma serving_accounted w0 leak w f i : serving f -> accounted w0 leak w ->
  let s := set_io i (set_dns (f (dns (st w))) (st w)) in
  accounted w0 leak (mk_world s (open_fds w) (tasks w) (netifs w)).
Proof.
  intros Hf [H1 H2 H3 H4 H5 H6 H7]. destruct w as [[tf tl ev te ti tm dn gw i0] fs tk nf]. cbn in *.
  split; try done. cbn. by apply Hf.
Qed.

Lemma wp_run_once cfg e ext f i w0 : strings_readable cfg -> clean w0 -> env_ok e w0 ->
  0 <= hev_config_get_mapdns_cache_size cfg -> device_up e cfg ext -> serving f ->
  wp (run_once cfg e ext f i) w0 (fun _ w => released w0 ∅ w).
Proof.
  intros Hs Hc He Hsize Hup Hf. unfold run_once. apply wp_bind.
  eapply wp_mono; [by apply wp_tunnel_init|]. intros r w1 [(_ & -> & Ha & Hg & _)|(_ & -> & Hr)].
  - rewrite decide_False by lia. apply wp_bind. unfold upd. eapply wp_put; [done|].
    eapply wp_mono; [apply (wp_fini cfg w0 ∅); [done | by apply serving_accounted |]|].
    + destruct w1 as [[tf tl ev te ti tm dn gw i0] fs tk nf]. cbn in *. by rewrite Hg.
    + by intros _ w2 [Hr _].
  - rewrite decide_True by lia. apply wp_ret. by rewrite lost_nothing in Hr.
Qed.

Lemma env_ok_released e w0 w : released w0 ∅ w -> env_ok e w0 -> env_ok e w.
Proof.
  intros (_ & Ho & _) [H1 H2]. rewrite union_empty_r_L in Ho. split; rewrite ?Ho; done.
Qed.

(** ** Properties *)



(** After a stop, a start whose device does not come up removes the interface a second
    time and closes the listening connections through the pointers of the first run: the
    one case in which the initialisation touches what is no longer there. *)
Theorem hev_socks5_tunnel_restart_dangling e cfg ext w0 :
  strings_readable cfg -> clean w0 -> gateway (st w0) = PcbDangling -> ~ device_up e cfg ext ->
  hev_socks5_tunnel_init e cfg ext w0 = None.
Proof.
  intros Hs Hc Hg Hup. unfold hev_socks5_tunnel_init, step at 1.
  destruct (tunnel_init_cases e cfg ext w0 Hs (cl_local _ Hc)) as [[? _]|(_ & tf & Hm)]; [done|].
  rewrite (bind_some _ _ _ _ _ Hm). rewrite decide_True by lia.
  destruct Hc as [Hl He (H1 & H2 & H3) Hd _]. destruct w0 as [[tf0 tl ev te ti tm dn gw i] fs tk nf].
  cbn in *. subst. reflexivity.
Qed.

(** ** Instances *)

Definition example_env : env := mk_env 0 7 0 0 0 0 (Some (8, 9)) 0 true true true true.


Lemma initial_clean : clean initial_world.
Proof. by split. Qed.

Lemma initial_readable : strings_readable initial_config.
Proof. apply config_ok_readable, initial_config_ok. Qed.

Lemma example_up : device_up example_env initial_config (-1).
Proof. repeat split; done. Qed.

Definition example_failing : env := mk_env 0 7 0 0 0 0 (Some (8, 9)) 0 true true false true.

Lemma example_env_ok : env_ok example_failing initial_world.
Proof. split; [set_solver|]. intros a b [= <- <-]. cbn. split_and!; done || set_solver. Qed.



(** A run, then a start without a device. *)
Definition example_nodevice : env := mk_env 0 (-1) 0 0 0 0 (Some (8, 9)) 0 true true true true.

Definition example_after_run : world :=
  match run_once initial_config example_env (-1) id initial_io initial_world with
  | Some (_, w) => w | None => initial_world
  end.

Lemma hev_socks5_tunnel_restart_dangling_witness :
  hev_socks5_tunnel_init example_nodevice initial_config (-1) example_after_run = None.
Proof.
  apply hev_socks5_tunnel_restart_dangling; [exact initial_readable | | by vm_compute |].
  - by split; vm_compute.
  - intros (H & _). by vm_compute in H.
Defined.

End TunnelLifeProofs.
