(* ===== verification/Socks5UDP.v ===== *)
(** * SOCKS5 UDP associations: src/core/src/hev-socks5-udp.c

    Datagrams travel framed on a TCP stream (a header with two lengths, the address and
    the data) or as datagrams of their own (a zero header, the address and the data). *)

From S2P Require Import Prelude Socks5Addr Socks5Io.

Module Socks5UDP.
Import Socks5Addr Socks5Io.

(** ** Data *)

(** A pointer into a buffer is the memory from there on; [m_addr] is [None] for NULL. *)
Record HevSocks5UDPMsg := mk_msg { m_addr : option HevSocks5Addr; m_buf : bytes; m_len : Z }.

(** What a system call on the socket comes to: so many bytes or datagrams (none: the
    stream has ended), nothing at the moment (EAGAIN), or an error. *)
Inductive ans := Data (k : nat) | Again | Other (res : Z).
#[export] Instance ans_eq : EqDecision ans.
Proof. solve_decision. Defined.

(** The object and the socket: the answers to come, the bytes or datagrams (with their
    sources) the other side has sent and this side has sent, the peer it is connected to,
    and whether errno is EAGAIN: a failure sets it, a success leaves it.  When the answers are used up the session is over: the
    yielder asks the task system to give up, which it reports as -2. *)
Record assoc := mk_assoc {
  base : HevSocks5; answers : list ans; inp : bytes; out : bytes;
  dg_in : list (sockaddr_in6 * bytes); dg_out : list bytes; peer : option sockaddr_in6; again : bool }.

Definition set_base v s := mk_assoc v (answers s) (inp s) (out s) (dg_in s) (dg_out s) (peer s) (again s).
Definition set_inp a i e s := mk_assoc (base s) a i (out s) (dg_in s) (dg_out s) (peer s) e.
Definition set_out a o e s := mk_assoc (base s) a (inp s) o (dg_in s) (dg_out s) (peer s) e.
Definition set_dg_in a i e s := mk_assoc (base s) a (inp s) (out s) i (dg_out s) (peer s) e.
Definition set_dg_out a o e s := mk_assoc (base s) a (inp s) (out s) (dg_in s) o (peer s) e.
Definition set_peer v s := mk_assoc (base s) (answers s) (inp s) (out s) (dg_in s) (dg_out s) v (again s).

(** ** The task system's socket calls

    They yield and try again while there is nothing ([MSG_DONTWAIT] excepted); with
    [MSG_WAITALL] until all is done.  The result is a count or an error, the elements
    transferred and the answers left. *)
Section Calls.
Context {A : Type}.

(** Receive at most [n] of [i]. *)
Fixpoint recv_some (dontwait : bool) (l : list ans) (n : nat) (i : list A) : Z * list A * list ans :=
  match l with
  | [] => (-2, [], [])
  | Data k :: l => (Z.of_nat (length (take (Nat.min k n) i)), take (Nat.min k n) i, l)
  | Again :: l => if dontwait then (-1, [], l) else recv_some dontwait l n i
  | Other r :: l => (r, [], l)
  end.

(** [size ? size : r] *)
Definition or_size (got : list A) (r : Z) : Z := if got is [] then r else Z.of_nat (length got).

(** Receive [n] of [i]; [got] is there already. *)
Fixpoint recv_all (l : list ans) (n : nat) (i got : list A) : Z * list A * list ans :=
  match l with
  | [] => (or_size got (-2), got, [])
  | Again :: l => recv_all l n i got
  | Other r :: l => (or_size got r, got, l)
  | Data k :: l =>
      match take (Nat.min k n) i with
      | [] => (or_size got 0, got, l)
      | v => if decide (length v < n)%nat then recv_all l (n - length v) (drop (length v) i) (got ++ v)
             else (Z.of_nat (length (got ++ v)), got ++ v, l)
      end
  end.

(** Send all of [v]: it is received by the other side of the descriptor. *)
Definition send_all (l : list ans) (v : list A) : Z * list A * list ans := recv_all l (length v) v [].
End Calls.

(** Whether errno is EAGAIN after the answers up to those that are left. *)
Definition errno_after (before left : list ans) (e : bool) : bool :=
  foldl (fun e a => match a with Again => true | Other _ => false | Data _ => e end) e
    (take (length before - length left) before).

Definition stream_recv (dontwait : bool) (n : Z) : M assoc (Z * bytes) := fun s =>
  let '(r, v, l) := recv_some dontwait (answers s) (Z.to_nat n) (inp s) in
  Some ((r, v), set_inp l (drop (length v) (inp s)) (errno_after (answers s) l (again s)) s).

Definition stream_recv_all (n : Z) : M assoc (Z * bytes) := fun s =>
  let '(r, v, l) := recv_all (answers s) (Z.to_nat n) (inp s) [] in
  Some ((r, v), set_inp l (drop (length v) (inp s)) (errno_after (answers s) l (again s)) s).

Definition stream_send_all (v : bytes) : M assoc Z := fun s =>
  let '(r, w, l) := send_all (answers s) v in
  Some (r, set_out l (out s ++ w) (errno_after (answers s) l (again s)) s).

Definition dgrams_recv (dontwait : bool) (n : nat) : M assoc (Z * list (sockaddr_in6 * bytes)) := fun s =>
  let '(r, v, l) := recv_some dontwait (answers s) n (dg_in s) in
  Some ((r, v), set_dg_in l (drop (length v) (dg_in s)) (errno_after (answers s) l (again s)) s).

Definition dgrams_send_all (v : list bytes) : M assoc Z := fun s =>
  let '(r, w, l) := send_all (answers s) v in
  Some (r, set_dg_out l (dg_out s ++ w) (errno_after (answers s) l (again s)) s).

(** [connect] of a datagram socket: [ok] tells whether it succeeds. *)
Definition connect_peer (ok : bool) (sa : sockaddr_in6) : M assoc Z := fun s =>
  if ok then Some (0, set_peer (Some sa) s) else Some (-1, s).

Definition get {A} (f : assoc -> A) : M assoc A := mget (fun s => Some (f s)).
Definition lift {A} (o : option A) : M assoc A := mget (fun _ => o).

(** ** Sending *)

(** [addrlen], when it is positive. *)
Definition msg_addrlen (m : HevSocks5UDPMsg) : option Z :=
  a ← m_addr m; hev_socks5_addr_len a.

(** The three parts of a message's iovec; [hdr] is the header of the framing. *)
Definition msg_iov (hdr : Z -> Z -> bytes) (m : HevSocks5UDPMsg) : option (option bytes) :=
  addrlen ← msg_addrlen m;
  if decide (addrlen <= 0) then Some None else
  a ← m_addr m;
  a ← rd a 0 addrlen;
  d ← rd (m_buf m) 0 (m_len m);
  Some (Some (hdr addrlen (m_len m) ++ a ++ d)).

(** [datlen] and [hdrlen] *)
Definition tcp_header (addrlen len : Z) : bytes := le16 (htons len) ++ [u8 (3 + addrlen)].
Definition udp_header (addrlen len : Z) : bytes := [0; 0; 0].

(** The loop over the messages. *)
Fixpoint msgs_iov (hdr : Z -> Z -> bytes) (msgv : list HevSocks5UDPMsg) : option (option (list bytes)) :=
  match msgv with
  | [] => Some (Some [])
  | m :: msgv =>
      v ← msg_iov hdr m;
      match v with
      | None => Some None
      | Some v => vs ← msgs_iov hdr msgv; Some (option_map (cons v) vs)
      end
  end.

Definition hev_socks5_udp_sendmmsg_tcp (msgv : list HevSocks5UDPMsg) : M assoc Z :=
  iov ← lift (msgs_iov tcp_header msgv);
  match iov with
  | None => mret (-1)
  | Some iov =>
      res ← stream_send_all (concat iov);
      if decide (res <= 0) then mret (-1) else mret (Z.of_nat (length msgv))
  end.

Definition hev_socks5_udp_sendmmsg_udp (msgv : list HevSocks5UDPMsg) : M assoc Z :=
  iov ← lift (msgs_iov udp_header msgv);
  match iov with
  | None => mret (-1)
  | Some iov => dgrams_send_all iov
  end.

Definition hev_socks5_udp_sendmmsg (msgv : list HevSocks5UDPMsg) : M assoc Z :=
  t ← get (fun s => type (base s));
  match t with
  | HEV_SOCKS5_TYPE_UDP_IN_TCP => hev_socks5_udp_sendmmsg_tcp msgv
  | HEV_SOCKS5_TYPE_UDP_IN_UDP => hev_socks5_udp_sendmmsg_udp msgv
  | _ => mret (-1)
  end.

(** ** Receiving *)

Section Recv.
(** [nonblock], and whether [connect] succeeds. *)
Context (nonblock connected : bool).

(** The header: five bytes, the last two of them the head of the address. *)
Definition recv_header : M assoc (Z * bytes) :=
  '(res, v) ← stream_recv nonblock 5;
  if decide (0 < res < 5) then
    '(res', v') ← stream_recv_all (5 - res);
    mret (res + res', v ++ v')
  else mret (res, v).

(** One message: the result that ends the function, or the message. *)
Definition recv_one (m : HevSocks5UDPMsg) (h : bytes) : M assoc (Z + HevSocks5UDPMsg) :=
  dl ← lift (rd h 0 2);
  hdrlen ← lift (rd8 h 2);
  t ← lift (rd8 h 3);
  l ← lift (rd8 h 4);
  if decide (hdrlen < 5) then mret (inl (-1)) else
  let addrlen := hdrlen - 3 in
  let datlen := ntohs (of_le16 dl) in
  if decide (datlen > u64 (m_len m - addrlen)) then mret (inl (-1)) else
  '(res, v) ← stream_recv_all (addrlen - 2 + datlen);
  b ← lift (wr (m_buf m) 2 (take (Z.to_nat (addrlen - 2)) v));
  b ← lift (wr b addrlen (drop (Z.to_nat (addrlen - 2)) v));
  if decide (res ≠ addrlen - 2 + datlen) then mret (inl res) else
  b ← lift (wr b 0 [t]);
  b ← lift (wr b 1 [l]);
  mret (inr (mk_msg (Some b) (drop (Z.to_nat addrlen) b) datlen)).

(** The loop; [rlen] messages are received already.  The result, and the messages as
    the loop leaves them. *)
Fixpoint recv_tcp_loop (msgv : list HevSocks5UDPMsg) (rlen : Z) : M assoc (Z * list HevSocks5UDPMsg) :=
  match msgv with
  | [] => mret (rlen, [])
  | m :: msgv =>
      '(res, h) ← recv_header;
      if decide (res ≠ 5) then mret (if decide (rlen > 0) then rlen else res, m :: msgv) else
      r ← recv_one m h;
      match r with
      | inl res => mret (res, m :: msgv)
      | inr m => '(res, msgv) ← recv_tcp_loop msgv (rlen + 1); mret (res, m :: msgv)
      end
  end.

Definition hev_socks5_udp_recvmmsg_tcp (msgv : list HevSocks5UDPMsg) : M assoc (Z * list HevSocks5UDPMsg) :=
  recv_tcp_loop msgv 0.

(** The datagrams go to the buffers, cut to their size. *)
Fixpoint fill_buffers (msgv : list HevSocks5UDPMsg) (ds : list bytes)
    : option (list (HevSocks5UDPMsg * Z)) :=
  match msgv, ds with
  | m :: msgv, d :: ds =>
      let d := take (Z.to_nat (m_len m)) d in
      b ← wr (m_buf m) 0 d;
      rest ← fill_buffers msgv ds;
      Some ((mk_msg (m_addr m) b (m_len m), Z.of_nat (length d)) :: rest)
  | _, _ => Some []
  end.

(** The loop over the received datagrams: the result that ends it early, if any. *)
Fixpoint parse_dgrams (ms : list (HevSocks5UDPMsg * Z)) : option (option Z * list HevSocks5UDPMsg) :=
  match ms with
  | [] => Some (None, [])
  | (m, n) :: ms =>
      let a := drop 3 (m_buf m) in
      addrlen ← hev_socks5_addr_len a;
      if decide (n < 4) then
        '(r, rest) ← parse_dgrams ms; Some (r, mk_msg None (m_buf m) 0 :: rest)
      else
      let doff := 3 + addrlen in
      if decide (addrlen <= 0 \/ doff > n) then
        Some (Some (-1), mk_msg (m_addr m) (m_buf m) n :: (fst <$> ms))
      else
      '(r, rest) ← parse_dgrams ms;
      Some (r, mk_msg (Some a) (drop (Z.to_nat doff) (m_buf m)) (n - doff) :: rest)
  end.

Definition hev_socks5_udp_recvmmsg_udp (msgv : list HevSocks5UDPMsg) : M assoc (Z * list HevSocks5UDPMsg) :=
  '(res, ds) ← dgrams_recv nonblock (length msgv);
  if decide (res <= 0) then mret (res, msgv) else
  ms ← lift (fill_buffers msgv (snd <$> ds));
  ua ← get (fun s => udp_associated (base s));
  c ← (if decide (ua = 0) then
         sa ← lift (fst <$> head ds);
         r ← connect_peer connected sa;
         if decide (r < 0) then mret false else
         b ← get base;
         mput (fun s => Some (set_base (set_udp_associated 1 b) s));;
         mret true
       else mret true);
  if negb c then mret (-1, (fst <$> ms) ++ drop (length ms) msgv) else
  '(r, out) ← lift (parse_dgrams ms);
  mret (default res r, out ++ drop (length ms) msgv).

Definition hev_socks5_udp_recvmmsg (msgv : list HevSocks5UDPMsg) : M assoc (Z * list HevSocks5UDPMsg) :=
  t ← get (fun s => type (base s));
  match t with
  | HEV_SOCKS5_TYPE_UDP_IN_TCP => hev_socks5_udp_recvmmsg_tcp msgv
  | HEV_SOCKS5_TYPE_UDP_IN_UDP => hev_socks5_udp_recvmmsg_udp msgv
  | _ => mret (-1, msgv)
  end.

End Recv.

(** ** The loops of the relays *)

Inductive HevTaskYieldType := HEV_TASK_YIELD | HEV_TASK_WAITIO.

(** [timeout]: that of the object; [sleep]: what is left of the sleep. *)
Definition hev_socks5_task_io_yielder (type : HevTaskYieldType) (timeout sleep : Z) : Z :=
  match type with
  | HEV_TASK_YIELD => 0
  | HEV_TASK_WAITIO => if decide (timeout < 0) then 0 else if decide (sleep <= 0) then -1 else 0
  end.

(** How the task goes on: yield, wait, or leave the loop. *)
Definition next_type (res_f res_b : Z) : option HevTaskYieldType :=
  if decide (res_f > 0 \/ res_b > 0) then Some HEV_TASK_YIELD
  else if decide (Z.land res_f res_b = 0) then Some HEV_TASK_WAITIO
  else None.

End Socks5UDP.
