(* ===== verification/Socks5UDPProofs.v ===== *)
(** * SOCKS5 UDP associations: proofs *)

From S2P Require Import Prelude Socks5Addr Socks5Io Socks5UDP.

Module Socks5UDPProofs.
Import Socks5Addr Socks5Io Socks5UDP.

(** ** Datagrams and their frames *)

Definition dgram : Type := address * bytes.

Definition addrlen (d : dgram) : Z := Z.of_nat (length (encode (fst d))).
Definition datlen (d : dgram) : Z := Z.of_nat (length (snd d)).

(** The frame of a datagram on a stream, and the datagram of its own. *)
Definition tcp_frame (d : dgram) : bytes :=
  be16 (datlen d) ++ [3 + addrlen d] ++ encode (fst d) ++ snd d.
Definition udp_frame (d : dgram) : bytes := [0; 0; 0] ++ encode (fst d) ++ snd d.

Definition dgram_ok (d : dgram) : Prop := address_ok (fst d) ∧ bytes_ok (snd d).

(** The header's length byte has room for names of up to 248 bytes. *)
Definition framable (size : Z) (d : dgram) : Prop :=
  dgram_ok d ∧ 3 + addrlen d <= 255 ∧ addrlen d + datlen d <= size.

(** A message that holds a datagram. *)
Definition msg_is (m : HevSocks5UDPMsg) (d : dgram) : Prop :=
  (exists rest, m_addr m = Some (encode (fst d) ++ rest)) ∧ (exists rest, m_buf m = snd d ++ rest)
  ∧ m_len m = datlen d.

(** A message that waits for a datagram: a buffer of [size] bytes. *)
Definition empty_msg (size : Z) (m : HevSocks5UDPMsg) : Prop :=
  m_len m = size ∧ Z.of_nat (length (m_buf m)) = size.

Lemma addrlen_bounds d : address_ok (fst d) -> 5 <= addrlen d <= 259.
Proof. intros Ha. unfold addrlen. rewrite (encode_length _ Ha). destruct (fst d); destruct Ha as (_ & ? & _); lia. Qed.

Lemma encode_head a : address_ok a -> exists t l r, encode a = t :: l :: r ∧ is_u8 t ∧ is_u8 l.
Proof.
  intros Ha. pose proof (encode_ok a Ha) as Hok. pose proof (encode_length a Ha) as Hl.
  destruct (encode a) as [|t [|l r]]; [destruct a; simpl in *; lia | destruct a; simpl in *; lia|].
  exists t, l, r. inversion_clear Hok as [|? ? H1 H2]. by inversion_clear H2.
Qed.

(** ** Sending *)

Lemma addr_len_prefix a rest : address_ok a ->
  hev_socks5_addr_len (encode a ++ rest) = Some (Z.of_nat (length (encode a))).
Proof. intros Ha. rewrite (encode_length a Ha). by destruct a. Qed.

Lemma msg_iov_ok hdr m d : msg_is m d -> dgram_ok d ->
  msg_iov hdr m = Some (Some (hdr (addrlen d) (datlen d) ++ encode (fst d) ++ snd d)).
Proof.
  intros ([r1 Ha] & [r2 Hb] & Hl) [Hok _]. unfold msg_iov, msg_addrlen. rewrite Ha. cbn [mbind option_bind].
  rewrite addr_len_prefix by done. cbn [mbind option_bind]. pose proof (addrlen_bounds d Hok). unfold addrlen in *.
  rewrite decide_False by lia. cbn [mbind option_bind]. rewrite (rd_0 (encode (fst d) ++ r1)) by (rewrite length_app; lia). cbn [mbind option_bind].
  rewrite Hb, Hl. unfold datlen. rewrite rd_0 by (rewrite length_app; lia). cbn [mbind option_bind].
  by rewrite !Nat2Z.id, !take_app_length.
Qed.

Lemma msgs_iov_ok hdr frame msgv ds :
  (forall d, d ∈ ds -> hdr (addrlen d) (datlen d) ++ encode (fst d) ++ snd d = frame d) ->
  Forall2 msg_is msgv ds -> Forall dgram_ok ds -> msgs_iov hdr msgv = Some (Some (frame <$> ds)).
Proof.
  intros Hf H2 Hok. induction H2 as [|m d msgv ds Hm H2 IH]; [done|].
  apply Forall_cons in Hok as [Hd Hok]. simpl. rewrite (msg_iov_ok _ _ _ Hm Hd). cbn [mbind option_bind].
  rewrite IH; [|intros d' Hd'; apply Hf; by apply list_elem_of_further | done]. cbn [mbind option_bind option_map].
  by rewrite Hf by apply list_elem_of_here.
Qed.

Lemma tcp_frame_ok size d : framable size d -> size < 2 ^ 16 ->
  tcp_header (addrlen d) (datlen d) ++ encode (fst d) ++ snd d = tcp_frame d.
Proof.
  intros ([Ha _] & Hl & Hs) Hsz. pose proof (addrlen_bounds d Ha). unfold tcp_header, tcp_frame, u8.
  rewrite le16_htons by (unfold is_u16, datlen in *; lia). rewrite (Z.mod_small (3 + addrlen d)) by lia.
  by rewrite <- app_assoc.
Qed.

(** ** The task system's calls *)

(** Data keeps coming: no error, and no end of the stream before its time. *)
Definition coming (l : list ans) : Prop :=
  Forall (fun a => match a with Data k => (0 < k)%nat | Again => True | Other _ => False end) l.

Fixpoint budget (l : list ans) : nat :=
  match l with Data _ :: l => S (budget l) | _ :: l => budget l | [] => 0 end.

Lemma recv_all_ok {A} l : forall n (i got : list A), coming l -> (0 < n)%nat -> (n <= length i)%nat ->
  (n <= budget l)%nat ->
  exists l', recv_all l n i got = (Z.of_nat (length got + n), got ++ take n i, l')
    ∧ l' `suffix_of` l ∧ (budget l <= budget l' + n)%nat.
Proof.
  induction l as [|[k| |r] l IH]; intros n i got Hc Hn Hi Hb; simpl in Hb; [lia| | |];
    apply Forall_cons in Hc as [Hk Hc]; [| |done]; cbn [recv_all].
  - assert (length (take (Nat.min k n) i) = Nat.min k n) as Hlen by (rewrite length_take; lia).
    destruct (take (Nat.min k n) i) as [|x v] eqn:Hv; [simpl in Hlen; lia|].
    rewrite Hlen. case_decide as Hlt.
    + destruct (IH (n - Nat.min k n)%nat (drop (Nat.min k n) i) (got ++ x :: v) Hc)
        as (l' & -> & Hs & Hbl); [lia | rewrite length_drop; lia | lia|].
      exists l'. split_and!; [|by apply suffix_cons_r | simpl; lia].
      rewrite length_app, Hlen, <- app_assoc. rewrite <- Hv, take_drop_commute.
      replace (Nat.min k n + (n - Nat.min k n))%nat with n by lia.
      replace (take (Nat.min k n) i ++ drop (Nat.min k n) (take n i)) with (take n i)
        by (rewrite <- (take_drop (Nat.min k n) (take n i)) at 1; rewrite take_take; do 2 f_equal; lia).
      do 2 f_equal. f_equal. lia.
    + exists l. assert (Nat.min k n = n) as Hm by lia. rewrite Hm in Hv. rewrite Hv.
      split_and!; [|by apply suffix_cons_r | simpl; lia].
      rewrite length_app, <- Hv, length_take. do 2 f_equal. f_equal. lia.
  - destruct (IH n i got Hc Hn Hi Hb) as (l' & -> & Hs & Hbl).
    exists l'. split_and!; [done | by apply suffix_cons_r | done].
Qed.

Lemma coming_suffix l l' : l' `suffix_of` l -> coming l -> coming l'.
Proof. intros [k ->] H. by apply Forall_app in H as [_ H]. Qed.

(** A receive for all of [v], which is there. *)
Lemma stream_recv_all_ok s v rest n : inp s = v ++ rest -> n = Z.of_nat (length v) -> (0 < length v)%nat ->
  coming (answers s) -> (length v <= budget (answers s))%nat ->
  exists l e, stream_recv_all n s = Some ((n, v), set_inp l rest e s)
    ∧ l `suffix_of` answers s ∧ (budget (answers s) <= budget l + length v)%nat.
Proof.
  intros Hi -> Hv Hc Hb. unfold stream_recv_all. rewrite Nat2Z.id.
  destruct (recv_all_ok (answers s) (length v) (inp s) [] Hc Hv) as (l & -> & Hs & Hbl);
    [rewrite Hi, length_app; lia | done |].
  exists l. eexists. cbn [app]. rewrite Hi, take_app_length, drop_app_length. by rewrite Nat.add_0_l.
Qed.

(** The header. *)
Lemma recv_header_ok nb s h rest k l : inp s = h ++ rest -> length h = 5%nat -> answers s = Data k :: l ->
  coming (answers s) -> (5 <= budget (answers s))%nat ->
  exists l' e, recv_header nb s = Some ((5, h), set_inp l' rest e s)
    ∧ l' `suffix_of` l ∧ (budget (answers s) <= budget l' + 5)%nat.
Proof.
  intros Hi Hh Ha Hc Hb. unfold recv_header, mbind, M_bind, stream_recv. rewrite Ha. cbn [recv_some].
  rewrite Ha in Hc, Hb. apply Forall_cons in Hc as [Hk Hc]. simpl in Hb. change (Z.to_nat 5) with 5%nat.
  set (w := take (Nat.min k 5) (inp s)). assert (length w = Nat.min k 5) as Hw
    by (unfold w; rewrite length_take, Hi, length_app; lia).
  rewrite Hw. case_decide as Hp.
  - destruct (stream_recv_all_ok (set_inp l (drop (Nat.min k 5) (inp s)) (errno_after (Data k :: l) l (again s)) s) (drop (Nat.min k 5) h) rest
      (5 - Z.of_nat (Nat.min k 5))) as (l' & e & -> & Hs & Hbl); cbn [inp answers set_inp]; rewrite ?length_drop;
      [rewrite Hi, drop_app_le by lia; done | lia | lia | done | lia |].
    exists l', e. split_and!; [|done |].
    + unfold mret, M_ret, w. rewrite Hi, take_app_le by lia. rewrite take_drop. do 3 f_equal; lia.
    + cbn [answers set_inp] in Hbl. rewrite length_drop in Hbl. simpl. lia.
  - assert (Nat.min k 5 = 5%nat) as Hm by lia. unfold w. rewrite Hm, Hi, <- Hh, take_app_length, drop_app_length, Hh.
    exists l. eexists. split_and!; [done | done | simpl; lia].
Qed.

Lemma recv_header_once nb s h rest k l : inp s = h ++ rest -> length h = 5%nat -> answers s = Data k :: l -> (5 <= k)%nat ->
  recv_header nb s = Some ((5, h), set_inp l rest (again s) s).
Proof.
  intros Hi Hh Ha Hk. unfold recv_header, mbind, M_bind, stream_recv. rewrite Ha. cbn [recv_some].
  change (Z.to_nat 5) with 5%nat. rewrite (Nat.min_r k 5) by done. rewrite Hi, <- Hh, take_app_length, Hh.
  rewrite decide_False by lia. rewrite <- Hh, drop_app_length. unfold errno_after. cbn [length].
  replace (S (length l) - length l)%nat with 1%nat by lia. cbn [take foldl]. by rewrite take_0, Hh.
Qed.

(** One datagram. *)
Lemma recv_one_ok s m size d rest h : empty_msg size m -> framable size d -> size < 2 ^ 16 ->
  h = take 5 (tcp_frame d) -> inp s = drop 5 (tcp_frame d) ++ rest -> coming (answers s) ->
  (length (tcp_frame d) <= budget (answers s) + 5)%nat ->
  exists l m' e, recv_one m h s = Some (inr m', set_inp l rest e s) ∧ msg_is m' d
    ∧ l `suffix_of` answers s ∧ (budget (answers s) + 5 <= budget l + length (tcp_frame d))%nat.
Proof.
  intros [Hml Hmb] ([Ha Hd] & H255 & Hsz) Hsize Hh Hi Hc Hb. pose proof (addrlen_bounds d Ha) as Hal.
  destruct (encode_head _ Ha) as (t & l & r & He & Ht & Hl).
  assert (is_u16 (datlen d)) as Hdu by (unfold is_u16, datlen in *; lia).
  assert (addrlen d = 2 + Z.of_nat (length r)) as Har by (unfold addrlen; rewrite He; simpl; lia).
  unfold tcp_frame in *. rewrite He in *. simpl in Hh, Hi, Hb. subst h.
  unfold recv_one, lift, mbind, M_bind, mget. change (take 0 (r ++ snd d)) with (@nil Z).
  set (b0 := (datlen d / _) mod _) in *. set (b1 := datlen d mod _) in *.
  change (rd [b0; b1; 3 + addrlen d; t; l] 0 2) with (Some (be16 (datlen d))).
  change (rd8 [b0; b1; 3 + addrlen d; t; l] 2) with (Some (3 + addrlen d)).
  change (rd8 [b0; b1; 3 + addrlen d; t; l] 3) with (Some t).
  change (rd8 [b0; b1; 3 + addrlen d; t; l] 4) with (Some l). cbv beta iota.
  rewrite decide_False by lia. rewrite (ntohs_of_be16 _ Hdu).
  replace (3 + addrlen d - 3) with (addrlen d) by lia.
  assert (u64 (m_len m - addrlen d) = size - addrlen d) as Hu
    by (unfold u64; rewrite Hml; apply Z.mod_small; unfold datlen in *; lia).
  rewrite Hu. rewrite decide_False by lia.
  destruct (stream_recv_all_ok s (r ++ snd d) rest (addrlen d - 2 + datlen d)) as (l' & e & -> & Hs & Hbl); try done.
  { rewrite length_app. unfold datlen. lia. }
  { rewrite length_app. lia. }
  { rewrite length_app in *. lia. }
  assert (Z.to_nat (addrlen d - 2) = length r) as -> by lia. rewrite take_app_length, drop_app_length.
  assert (0 <= datlen d) as Hd0 by (unfold datlen; lia).
  destruct (m_buf m) as [|x0 [|x1 mb]] eqn:Hmbuf; simpl in Hmb; [lia | lia|].
  unfold datlen in *. rewrite (wr_app [x0; x1] mb) by (done || (simpl; lia)). cbn [app].
  set (tl := drop (length r) mb). assert (length tl = (length mb - length r)%nat) as Htl by apply length_drop.
  rewrite (wr_app (x0 :: x1 :: r) tl) by (done || (simpl; lia)).
  rewrite decide_False by lia. rewrite wr_0 by (simpl; lia). cbn [app length drop].
  rewrite (wr_app [t] (x1 :: r ++ snd d ++ drop (length (snd d)) tl)) by (done || (simpl; lia)). cbn [app length drop].
  exists l'. eexists _, _. split; [done|]. split_and!; [split_and!; cbn [m_addr m_buf m_len] | done |].
  - rewrite He. eexists. reflexivity.
  - exists (drop (length (snd d)) tl). rewrite Har. replace (Z.to_nat (2 + Z.of_nat (length r))) with (S (S (length r))) by lia.
    cbn [drop]. rewrite ?drop_0. cbn [drop]. by rewrite drop_app_length.
  - done.
  - rewrite length_app in *. simpl. rewrite !length_app. lia.
Qed.

Lemma tcp_frame_length d : Z.of_nat (length (tcp_frame d)) = 3 + addrlen d + datlen d.
Proof. unfold tcp_frame, addrlen, datlen. rewrite !length_app, length_be16. simpl. lia. Qed.

(** One round of the loop that receives a datagram. *)
Lemma recv_tcp_loop_step size m bufs rlen s d rest k l :
  empty_msg size m -> framable size d -> size < 2 ^ 16 -> inp s = tcp_frame d ++ rest ->
  answers s = Data k :: l -> coming (answers s) -> (length (tcp_frame d) <= budget (answers s))%nat ->
  exists l' m' e, msg_is m' d ∧ l' `suffix_of` l ∧ (budget (answers s) <= budget l' + length (tcp_frame d))%nat
    ∧ recv_tcp_loop true (m :: bufs) rlen s
      = ('(res, msgv) ← recv_tcp_loop true bufs (rlen + 1); mret (res, m' :: msgv)) (set_inp l' rest e s).
Proof.
  intros Hm Hd Hsz Hi Ha Hc Hb. pose proof (tcp_frame_length d) as Hlen.
  pose proof (addrlen_bounds d (proj1 (proj1 Hd))) as Hal. assert (0 <= datlen d) as Hdl by (unfold datlen; lia).
  destruct (recv_header_ok true s (take 5 (tcp_frame d)) (drop 5 (tcp_frame d) ++ rest) k l)
    as (l1 & e1 & H1 & Hs1 & Hb1); try done; try lia.
  { by rewrite app_assoc, take_drop. }
  { rewrite length_take. lia. }
  assert (coming l) as Hcl by (rewrite Ha in Hc; by apply Forall_cons in Hc as [_ ?]).
  destruct (recv_one_ok (set_inp l1 (drop 5 (tcp_frame d) ++ rest) e1 s) m size d rest (take 5 (tcp_frame d)))
    as (l2 & m' & e2 & H2 & Hm' & Hs2 & Hb2); try done; cbn [answers set_inp].
  { by eapply coming_suffix. }
  { lia. }
  exists l2, m', e2. split_and!; [done | by etrans | cbn [answers set_inp] in Hb2; lia |].
  cbn [recv_tcp_loop]. rewrite (bind_some _ _ _ _ _ H1). rewrite decide_False by lia.
  by rewrite (bind_some _ _ _ _ _ H2).
Qed.

(** The header when no datagram is there yet. *)
Lemma recv_header_stop s : coming (answers s) ->
  inp s = [] \/ head (answers s) = None \/ head (answers s) = Some Again ->
  exists r v l e, recv_header true s = Some ((r, v), set_inp l (inp s) e s) ∧ r <= 0 ∧ coming l
    ∧ (inp s = [] \/ budget l = budget (answers s)).
Proof.
  intros Hc Hwhy. unfold recv_header, stream_recv, mbind, M_bind. destruct (answers s) as [|[k| |r] l] eqn:Ha.
  - exists (-2), [], [], (again s). by split_and!; [| | constructor | right].
  - destruct Hwhy as [Hi|[?|?]]; [|done|done]. exists 0, [], l. eexists. cbn [recv_some]. rewrite Hi, take_nil.
    apply Forall_cons in Hc as [_ Hc]. split_and!; [done | done | done | by left].
  - exists (-1), [], l. eexists. apply Forall_cons in Hc as [_ Hc]. split_and!; [done | done | done | by right].
  - by apply Forall_cons in Hc as [? _].
Qed.

(** What the loop does to a stream of frames: it receives some of the datagrams. *)
Definition received_some (size : Z) (bufs : list HevSocks5UDPMsg) (ds : list dgram) (rlen : Z) (s : assoc)
    (r : Z) (out : list HevSocks5UDPMsg) (s' : assoc) : Prop :=
  exists msgs n l e, out = msgs ++ drop n bufs ∧ s' = set_inp l (concat (tcp_frame <$> drop n ds)) e s
    ∧ Forall2 msg_is msgs (take n ds) ∧ (n <= length bufs)%nat ∧ (n <= length ds)%nat
    ∧ (r = rlen + Z.of_nat n \/ (n = 0%nat ∧ rlen = 0 ∧ r <= 0))
    ∧ (n = 0%nat -> bufs = [] \/ ds = [] \/ head (answers s) = None \/ head (answers s) = Some Again)
    ∧ coming l ∧ (length (concat (tcp_frame <$> drop n ds)) <= budget l)%nat.

Lemma recv_tcp_loop_ok size bufs : forall ds rlen s, size < 2 ^ 16 -> 0 <= rlen ->
  Forall (empty_msg size) bufs -> Forall (framable size) ds -> inp s = concat (tcp_frame <$> ds) ->
  coming (answers s) -> (length (inp s) <= budget (answers s))%nat ->
  wp (recv_tcp_loop true bufs rlen) s (fun '(r, out) s' => received_some size bufs ds rlen s r out s').
Proof.
  induction bufs as [|m bufs IH]; intros ds rlen s Hsz Hr Hbufs Hds Hi Hc Hb.
  { apply wp_ret. exists [], 0%nat, (answers s), (again s). rewrite !drop_0, <- Hi. destruct s. cbn.
    split_and!; auto; lia || by constructor. }
  destruct (decide (inp s = [] \/ head (answers s) = None \/ head (answers s) = Some Again)) as [Hwhy|Hgo].
  - destruct (recv_header_stop s Hc Hwhy) as (r & v & l & e & Hh & Hr0 & Hcl & Hbl).
    cbn [recv_tcp_loop]. apply wp_bind. unfold wp at 1. rewrite Hh. rewrite decide_True by lia. apply wp_ret.
    exists [], 0%nat, l, e. rewrite !drop_0, <- Hi. split_and!; auto; try (cbn; lia).
    + case_decide; [left | right]; lia.
    + intros _. right. destruct Hwhy as [H0|H0]; [left|by right]. destruct ds as [|d ds]; [done|].
      apply (f_equal length) in Hi. rewrite H0 in Hi. cbn in Hi. rewrite length_app in Hi.
      pose proof (tcp_frame_length d). unfold addrlen, datlen in *. lia.
    + destruct Hbl as [->| ->]; cbn; lia.
  - destruct (answers s) as [|[k| |] l] eqn:Ha; [naive_solver| |naive_solver|by apply Forall_cons in Hc as [? _]].
    destruct ds as [|d ds]; [naive_solver|]. apply Forall_cons in Hbufs as [Hm Hbufs].
    apply Forall_cons in Hds as [Hd Hds]. rewrite <- Ha in Hc, Hb.
    assert (length (inp s) = (length (tcp_frame d) + length (concat (tcp_frame <$> ds)))%nat) as Hlen
      by (rewrite Hi; cbn; by rewrite length_app).
    destruct (recv_tcp_loop_step size m bufs rlen s d (concat (tcp_frame <$> ds)) k l)
      as (l' & m' & e' & Hm' & Hs & Hbl & Heq); try done; [lia|].
    assert (coming l') as Hcl by (rewrite Ha in Hc; apply Forall_cons in Hc as [_ Hc]; by eapply coming_suffix).
    unfold wp. rewrite Heq. eapply wp_bind, wp_mono; [by eapply IH with (ds := ds); [ | lia | | | | | cbn; lia]|].
    intros [r out] s' (msgs & n & l2 & e & -> & -> & H2 & Hn1 & Hn2 & Hr2 & _ & Hc2 & Hb2). apply wp_ret.
    exists (m' :: msgs), (S n), l2, e. split_and!; cbn; auto; try lia.
Qed.

(** What is sent, and what that takes. *)
Lemma tcp_frames_pos ds size : Forall (framable size) ds -> ds ≠ [] -> (0 < length (concat (tcp_frame <$> ds)))%nat.
Proof.
  destruct ds as [|d ds]; [done|]. intros [[[Ha _] _] _]%Forall_cons _. cbn [fmap list_fmap concat]. rewrite length_app.
  pose proof (tcp_frame_length d). pose proof (addrlen_bounds d Ha). unfold datlen in *. lia.
Qed.

Lemma sendmmsg_tcp_ok size msgv ds s : Forall2 msg_is msgv ds -> ds ≠ [] -> Forall (framable size) ds -> size < 2 ^ 16 ->
  type (base s) = HEV_SOCKS5_TYPE_UDP_IN_TCP -> coming (answers s) ->
  (length (concat (tcp_frame <$> ds)) <= budget (answers s))%nat ->
  exists l e, hev_socks5_udp_sendmmsg msgv s = Some (Z.of_nat (length ds), set_out l (out s ++ concat (tcp_frame <$> ds)) e s)
    ∧ l `suffix_of` answers s ∧ (budget (answers s) <= budget l + length (concat (tcp_frame <$> ds)))%nat.
Proof.
  intros H2 Hne Hd Hsz Ht Hc Hb. pose proof (tcp_frames_pos ds size Hd Hne) as Hpos.
  destruct (recv_all_ok (answers s) _ (concat (tcp_frame <$> ds)) [] Hc Hpos) as (l & Hl & Hs & Hbl); [lia | done|].
  exists l. eexists. split; [|done]. unfold hev_socks5_udp_sendmmsg, get, mbind, M_bind, mget. rewrite Ht.
  unfold hev_socks5_udp_sendmmsg_tcp, lift, mbind, M_bind, mget.
  rewrite (msgs_iov_ok tcp_header tcp_frame msgv ds); [| |done|].
  - unfold stream_send_all, send_all. rewrite Hl. rewrite decide_False by lia.
    rewrite (Forall2_length _ _ _ H2). cbn [app]. by rewrite firstn_all.
  - intros d Hin. rewrite Forall_forall in Hd. by apply (tcp_frame_ok size), Hsz; apply Hd.
  - eapply Forall_impl; [exact Hd|]. by intros d [? _].
Qed.

(** ** A stream that ends inside a frame *)

(** The receive takes what there is, and its result is the number of bytes. *)
Lemma recv_all_short {A} l : forall n (i got : list A), coming l -> (length i < n)%nat ->
  (length i <= budget l)%nat -> got ++ i ≠ [] ->
  exists l', recv_all l n i got = (Z.of_nat (length (got ++ i)), got ++ i, l').
Proof.
  assert (forall (i : list A) (got : list A) r, i = [] -> got ++ i ≠ [] ->
    or_size got r = Z.of_nat (length (got ++ i)) ∧ got = got ++ i) as Hend.
  { intros i got r -> Hne. rewrite app_nil_r in *. by destruct got. }
  induction l as [|[k| |r] l IH]; intros n i got Hc Hi Hb Hne; cbn [recv_all]; simpl in Hb.
  - destruct (Hend i got (-2)) as [-> Hg]; [destruct i; simpl in *; [done | lia] | done |].
    exists []. by rewrite <- Hg.
  - apply Forall_cons in Hc as [Hk Hc]. destruct (take (Nat.min k n) i) as [|x v] eqn:Hv.
    + destruct (Hend i got 0) as [-> Hg]; [|done | by exists l; rewrite <- Hg].
      apply (f_equal length) in Hv. rewrite length_take in Hv. destruct i; simpl in *; [done | lia].
    + assert (length (x :: v) = Nat.min (Nat.min k n) (length i)) as Hlen by (by rewrite <- Hv, length_take).
      assert ((x :: v) ++ drop (length (x :: v)) i = i) as Hvi.
      { rewrite <- Hv, length_take. destruct (decide (Nat.min k n <= length i)%nat) as [Hle|Hle].
        - by rewrite (Nat.min_l (Nat.min k n)), take_drop by lia.
        - by rewrite (Nat.min_r (Nat.min k n)), drop_all, app_nil_r, take_ge by lia. }
      rewrite decide_True by (rewrite Hlen; lia).
      destruct (IH (n - length (x :: v))%nat (drop (length (x :: v)) i) (got ++ x :: v) Hc) as (l' & Heq);
        rewrite ?length_drop; try lia.
      { by rewrite <- app_assoc, Hvi. }
      exists l'. by rewrite Heq, <- app_assoc, Hvi.
  - apply Forall_cons in Hc as [_ Hc]. by apply IH.
  - by apply Forall_cons in Hc as [? _].
Qed.

Lemma wr_in m off v : 0 <= off -> off + Z.of_nat (length v) <= Z.of_nat (length m) ->
  exists m', wr m off v = Some m' ∧ length m' = length m.
Proof. intros H1 H2. rewrite wr_bound by done. eexists. split; [done|]. eapply length_wr. by rewrite wr_bound. Qed.

Lemma recv_one_short s m size d k : empty_msg size m -> framable size d -> size < 2 ^ 16 ->
  inp s = take k (drop 5 (tcp_frame d)) -> (0 < k)%nat -> Z.of_nat k < addrlen d - 2 + datlen d ->
  coming (answers s) -> (k <= budget (answers s))%nat ->
  exists s', recv_one m (take 5 (tcp_frame d)) s = Some (inl (Z.of_nat k), s').
Proof.
  intros [Hml Hmb] ([Ha Hd] & H255 & Hsz) Hsize Hi Hk Hlt Hc Hb. pose proof (addrlen_bounds d Ha) as Hal.
  destruct (encode_head _ Ha) as (t & l & r & He & Ht & Hl).
  assert (is_u16 (datlen d)) as Hdu by (unfold is_u16, datlen in *; lia).
  assert (addrlen d = 2 + Z.of_nat (length r)) as Har by (unfold addrlen; rewrite He; simpl; lia).
  unfold tcp_frame in *. rewrite He in *. simpl in Hi. simpl.
  unfold recv_one, lift, mbind, M_bind, mget. change (take 0 (r ++ snd d)) with (@nil Z).
  change (drop 0 (r ++ snd d)) with (r ++ snd d) in Hi.
  set (b0 := (datlen d / _) mod _) in *. set (b1 := datlen d mod _) in *.
  change (rd [b0; b1; 3 + addrlen d; t; l] 0 2) with (Some (be16 (datlen d))).
  change (rd8 [b0; b1; 3 + addrlen d; t; l] 2) with (Some (3 + addrlen d)).
  change (rd8 [b0; b1; 3 + addrlen d; t; l] 3) with (Some t).
  change (rd8 [b0; b1; 3 + addrlen d; t; l] 4) with (Some l). cbv beta iota.
  rewrite decide_False by lia. rewrite (ntohs_of_be16 _ Hdu).
  replace (3 + addrlen d - 3) with (addrlen d) by lia.
  assert (u64 (m_len m - addrlen d) = size - addrlen d) as Hu
    by (unfold u64; rewrite Hml; apply Z.mod_small; unfold datlen in *; lia).
  rewrite Hu. rewrite decide_False by lia.
  assert (length (inp s) = k) as Hlen by (rewrite Hi, length_take, length_app; unfold datlen in *; lia).
  unfold stream_recv_all. destruct (recv_all_short (answers s) (Z.to_nat (addrlen d - 2 + datlen d)) (inp s) [])
    as (l' & ->); [done | lia | lia | cbn; intros H0; by rewrite H0 in Hlen; simpl in Hlen; lia |].
  cbn [app]. rewrite Hlen. set (v := inp s) in *.
  destruct (wr_in (m_buf m) 2 (take (Z.to_nat (addrlen d - 2)) v)) as (m1 & -> & Hm1);
    [lia | rewrite length_take; unfold datlen in *; lia|].
  destruct (wr_in m1 (addrlen d) (drop (Z.to_nat (addrlen d - 2)) v)) as (m2 & -> & _);
    [lia | rewrite Hm1, length_drop; unfold datlen in *; lia|].
  rewrite decide_True by lia. by eexists.
Qed.

(** The network never makes the receiver wait. *)
Definition ready (l : list ans) : Prop :=
  Forall (fun a => match a with Data j => (0 < j)%nat | _ => False end) l.

Lemma ready_coming l : ready l -> coming l ∧ budget l = length l.
Proof. induction 1 as [|[j| |] l Ha Hl [IH1 IH2]]; [by repeat constructor | | done | done]. split; [by constructor | simpl; lia]. Qed.

Lemma recv_tcp_loop_truncated size ds : forall bufs rlen s d k, size < 2 ^ 16 ->
  (length ds < length bufs)%nat -> Forall (empty_msg size) bufs -> Forall (framable size) (ds ++ [d]) ->
  inp s = concat (tcp_frame <$> ds) ++ take (5 + k) (tcp_frame d) ->
  (0 < k)%nat -> Z.of_nat k < addrlen d - 2 + datlen d ->
  ready (answers s) -> (length (inp s) <= length (answers s))%nat ->
  wp (recv_tcp_loop true bufs rlen) s (fun '(r, out) _ => r = Z.of_nat k
    ∧ exists msgs, out = msgs ++ drop (length ds) bufs ∧ Forall2 msg_is msgs ds).
Proof.
  induction ds as [|d0 ds IH]; intros bufs rlen s d k Hsz Hlt Hbufs Hds Hi Hk Hkd Hrdy Hb;
    (destruct bufs as [|m bufs]; [simpl in Hlt; lia|]); apply Forall_cons in Hbufs as [Hm Hbufs];
    apply Forall_cons in Hds as [Hd Hds]; destruct (ready_coming _ Hrdy) as [Hc Hbu].
  - pose proof (tcp_frame_length d) as Hfl.
    assert (length (inp s) = (5 + k)%nat) as Hil by (rewrite Hi; cbn [concat fmap list_fmap app]; rewrite length_take; lia).
    destruct (answers s) as [|[j| |] l] eqn:Ha; [simpl in Hb; lia | | by inversion Hrdy | by inversion Hrdy].
    rewrite <- Ha in *. destruct (recv_header_ok true s (take 5 (tcp_frame d)) (take k (drop 5 (tcp_frame d))) j l)
      as (l1 & e1 & H1 & Hs1 & Hb1); try done; try lia.
    { rewrite Hi. cbn [concat fmap list_fmap app]. by rewrite take_take_drop. }
    { rewrite length_take. lia. }
    assert (coming l) as Hcl by (rewrite Ha in Hc; by apply Forall_cons in Hc as [_ ?]).
    destruct (recv_one_short (set_inp l1 (take k (drop 5 (tcp_frame d))) e1 s) m size d k) as (s' & H2); try done.
    { cbn. by eapply coming_suffix. }
    { cbn. lia. }
    cbn [recv_tcp_loop]. apply wp_bind. unfold wp at 1. rewrite H1. rewrite decide_False by lia.
    apply wp_bind. unfold wp at 1. rewrite H2. apply wp_ret. split; [done|]. by exists [].
  - cbn [concat fmap list_fmap] in Hi. rewrite <- app_assoc in Hi. pose proof (tcp_frame_length d0) as Hfl.
    pose proof (addrlen_bounds d0 (proj1 (proj1 Hd))). assert (0 <= datlen d0) by (unfold datlen; lia).
    assert (length (inp s) = (length (tcp_frame d0) + length (concat (tcp_frame <$> ds) ++ take (5 + k) (tcp_frame d)))%nat) as Hil
      by (rewrite Hi; by rewrite length_app).
    destruct (answers s) as [|[j| |] l] eqn:Ha; [simpl in Hb; lia | | by inversion Hrdy | by inversion Hrdy].
    rewrite <- Ha in *. destruct (recv_tcp_loop_step size m bufs rlen s d0 _ j l Hm Hd Hsz Hi Ha Hc)
      as (l' & m' & e' & Hm' & Hs & Hbl & Heq); [lia|].
    assert (ready l') as Hrl by (destruct Hs as [q ->]; rewrite Ha in Hrdy; apply Forall_cons in Hrdy as [_ Hq];
      by apply Forall_app in Hq as [_ ?]). destruct (ready_coming _ Hrl) as [_ Hbl'].
    unfold wp. rewrite Heq. eapply wp_bind, wp_mono; [eapply (IH bufs (rlen + 1) _ d k); try done; [simpl in Hlt; lia | ]; cbn [inp answers set_inp]; lia|].
    intros [r out] s' (-> & msgs & -> & Hf2). apply wp_ret. split; [done|]. exists (m' :: msgs). split; [done | by constructor].
Qed.

(** ** Datagrams of their own *)

Definition fits (size : Z) (d : dgram) : Prop := dgram_ok d ∧ 3 + addrlen d + datlen d <= size.

Lemma udp_frame_length d : Z.of_nat (length (udp_frame d)) = 3 + addrlen d + datlen d.
Proof. unfold udp_frame, addrlen, datlen. rewrite !length_app. simpl. lia. Qed.

(** A buffer that has received the datagram. *)
Definition filled (p : HevSocks5UDPMsg * Z) (d : dgram) : Prop :=
  (exists rest, m_buf (fst p) = udp_frame d ++ rest) ∧ snd p = Z.of_nat (length (udp_frame d)).

Lemma fill_buffers_ok size bufs ds : (length ds <= length bufs)%nat -> Forall (empty_msg size) bufs ->
  Forall (fits size) ds -> exists ms, fill_buffers bufs (udp_frame <$> ds) = Some ms ∧ Forall2 filled ms ds.
Proof.
  revert bufs. induction ds as [|d ds IH]; intros bufs Hl Hb Hd.
  { exists []. by destruct bufs. }
  destruct bufs as [|m bufs]; [simpl in Hl; lia|]. apply Forall_cons in Hb as [[Hm1 Hm2] Hb], Hd as [[Hok Hf] Hd].
  destruct (IH bufs) as (ms & Heq & H2); [simpl in Hl; lia | done | done|].
  rewrite fmap_cons. cbn [fill_buffers]. pose proof (udp_frame_length d).
  rewrite take_ge by lia. rewrite wr_0 by lia. cbn [mbind option_bind].
  rewrite Heq. cbn [mbind option_bind]. eexists. split; [done|].
  constructor; [|done]. split; [by eexists | done].
Qed.

Lemma parse_dgrams_ok size ms ds : Forall2 filled ms ds -> Forall (fits size) ds ->
  exists msgs, parse_dgrams ms = Some (None, msgs) ∧ Forall2 msg_is msgs ds.
Proof.
  induction 1 as [|[m n] d ms ds [[rest Hm] Hn] H2 IH]; intros Hd; [by exists []|].
  apply Forall_cons in Hd as [[[Ha Hok] Hf] Hd]. destruct (IH Hd) as (msgs & Heq & H2').
  cbn [fst snd] in *. subst n. pose proof (udp_frame_length d) as Hl. pose proof (addrlen_bounds d Ha) as Hal.
  assert (0 <= datlen d) as Hdl by (unfold datlen; lia).
  assert (drop 3 (m_buf m) = encode (fst d) ++ snd d ++ rest) as Hdrop by (rewrite Hm; unfold udp_frame; by rewrite <- !app_assoc).
  cbn [parse_dgrams]. rewrite Hdrop, addr_len_prefix by done. fold (addrlen d). cbn [mbind option_bind].
  rewrite decide_False by lia. rewrite decide_False by lia. rewrite Heq. cbn [mbind option_bind].
  eexists. split; [done|]. constructor; [|done]. split_and!; cbn [m_addr m_buf m_len].
  - by eexists.
  - exists rest. replace (Z.to_nat (3 + addrlen d)) with (3 + length (encode (fst d)))%nat by (unfold addrlen; lia).
    rewrite <- drop_drop, Hdrop. by rewrite drop_app_length.
  - lia.
Qed.

(** The first datagrams, with the peer chosen by the first of all. *)
Lemma recvmmsg_udp_ok size bufs ds s k l connected : 
  Forall (empty_msg size) bufs -> Forall (fits size) (snd <$> ds) ->
  dg_in s = (fun '(sa, d) => (sa, udp_frame d)) <$> ds -> answers s = Data k :: l ->
  (connected = true \/ udp_associated (base s) ≠ 0) ->
  let n := Nat.min (Nat.min k (length bufs)) (length ds) in (0 < n)%nat ->
  exists msgs s', hev_socks5_udp_recvmmsg_udp true connected bufs s
      = Some ((Z.of_nat n, msgs ++ drop n bufs), s')
    ∧ Forall2 msg_is msgs (take n (snd <$> ds))
    ∧ dg_in s' = (fun '(sa, d) => (sa, udp_frame d)) <$> drop n ds ∧ udp_associated (base s') ≠ 0
    ∧ peer s' = (if decide (udp_associated (base s) = 0) then fst <$> head ds else peer s) ∧ answers s' = l
    ∧ dg_out s' = dg_out s.
Proof.
  intros Hb Hd Hi Ha Hcon n Hn. unfold hev_socks5_udp_recvmmsg_udp, dgrams_recv, lift, get, connect_peer.
  unfold mbind, M_bind, mget, mput, mret, M_ret. rewrite Ha. cbn [recv_some].
  set (got := take (Nat.min k (length bufs)) (dg_in s)).
  assert (got = (fun '(sa, d) => (sa, udp_frame d)) <$> take n ds) as Hgot.
  { unfold got. rewrite Hi, <- fmap_take. f_equal. unfold n. destruct (decide (Nat.min k (length bufs) <= length ds)%nat).
    - by rewrite (Nat.min_l (Nat.min k _)).
    - by rewrite (Nat.min_r (Nat.min k _)), !take_ge by lia. }
  assert (length got = n) as Hlen by (rewrite Hgot, length_fmap, length_take; unfold n; lia).
  rewrite Hlen. rewrite decide_False by lia.
  assert (snd <$> got = udp_frame <$> (take n (snd <$> ds))) as Hsnd.
  { rewrite Hgot, <- fmap_take, <- !list_fmap_compose. apply list_fmap_ext. by intros ? [? ?]. }
  destruct (fill_buffers_ok size bufs (take n (snd <$> ds))) as (ms & Hms & H2);
    [rewrite length_take, length_fmap; unfold n; lia | done | by apply Forall_take |].
  rewrite Hsnd, Hms. assert (length ms = n) as Hlms
    by (rewrite (Forall2_length _ _ _ H2), length_take, length_fmap; unfold n; lia).
  destruct (parse_dgrams_ok size ms _ H2) as (msgs & Hp & H3); [by apply Forall_take|].
  rewrite Hlms. cbn [base set_dg_in]. destruct (decide (udp_associated (base s) = 0)) as [Hua|Hua].
  - destruct Hcon as [->|?]; [|done]. assert (fst <$> head got = fst <$> head ds) as Hhd
      by (rewrite Hgot; destruct ds as [|[sa d] ds]; [by rewrite take_nil | destruct n; [lia | done]]).
    destruct ds as [|[sa d] ds]; [simpl in *; lia|]. rewrite Hhd. cbn [fmap option_fmap option_map head fst negb base set_peer].
    rewrite decide_False by lia. cbn [negb]. rewrite Hp. eexists msgs, _. split; [done|].
    cbn [dg_in set_base set_peer set_dg_in base peer answers dg_out]. split_and!; try done.
    rewrite Hi, <- fmap_drop. done.
  - cbn [negb]. rewrite Hp. eexists msgs, _. split; [done|].
    cbn [dg_in set_base set_peer set_dg_in base peer answers dg_out]. split_and!; try done.
    by rewrite Hi, <- fmap_drop.
Qed.

(** ** Any stream at all *)

(** Errors are negative. *)
Definition errors_ok (l : list ans) : Prop := Forall (fun a => match a with Other r => r < 0 | _ => True end) l.

Lemma recv_all_safe {A} l : forall n (i got : list A), errors_ok l ->
  exists r v l', recv_all l n i got = (r, v, l') ∧ (length v <= length got + n)%nat ∧ errors_ok l'
    ∧ (r = Z.of_nat (length v) \/ (v = [] ∧ r < 0)).
Proof.
  assert (forall (got : list A) r, r < 0 -> or_size got r = Z.of_nat (length got) \/ (got = [] ∧ or_size got r < 0)) as Ho.
  { intros [|x got] r Hr; [by right | by left]. }
  induction l as [|[k| |r] l IH]; intros n i got Hl; cbn [recv_all];
    try (apply Forall_cons in Hl as [Hr Hl]).
  - eexists _, _, _. split_and!; [done | lia | constructor | by apply Ho].
  - destruct (take (Nat.min k n) i) as [|x v] eqn:Hv.
    + eexists _, _, _. split_and!; [done | lia | done | left; by destruct got].
    + assert (length (x :: v) <= n)%nat as Hlen by (rewrite <- Hv, length_take; lia). case_decide.
      * destruct (IH (n - length (x :: v))%nat (drop (length (x :: v)) i) (got ++ x :: v) Hl)
          as (r & w & l' & -> & Hw & Hl' & Hr'). exists r, w, l'. split_and!; auto. rewrite length_app in Hw. lia.
      * eexists _, _, _. split_and!; [done | rewrite length_app; lia | done | by left].
  - by apply IH.
  - eexists _, _, _. split_and!; [done | lia | done | by apply Ho].
Qed.

(** A message as the receiver leaves it: the address and the data are in the buffer. *)
Definition in_buffer (size : Z) (m : HevSocks5UDPMsg) : Prop :=
  exists mem k, m_addr m = Some mem ∧ Z.of_nat (length mem) = size ∧ 2 <= k
    ∧ m_buf m = drop (Z.to_nat k) mem ∧ 0 <= m_len m ∧ k + m_len m <= size.

Lemma stream_recv_all_safe n s : errors_ok (answers s) -> 0 <= n ->
  exists r v s', stream_recv_all n s = Some ((r, v), s') ∧ Z.of_nat (length v) <= n ∧ errors_ok (answers s')
    ∧ (r = Z.of_nat (length v) \/ (v = [] ∧ r < 0)) ∧ (bytes_ok (inp s) -> bytes_ok (inp s')).
Proof.
  intros He Hn. unfold stream_recv_all. destruct (recv_all_safe (answers s) (Z.to_nat n) (inp s) [] He)
    as (r & v & l' & -> & Hv & Hl & Hr). eexists _, _, _. split_and!; [done | simpl in Hv; lia | done | done |].
  intros H. by apply bytes_ok_drop.
Qed.

Lemma recv_all_bytes l : forall n (i got : bytes), bytes_ok i -> bytes_ok got -> bytes_ok (recv_all l n i got).1.2.
Proof.
  induction l as [|[k| |r] l IH]; intros n i got Hi Hg; cbn [recv_all]; try done; [|by apply IH].
  destruct (take (Nat.min k n) i) as [|x v] eqn:Hv; [done|].
  assert (bytes_ok (got ++ x :: v)) by (apply bytes_ok_app; split; [done|]; rewrite <- Hv; by apply bytes_ok_take).
  case_decide; [|done]. apply IH; [by apply bytes_ok_drop | done].
Qed.

(** The header: five bytes, or the end. *)
Lemma recv_header_safe nb s : errors_ok (answers s) -> bytes_ok (inp s) ->
  exists r h s', recv_header nb s = Some ((r, h), s') ∧ errors_ok (answers s') ∧ bytes_ok (inp s')
    ∧ r <= 5 ∧ (r = 5 -> length h = 5%nat ∧ bytes_ok h).
Proof.
  intros He Hi. unfold recv_header, mbind, M_bind, mret, M_ret, stream_recv.
  set (e := errno_after (answers s)). clearbody e.
  assert (exists r v l, recv_some nb (answers s) (Z.to_nat 5) (inp s) = (r, v, l) ∧ errors_ok l ∧ bytes_ok v
    ∧ (length v <= 5)%nat ∧ (r = Z.of_nat (length v) \/ (v = [] ∧ r < 0))) as (r & v & l & -> & Hl & Hv & Hlv & Hr).
  { induction (answers s) as [|[k| |r] l IH]; cbn [recv_some]; try (apply Forall_cons in He as [Hr He]).
    - eexists _, _, _. split_and!; [done | constructor | constructor | simpl; lia | right; split; [done | lia]].
    - eexists _, _, _. split_and!; [done | done | by apply bytes_ok_take | rewrite length_take; lia | by left].
    - destruct nb; [|by apply IH]. eexists _, _, _. split_and!; [done | done | constructor | simpl; lia | right; split; [done | lia]].
    - eexists _, _, _. split_and!; [done | done | constructor | simpl; lia | by right]. }
  case_decide as Hp.
  - destruct Hr as [Hr|[_ Hr]]; [|lia].
    destruct (stream_recv_all_safe (5 - r) (set_inp l (drop (length v) (inp s)) (e l (again s)) s)) as (r' & w & s' & Heq & Hw & He' & Hr' & Hi');
      [done | lia |]. pose proof (recv_all_bytes l (Z.to_nat (5 - r)) (drop (length v) (inp s)) []) as Hwb.
    unfold stream_recv_all in *. cbn [answers inp set_inp] in *.
    destruct (recv_all l (Z.to_nat (5 - r)) (drop (length v) (inp s)) []) as [[r0 w0] l0]. injection Heq as -> -> <-.
    eexists _, _, _. split_and!; [done | done | apply Hi'; by apply bytes_ok_drop | | ].
    + destruct Hr' as [->|[-> ?]]; lia.
    + intros H5. destruct Hr' as [->|[-> ?]]; [|lia]. split; [rewrite length_app; lia|].
      apply bytes_ok_app. split; [done | apply Hwb; [by apply bytes_ok_drop | constructor]].
  - eexists _, _, _. split_and!; [done | done | by apply bytes_ok_drop | destruct Hr as [->|[_ ?]]; lia |].
    intros ->. destruct Hr as [Hr|[_ ?]]; [split; [lia | done] | lia].
Qed.

Lemma recv_one_safe s m size h : empty_msg size m -> 252 <= size < 2 ^ 16 ->
  length h = 5%nat -> bytes_ok h -> errors_ok (answers s) -> bytes_ok (inp s) ->
  exists res s', recv_one m h s = Some (res, s') ∧ errors_ok (answers s') ∧ bytes_ok (inp s')
    ∧ match res with inl r => r < size | inr m' => in_buffer size m' end.
Proof.
  intros [Hml Hmb] Hsz Hh Hok He Hi. destruct h as [|b0 [|b1 [|b2 [|t [|l [|]]]]]]; try done.
  apply Forall_cons in Hok as [H0 Hok], Hok as [H1 Hok], Hok as [H2 Hok].
  unfold recv_one, lift, mbind, M_bind, mget, mret, M_ret.
  change (rd [b0; b1; b2; t; l] 0 2) with (Some [b0; b1]). change (rd8 [b0; b1; b2; t; l] 2) with (Some b2).
  change (rd8 [b0; b1; b2; t; l] 3) with (Some t). change (rd8 [b0; b1; b2; t; l] 4) with (Some l). cbv beta iota.
  unfold is_u8 in H2. case_decide; [eexists _, _; split_and!; [done | done | done | cbn; lia]|].
  assert (u64 (m_len m - (b2 - 3)) = size - (b2 - 3)) as -> by (unfold u64; rewrite Hml; apply Z.mod_small; lia).
  set (dl := ntohs (of_le16 [b0; b1])). assert (0 <= dl) as Hdl
    by (pose proof (swap16_range (u16 (of_le16 [b0; b1]))) as Hs; unfold is_u16 in Hs; unfold dl, ntohs; lia).
  case_decide; [eexists _, _; split_and!; [done | done | done | cbn; lia]|].
  destruct (stream_recv_all_safe (b2 - 3 - 2 + dl) s He) as (r & v & s' & -> & Hv & He' & Hr & Hi'); [lia|].
  destruct (wr_in (m_buf m) 2 (take (Z.to_nat (b2 - 3 - 2)) v)) as (m1 & -> & Hm1); [lia | rewrite length_take; lia|].
  destruct (wr_in m1 (b2 - 3) (drop (Z.to_nat (b2 - 3 - 2)) v)) as (m2 & -> & Hm2);
    [lia | rewrite Hm1, length_drop; lia|].
  case_decide as Hd.
  - eexists _, _. split_and!; [done | done | by apply Hi' |]. destruct Hr as [->|[-> ?]]; lia.
  - destruct (wr_in m2 0 [t]) as (m3 & -> & Hm3); [lia | simpl; lia|].
    destruct (wr_in m3 1 [l]) as (m4 & -> & Hm4); [lia | simpl; lia|].
    eexists _, _. split_and!; [done | done | by apply Hi' |].
    exists m4, (b2 - 3). cbn [m_addr m_buf m_len]. split_and!; [done | lia | lia | done | lia | lia].
Qed.

(** The loop: the messages it has received, and a result that counts them unless the
    stream ended before. *)
Lemma recv_tcp_loop_safe size nb bufs : forall rlen s, 252 <= size < 2 ^ 16 -> 0 <= rlen ->
  Forall (empty_msg size) bufs -> errors_ok (answers s) -> bytes_ok (inp s) ->
  exists r out s' n, recv_tcp_loop nb bufs rlen s = Some ((r, out), s') ∧ errors_ok (answers s') ∧ bytes_ok (inp s')
    ∧ (n <= length bufs)%nat ∧ Forall (in_buffer size) (take n out) ∧ drop n out = drop n bufs ∧ length out = length bufs
    ∧ (r = rlen + Z.of_nat n \/ r < size).
Proof.
  induction bufs as [|m bufs IH]; intros rlen s Hsz Hr Hb He Hi.
  { exists rlen, [], s, 0%nat. split_and!; auto; lia || by constructor. }
  apply Forall_cons in Hb as [Hm Hb]. cbn [recv_tcp_loop].
  destruct (recv_header_safe nb s He Hi) as (r0 & h & s1 & Hh & He1 & Hi1 & Hr0 & Hh5).
  rewrite (bind_some _ _ _ _ _ Hh). case_decide as Hne.
  - eexists _, _, _, 0%nat. split_and!; [reflexivity | done | done | lia | by constructor | done | done |].
    case_decide; [left; lia | right; lia].
  - destruct Hh5 as [Hh5 Hhok]; [lia|].
    destruct (recv_one_safe s1 m size h Hm Hsz Hh5 Hhok He1 Hi1) as ([r1|m'] & s2 & H2 & He2 & Hi2 & Hres);
      rewrite (bind_some _ _ _ _ _ H2).
    + eexists _, _, _, 0%nat. split_and!; [reflexivity | done | done | lia | by constructor | done | done | by right].
    + destruct (IH (rlen + 1) s2 Hsz ltac:(lia) Hb He2 Hi2) as (r & out & s3 & n & H3 & He3 & Hi3 & Hn & Hin & Hdr & Hlen & Hr3).
      rewrite (bind_some _ _ _ _ _ H3). eexists _, _, _, (S n).
      split_and!; [reflexivity | done | done | simpl; lia | by constructor | done | by simpl; f_equal |].
      destruct Hr3 as [->|?]; [left; lia | by right].
Qed.

(** ** Properties *)

(** C20: Framing datagrams on a TCP stream round-trips.  The messages that one side sends
    (names of up to 248 bytes, data that fits the buffer) come out of the other side's
    receive function in order, each with its address and its data; one call receives some
    number of them, at least one when data is there, the result is that number, and the
    stream is left at the start of the next frame, however the network cuts the stream. *)
Theorem hev_socks5_udp_tcp_round_trip connected size msgv bufs ds tx rx :
  Forall2 msg_is msgv ds -> ds ≠ [] -> Forall (framable size) ds -> size < 2 ^ 16 -> Forall (empty_msg size) bufs ->
  type (base tx) = HEV_SOCKS5_TYPE_UDP_IN_TCP -> type (base rx) = HEV_SOCKS5_TYPE_UDP_IN_TCP ->
  coming (answers tx) -> (length (concat (tcp_frame <$> ds)) <= budget (answers tx))%nat ->
  coming (answers rx) -> (length (concat (tcp_frame <$> ds)) <= budget (answers rx))%nat ->
  exists tx', hev_socks5_udp_sendmmsg msgv tx = Some (Z.of_nat (length ds), tx')
    ∧ out tx' = out tx ++ concat (tcp_frame <$> ds)
    ∧ (inp rx = concat (tcp_frame <$> ds) -> exists r out rx',
        hev_socks5_udp_recvmmsg true connected bufs rx = Some ((r, out), rx') ∧ received_some size bufs ds 0 rx r out rx').
Proof.
  intros H2 Hne Hd Hsz Hb Ht Hr Hct Hbt Hcr Hbr.
  destruct (sendmmsg_tcp_ok size msgv ds tx) as (l & e & Hs & _); try done.
  eexists. split_and!; [exact Hs | done |]. intros Hi. unfold hev_socks5_udp_recvmmsg, get, mbind, M_bind, mget. rewrite Hr.
  pose proof (recv_tcp_loop_ok size bufs ds 0 rx Hsz ltac:(lia) Hb Hd Hi Hcr ltac:(by rewrite Hi)) as Hw.
  destruct (wp_elim _ _ _ Hw) as ([r out] & rx' & Heq & Hrs). by exists r, out, rx'.
Qed.



(** When the stream ends inside a frame, the receive function returns the number of
    bytes it got of that frame, as if so many messages had been received: up to 1500 for a
    caller with ten buffers, who then reads messages that do not exist. *)
Theorem hev_socks5_udp_recvmmsg_tcp_truncated size ds bufs s d k :
  size < 2 ^ 16 -> (length ds < length bufs)%nat -> Forall (empty_msg size) bufs ->
  Forall (framable size) (ds ++ [d]) ->
  inp s = concat (tcp_frame <$> ds) ++ take (5 + k) (tcp_frame d) ->
  (0 < k)%nat -> Z.of_nat k < addrlen d - 2 + datlen d ->
  ready (answers s) -> (length (inp s) <= length (answers s))%nat ->
  exists msgs s', hev_socks5_udp_recvmmsg_tcp true bufs s = Some ((Z.of_nat k, msgs ++ drop (length ds) bufs), s')
    ∧ Forall2 msg_is msgs ds.
Proof.
  intros. destruct (wp_elim _ _ _ (recv_tcp_loop_truncated size ds bufs 0 s d k ltac:(done) ltac:(done)
    ltac:(done) ltac:(done) ltac:(done) ltac:(done) ltac:(done) ltac:(done) ltac:(done))) as ([r out] & s' & Heq & -> & msgs & -> & Hf2).
  by exists msgs, s'.
Qed.

(** ** Instances *)

Definition example_dgram : dgram := (IPv4 [8; 8; 8; 8] 53, [1; 2; 3]).
Definition example_msg : HevSocks5UDPMsg := mk_msg (Some (encode (fst example_dgram))) [1; 2; 3] 3.
Definition example_buf : HevSocks5UDPMsg := mk_msg None (replicate 300 0) 300.
Definition example_assoc (t : HevSocks5Type) (l : list ans) (i : bytes) (g : list (sockaddr_in6 * bytes)) : assoc :=
  mk_assoc (hev_socks5_construct t) l i [] g [] None false.

Lemma example_msg_is : Forall2 msg_is [example_msg] [example_dgram].
Proof. constructor; [|constructor]. split_and!; [exists []; by rewrite app_nil_r | by exists [] | done]. Qed.

Lemma example_dgram_ok : dgram_ok example_dgram.
Proof. split; [split_and!; [|done|done]|]; repeat constructor; done. Qed.

Lemma example_framable : framable 300 example_dgram.
Proof. split; [apply example_dgram_ok | by vm_compute]. Qed.

Lemma example_empty : Forall (empty_msg 300) [example_buf].
Proof. constructor; [by split | constructor]. Qed.

(** The frame arrives byte by byte. *)
Lemma hev_socks5_udp_tcp_round_trip_witness :
  let tx := example_assoc HEV_SOCKS5_TYPE_UDP_IN_TCP (replicate 13 (Data 1)) [] [] in
  let rx := example_assoc HEV_SOCKS5_TYPE_UDP_IN_TCP (replicate 13 (Data 1)) (tcp_frame example_dgram) [] in
  exists tx', hev_socks5_udp_sendmmsg [example_msg] tx = Some (1, tx') ∧ out tx' = tcp_frame example_dgram
    ∧ exists r out rx', hev_socks5_udp_recvmmsg true true [example_buf] rx = Some ((r, out), rx')
      ∧ received_some 300 [example_buf] [example_dgram] 0 rx r out rx'.
Proof.
  intros tx rx. destruct (hev_socks5_udp_tcp_round_trip true 300 [example_msg] [example_buf] [example_dgram] tx rx)
    as (tx' & H1 & H2 & H3); try done; try lia; try (by repeat constructor).
  - apply example_msg_is.
  - exists tx'. split_and!; [exact H1 | exact H2 | apply H3; done].
Defined.



(** Five of the eight bytes of a message arrive: five messages, it says. *)
Lemma hev_socks5_udp_recvmmsg_tcp_truncated_witness :
  exists out s', hev_socks5_udp_recvmmsg_tcp true [example_buf]
    (example_assoc HEV_SOCKS5_TYPE_UDP_IN_TCP (replicate 10 (Data 10)) (take 10 (tcp_frame example_dgram)) [])
    = Some ((5, out), s').
Proof.
  destruct (hev_socks5_udp_recvmmsg_tcp_truncated 300 [] [example_buf]
    (example_assoc HEV_SOCKS5_TYPE_UDP_IN_TCP (replicate 10 (Data 10)) (take 10 (tcp_frame example_dgram)) [])
    example_dgram 5) as (msgs & s' & H & _); try lia; try done.
  - simpl. lia.
  - apply example_empty.
  - constructor; [apply example_framable | constructor].
  - by repeat (constructor; [lia|]).
  - by eexists _, s'.
Defined.

End Socks5UDPProofs.
