(* ===== verification/Socks5UDPServer.v ===== *)
(** * The server's UDP relay: src/core/src/hev-socks5-udp.c

    An association on one side, framed as Socks5UDP says, and an ordinary datagram socket
    on the other. *)

From S2P Require Import Prelude Socks5Addr Socks5Io Socks5UDP.

Module Socks5UDPServer.
Import Socks5Addr Socks5Io Socks5UDP.

(** The association; the socket [fd]: the answers to come, the datagrams it has got, with
    their sources, and has sent, with their destinations; whether it is bound.  There is one
    errno, which is kept with the association. *)
Record relay := mk_relay {
  ra : assoc; b_answers : list ans; b_in : list (sockaddr_in6 * bytes); b_out : list (sockaddr_in6 * bytes); bound : Z }.

Definition set_ra v r := mk_relay v (b_answers r) (b_in r) (b_out r) (bound r).
Definition set_bound v r := mk_relay (ra r) (b_answers r) (b_in r) (b_out r) v.
Definition set_again e a := mk_assoc (base a) (answers a) (inp a) (out a) (dg_in a) (dg_out a) (peer a) e.

Definition get {A} (f : relay -> A) : M relay A := mget (fun r => Some (f r)).
Definition lift {A} (o : option A) : M relay A := mget (fun _ => o).
Definition on_assoc {A} (m : M assoc A) : M relay A := fun r =>
  match m (ra r) with Some (a, v) => Some (a, set_ra v r) | None => None end.

(** The calls on the datagram socket. *)
Definition b_recv (n : nat) : M relay (Z * list (sockaddr_in6 * bytes)) := fun r =>
  let '(res, v, l) := recv_some true (b_answers r) n (b_in r) in
  Some ((res, v), mk_relay (set_again (errno_after (b_answers r) l (again (ra r))) (ra r)) l
                    (drop (length v) (b_in r)) (b_out r) (bound r)).
Definition b_send_all (v : list (sockaddr_in6 * bytes)) : M relay Z := fun r =>
  let '(res, w, l) := send_all (b_answers r) v in
  Some (res, mk_relay (set_again (errno_after (b_answers r) l (again (ra r))) (ra r)) l
               (b_in r) (b_out r ++ w) (bound r)).

Definition UDP_BUF_SIZE : Z := 1500.

(** [if (res == -1 && errno == EAGAIN)] *)
Definition relay_result (res : Z) : M relay Z :=
  if decide (res <= 0) then
    e ← get (fun r => again (ra r));
    mret (if decide (res = -1 ∧ e = true) then 0 else -1)
  else mret 1.

Section Forward.
Context `{Resolver}.

(** ** From the client to the network *)

(** The loop over the messages: the datagrams with their destinations, or [None] when it
    returns early.  A message that is not there is an access out of bounds. *)
Fixpoint destinations (family : HevSocks5AddrFamily) (n : nat) (svec : list HevSocks5UDPMsg)
    : option (option (list (sockaddr_in6 * bytes))) :=
  match n, svec with
  | O, _ => Some (Some [])
  | S n, m :: svec =>
      if decide (m_len m = 0 \/ m_addr m = None) then Some None else
      a ← m_addr m;
      '(ret, sa, _) ← hev_socks5_addr_into_sockaddr6 a (mk_sockaddr 0 0 (replicate 16 0)) family;
      if decide (ret < 0) then Some None else
      d ← rd (m_buf m) 0 (m_len m);
      rest ← destinations family n svec;
      Some (option_map (cons (sa, d)) rest)
  | S _, [] => None
  end.

(** [mem]: what the buffers hold; [connected] and [binder]: the results of connect and of the
    binder of the class. *)
Definition hev_socks5_udp_fwd_f (mem : list bytes) (connected : bool) (binder : Z) : M relay Z :=
  '(res, svec) ← on_assoc (hev_socks5_udp_recvmmsg true connected ((fun b => mk_msg None b UDP_BUF_SIZE) <$> mem));
  if decide (res > 0) then
    family ← get (fun r => hev_socks5_get_addr_family (base (ra r)));
    ds ← lift (destinations family (Z.to_nat res) svec);
    match ds with
    | None => mret (-1)
    | Some ds =>
        b ← get bound;
        ok ← (if decide (b = 0) then
                if decide (binder < 0) then mret false else
                mput (fun r => Some (set_bound 1 r));; mret true
              else mret true);
        if negb ok then mret (-1) else
        res ← b_send_all ds;
        relay_result res
    end
  else relay_result res.

(** ** From the network to the client *)

(** [dvec]: each message has an address of 19 bytes of its own. *)
Fixpoint origins (saddr : list bytes) (svec : list (sockaddr_in6 * bytes)) : option (list HevSocks5UDPMsg) :=
  match svec, saddr with
  | [], _ => Some []
  | (sa, d) :: svec, a :: saddr =>
      '(_, a) ← hev_socks5_addr_from_sockaddr6 a sa;
      rest ← origins saddr svec;
      Some (mk_msg (Some a) d (Z.of_nat (length d)) :: rest)
  | _ :: _, [] => None
  end.

(** [saddr]: what the memory of the addresses holds. *)
Definition hev_socks5_udp_fwd_b (num : nat) (saddr : list bytes) : M relay Z :=
  '(res, svec) ← b_recv num;
  if decide (res > 0) then
    dvec ← lift (origins saddr ((fun '(sa, d) => (sa, take (Z.to_nat UDP_BUF_SIZE) d)) <$> svec));
    res ← on_assoc (hev_socks5_udp_sendmmsg dvec);
    relay_result res
  else relay_result res.

(** ** The loop *)

(** What the environment does in a round: memory, the results of connect and of the binder,
    the receive on the control connection (its result, and whether errno is EAGAIN), and what
    is left of the sleep. *)
Record round := mk_round {
  rn_mem : list bytes; rn_saddr : list bytes; rn_connected : bool; rn_binder : Z;
  rn_ctl : Z * bool; rn_sleep : Z }.

Definition task_io_yielder (ty : HevTaskYieldType) (r : round) : M relay Z :=
  t ← get (fun s => type (base (ra s)));
  let '(res, e) := rn_ctl r in
  if decide (t = HEV_SOCKS5_TYPE_UDP_IN_UDP ∧ (res = 0 \/ (res < 0 ∧ e = false))) then
    on_assoc (mput (fun a => Some (set_base (hev_socks5_set_timeout 0 (base a)) a)));;
    mret (-1)
  else
    t ← get (fun s => timeout (base (ra s)));
    mret (hev_socks5_task_io_yielder ty t (rn_sleep r)).

(** The loop, over the rounds; [None] when they end before it does. *)
Fixpoint splice_loop (num : nat) (rs : list round) (res_f res_b : Z) : M relay (option Z) :=
  match rs with
  | [] => mret None
  | r :: rs =>
      res_f ← (if decide (res_f >= 0) then hev_socks5_udp_fwd_f (rn_mem r) (rn_connected r) (rn_binder r) else mret res_f);
      res_b ← (if decide (res_b >= 0) then hev_socks5_udp_fwd_b num (rn_saddr r) else mret res_b);
      match next_type res_f res_b with
      | None => mret (Some 0)
      | Some ty =>
          y ← task_io_yielder ty r;
          if decide (y ≠ 0) then mret (Some 0) else splice_loop num rs res_f res_b
      end
  end.

(** [alloc]: whether the buffers can be had. *)
Definition hev_socks5_udp_splicer (num : nat) (alloc : bool) (rs : list round) : M relay (option Z) :=
  if negb alloc then mret (Some (-1)) else
  mput (fun r => Some (set_bound 0 r));;
  splice_loop num rs 1 1.

End Forward.

End Socks5UDPServer.
