(* ===== verification/Socks5UDPServerProofs.v ===== *)
(** * The server's UDP relay: proofs *)

From S2P Require Import Prelude Socks5Addr Socks5Io Socks5UDP Socks5UDPProofs Socks5UDPServer.

Module Socks5UDPServerProofs.
Import Socks5Addr Socks5Io Socks5UDP Socks5UDPProofs Socks5UDPServer.

Section Relay.
Context `{ResolverOk}.

(** ** From the client to the network *)

(** What a datagram of the client becomes. *)
Definition route (family : HevSocks5AddrFamily) (d : dgram) : option (sockaddr_in6 * bytes) :=
  '(sa, _) ← destination family (fst d); Some (sa, snd d).

Lemma destinations_ok family msgs rest ds os : Forall2 msg_is msgs ds -> Forall dgram_ok ds ->
  Forall (fun d => snd d ≠ []) ds -> Forall2 (fun d o => route family d = Some o) ds os ->
  destinations family (length msgs) (msgs ++ rest) = Some (Some os).
Proof.
  intros H2. revert os. induction H2 as [|m d msgs ds ([r1 Ha] & [r2 Hb] & Hl) H2 IH]; intros os Hok Hne Hos.
  { inversion Hos. by destruct rest. }
  apply Forall_cons in Hok as [[Hda Hdb] Hok], Hne as [Hd Hne]. inversion Hos as [|? o ? os' Ho Hos' E1 E2]; subst.
  cbn [app length destinations]. rewrite decide_False.
  2: { rewrite Ha, Hl. unfold datlen. destruct (snd d); [done|]. simpl. intros [?|?]; [lia | done]. }
  rewrite Ha. cbn [mbind option_bind]. unfold route in Ho.
  pose proof (addr_into_destination (encode (fst d) ++ r1) (fst d) (mk_sockaddr 0 0 (replicate 16 0)) family Hda
    ltac:(by exists r1) eq_refl) as Hdst.
  destruct (destination family (fst d)) as [[sa f]|]; [|done]. injection Ho as <-. rewrite Hdst. cbn [mbind option_bind].
  rewrite decide_False by lia. rewrite Hb, Hl. unfold datlen. rewrite rd_0 by (rewrite length_app; lia). cbn [mbind option_bind].
  rewrite (IH os') by done. cbn. by rewrite Nat2Z.id, take_app_length.
Qed.

(** An empty datagram ends it. *)
Lemma destinations_empty family msgs rest d m : forall ds, Forall2 msg_is msgs ds -> Forall dgram_ok ds ->
  msg_is m d -> snd d = [] ->
  destinations family (length (msgs ++ [m])) ((msgs ++ [m]) ++ rest) = Some None.
Proof.
  induction msgs as [|m' msgs IH]; intros ds H2 Hok Hm Hd; inversion H2 as [|? d' ? ds' Hm' H2' E1 E2]; subst; cbn [app length destinations].
  - destruct Hm as (_ & _ & Hl). rewrite decide_True; [done|]. left. rewrite Hl. unfold datlen. by rewrite Hd.
  - case_decide as Hz; [done|]. apply Forall_cons in Hok as [[Hda _] Hok]. destruct Hm' as ([r1 Ha] & [r2 Hb] & Hl).
    rewrite Ha. cbn [mbind option_bind].
    pose proof (addr_into_destination (encode (fst d') ++ r1) (fst d') (mk_sockaddr 0 0 (replicate 16 0)) family Hda
      ltac:(by exists r1) eq_refl) as Hdst.
    destruct (destination family (fst d')) as [[sa f]|]; [|destruct Hdst as (sa & f & ->); done].
    rewrite Hdst. cbn [mbind option_bind]. case_decide; [done|].
    rewrite Hb, Hl. unfold datlen. rewrite rd_0 by (rewrite length_app; lia). cbn [mbind option_bind].
    by rewrite (IH ds').
Qed.

(** What a call of either direction keeps. *)
Definition kept (r r' : relay) : Prop := base (ra r') = base (ra r).

Lemma b_send_all_ok r (os : list (sockaddr_in6 * bytes)) : os ≠ [] -> coming (b_answers r) -> (length os <= budget (b_answers r))%nat ->
  exists l e, b_send_all os r = Some (Z.of_nat (length os), mk_relay (set_again e (ra r)) l (b_in r) (b_out r ++ os) (bound r))
    ∧ l `suffix_of` b_answers r ∧ (budget (b_answers r) <= budget l + length os)%nat.
Proof.
  intros Hne Hc Hb. assert (0 < length os)%nat by (destruct os; simpl; [done | lia]).
  destruct (recv_all_ok (b_answers r) (length os) os [] Hc) as (l & Hl & Hs & Hbl); [done..|].
  exists l. eexists. split; [|done]. unfold b_send_all, send_all. rewrite Hl. cbn [app]. by rewrite firstn_all.
Qed.

(** The part after the receive, which got all of [ds]. *)
Lemma forward_ok msgs rest ds os binder r : Forall2 msg_is msgs ds -> ds ≠ [] -> Forall dgram_ok ds ->
  Forall (fun d => snd d ≠ []) ds ->
  Forall2 (fun d o => route (addr_family (base (ra r))) d = Some o) ds os ->
  (bound r ≠ 0 \/ 0 <= binder) -> coming (b_answers r) -> (length os <= budget (b_answers r))%nat ->
  exists l e bd,
    (family ← get (fun r => hev_socks5_get_addr_family (base (ra r)));
     ds ← lift (destinations family (Z.to_nat (Z.of_nat (length msgs))) (msgs ++ rest));
     match ds with
     | None => mret (-1)
     | Some ds =>
         b ← get bound;
         ok ← (if decide (b = 0) then
                 if decide (binder < 0) then mret false else
                 mput (fun r => Some (set_bound 1 r));; mret true
               else mret true);
         if negb ok then mret (-1) else
         res ← b_send_all ds;
         relay_result res
     end) r
    = Some (1, mk_relay (set_again e (ra r)) l (b_in r) (b_out r ++ os) bd)
    ∧ bd ≠ 0 ∧ l `suffix_of` b_answers r ∧ (budget (b_answers r) <= budget l + length os)%nat.
Proof.
  intros H2 Hne Hok Hdat Hos Hb Hc Hbud. unfold get, lift. unfold mbind at 1, M_bind at 1, mget at 1.
  unfold mbind at 1, M_bind at 1, mget at 1. unfold hev_socks5_get_addr_family. rewrite Nat2Z.id.
  rewrite (destinations_ok _ msgs rest ds os) by done. unfold mbind at 1, M_bind at 1, mget at 1.
  assert (os ≠ []) as Hone by (intros ->; apply Forall2_length in Hos; by destruct ds).
  assert (0 < length os)%nat as Hpos by (destruct os; simpl; [done | lia]).
  destruct (decide (bound r = 0)) as [Hnil|Hnil].
  - rewrite decide_False by (destruct Hb; lia). unfold mbind at 1, M_bind at 1. unfold mbind at 1, M_bind at 1, mput, mret, M_ret.
    cbn [negb]. destruct (b_send_all_ok (set_bound 1 r) os Hone Hc Hbud) as (l & e & He & Hs & Hbl).
    rewrite (bind_some _ _ _ _ _ He). unfold relay_result. rewrite decide_False by lia.
    exists l, e, 1. by split_and!.
  - unfold mbind at 1, M_bind at 1, mret at 1, M_ret at 1. cbn [negb].
    destruct (b_send_all_ok r os Hone Hc Hbud) as (l & e & He & Hs & Hbl).
    rewrite (bind_some _ _ _ _ _ He). unfold relay_result. rewrite decide_False by lia.
    exists l, e, (bound r). by split_and!.
Qed.

Lemma buffers_ok mem : Forall (fun b => length b = 1500%nat) mem ->
  Forall (empty_msg UDP_BUF_SIZE) ((fun b => mk_msg None b UDP_BUF_SIZE) <$> mem).
Proof. intros Hm. apply Forall_fmap. eapply Forall_impl; [exact Hm|]. intros b Hb. split; [done|]. cbn. by rewrite Hb. Qed.

Lemma fwd_f_tcp_ok mem connected binder r ds os :
  Forall (fun b => length b = 1500%nat) mem -> type (base (ra r)) = HEV_SOCKS5_TYPE_UDP_IN_TCP ->
  inp (ra r) = concat (tcp_frame <$> ds) -> Forall (framable UDP_BUF_SIZE) ds -> Forall (fun d => snd d ≠ []) ds ->
  Forall2 (fun d o => route (addr_family (base (ra r))) d = Some o) ds os ->
  (bound r ≠ 0 \/ 0 <= binder) ->
  coming (answers (ra r)) -> (length (inp (ra r)) <= budget (answers (ra r)))%nat ->
  coming (b_answers r) -> (length os <= budget (b_answers r))%nat ->
  exists res r' n, hev_socks5_udp_fwd_f mem connected binder r = Some (res, r')
    ∧ b_out r' = b_out r ++ take n os ∧ inp (ra r') = concat (tcp_frame <$> drop n ds)
    ∧ (res = 1 ∧ (0 < n)%nat ∧ bound r' ≠ 0 \/ (res = 0 \/ res = -1) ∧ n = 0%nat)
    ∧ (n = 0%nat -> mem = [] \/ ds = [] \/ head (answers (ra r)) = None \/ head (answers (ra r)) = Some Again)
    ∧ b_in r' = b_in r ∧ out (ra r') = out (ra r) ∧ base (ra r') = base (ra r).
Proof.
  intros Hmem Ht Hi Hd Hdat Hos Hbd Hc Hb Hcb Hbb. unfold hev_socks5_udp_fwd_f, on_assoc.
  unfold hev_socks5_udp_recvmmsg, Socks5UDP.get. unfold mbind at 1, M_bind at 1. unfold mbind at 1, M_bind at 1, mget at 1. rewrite Ht.
  pose proof (recv_tcp_loop_ok UDP_BUF_SIZE _ ds 0 (ra r) ltac:(by vm_compute) ltac:(lia) (buffers_ok mem Hmem) Hd Hi Hc Hb) as Hw.
  destruct (wp_elim _ _ _ Hw) as ([res o] & a' & Heq & msgs & n & l & e & -> & -> & H2 & Hn1 & Hn2 & Hr & Hz & _).
  unfold hev_socks5_udp_recvmmsg_tcp. rewrite Heq.
  assert (length msgs = n) as Hlm by (rewrite (Forall2_length _ _ _ H2), length_take; lia).
  destruct (decide (n = 0%nat)) as [->|Hn0].
  - assert (res <= 0) by (destruct Hr; lia). rewrite decide_False by lia. unfold relay_result. rewrite decide_True by done.
    unfold get, mbind, M_bind, mget, mret, M_ret. eexists _, _, 0%nat. split; [done|]. rewrite app_nil_r. cbn.
    split_and!; try done.
    + right. split; [case_decide; tauto | done].
    + intros Hnil. destruct (Hz Hnil) as [Hm|?]; [left; by destruct mem | by right].
  - assert (res = Z.of_nat (length msgs)) as -> by (destruct Hr; lia). rewrite decide_True by lia.
    pose proof (Forall2_length _ _ _ Hos) as Hlos.
    destruct (forward_ok msgs (drop n ((fun b => mk_msg None b UDP_BUF_SIZE) <$> mem)) (take n ds) (take n os) binder
      (set_ra (set_inp l (concat (tcp_frame <$> drop n ds)) e (ra r)) r)) as (l' & e' & bd & Hf & Hbd' & _); try done.
    { intros Hnil. apply (f_equal length) in Hnil. rewrite length_take in Hnil. simpl in Hnil. lia. }
    { apply Forall_take. eapply Forall_impl; [exact Hd|]. by intros d [? _]. }
    { by apply Forall_take. }
    { by apply Forall2_take. }
    { rewrite length_take. cbn. lia. }
    rewrite Hf. eexists _, _, n. split; [done|]. cbn. split_and!; try done. left. split_and!; [done | lia | done].
Qed.

Lemma fwd_f_empty mem connected binder r d k l :
  Forall (fun b => length b = 1500%nat) mem -> mem ≠ [] -> type (base (ra r)) = HEV_SOCKS5_TYPE_UDP_IN_TCP ->
  inp (ra r) = tcp_frame d -> framable UDP_BUF_SIZE d -> snd d = [] ->
  answers (ra r) = Data k :: l -> coming (answers (ra r)) -> (length (inp (ra r)) <= budget (answers (ra r)))%nat ->
  exists r', hev_socks5_udp_fwd_f mem connected binder r = Some (-1, r') ∧ b_out r' = b_out r ∧ inp (ra r') = [].
Proof.
  intros Hmem Hmne Ht Hi Hd Hdat Ha Hc Hb. unfold hev_socks5_udp_fwd_f, on_assoc.
  unfold hev_socks5_udp_recvmmsg, Socks5UDP.get. unfold mbind at 1, M_bind at 1. unfold mbind at 1, M_bind at 1, mget at 1. rewrite Ht.
  assert (inp (ra r) = concat (tcp_frame <$> [d])) as Hi' by (rewrite Hi; cbn [concat fmap list_fmap]; by rewrite app_nil_r).
  pose proof (recv_tcp_loop_ok UDP_BUF_SIZE _ [d] 0 (ra r) ltac:(by vm_compute) ltac:(lia) (buffers_ok mem Hmem)
    ltac:(by constructor) Hi' Hc Hb) as Hw.
  destruct (wp_elim _ _ _ Hw) as ([res o] & a' & Heq & msgs & n & l' & e & -> & -> & H2 & Hn1 & Hn2 & Hr & Hz & _).
  unfold hev_socks5_udp_recvmmsg_tcp. rewrite Heq.
  destruct n as [|[|n]]; [|  | simpl in Hn2; lia].
  { destruct (Hz eq_refl) as [Hm|[?|[Hm|Hm]]]; [by destruct mem | done | by rewrite Ha in Hm | by rewrite Ha in Hm]. }
  inversion H2 as [|m ? ms ? Hm Hms E1 E2]; subst. inversion Hms; subst.
  assert (res = Z.of_nat (length ([] ++ [m]))) as -> by (destruct Hr as [->|]; simpl; lia).
  rewrite decide_True by (simpl; lia). rewrite Nat2Z.id. unfold get, lift. unfold mbind at 1, M_bind at 1, mget at 1.
  unfold mbind at 1, M_bind at 1, mget at 1.
  rewrite (destinations_empty _ [] _ d m []); [|constructor|constructor|done|done]. eexists. split; [reflexivity|]. done.
Qed.

(** ** From the network to the client *)

(** What the client gets of a datagram that comes in. *)
Definition reply : sockaddr_in6 * bytes -> dgram := fun '(sa, d) => (sockaddr_address sa, take (Z.to_nat UDP_BUF_SIZE) d).
Definition arrived (p : sockaddr_in6 * bytes) : Prop := sockaddr_ok (fst p) ∧ bytes_ok (snd p).

Lemma reply_framable p : arrived p -> framable 65535 (reply p).
Proof.
  destruct p as [sa d]. intros [Hs Hd]. pose proof (sockaddr_address_ok sa Hs) as Ha. cbn [fst snd] in *.
  unfold reply. split_and!.
  - split; [exact Ha | by apply bytes_ok_take].
  - unfold addrlen. cbn [fst]. rewrite (encode_length _ Ha). unfold sockaddr_address. destruct (IN6_IS_ADDR_V4MAPPED _); lia.
  - unfold addrlen, datlen. cbn [fst snd]. rewrite (encode_length _ Ha), length_take. unfold UDP_BUF_SIZE, sockaddr_address.
    destruct (IN6_IS_ADDR_V4MAPPED _); lia.
Qed.

Lemma origins_ok svec : forall saddr, Forall arrived svec -> Forall (fun b => (19 <= length b)%nat) saddr ->
  (length svec <= length saddr)%nat ->
  exists msgs, origins saddr ((fun '(sa, d) => (sa, take (Z.to_nat UDP_BUF_SIZE) d)) <$> svec) = Some msgs
    ∧ Forall2 msg_is msgs (reply <$> svec).
Proof.
  induction svec as [|[sa d] svec IH]; intros saddr Hok Hsz Hl; [exists []; split; [by destruct saddr | constructor]|].
  destruct saddr as [|a saddr]; [simpl in Hl; lia|]. apply Forall_cons in Hok as [[Hsa Hd] Hok], Hsz as [Ha Hsz].
  destruct (from_sockaddr6_starts a sa Ha Hsa) as (a' & Hf & _ & [rest Hst]).
  destruct (IH saddr Hok Hsz ltac:(simpl in Hl; lia)) as (msgs & Hm & H2).
  cbn [fmap list_fmap origins]. rewrite Hf. cbn [mbind option_bind]. change (list_fmap _ _ _ svec) with ((fun '(sa, d) => (sa, take (Z.to_nat UDP_BUF_SIZE) d)) <$> svec).
  rewrite Hm. cbn [mbind option_bind]. eexists. split; [reflexivity|]. constructor; [|done].
  split_and!; cbn [m_addr m_buf m_len reply fst snd]; [exists rest; by rewrite Hst | exists []; by rewrite app_nil_r | done].
Qed.

Lemma fwd_b_tcp_ok num saddr r k l :
  type (base (ra r)) = HEV_SOCKS5_TYPE_UDP_IN_TCP -> b_answers r = Data k :: l ->
  let n := Nat.min (Nat.min k num) (length (b_in r)) in
  (0 < n)%nat -> (n <= length saddr)%nat -> Forall (fun b => (19 <= length b)%nat) saddr -> Forall arrived (b_in r) ->
  let ds := reply <$> take n (b_in r) in
  coming (answers (ra r)) -> (length (concat (tcp_frame <$> ds)) <= budget (answers (ra r)))%nat ->
  exists r', hev_socks5_udp_fwd_b num saddr r = Some (1, r')
    ∧ out (ra r') = out (ra r) ++ concat (tcp_frame <$> ds) ∧ b_in r' = drop n (b_in r) ∧ b_out r' = b_out r
    ∧ base (ra r') = base (ra r).
Proof.
  intros Ht Ha n Hn Hsl Hsz Hok ds Hc Hb. unfold hev_socks5_udp_fwd_b, b_recv. unfold mbind at 1, M_bind at 1. rewrite Ha. cbn [recv_some].
  assert (take (Nat.min k num) (b_in r) = take n (b_in r)) as ->.
  { unfold n. destruct (decide (Nat.min k num <= length (b_in r))%nat); [by rewrite (Nat.min_l (Nat.min k num))|].
    by rewrite (Nat.min_r (Nat.min k num)), !take_ge by lia. }
  assert (length (take n (b_in r)) = n) as Hlen by (rewrite length_take; unfold n; lia). rewrite Hlen.
  rewrite decide_True by lia.
  destruct (origins_ok (take n (b_in r)) saddr) as (msgs & Hm & H2); [by apply Forall_take | done | lia |].
  unfold lift. unfold mbind at 1, M_bind at 1, mget at 1. rewrite Hm.
  fold ds in H2. unfold on_assoc. unfold mbind at 1, M_bind at 1. cbn [ra].
  set (a := set_again _ _).
  destruct (sendmmsg_tcp_ok 65535 msgs ds a) as (l' & e & Hs & _); try done.
  { unfold ds. intros Hnil. apply (f_equal length) in Hnil. rewrite length_fmap, Hlen in Hnil. simpl in Hnil. lia. }
  { unfold ds. apply Forall_fmap, Forall_take. eapply Forall_impl; [exact Hok|]. intros p Hp. by apply reply_framable. }
  rewrite Hs. unfold relay_result, ds. rewrite length_fmap, Hlen, decide_False by lia.
  eexists. split; [reflexivity|]. done.
Qed.

End Relay.

(** ** Properties *)


(** A datagram without data, which UDP allows, ends the direction from the client to the
    network for good. *)
Theorem hev_socks5_udp_fwd_f_empty `{ResolverOk} mem connected binder r d k l :
  Forall (fun b => length b = 1500%nat) mem -> mem ≠ [] -> type (base (ra r)) = HEV_SOCKS5_TYPE_UDP_IN_TCP ->
  inp (ra r) = tcp_frame d -> framable UDP_BUF_SIZE d -> snd d = [] ->
  answers (ra r) = Data k :: l -> coming (answers (ra r)) -> (length (inp (ra r)) <= budget (answers (ra r)))%nat ->
  exists r', hev_socks5_udp_fwd_f mem connected binder r = Some (-1, r') ∧ b_out r' = b_out r.
Proof. intros. destruct (fwd_f_empty mem connected binder r d k l) as (r' & ? & ? & _); try done. by exists r'. Qed.

(** The server passes on datagrams of up to 1500 bytes, but a client whose buffers have
    1500 bytes needs a part of them for the address: a longer reply is an error that leaves
    its rest on the stream. *)
Theorem hev_socks5_udp_reply_too_long size m bufs connected rx d rest k l :
  empty_msg size m -> size < 2 ^ 16 -> addrlen d <= size -> address_ok (fst d) -> 3 + addrlen d <= 255 ->
  datlen d < 2 ^ 16 -> size < addrlen d + datlen d ->
  type (base rx) = HEV_SOCKS5_TYPE_UDP_IN_TCP -> inp rx = tcp_frame d ++ rest -> answers rx = Data k :: l -> (5 <= k)%nat ->
  exists rx', hev_socks5_udp_recvmmsg true connected (m :: bufs) rx = Some ((-1, m :: bufs), rx')
    ∧ inp rx' = drop 5 (tcp_frame d) ++ rest.
Proof.
  intros [Hml _] Hsize Hal Ha H255 Hdl Hlong Ht Hi Hans Hk. pose proof (tcp_frame_length d) as Hfl.
  pose proof (addrlen_bounds d Ha) as Hab. assert (0 <= datlen d) as Hd0 by (unfold datlen; lia).
  unfold hev_socks5_udp_recvmmsg, Socks5UDP.get. unfold mbind at 1, M_bind at 1, mget at 1. rewrite Ht.
  unfold hev_socks5_udp_recvmmsg_tcp. cbn [recv_tcp_loop].
  rewrite (bind_some _ _ _ _ _ (recv_header_once true rx (take 5 (tcp_frame d)) (drop 5 (tcp_frame d) ++ rest) k l
    ltac:(by rewrite app_assoc, take_drop) ltac:(rewrite length_take; lia) Hans Hk)).
  rewrite decide_False by lia. destruct (encode_head _ Ha) as (t & b & r & He & _).
  unfold tcp_frame. rewrite He. cbn [app take drop be16]. change (take 0 (r ++ snd d)) with (@nil Z).
  unfold recv_one, Socks5UDP.lift, mbind, M_bind, mget, mret, M_ret.
  set (b0 := (datlen d / _) mod _). set (b1 := datlen d mod _).
  change (rd [b0; b1; 3 + addrlen d; t; b] 0 2) with (Some (be16 (datlen d))).
  change (rd8 [b0; b1; 3 + addrlen d; t; b] 2) with (Some (3 + addrlen d)).
  change (rd8 [b0; b1; 3 + addrlen d; t; b] 3) with (Some t).
  change (rd8 [b0; b1; 3 + addrlen d; t; b] 4) with (Some b). cbv beta iota.
  rewrite decide_False by lia. rewrite (ntohs_of_be16 (datlen d)) by (unfold is_u16; lia).
  rewrite decide_True by (unfold u64; rewrite Hml, Z.mod_small by lia; lia).
  eexists. split; [reflexivity|]. done.
Qed.


(** ** Instances *)

Definition example_server (i : bytes) : relay :=
  mk_relay (example_assoc HEV_SOCKS5_TYPE_UDP_IN_TCP (replicate 40 (Data 20)) i [])
    (replicate 9 (Data 20)) [(mk_sockaddr AF_INET6 (htons 53) (v4mapped_prefix ++ [8; 8; 8; 8]), [7; 8])] [] 0.
Definition example_sent : list (sockaddr_in6 * bytes) :=
  [(mk_sockaddr AF_INET6 (htons 53) (v4mapped_prefix ++ [8; 8; 8; 8]), [1; 2; 3])].

Lemma example_coming n : coming (replicate n (Data 20)).
Proof. apply Forall_replicate. lia. Qed.

Lemma example_framable_1500 : framable UDP_BUF_SIZE example_dgram.
Proof. split; [exact example_dgram_ok | vm_compute; split; discriminate]. Qed.


Lemma example_arrived : arrived (mk_sockaddr AF_INET6 (htons 53) (v4mapped_prefix ++ [8; 8; 8; 8]), [7; 8]).
Proof. split; [split_and!; [by repeat constructor | reflexivity | vm_compute; split; [discriminate | reflexivity]] | by repeat constructor]. Qed.


End Socks5UDPServerProofs.
