(* ===== verification/SessionUDP.v ===== *)
(** * The UDP session: src/hev-socks5-session-udp.c

    The datagrams an application sends wait in a list of frames until the session's task
    sends them to the proxy; those the proxy sends go to the stack.  The list is that of
    HevList; its pointers are those of the verified list. *)

From S2P Require Import Prelude Socks5Addr Socks5Io Socks5UDP.

Module SessionUDP.
Import Socks5Addr Socks5Io Socks5UDP.

(** ** State *)

(** A chain of packet buffers of the stack, by their payloads. *)
Definition pbuf : Type := list bytes.

Record HevSocks5UDPFrame := mk_frame { frame_addr : HevSocks5Addr; frame_data : pbuf }.

(** The object.  [addr]: the four bytes of the [int].  [delivered] and [freed] record what
    goes to the stack and which chains are freed; [updates] how often the session was
    moved in the session set. *)
Record HevSocks5SessionUDP := mk_session {
  assoc_of : assoc; frame_list : list HevSocks5UDPFrame; frames : Z; addr : bytes; port : Z; pcb : bool;
  delivered : list (bytes * ip_addr * Z); freed : list pbuf; updates : Z }.

Definition set_assoc v s := mk_session v (frame_list s) (frames s) (addr s) (port s) (pcb s) (delivered s) (freed s) (updates s).
Definition set_frames l n s := mk_session (assoc_of s) l n (addr s) (port s) (pcb s) (delivered s) (freed s) (updates s).
Definition set_origin a p s := mk_session (assoc_of s) (frame_list s) (frames s) a p (pcb s) (delivered s) (freed s) (updates s).
Definition set_pcb v s := mk_session (assoc_of s) (frame_list s) (frames s) (addr s) (port s) v (delivered s) (freed s) (updates s).
Definition add_delivered d s := mk_session (assoc_of s) (frame_list s) (frames s) (addr s) (port s) (pcb s) (delivered s ++ [d]) (freed s) (updates s).
Definition add_freed p s := mk_session (assoc_of s) (frame_list s) (frames s) (addr s) (port s) (pcb s) (delivered s) (freed s ++ [p]) (updates s).
Definition add_update s := mk_session (assoc_of s) (frame_list s) (frames s) (addr s) (port s) (pcb s) (delivered s) (freed s) (updates s + 1).

Abbreviation session := HevSocks5SessionUDP.
Definition get {A} (f : session -> A) : M session A := mget (fun s => Some (f s)).
Definition lift {A} (o : option A) : M session A := mget (fun _ => o).
Definition upd (f : session -> session) : M session unit := mput (fun s => Some (f s)).

(** A call on the association of the base class. *)
Definition on_assoc {A} (m : M assoc A) : M session A := fun s =>
  match m (assoc_of s) with Some (a, v) => Some (a, set_assoc v s) | None => None end.

Definition UDP_BUF_SIZE : Z := 1500.
Definition UDP_POOL_SIZE : Z := 512.

(** ** From the application to the proxy *)

(** The message of a frame: its first buffer. *)
Definition frame_msg (f : HevSocks5UDPFrame) : option HevSocks5UDPMsg :=
  buf ← head (frame_data f);
  Some (mk_msg (Some (frame_addr f)) buf (Z.of_nat (length buf))).

(** [for (i = 0; i < res; i++)] over the nodes: a list shorter than [res] is an access
    through NULL. *)
Fixpoint frame_msgs (n : nat) (l : list HevSocks5UDPFrame) : option (list HevSocks5UDPMsg) :=
  match n, l with
  | O, _ => Some []
  | S n, f :: l => m ← frame_msg f; ms ← frame_msgs n l; Some (m :: ms)
  | S _, [] => None
  end.

(** The frames that were sent are removed and freed. *)
Fixpoint drop_frames (n : nat) : M session unit :=
  match n with
  | O => mret tt
  | S n =>
      l ← get frame_list;
      match l with
      | [] => mfail
      | f :: l =>
          c ← get frames;
          upd (set_frames l (c - 1));; upd (add_freed (frame_data f));;
          drop_frames n
      end
  end.

Definition hev_socks5_session_udp_fwd_f (num : Z) : M session Z :=
  res ← get frames;
  if decide (res <= 0) then mret 0 else
  let res := if decide (res > num) then num else res in
  l ← get frame_list;
  msgv ← lift (frame_msgs (Z.to_nat res) l);
  res ← on_assoc (hev_socks5_udp_sendmmsg msgv);
  if decide (res <= 0) then mret (-1) else
  drop_frames (Z.to_nat res);;
  mret 1.

(** ** From the proxy to the application *)

(** For one message: whether a packet buffer can be had, and what the stack answers. *)
Record stack_result := mk_stack { rs_alloc : bool; rs_err : Z }.
Definition ERR_OK : Z := 0.

(** The source of the datagram: the mapped address the application uses, or the one of
    the message.  [saddr] is not initialised; its type is only set from a message. *)
Definition origin (self : session) (m : HevSocks5UDPMsg) (saddr : ip_addr) : option (option (ip_addr * Z)) :=
  if decide (addr self ≠ [0; 0; 0; 0] ∧ port self ≠ 0) then
    b ← wr (ip_bytes saddr) 0 (addr self);
    Some (Some (mk_ip (ip_type saddr) b, port self))
  else
    a ← m_addr m;
    '(ret, ip, p) ← hev_socks5_addr_into_lwip a saddr 0;
    Some (if decide (ret < 0) then None else Some (ip, p)).

(** [for (i = 0; i < res; i++)]: the messages left; [None] when one is not there. *)
Fixpoint deliver (n : nat) (msgv : list HevSocks5UDPMsg) (saddr : ip_addr) (rs : list stack_result) : M session Z :=
  match n, msgv with
  | O, _ => mret 1
  | S n, m :: msgv =>
      self ← get (fun s => s);
      o ← lift (origin self m saddr);
      match o with
      | None => mret (-1)
      | Some (ip, p) =>
          let r := default (mk_stack true ERR_OK) (head rs) in
          if negb (rs_alloc r) then mret (-1) else
          d ← lift (rd (m_buf m) 0 (u16 (m_len m)));
          upd (add_delivered (d, ip, p));;
          if decide (rs_err r ≠ ERR_OK) then mret (-1) else
          deliver n msgv ip (tail rs)
      end
  | S _, [] => mfail
  end.

(** [mem]: what the buffer on the stack holds, one block for each message. *)
Definition empty_msgs (mem : list bytes) : list HevSocks5UDPMsg :=
  (fun b => mk_msg None b UDP_BUF_SIZE) <$> mem.

Definition hev_socks5_session_udp_fwd_b (mem : list bytes) (connected : bool) (saddr : ip_addr)
    (rs : list stack_result) : M session Z :=
  '(res, msgv) ← on_assoc (hev_socks5_udp_recvmmsg true connected (empty_msgs mem));
  if decide (res <= 0) then
    e ← get (fun s => again (assoc_of s));
    mret (if decide (res = -1 ∧ e = true) then 0 else -1)
  else deliver (Z.to_nat res) msgv saddr rs.

(** ** The handler the stack calls *)

Section Handler.
(** The lookup of the mapped DNS, when there is one. *)
Context (dns : option (Z -> option bytes)).
Definition lookup_dns : option (Z -> M session (option bytes)) :=
  match dns with Some f => Some (fun ip => mret (f ip)) | None => None end.

(** [mem]: the memory of the new frame's address, when there is memory. *)
Definition udp_recv_handler (p : option pbuf) (local_ip : ip_addr) (local_port : Z) (mem : option bytes)
    : M session unit :=
  match p with
  | None => on_assoc (mput (fun a => Some (set_base (hev_socks5_set_timeout 0 (base a)) a)))
  | Some p =>
      n ← get frames;
      if decide (n > UDP_POOL_SIZE) then upd (add_freed p) else
      match mem with
      | None => upd (add_freed p)
      | Some mem =>
          '(_, a) ← hev_socks5_addr_from_lwip lookup_dns mem local_ip local_port;
          t ← lift (atype a);
          (if decide (t = HEV_SOCKS5_ADDR_TYPE_NAME) then
             b ← lift (rd (ip_bytes local_ip) 0 4);
             upd (set_origin b local_port)
           else mret tt);;
          n ← get frames; l ← get frame_list;
          upd (set_frames (l ++ [mk_frame a p]) (n + 1))
      end
  end.

(** ** The loop *)

Inductive event := EvRecv (p : option pbuf) (local_ip : ip_addr) (local_port : Z) (mem : option bytes).

Definition handle_event (e : event) : M session unit :=
  let '(EvRecv p ip prt mem) := e in udp_recv_handler p ip prt mem.
Fixpoint handle_events (es : list event) : M session unit :=
  match es with [] => mret tt | e :: es => handle_event e;; handle_events es end.

(** What the environment does in a round: the memory of the stack frame, the answers of
    the stack, the receive on the control connection (its result, and whether errno is
    EAGAIN), the events while the task sleeps, and what is left of the sleep. *)
Record round := mk_round {
  rn_mem : list bytes; rn_connected : bool; rn_saddr : ip_addr; rn_stack : list stack_result;
  rn_ctl : Z * bool; rn_events : list event; rn_sleep : Z }.

(** What the stack does while the task sleeps comes first. *)
Definition yield (type : HevTaskYieldType) (r : round) : M session Z :=
  t ← get (fun s => timeout (base (assoc_of s)));
  handle_events (rn_events r);;
  mret (hev_socks5_task_io_yielder type t (rn_sleep r)).

Definition task_io_yielder (ty : HevTaskYieldType) (r : round) : M session Z :=
  t ← get (fun s => type (base (assoc_of s)));
  let '(res, e) := rn_ctl r in
  if decide (t = HEV_SOCKS5_TYPE_UDP_IN_UDP ∧ (res = 0 \/ (res < 0 ∧ e = false))) then
    on_assoc (mput (fun a => Some (set_base (hev_socks5_set_timeout 0 (base a)) a)));;
    mret (-1)
  else
    res ← yield ty r;
    upd add_update;;
    mret res.

Inductive outcome := Finished | Aborted.

(** The loop, over the rounds; [None] when they end before it does. *)
Fixpoint splice_loop (num : Z) (rs : list round) (res_f res_b : Z) : M session (option outcome) :=
  match rs with
  | [] => mret None
  | r :: rs =>
      res_f ← (if decide (res_f >= 0) then hev_socks5_session_udp_fwd_f num else mret res_f);
      res_b ← (if decide (res_b >= 0) then
                 hev_socks5_session_udp_fwd_b (rn_mem r) (rn_connected r) (rn_saddr r) (rn_stack r)
               else mret res_b);
      match next_type res_f res_b with
      | None => mret (Some Finished)
      | Some ty =>
          y ← task_io_yielder ty r;
          if decide (y ≠ 0) then mret (Some Aborted) else splice_loop num rs res_f res_b
      end
  end.

Definition hev_socks5_session_udp_splice (num : Z) (rs : list round) : M session (option outcome) :=
  splice_loop num rs 1 1.
End Handler.

(** ** Construction, destruction and addresses *)

Definition hev_socks5_session_udp_construct (udp_in_udp : Z) (io : assoc) : session :=
  let t := if decide (udp_in_udp ≠ 0) then HEV_SOCKS5_TYPE_UDP_IN_UDP else HEV_SOCKS5_TYPE_UDP_IN_TCP in
  mk_session (set_base (hev_socks5_construct t) io) [] 0 [0; 0; 0; 0] 0 true [] [] 0.

(** The frames that wait are freed, and the connection of the stack is removed; the base
    class's destructor follows. *)
Definition hev_socks5_session_udp_destruct : M session unit :=
  l ← get frame_list;
  upd (fun s => mk_session (assoc_of s) [] (frames s) (addr s) (port s) (pcb s) (delivered s)
                  (freed s ++ (frame_data <$> l)) (updates s));;
  upd (set_pcb false).

Definition hev_socks5_addr_get_port (a : HevSocks5Addr) : option Z :=
  t ← atype a;
  if decide (t = HEV_SOCKS5_ADDR_TYPE_IPV4) then p ← rd a 5 2; Some (of_le16 p)
  else if decide (t = HEV_SOCKS5_ADDR_TYPE_IPV6) then p ← rd a 17 2; Some (of_le16 p)
  else if decide (t = HEV_SOCKS5_ADDR_TYPE_NAME) then
    l ← domain_len a; p ← rd a (2 + l) 2; Some (of_le16 p)
  else Some 0.

(** The address of the relay that the base class's method gets: the configured name
    replaces the one of the proxy's answer. *)
Definition hev_socks5_session_udp_set_upstream_addr (udp_in_udp : Z) (udp_addr : bytes) (a : HevSocks5Addr)
    : option HevSocks5Addr :=
  c ← rd8 udp_addr 0;
  if decide (udp_in_udp ≠ 0 ∧ c ≠ 0) then
    prt ← hev_socks5_addr_get_port a;
    name ← cstr_of udp_addr;
    '(_, a) ← hev_socks5_addr_from_name a name prt;
    Some a
  else Some a.

End SessionUDP.
