(* ===== verification/SessionUDPProofs.v ===== *)
(** * The UDP session: proofs *)

From S2P Require Import Prelude Socks5Addr Socks5Io Socks5UDP Socks5UDPProofs SessionUDP.

Module SessionUDPProofs.
Import Socks5Addr Socks5Io Socks5UDP Socks5UDPProofs SessionUDP.

(** ** Frames *)

(** The datagram of a frame. *)
Definition frame_is (f : HevSocks5UDPFrame) (d : dgram) : Prop :=
  dgram_ok d ∧ (exists rest, frame_addr f = encode (fst d) ++ rest) ∧ head (frame_data f) = Some (snd d).

(** The frames that wait, their number, and the datagrams they hold. *)
Record waiting (s : session) (ds : list dgram) : Prop := {
  wa_frames : Forall2 frame_is (frame_list s) ds;
  wa_count : frames s = Z.of_nat (length (frame_list s)) }.

Lemma waiting_length s ds : waiting s ds -> length (frame_list s) = length ds.
Proof. intros [H _]. by eapply Forall2_length. Qed.

Lemma frame_msgs_ok l ds n : Forall2 frame_is l ds -> (n <= length l)%nat ->
  exists ms, frame_msgs n l = Some ms ∧ Forall2 msg_is ms (take n ds).
Proof.
  intros H. revert n. induction H as [|f d l ds (_ & [rest Ha] & Hd) H IH]; intros n Hn.
  { destruct n; [by exists [] | simpl in Hn; lia]. }
  destruct n as [|n]; [by exists []|]. destruct (IH n) as (ms & Heq & H2); [simpl in Hn; lia|].
  cbn [frame_msgs]. unfold frame_msg. rewrite Hd. cbn [mbind option_bind]. rewrite Heq. cbn [mbind option_bind].
  eexists. split; [done|]. constructor; [|done]. split_and!; cbn [m_addr m_buf m_len].
  - exists rest. by rewrite Ha.
  - exists []. by rewrite app_nil_r.
  - done.
Qed.

(** What stays the same. *)
Definition same_rest (s s' : session) : Prop :=
  addr s' = addr s ∧ port s' = port s ∧ pcb s' = pcb s ∧ delivered s' = delivered s ∧ updates s' = updates s.

Lemma drop_frames_ok n : forall s ds, waiting s ds -> (n <= length (frame_list s))%nat ->
  wp (drop_frames n) s (fun _ s' => waiting s' (drop n ds) ∧ frame_list s' = drop n (frame_list s)
    ∧ freed s' = freed s ++ (frame_data <$> take n (frame_list s)) ∧ assoc_of s' = assoc_of s ∧ same_rest s s').
Proof.
  induction n as [|n IH]; intros s ds Hw Hn.
  { apply wp_ret. rewrite !drop_0. cbn. rewrite app_nil_r. by split_and!. }
  cbn [drop_frames]. apply wp_bind. eapply wp_get; [done|].
  destruct (frame_list s) as [|f l] eqn:Hl; [simpl in Hn; lia|].
  apply wp_bind. eapply wp_get; [done|]. apply wp_bind. eapply wp_put; [done|].
  apply wp_bind. eapply wp_put; [done|].
  destruct Hw as [H2 Hc]. rewrite Hl in H2, Hc. inversion H2 as [|? d ? ds' Hf H2']; subst.
  eapply wp_mono; [apply (IH _ ds'); [split; cbn; [done | rewrite Hc; simpl; lia] | cbn; simpl in Hn; lia]|].
  intros _ s' (Hw' & Hl' & Hfr & Ha & Hsame). cbn in *. split_and!; try done.
  rewrite Hfr. by rewrite <- app_assoc.
Qed.

(** Sending never crashes; its result is at most the number of messages. *)
Lemma sendmmsg_safe msgv ds a : Forall2 msg_is msgv ds -> Forall dgram_ok ds -> errors_ok (answers a) ->
  exists r a', hev_socks5_udp_sendmmsg msgv a = Some (r, a') ∧ r <= Z.of_nat (length msgv) ∧ errors_ok (answers a')
    ∧ base a' = base a ∧ inp a' = inp a.
Proof.
  intros H2 Hd He. unfold hev_socks5_udp_sendmmsg, Socks5UDP.get, mbind, M_bind, mget.
  destruct (type (base a)); try (exists (-1), a; split_and!; done || lia).
  - unfold hev_socks5_udp_sendmmsg_tcp, Socks5UDP.lift, mbind, M_bind, mget.
    rewrite (msgs_iov_ok _ (fun d => tcp_header (addrlen d) (datlen d) ++ encode (fst d) ++ snd d) _ _ ltac:(done) H2 Hd).
    set (v := concat _). unfold stream_send_all, send_all.
    destruct (recv_all_safe (answers a) (length v) v [] He) as (r & w & l & -> & _ & Hl & _).
    case_decide; (eexists _, _; split_and!; [done | lia | done | done | done]).
  - unfold hev_socks5_udp_sendmmsg_udp, Socks5UDP.lift, mbind, M_bind, mget.
    rewrite (msgs_iov_ok _ (fun d => udp_header (addrlen d) (datlen d) ++ encode (fst d) ++ snd d) _ _ ltac:(done) H2 Hd).
    set (v := fmap _ ds). unfold dgrams_send_all, send_all.
    destruct (recv_all_safe (answers a) (length v) v [] He) as (r & w & l & -> & Hw & Hl & Hr).
    eexists _, _. split_and!; [done | | done | done | done].
    assert (length v = length msgv) by (unfold v; rewrite length_fmap; symmetry; by eapply Forall2_length).
    simpl in Hw. destruct Hr as [->|[-> ?]]; lia.
Qed.

Lemma frames_dgrams_ok l ds : Forall2 frame_is l ds -> Forall dgram_ok ds.
Proof. induction 1 as [|f d l ds [Hok _] _ IH]; by constructor. Qed.

(** The forward direction, whatever the socket does: it sends some of the frames, which
    are removed and freed; the others stay. *)
Lemma fwd_f_safe num s ds : waiting s ds -> errors_ok (answers (assoc_of s)) ->
  exists r s' k, hev_socks5_session_udp_fwd_f num s = Some (r, s')
    ∧ waiting s' (drop k ds) ∧ (k <= length ds)%nat ∧ (r <= 0 -> k = 0%nat) ∧ -1 <= r <= 1
    ∧ frame_list s' = drop k (frame_list s) ∧ freed s' = freed s ++ (frame_data <$> take k (frame_list s))
    ∧ same_rest s s' ∧ errors_ok (answers (assoc_of s')) ∧ inp (assoc_of s') = inp (assoc_of s)
    ∧ base (assoc_of s') = base (assoc_of s).
Proof.
  intros Hw He. pose proof (waiting_length _ _ Hw) as Hlen. pose proof Hw as [H2 Hc].
  assert (forall v, waiting (set_assoc v s) ds) as Hwv by (intros v; by split).
  unfold hev_socks5_session_udp_fwd_f, get, lift, on_assoc. unfold mbind at 1. unfold M_bind at 1. unfold mget at 1.
  case_decide as Hn.
  { eexists _, _, 0%nat. rewrite !drop_0. cbn. rewrite app_nil_r. split_and!; done || lia. }
  set (res := if decide (frames s > num) then num else frames s).
  assert (Z.to_nat res <= length (frame_list s))%nat as Hres by (unfold res; case_decide; lia).
  destruct (frame_msgs_ok _ _ _ H2 Hres) as (ms & Hms & Hms2).
  unfold mbind, M_bind, mget. fold res. rewrite Hms.
  assert (length ms = Z.to_nat res) as Hlms by (rewrite (Forall2_length _ _ _ Hms2), length_take; lia).
  destruct (sendmmsg_safe ms (take (Z.to_nat res) ds) (assoc_of s) Hms2) as (r & a' & -> & Hr & He' & Hbase & Hinp);
    [apply Forall_take; by eapply frames_dgrams_ok | done|].
  case_decide as Hr0.
  { eexists _, _, 0%nat. rewrite !drop_0. cbn. rewrite app_nil_r. split_and!; done || lia. }
  destruct (wp_elim _ _ _ (drop_frames_ok (Z.to_nat r) (set_assoc a' s) ds (Hwv a') ltac:(cbn; lia)))
    as ([] & s' & -> & Hw' & Hl' & Hfr & Ha & Hsame).
  eexists _, _, (Z.to_nat r). rewrite Ha. split_and!; try done; lia.
Qed.

(** ** The handler *)

Section Handler.
Context (dns : option (Z -> option bytes)).
Context (Hdns : forall f h n, dns = Some f -> f h = Some n -> cstr_ok n ∧ (0 < length n <= 255)%nat).

(** The name of an address of the stack, and the address the proxy gets. *)
Definition mapped_name (ip : ip_addr) : option bytes :=
  match dns with Some f => f (s32 (ip4_host (take 4 (ip_bytes ip)))) | None => None end.
Definition app_address (ip : ip_addr) (prt : Z) : address := lwip_address ip (mapped_name ip) prt.

Lemma from_lwip_pure mem ip prt (s : session) : length mem = sizeof_addr -> ip_ok ip -> is_u16 prt ->
  exists a, hev_socks5_addr_from_lwip (lookup_dns dns) mem ip prt s = Some ((0, a), s)
    ∧ holds_address a (app_address ip prt) ∧ address_ok (app_address ip prt).
Proof using Hdns.
  intros Hm Hip Hp.
  destruct (from_lwip_holds (lookup_dns dns) s s mem ip prt (mapped_name ip) Hm Hip Hp)
    as (a & -> & Hh & Hok).
  - unfold lookup_dns, mapped_name. by destruct dns.
  - intros n Hn. unfold mapped_name in Hn. destruct dns as [f|] eqn:Hf; [|done]. by eapply Hdns.
  - exists a. by case_decide.
Qed.

(** An event the stack may bring. *)
Definition event_ok (e : event) : Prop :=
  let '(EvRecv p ip prt mem) := e in
  (forall p', p = Some p' -> exists b, head p' = Some b ∧ bytes_ok b)
  ∧ ip_ok ip ∧ is_u16 prt ∧ (forall m, mem = Some m -> length m = sizeof_addr).

(** The datagram an event brings, when there is room and memory. *)
Definition event_dgram (n : Z) (e : event) : option dgram :=
  let '(EvRecv p ip prt mem) := e in
  match p, mem with
  | Some p, Some _ => if decide (n > UDP_POOL_SIZE) then None else Some (app_address ip prt, default [] (head p))
  | _, _ => None
  end.

Definition event_pbuf (e : event) : list pbuf := let '(EvRecv p _ _ _) := e in option_list p.

(** The chains a session still has to free, and has freed. *)
Definition chains (s : session) : list pbuf := freed s ++ (frame_data <$> frame_list s).

Lemma handle_event_ok e s ds : event_ok e -> waiting s ds ->
  exists s', handle_event dns e s = Some (tt, s')
    ∧ waiting s' (ds ++ option_list (event_dgram (frames s) e))
    ∧ (frames s <= UDP_POOL_SIZE + 1 -> frames s' <= UDP_POOL_SIZE + 1)
    ∧ chains s' ≡ₚ chains s ++ event_pbuf e
    ∧ answers (assoc_of s') = answers (assoc_of s) ∧ inp (assoc_of s') = inp (assoc_of s)
    ∧ out (assoc_of s') = out (assoc_of s) ∧ type (base (assoc_of s')) = type (base (assoc_of s)).
Proof using Hdns.
  destruct e as [[p|] ip prt mem]; intros (Hp & Hip & Hprt & Hmem) Hw; cbn [handle_event event_dgram event_pbuf option_list].
  2:{ unfold udp_recv_handler, on_assoc, mput. eexists. split; [done|]. rewrite app_nil_r, app_nil_r.
      destruct s as [[]], Hw; cbn in *; split_and!; done || by split. }
  unfold udp_recv_handler, get. unfold mbind at 1, M_bind at 1, mget at 1. case_decide as Hn.
  { eexists. split; [reflexivity|]. destruct Hw as [H2 Hc].
    replace (match mem with Some _ => None | None => None end : option dgram) with (@None dgram) by by destruct mem.
    cbn [option_list]. rewrite app_nil_r. split_and!; try done.
    unfold chains. cbn. rewrite <- !app_assoc. apply Permutation_app_head, Permutation_app_comm. }
  destruct mem as [mem|].
  2:{ eexists. split; [reflexivity|]. destruct Hw as [H2 Hc]. cbn [option_list]. rewrite app_nil_r. split_and!; try done.
    unfold chains. cbn. rewrite <- !app_assoc. apply Permutation_app_head, Permutation_app_comm. }
  destruct (from_lwip_pure mem ip prt s (Hmem mem eq_refl) Hip Hprt) as (a & Hf & (Hsz & rest & Ha) & Hok).
  rewrite (bind_some _ _ _ _ _ Hf). destruct (Hp p eq_refl) as (b & Hb & Hbok).
  assert (exists t, atype a = Some t) as [t Ht].
  { rewrite Ha. destruct (encode_head _ Hok) as (t & l & r & -> & _). by exists t. }
  unfold lift. unfold mbind at 1, M_bind at 1, mget at 1. rewrite Ht.
  assert (forall s1 : session, frame_list s1 = frame_list s -> frames s1 = frames s -> freed s1 = freed s -> assoc_of s1 = assoc_of s ->
    exists s', (n ← mget (fun s => Some (frames s)); l ← mget (fun s => Some (frame_list s));
                upd (set_frames (l ++ [mk_frame a p]) (n + 1))) s1 = Some (tt, s')
      ∧ waiting s' (ds ++ [(app_address ip prt, default [] (head p))])
      ∧ (frames s <= UDP_POOL_SIZE + 1 -> frames s' <= UDP_POOL_SIZE + 1)
      ∧ chains s' ≡ₚ chains s ++ [p]
      ∧ answers (assoc_of s') = answers (assoc_of s) ∧ inp (assoc_of s') = inp (assoc_of s)
      ∧ out (assoc_of s') = out (assoc_of s) ∧ type (base (assoc_of s')) = type (base (assoc_of s))) as Hend.
  { intros s1 E1 E2 E3 E4. unfold mbind, M_bind, mget, upd, mput. eexists. split; [done|].
    destruct Hw as [H2 Hc]. split_and!; cbn; rewrite ?E1, ?E2, ?E3, ?E4; try done; try lia.
    - split; cbn; rewrite ?E1, ?E2; [|rewrite length_app; simpl; lia].
      apply Forall2_app; [done|]. constructor; [|constructor]. rewrite Hb.
      split_and!; [split; [done | done] | by exists rest | done].
    - unfold chains. cbn. rewrite ?E1, ?E3, fmap_app, app_assoc. done. }
  case_decide as Hty.
  - assert (exists b4, rd (ip_bytes ip) 0 4 = Some b4) as [b4 Hb4].
    { destruct Hip as (_ & Hl & _). eexists. apply rd_0. lia. }
    unfold mbind at 1, M_bind at 1. unfold mbind at 2, M_bind at 2, mget at 1. rewrite Hb4.
    by apply Hend.
  - unfold mbind at 1, M_bind at 1. by apply Hend.
Qed.
End Handler.

(** ** From the proxy to the application *)

(** The application uses a mapped address. *)
Definition mapped (s : session) : Prop := addr s ≠ [0; 0; 0; 0] ∧ port s ≠ 0.

(** The session can pass a datagram on: it has an origin, and the stack's address has one. *)
Definition passable (s : session) (d : dgram) : Prop :=
  dgram_ok d ∧ datlen d < 2 ^ 16 ∧ (mapped s \/ is_Some (stack_address (fst d))).

(** What the stack gets for a datagram: its data, with the mapped address and port that
    the application uses, or with those of the datagram. *)
Definition passed (s : session) (d : dgram) (x : bytes * ip_addr * Z) : Prop :=
  let '(v, ip, p) := x in
  v = snd d ∧
  if decide (addr s ≠ [0; 0; 0; 0] ∧ port s ≠ 0) then take 4 (ip_bytes ip) = addr s ∧ p = port s
  else exists b, stack_address (fst d) = Some (ip_type ip, b, p) ∧ take (length b) (ip_bytes ip) = b.

Lemma stack_address_length a t b p : address_ok a -> stack_address a = Some (t, b, p) -> (length b <= 16)%nat.
Proof. destruct a; intros (? & ? & ?) [= <- <- <-]; lia. Qed.

Lemma origin_ok s m d ip : msg_is m d -> passable s d -> length (addr s) = 4%nat -> length (ip_bytes ip) = 16%nat ->
  exists ip' p, origin s m ip = Some (Some (ip', p)) ∧ length (ip_bytes ip') = 16%nat ∧ passed s d (snd d, ip', p).
Proof.
  intros ([rest Ha] & _ & _) ([Hok _] & _ & Hor) H4 H16. unfold origin, passed.
  case_decide as Hm.
  - rewrite wr_0 by lia. cbn [mbind option_bind]. eexists _, _. split; [done|].
    cbn [ip_bytes]. split_and!; [|done| |done].
    + rewrite length_app, length_drop. lia.
    + by rewrite <- H4, take_app_length.
  - destruct Hor as [?|[[[t b] p] Hst]]; [done|]. rewrite Ha. cbn [mbind option_bind].
    rewrite (into_lwip_ok _ _ _ _ _ _ _ Hok Hst H16). cbn [mbind option_bind].
    rewrite decide_False by lia. eexists _, _. split; [done|]. cbn [ip_bytes ip_type].
    pose proof (stack_address_length _ _ _ _ Hok Hst). split_and!; [|done|].
    + rewrite length_app, length_drop. lia.
    + exists b. by rewrite take_app_length.
Qed.

(** The stack takes everything. *)
Definition takes_all (rs : list stack_result) : Prop := Forall (fun r => rs_alloc r = true ∧ rs_err r = ERR_OK) rs.

Lemma deliver_step n m ms s d ip rs : msg_is m d -> passable s d -> length (addr s) = 4%nat ->
  length (ip_bytes ip) = 16%nat -> takes_all rs ->
  exists x ip', passed s d x ∧ length (ip_bytes ip') = 16%nat
    ∧ deliver (S n) (m :: ms) ip rs s = deliver n ms ip' (tail rs) (add_delivered x s).
Proof.
  intros Hm Hp H4 H16 Hrs. destruct (origin_ok s m d ip Hm Hp H4 H16) as (ip' & p & Ho & Hl & Hpass).
  exists (snd d, ip', p), ip'. split_and!; [done | done |]. cbn [deliver]. unfold get, lift.
  unfold mbind at 1, M_bind at 1, mget at 1. unfold mbind at 1, M_bind at 1, mget at 1. rewrite Ho. cbv zeta.
  assert (rs_alloc (default (mk_stack true ERR_OK) (head rs)) = true
    ∧ rs_err (default (mk_stack true ERR_OK) (head rs)) = ERR_OK) as [-> Herr]
    by (destruct rs as [|r rs]; [done | by apply Forall_cons in Hrs as [? _]]).
  cbn [negb]. destruct Hm as (_ & [rest Hb] & Hml). destruct Hp as (_ & Hd & _).
  assert (u16 (m_len m) = datlen d) as Hu by (rewrite Hml; apply Z.mod_small; unfold datlen in *; lia).
  unfold mbind at 1, M_bind at 1, mget at 1. rewrite Hu, Hb. unfold datlen.
  rewrite rd_0 by (rewrite length_app; lia). rewrite Nat2Z.id, take_app_length.
  unfold mbind at 1, M_bind at 1, upd at 1, mput at 1. by rewrite Herr, decide_False by (intros H; by apply H).
Qed.

Lemma takes_all_tail rs : takes_all rs -> takes_all (tail rs).
Proof. destruct rs; [done|]. by intros [_ H]%Forall_cons. Qed.

Lemma deliver_ok ms ds : forall s ip rs rest, Forall2 msg_is ms ds -> Forall (passable s) ds ->
  length (addr s) = 4%nat -> length (ip_bytes ip) = 16%nat -> takes_all rs ->
  exists xs s', deliver (length ms) (ms ++ rest) ip rs s = Some (1, s') ∧ Forall2 (passed s) ds xs
    ∧ delivered s' = delivered s ++ xs ∧ assoc_of s' = assoc_of s ∧ frame_list s' = frame_list s
    ∧ frames s' = frames s ∧ freed s' = freed s.
Proof.
  revert ds. induction ms as [|m ms IH]; intros ds s ip rs rest H2 Hp H4 H16 Hrs; inversion H2 as [|? d ? ds' Hm H2']; subst.
  { eexists [], s. split; [done|]. rewrite app_nil_r. by split_and!. }
  apply Forall_cons in Hp as [Hd Hp]. cbn [length app].
  destruct (deliver_step (length ms) m (ms ++ rest) s d ip rs Hm Hd H4 H16 Hrs) as (x & ip' & Hx & Hl & ->).
  destruct (IH ds' (add_delivered x s) ip' (tail rs) rest H2' Hp H4 Hl (takes_all_tail _ Hrs))
    as (xs & s' & -> & Hxs & Hdel & H1 & H3 & H5 & H6).
  exists (x :: xs), s'. split_and!; try done; [by constructor|]. rewrite Hdel. cbn. by rewrite <- app_assoc.
Qed.

(** A message that was not received has no address. *)
Lemma deliver_beyond ms ds : forall s ip rs m rest n, Forall2 msg_is ms ds -> Forall (passable s) ds ->
  length (addr s) = 4%nat -> length (ip_bytes ip) = 16%nat -> takes_all rs ->
  ~ mapped s -> m_addr m = None -> (length ms < n)%nat -> deliver n (ms ++ m :: rest) ip rs s = None.
Proof.
  revert ds. induction ms as [|m0 ms IH]; intros ds s ip rs m rest n H2 Hp H4 H16 Hrs Hmap Hm Hn;
    inversion H2 as [|? d ? ds' Hm0 H2']; subst; (destruct n as [|n]; [simpl in Hn; lia|]).
  - cbn [app deliver]. unfold get, lift. unfold mbind at 1, M_bind at 1, mget at 1.
    unfold mbind at 1, M_bind at 1, mget at 1, origin. rewrite decide_False by done. by rewrite Hm.
  - apply Forall_cons in Hp as [Hd Hp]. cbn [app].
    destruct (deliver_step n m0 (ms ++ m :: rest) s d ip rs Hm0 Hd H4 H16 Hrs) as (x & ip' & Hx & Hl & ->).
    apply (IH ds' (add_delivered x s) ip' (tail rs) m rest n); try done; [by apply takes_all_tail | simpl in Hn; lia].
Qed.

Lemma empty_msgs_ok mem : Forall (fun b => length b = 1500%nat) mem -> Forall (empty_msg UDP_BUF_SIZE) (empty_msgs mem).
Proof. induction 1 as [|b mem Hb _ IH]; [constructor|]. constructor; [|done]. split; [done|]. cbn. by rewrite Hb. Qed.

Lemma framable_passable s d : framable UDP_BUF_SIZE d -> mapped s \/ is_Some (stack_address (fst d)) -> passable s d.
Proof.
  intros (Hok & _ & Hl) Hor. pose proof (addrlen_bounds d (proj1 Hok)). split_and!; [done | | done].
  unfold UDP_BUF_SIZE in Hl. lia.
Qed.

Definition shared (s s' : session) : Prop := frame_list s' = frame_list s ∧ frames s' = frames s ∧ freed s' = freed s.

Lemma fwd_b_ok mem con ip rs s ds : Forall (fun b => length b = 1500%nat) mem -> type (base (assoc_of s)) = HEV_SOCKS5_TYPE_UDP_IN_TCP ->
  inp (assoc_of s) = concat (tcp_frame <$> ds) -> Forall (framable UDP_BUF_SIZE) ds ->
  Forall (fun d => mapped s \/ is_Some (stack_address (fst d))) ds ->
  coming (answers (assoc_of s)) -> (length (inp (assoc_of s)) <= budget (answers (assoc_of s)))%nat ->
  length (addr s) = 4%nat -> length (ip_bytes ip) = 16%nat -> takes_all rs ->
  exists r s' xs n, hev_socks5_session_udp_fwd_b mem con ip rs s = Some (r, s')
    ∧ Forall2 (passed s) (take n ds) xs ∧ delivered s' = delivered s ++ xs
    ∧ inp (assoc_of s') = concat (tcp_frame <$> drop n ds) ∧ shared s s'
    ∧ (r = 1 ∧ (0 < n)%nat \/ (r = 0 \/ r = -1) ∧ n = 0%nat ∧ s' = set_assoc (assoc_of s') s)
    ∧ (n = 0%nat -> mem = [] \/ ds = [] \/ head (answers (assoc_of s)) = None \/ head (answers (assoc_of s)) = Some Again)
    ∧ coming (answers (assoc_of s')) ∧ (length (inp (assoc_of s')) <= budget (answers (assoc_of s')))%nat
    ∧ base (assoc_of s') = base (assoc_of s) ∧ out (assoc_of s') = out (assoc_of s).
Proof.
  intros Hmem Ht Hi Hd Hst Hc Hb H4 H16 Hrs. unfold hev_socks5_session_udp_fwd_b, on_assoc.
  unfold hev_socks5_udp_recvmmsg, Socks5UDP.get. unfold mbind at 1, M_bind at 1. unfold mbind at 1, M_bind at 1, mget at 1. rewrite Ht.
  pose proof (recv_tcp_loop_ok UDP_BUF_SIZE (empty_msgs mem) ds 0 (assoc_of s) ltac:(by vm_compute) ltac:(lia)
    (empty_msgs_ok mem Hmem) Hd Hi Hc Hb) as Hw.
  destruct (wp_elim _ _ _ Hw) as ([r o] & a' & Heq & msgs & n & l & e & -> & -> & H2 & Hn1 & Hn2 & Hr & Hz & Hcl & Hbl).
  unfold hev_socks5_udp_recvmmsg_tcp. rewrite Heq.
  assert (length msgs = n) as Hlm by (rewrite (Forall2_length _ _ _ H2), length_take; lia).
  assert (n = 0%nat -> mem = [] \/ ds = [] \/ head (answers (assoc_of s)) = None \/ head (answers (assoc_of s)) = Some Again) as Hz'.
  { intros H0. destruct (Hz H0) as [Hm|?]; [left; by destruct mem | by right]. }
  destruct (decide (n = 0%nat)) as [->|Hn0].
  - assert (r <= 0) by (destruct Hr; lia). rewrite decide_True by done. destruct msgs; [|done].
    unfold get, mbind, M_bind, mget, mret, M_ret. rewrite drop_0 in Hbl.
    eexists _, _, [], 0%nat. split; [done|]. rewrite app_nil_r. cbn. split_and!; try done.
    right. split_and!; [case_decide; tauto | done | done].
  - assert (r = Z.of_nat n) as -> by (destruct Hr; lia). rewrite decide_False by lia. rewrite Nat2Z.id.
    destruct (deliver_ok msgs (take n ds) (set_assoc (set_inp l (concat (tcp_frame <$> drop n ds)) e (assoc_of s)) s) ip rs
      (drop n (empty_msgs mem)) H2) as (xs & s' & Hdl & Hxs & Hdel & Ha & Hf1 & Hf2 & Hf3); try done.
    { apply Forall_take. apply Forall_forall. intros d Hin. rewrite Forall_forall in Hd, Hst.
      apply framable_passable; [by apply Hd | by apply Hst]. }
    rewrite Hlm in Hdl. rewrite Hdl. eexists _, _, xs, n. split; [done|]. rewrite Ha, Hdel. cbn [answers inp base out set_inp set_assoc assoc_of].
    split_and!; try done. left. split; [done | lia].
Qed.

Lemma fwd_b_truncated mem con ip rs s ds d k : Forall (fun b => length b = 1500%nat) mem ->
  type (base (assoc_of s)) = HEV_SOCKS5_TYPE_UDP_IN_TCP -> (length ds < length mem)%nat ->
  Forall (framable UDP_BUF_SIZE) (ds ++ [d]) -> Forall (fun d => is_Some (stack_address (fst d))) ds -> ~ mapped s ->
  inp (assoc_of s) = concat (tcp_frame <$> ds) ++ take (5 + k) (tcp_frame d) ->
  (length ds < k)%nat -> Z.of_nat k < addrlen d - 2 + datlen d ->
  ready (answers (assoc_of s)) -> (length (inp (assoc_of s)) <= length (answers (assoc_of s)))%nat ->
  length (addr s) = 4%nat -> length (ip_bytes ip) = 16%nat -> takes_all rs ->
  hev_socks5_session_udp_fwd_b mem con ip rs s = None.
Proof.
  intros Hmem Ht Hlt Hd Hst Hmap Hi Hk Hkd Hrdy Hb H4 H16 Hrs. unfold hev_socks5_session_udp_fwd_b, on_assoc.
  unfold hev_socks5_udp_recvmmsg, Socks5UDP.get. unfold mbind at 1, M_bind at 1. unfold mbind at 1, M_bind at 1, mget at 1. rewrite Ht.
  assert (length (empty_msgs mem) = length mem) as Hlen by apply length_fmap.
  destruct (wp_elim _ _ _ (recv_tcp_loop_truncated UDP_BUF_SIZE ds (empty_msgs mem) 0 (assoc_of s) d k ltac:(by vm_compute)
    ltac:(by rewrite Hlen) (empty_msgs_ok mem Hmem) Hd Hi ltac:(lia) Hkd Hrdy Hb)) as ([r o] & a' & Heq & -> & msgs & -> & H2).
  unfold hev_socks5_udp_recvmmsg_tcp. rewrite Heq. rewrite decide_False by lia. rewrite Nat2Z.id.
  destruct (drop (length ds) (empty_msgs mem)) as [|m rest] eqn:Hdr.
  { apply (f_equal length) in Hdr. rewrite length_drop, Hlen in Hdr. simpl in Hdr. lia. }
  apply (deliver_beyond msgs ds); try done.
  - apply Forall_app in Hd as [Hd _]. apply Forall_forall. intros d0 Hin. rewrite Forall_forall in Hd, Hst.
    apply framable_passable; [by apply Hd | right; by apply Hst].
  - assert (m ∈ empty_msgs mem) as Hin by (rewrite <- (take_drop (length ds) (empty_msgs mem)), Hdr; apply elem_of_app; right; apply list_elem_of_here).
    unfold empty_msgs in Hin. apply list_elem_of_fmap in Hin as (b & -> & _). done.
  - by rewrite (Forall2_length _ _ _ H2).
Qed.

(** ** Sending what the application sent *)

Lemma fwd_f_ok num s ds : waiting s ds -> type (base (assoc_of s)) = HEV_SOCKS5_TYPE_UDP_IN_TCP ->
  Forall (framable 65535) ds -> ds ≠ [] -> 0 < num -> coming (answers (assoc_of s)) ->
  (length (concat (tcp_frame <$> ds)) <= budget (answers (assoc_of s)))%nat ->
  let n := Nat.min (Z.to_nat num) (length ds) in
  exists s', hev_socks5_session_udp_fwd_f num s = Some (1, s') ∧ waiting s' (drop n ds)
    ∧ out (assoc_of s') = out (assoc_of s) ++ concat (tcp_frame <$> take n ds)
    ∧ freed s' = freed s ++ (frame_data <$> take n (frame_list s)) ∧ same_rest s s'.
Proof.
  intros Hw Ht Hd Hne Hnum Hc Hb n. pose proof (waiting_length _ _ Hw) as Hlen. pose proof Hw as [H2 Hcnt].
  assert (0 < length ds)%nat as Hpos by (destruct ds; [done | simpl; lia]).
  unfold hev_socks5_session_udp_fwd_f, get, lift, on_assoc. unfold mbind at 1. unfold M_bind at 1. unfold mget at 1.
  rewrite decide_False by lia. set (res := if decide (frames s > num) then num else frames s).
  assert (Z.to_nat res = n) as Hres by (unfold res, n; case_decide; lia).
  assert (0 < n <= length ds)%nat as Hn by (unfold n; lia).
  destruct (frame_msgs_ok _ _ n H2 ltac:(lia)) as (ms & Hms & Hms2).
  assert (length ms = n) as Hlms by (rewrite (Forall2_length _ _ _ Hms2), length_take; lia).
  unfold mbind, M_bind, mget. fold res. rewrite Hres, Hms.
  assert (concat (tcp_frame <$> ds) = concat (tcp_frame <$> take n ds) ++ concat (tcp_frame <$> drop n ds)) as Hsplit
    by (by rewrite <- concat_app, <- fmap_app, take_drop).
  rewrite Hsplit, length_app in Hb. set (v := concat (tcp_frame <$> take n ds)) in *.
  destruct (sendmmsg_tcp_ok 65535 ms (take n ds) (assoc_of s)) as (l & e & Hl & _); try done.
  { intros H0. apply (f_equal length) in H0. rewrite length_take in H0. simpl in H0. lia. }
  { by apply Forall_take. }
  { fold v. lia. }
  rewrite Hl. rewrite length_take, Nat.min_l by lia. rewrite decide_False by lia. rewrite Nat2Z.id.
  set (a' := set_out l _ _ _). assert (waiting (set_assoc a' s) ds) as Hwa by by split.
  destruct (wp_elim _ _ _ (drop_frames_ok n (set_assoc a' s) ds Hwa ltac:(cbn; lia)))
    as ([] & s' & -> & Hw' & Hl' & Hfr & Ha & Hsame).
  exists s'. split_and!; try done. by rewrite Ha.
Qed.

Section Life.
Context (dns : option (Z -> option bytes)).
Context (Hdns : forall f h n, dns = Some f -> f h = Some n -> cstr_ok n ∧ (0 < length n <= 255)%nat).

(** The datagrams of events that find [n] frames waiting. *)
Fixpoint accepted (n : Z) (es : list event) : list dgram :=
  match es with
  | [] => []
  | e :: es => match event_dgram dns n e with Some d => d :: accepted (n + 1) es | None => accepted n es end
  end.

Lemma handle_events_ok es : forall s ds, Forall event_ok es -> waiting s ds ->
  exists s', handle_events dns es s = Some (tt, s') ∧ waiting s' (ds ++ accepted (frames s) es)
    ∧ (frames s <= UDP_POOL_SIZE + 1 -> frames s' <= UDP_POOL_SIZE + 1)
    ∧ chains s' ≡ₚ chains s ++ concat (event_pbuf <$> es)
    ∧ answers (assoc_of s') = answers (assoc_of s) ∧ inp (assoc_of s') = inp (assoc_of s)
    ∧ out (assoc_of s') = out (assoc_of s) ∧ type (base (assoc_of s')) = type (base (assoc_of s)).
Proof using Hdns.
  induction es as [|e es IH]; intros s ds Hes Hw.
  { exists s. cbn. rewrite !app_nil_r. by split_and!. }
  apply Forall_cons in Hes as [He Hes].
  destruct (handle_event_ok dns Hdns e s ds He Hw) as (s1 & H1 & Hw1 & Hn1 & Hch1 & Ha1 & Hi1 & Ho1 & Ht1).
  destruct (IH s1 _ Hes Hw1) as (s2 & H2 & Hw2 & Hn2 & Hch2 & Ha2 & Hi2 & Ho2 & Ht2).
  exists s2. cbn [handle_events]. rewrite (bind_some _ _ _ _ _ H1). split_and!; try congruence; try done.
  - cbn [accepted]. rewrite <- app_assoc in Hw2. assert (frames s1 = frames s + Z.of_nat (length (option_list (event_dgram dns (frames s) e)))) as Hfr.
    { pose proof (waiting_length _ _ Hw1) as L1. pose proof (waiting_length _ _ Hw) as L0.
      rewrite (wa_count _ _ Hw1), (wa_count _ _ Hw), L1, L0, length_app. rewrite (wa_count _ _ Hw), L0 in *. lia. }
    destruct (event_dgram dns (frames s) e); cbn [option_list length app] in *; rewrite Hfr in Hw2; [done|].
    by rewrite Z.add_0_r in Hw2.
  - auto.
  - cbn [fmap list_fmap concat]. rewrite app_assoc. rewrite Hch2. by apply Permutation_app_tail.
Qed.

(** What happens to the waiting frames of a session. *)
Inductive op := OpEvents (es : list event) | OpSend (num : Z).

Definition do_op (o : op) : M session unit :=
  match o with OpEvents es => handle_events dns es | OpSend num => hev_socks5_session_udp_fwd_f num;; mret tt end.
Fixpoint do_ops (os : list op) : M session unit :=
  match os with [] => mret tt | o :: os => do_op o;; do_ops os end.
Definition op_ok (o : op) : Prop := match o with OpEvents es => Forall event_ok es | OpSend _ => True end.
Definition op_pbufs (o : op) : list pbuf := match o with OpEvents es => concat (event_pbuf <$> es) | OpSend _ => [] end.

Lemma do_ops_ok os : forall s ds, Forall op_ok os -> waiting s ds -> errors_ok (answers (assoc_of s)) ->
  frames s <= UDP_POOL_SIZE + 1 ->
  exists s' ds', do_ops os s = Some (tt, s') ∧ waiting s' ds' ∧ chains s' ≡ₚ chains s ++ concat (op_pbufs <$> os)
    ∧ frames s' <= UDP_POOL_SIZE + 1.
Proof using Hdns.
  induction os as [|o os IH]; intros s ds Hos Hw He Hn.
  { exists s, ds. cbn. rewrite app_nil_r. by split_and!. }
  apply Forall_cons in Hos as [Ho Hos].
  assert (exists s1 ds1, do_op o s = Some (tt, s1) ∧ waiting s1 ds1 ∧ chains s1 ≡ₚ chains s ++ op_pbufs o
    ∧ frames s1 <= UDP_POOL_SIZE + 1 ∧ errors_ok (answers (assoc_of s1))) as (s1 & ds1 & H1 & Hw1 & Hch & Hn1 & He1).
  { destruct o as [es|num]; cbn [do_op op_pbufs].
    - destruct (handle_events_ok es s ds Ho Hw) as (s1 & H1 & Hw1 & Hn1 & Hch1 & Ha1 & _).
      eexists s1, _. split_and!; [done | exact Hw1 | done | by apply Hn1 | by rewrite Ha1].
    - destruct (fwd_f_safe num s ds Hw He) as (r & s1 & k & H1 & Hw1 & Hk & _ & _ & Hl & Hf & _ & He1 & _).
      rewrite (bind_some _ _ _ _ _ H1). eexists s1, _. split_and!; [done | exact Hw1 | | | done].
      + unfold chains. rewrite Hf, Hl, app_nil_r, <- app_assoc, <- fmap_app, take_drop. done.
      + rewrite (wa_count _ _ Hw1), Hl, length_drop. rewrite (wa_count _ _ Hw) in Hn. lia. }
  destruct (IH s1 ds1 Hos Hw1 He1 Hn1) as (s2 & ds2 & H2 & Hw2 & Hch2 & Hn2).
  exists s2, ds2. cbn [do_ops]. rewrite (bind_some _ _ _ _ _ H1). split_and!; try done.
  cbn [fmap list_fmap concat]. rewrite app_assoc. rewrite Hch2. by apply Permutation_app_tail.
Qed.
End Life.

(** ** Properties *)


(** C30: What the proxy sends is what the application gets.  From a well-formed stream each
    round takes some datagrams, at least one when data is there, and hands them to the
    stack in order, each with its data and the address and port of its source, or with
    the bytes of the mapped address and the port the application uses; the rest stays on the
    stream. *)
Theorem hev_socks5_session_udp_fwd_b_ok mem con ip rs s ds :
  Forall (fun b => length b = 1500%nat) mem -> type (base (assoc_of s)) = HEV_SOCKS5_TYPE_UDP_IN_TCP ->
  inp (assoc_of s) = concat (tcp_frame <$> ds) -> Forall (framable UDP_BUF_SIZE) ds ->
  Forall (fun d => mapped s \/ is_Some (stack_address (fst d))) ds ->
  coming (answers (assoc_of s)) -> (length (inp (assoc_of s)) <= budget (answers (assoc_of s)))%nat ->
  length (addr s) = 4%nat -> length (ip_bytes ip) = 16%nat -> takes_all rs ->
  exists r s' xs n, hev_socks5_session_udp_fwd_b mem con ip rs s = Some (r, s')
    ∧ Forall2 (passed s) (take n ds) xs ∧ delivered s' = delivered s ++ xs
    ∧ inp (assoc_of s') = concat (tcp_frame <$> drop n ds)
    ∧ (r = 1 ∧ (0 < n)%nat \/ (r = 0 \/ r = -1) ∧ n = 0%nat)
    ∧ (n = 0%nat -> mem = [] \/ ds = [] \/ head (answers (assoc_of s)) = None \/ head (answers (assoc_of s)) = Some Again).
Proof.
  intros Hm Ht Hi Hd Hs Hc Hb H4l H16 Hrs. destruct (fwd_b_ok mem con ip rs s ds) as (r & s' & xs & n & H1 & H2 & H3 & H4 & _ & H5 & H6 & _); try done.
  exists r, s', xs, n. split_and!; try done. destruct H5 as [?|(? & ? & _)]; [by left | by right].
Qed.

Lemma deliver_type n : forall msgv saddr rs s r s', mapped s -> deliver n msgv saddr rs s = Some (r, s') ->
  exists xs, delivered s' = delivered s ++ xs ∧ Forall (fun x => ip_type (snd (fst x)) = ip_type saddr) xs.
Proof.
  assert (forall t t' : session, delivered t' = delivered t -> forall ty,
    exists xs, delivered t' = delivered t ++ xs ∧ Forall (fun x => ip_type (snd (fst x)) = ty) xs) as Hnil.
  { intros t t' -> ty. exists []. by rewrite app_nil_r. }
  induction n as [|n IH]; intros [|m msgv] saddr rs s r s' Hm; cbn [deliver]; try (intros [= <- <-]; by apply Hnil); try done.
  unfold get, lift, upd, mget, mput, mbind, M_bind. destruct (origin s m saddr) as [[[ip p]|]|] eqn:Ho; [| intros [= <- <-]; by apply Hnil | done].
  assert (ip_type ip = ip_type saddr) as Ht.
  { unfold origin in Ho. rewrite decide_True in Ho by exact Hm. destruct (wr (ip_bytes saddr) 0 (addr s)); [|done]. by injection Ho as <- _. }
  destruct (rs_alloc _); cbn [negb]; [|intros [= <- <-]; by apply Hnil].
  destruct (rd (m_buf m) 0 _) as [v|]; [|done]. cbn [mret M_ret]. case_decide.
  - intros [= <- <-]. exists [(v, ip, p)]. split; [done|]. by repeat constructor.
  - intros Hd. destruct (IH msgv ip (tail rs) (add_delivered (v, ip, p) s) r s' Hm Hd) as (xs & Hx & Hall).
    exists ((v, ip, p) :: xs). split; [rewrite Hx; cbn; by rewrite <- app_assoc|]. constructor; [done|]. by rewrite <- Ht.
Qed.

(** The answers to an application that uses a mapped address come from an address whose type
    is never set: it is what the variable on the stack happened to hold, and the network
    stack refuses an address of another type than the application's. *)
Theorem hev_socks5_session_udp_fwd_b_unset_type mem con saddr rs s r s' :
  mapped s -> hev_socks5_session_udp_fwd_b mem con saddr rs s = Some (r, s') ->
  exists xs, delivered s' = delivered s ++ xs ∧ Forall (fun x => ip_type (snd (fst x)) = ip_type saddr) xs.
Proof.
  intros Hm. unfold hev_socks5_session_udp_fwd_b, on_assoc, mbind at 1, M_bind at 1.
  destruct (hev_socks5_udp_recvmmsg true con (empty_msgs mem) (assoc_of s)) as [[[res msgv] v]|]; [|done].
  case_decide; [|exact (deliver_type _ _ _ _ (set_assoc v s) _ _ Hm)].
  unfold get, mget, mbind, M_bind. intros [= <- <-]. exists []. by rewrite app_nil_r.
Qed.

(** A connection that breaks inside a frame crashes the session: with more bytes of the
    broken frame received than whole datagrams before it, the session goes on to hand the
    stack messages that were never received, through addresses that were never set. *)
Theorem hev_socks5_session_udp_fwd_b_truncated mem con ip rs s ds d k :
  Forall (fun b => length b = 1500%nat) mem ->
  type (base (assoc_of s)) = HEV_SOCKS5_TYPE_UDP_IN_TCP -> (length ds < length mem)%nat ->
  Forall (framable UDP_BUF_SIZE) (ds ++ [d]) -> Forall (fun d => is_Some (stack_address (fst d))) ds -> ~ mapped s ->
  inp (assoc_of s) = concat (tcp_frame <$> ds) ++ take (5 + k) (tcp_frame d) ->
  (length ds < k)%nat -> Z.of_nat k < addrlen d - 2 + datlen d ->
  ready (answers (assoc_of s)) -> (length (inp (assoc_of s)) <= length (answers (assoc_of s)))%nat ->
  length (addr s) = 4%nat -> length (ip_bytes ip) = 16%nat -> takes_all rs ->
  hev_socks5_session_udp_fwd_b mem con ip rs s = None.
Proof. intros. by eapply (fwd_b_truncated mem con ip rs s ds d k). Qed.

(** C14: No packet buffer is lost or freed twice.  However datagrams arrive (accepted, refused
    for want of room or memory) and are sent, and whatever the socket does, at most 513
    frames wait at any time, and when the session is destroyed every chain that came in
    has been freed exactly once. *)
Theorem hev_socks5_session_udp_frees dns os s :
  (forall f h n, dns = Some f -> f h = Some n -> cstr_ok n ∧ (0 < length n <= 255)%nat) ->
  waiting s [] -> freed s = [] -> errors_ok (answers (assoc_of s)) -> Forall op_ok os ->
  exists s1 s2, do_ops dns os s = Some (tt, s1) ∧ frames s1 = Z.of_nat (length (frame_list s1)) ∧ frames s1 <= 513
    ∧ hev_socks5_session_udp_destruct s1 = Some (tt, s2)
    ∧ freed s2 ≡ₚ concat (op_pbufs <$> os) ∧ frame_list s2 = [] ∧ pcb s2 = false.
Proof.
  intros Hdns Hw Hfr He Hos. pose proof (waiting_length _ _ Hw) as Hl. pose proof (wa_count _ _ Hw) as Hc.
  destruct (do_ops_ok dns Hdns os s [] Hos Hw He ltac:(rewrite Hc, Hl; unfold UDP_POOL_SIZE; cbn; lia)) as (s1 & ds' & H1 & Hw1 & Hch & Hn).
  exists s1. eexists. split_and!; [exact H1 | by apply (wa_count _ _ Hw1) | exact Hn | reflexivity | | done | done].
  cbn. change (chains s1 ≡ₚ concat (op_pbufs <$> os)). rewrite Hch. unfold chains. rewrite Hfr.
  destruct (frame_list s); [done | discriminate Hl].
Qed.

(** A frame whose header is malformed does not end the session when errno still has the
    EAGAIN of an earlier wait: the header is gone from the stream, and the next round reads
    the rest of the frame as a header. *)
Theorem hev_socks5_session_udp_fwd_b_stale_errno b mem con ip rs s d0 d1 hl t a0 rest k l :
  type (base (assoc_of s)) = HEV_SOCKS5_TYPE_UDP_IN_TCP -> inp (assoc_of s) = [d0; d1; hl; t; a0] ++ rest ->
  hl < 5 -> answers (assoc_of s) = Data k :: l -> (5 <= k)%nat -> again (assoc_of s) = true ->
  exists s', hev_socks5_session_udp_fwd_b (b :: mem) con ip rs s = Some (0, s')
    ∧ inp (assoc_of s') = rest ∧ answers (assoc_of s') = l.
Proof.
  intros Ht Hi Hhl Ha Hk He.
  pose proof (recv_header_once true (assoc_of s) [d0; d1; hl; t; a0] rest k l Hi eq_refl Ha Hk) as Hh.
  unfold hev_socks5_session_udp_fwd_b, on_assoc, hev_socks5_udp_recvmmsg. unfold mbind at 1, M_bind at 1.
  unfold mbind at 1, M_bind at 1, Socks5UDP.get, mget. rewrite Ht. unfold hev_socks5_udp_recvmmsg_tcp.
  cbn [empty_msgs fmap list_fmap recv_tcp_loop]. rewrite (bind_some _ _ _ _ _ Hh). rewrite decide_False by lia.
  unfold recv_one, Socks5UDP.lift, mget, mbind, M_bind, mret, M_ret.
  change (rd8 [d0; d1; hl; t; a0] 2) with (Some hl). change (rd [d0; d1; hl; t; a0] 0 2) with (Some [d0; d1]).
  change (rd8 [d0; d1; hl; t; a0] 3) with (Some t). change (rd8 [d0; d1; hl; t; a0] 4) with (Some a0).
  cbv beta iota. rewrite (decide_True (P := hl < 5)) by done.
  rewrite (decide_True (P := -1 <= 0)) by done.
  unfold get, mget. cbn [again set_inp assoc_of set_assoc]. rewrite He, decide_True by done.
  eexists. split; [reflexivity|]. done.
Qed.

(** ** Instances *)

Definition example_dns : Z -> option bytes := fun _ => Some [97; 46; 98].
Definition example_ip : ip_addr := mk_ip IPADDR_TYPE_V4 (198 :: 18 :: replicate 14 0).
Definition example_event : event := EvRecv (Some [[1; 2; 3]]) example_ip 53 (Some (replicate 260 0)).
Definition example_session (l : list ans) (i : bytes) : session :=
  hev_socks5_session_udp_construct 0 (example_assoc HEV_SOCKS5_TYPE_UDP_IN_TCP l i []).

Lemma example_names : forall f h n, Some example_dns = Some f -> f h = Some n -> cstr_ok n ∧ (0 < length n <= 255)%nat.
Proof. intros f h n [= <-] [= <-]. split; [by repeat constructor | simpl; lia]. Qed.

Lemma example_event_ok : Forall event_ok [example_event].
Proof.
  constructor; [|constructor]. split_and!.
  - intros p [= <-]. exists [1; 2; 3]. split; [done | by repeat constructor].
  - by repeat constructor.
  - done.
  - by intros m [= <-].
Qed.

Lemma example_name_framable : framable 65535 (Name [97; 46; 98] 53, [1; 2; 3]).
Proof.
  split; [split; [split; [|split; [simpl; lia | done]]|]|by vm_compute]; repeat (apply Forall_cons; split; [done|]);
    constructor.
Qed.

Lemma example_waiting l i : waiting (example_session l i) [].
Proof. by split; [constructor|]. Qed.


Lemma hev_socks5_session_udp_fwd_b_ok_witness :
  exists r s' xs n, hev_socks5_session_udp_fwd_b [replicate 1500 0] true example_ip []
      (example_session (replicate 14 (Data 1)) (tcp_frame example_dgram)) = Some (r, s')
    ∧ Forall2 (passed (example_session (replicate 14 (Data 1)) (tcp_frame example_dgram))) (take n [example_dgram]) xs.
Proof.
  destruct (hev_socks5_session_udp_fwd_b_ok [replicate 1500 0] true example_ip []
    (example_session (replicate 14 (Data 1)) (tcp_frame example_dgram)) [example_dgram])
    as (r & s' & xs & n & H1 & H2 & _).
  - by repeat constructor.
  - done.
  - done.
  - constructor; [|constructor]. split; [apply example_dgram_ok | by vm_compute].
  - constructor; [|constructor]. right. by eexists.
  - by repeat constructor.
  - vm_compute. lia.
  - done.
  - done.
  - constructor.
  - exists r, s', xs, n. by split.
Defined.

Lemma hev_socks5_session_udp_fwd_b_truncated_witness :
  hev_socks5_session_udp_fwd_b [replicate 1500 0] true example_ip []
    (example_session (replicate 10 (Data 10)) (take 10 (tcp_frame example_dgram))) = None.
Proof.
  apply (hev_socks5_session_udp_fwd_b_truncated _ _ _ _ _ [] example_dgram 5).
  - by repeat constructor.
  - done.
  - simpl. lia.
  - constructor; [|constructor]. split; [apply example_dgram_ok | by vm_compute].
  - constructor.
  - intros [H _]. by apply H.
  - done.
  - simpl. lia.
  - by vm_compute.
  - by repeat (constructor; [lia|]).
  - by vm_compute.
  - done.
  - done.
  - constructor.
Defined.

(** The same datagram twice, a send that fails, and the end. *)
Lemma hev_socks5_session_udp_frees_witness :
  exists s1 s2, do_ops (Some example_dns) [OpEvents [example_event]; OpSend 10; OpEvents [example_event]]
      (example_session [Other (-1)] []) = Some (tt, s1)
    ∧ hev_socks5_session_udp_destruct s1 = Some (tt, s2) ∧ length (freed s2) = 2%nat.
Proof.
  destruct (hev_socks5_session_udp_frees (Some example_dns) [OpEvents [example_event]; OpSend 10; OpEvents [example_event]]
    (example_session [Other (-1)] [])) as (s1 & s2 & H1 & _ & _ & H2 & H3 & _).
  - apply example_names.
  - apply example_waiting.
  - done.
  - by repeat constructor.
  - constructor; [apply example_event_ok|]. constructor; [done|]. constructor; [apply example_event_ok | constructor].
  - exists s1, s2. split_and!; [exact H1 | exact H2 | by rewrite H3].
Defined.

End SessionUDPProofs.
