(* ===== verification/TunnelSessions.v ===== *)
(** * The sessions of the tunnel: src/hev-socks5-tunnel.c

    The handlers that accept connections and datagrams, the set of sessions with its
    limit, the end of a session's task, and the task that stops everything.  A session is
    named by the node its object carries; the list of nodes is that of HevList, so a use of
    a node whose object is gone is an error.  Tasks have the states of the task system, which
    ends the process when a task that is not running yet, or not any more, is woken. *)

From S2P Require Import Prelude HevList MappedDNS.

Module TunnelSessions.

(** ** State *)

(** The tasks: those of the tunnel, and one for each session. *)
Inductive task := task_event | task_lwip_io | task_lwip_timer | task_of (x : loc).

#[export] Instance task_eq_dec : EqDecision task.
Proof. solve_decision. Defined.

#[export] Instance task_countable : Countable task.
Proof.
  apply (inj_countable'
    (fun t => match t with task_event => inl 0%nat | task_lwip_io => inl 1%nat | task_lwip_timer => inl 2%nat | task_of x => inr x end)
    (fun c => match c with inl 0%nat => task_event | inl 1%nat => task_lwip_io | inl _ => task_lwip_timer | inr x => task_of x end)).
  by intros [].
Defined.

Inductive HevTaskState := HEV_TASK_STOPPED | HEV_TASK_RUNNING | HEV_TASK_WAITING.

#[export] Instance HevTaskState_eq_dec : EqDecision HevTaskState.
Proof. solve_decision. Defined.

Record HevTask := mk_task { state : HevTaskState; joiner : option task }.

(** [terminated]: the sessions that were told to end and are still there. *)
Record tunnel := mk_tunnel {
  session_set : HevList.state; session_count : Z; run : Z; terminated : gset loc; tasks : gmap task HevTask }.

(** When the task system starts: the three tasks were run and [run] is set. *)
Definition initial_tunnel : tunnel :=
  let running := mk_task HEV_TASK_RUNNING None in
  mk_tunnel HevList.empty_list 0 1 ∅ {[ task_event := running; task_lwip_io := running; task_lwip_timer := running ]}.

Definition on_set {A} (m : M HevList.state A) : M tunnel A := fun t =>
  match m (session_set t) with
  | Some (a, s) => Some (a, mk_tunnel s (session_count t) (run t) (terminated t) (tasks t))
  | None => None
  end.
Definition get {A} (f : tunnel -> A) : M tunnel A := mget (fun t => Some (f t)).
Definition set_count (n : Z) : M tunnel unit :=
  mput (fun t => Some (mk_tunnel (session_set t) n (run t) (terminated t) (tasks t))).
Definition set_run (v : Z) : M tunnel unit :=
  mput (fun t => Some (mk_tunnel (session_set t) (session_count t) v (terminated t) (tasks t))).

Definition set_tasks (f : gmap task HevTask -> gmap task HevTask) : M tunnel unit :=
  mput (fun t => Some (mk_tunnel (session_set t) (session_count t) (run t) (terminated t) (f (tasks t)))).

(** ** The task system *)

(** A task that is freed is not found. *)
Definition hev_task_get (k : task) : M tunnel HevTask := mget (fun t => tasks t !! k).
Definition set_state (k : task) (v : HevTaskState) : M tunnel unit :=
  h ← hev_task_get k; set_tasks (<[ k := mk_task v (joiner h) ]>).

Definition hev_task_new (k : task) : M tunnel unit := set_tasks (<[ k := mk_task HEV_TASK_STOPPED None ]>).

Definition hev_task_run (k : task) : M tunnel unit :=
  h ← hev_task_get k;
  if decide (state h ≠ HEV_TASK_STOPPED) then mret tt else set_state k HEV_TASK_RUNNING.

(** [abort ()] *)
Definition hev_task_wakeup (k : task) : M tunnel unit :=
  h ← hev_task_get k;
  match state h with
  | HEV_TASK_RUNNING => mret tt
  | HEV_TASK_STOPPED => mfail
  | HEV_TASK_WAITING => set_state k HEV_TASK_RUNNING
  end.

(** The current task ends.  The tunnel has references to its own tasks; that of a session is
    freed. *)
Definition hev_task_exit (k : task) : M tunnel unit :=
  h ← hev_task_get k;
  (match joiner h with Some j => hev_task_wakeup j | None => mret tt end);;
  set_state k HEV_TASK_STOPPED;;
  match k with task_of _ => set_tasks (delete k) | _ => mret tt end.

(** ** Sessions *)

(** [hev_socks5_session_terminate (sd->self)]: the session behind the node must be there. *)
Definition terminate (x : loc) : M tunnel unit :=
  mput (fun t => match HevList.nodes (session_set t) !! x with
                 | Some _ => Some (mk_tunnel (session_set t) (session_count t) (run t) ({[ x ]} ∪ terminated t) (tasks t))
                 | None => None
                 end);;
  hev_task_wakeup (task_of x).

(** The object comes and goes with its node. *)
Definition session_new (x : loc) : M tunnel unit := on_set (HevList.alloc_node x).
Definition hev_object_unref (x : loc) : M tunnel unit :=
  on_set (HevList.free_node x);;
  mput (fun t => Some (mk_tunnel (session_set t) (session_count t) (run t) (terminated t ∖ {[ x ]}) (tasks t))).

Section Tunnel.
(** [hev_config_get_misc_max_session_count ()] *)
Context (max_session_count : Z).

(** ** The set *)

Definition hev_socks5_tunnel_insert_session (node : loc) : M tunnel unit :=
  on_set (HevList.hev_list_add_tail node);;
  n ← get session_count;
  set_count (n + 1);;
  n ← get session_count;
  if decide (max_session_count = 0 \/ n < max_session_count) then mret tt else
  node ← on_set HevList.hev_list_first;
  match node with
  | Some x => terminate x
  | None => mfail
  end.

Definition hev_socks5_tunnel_delete_session (node : loc) : M tunnel unit :=
  on_set (HevList.hev_list_del node);;
  n ← get session_count;
  set_count (n - 1).

Definition hev_socks5_tunnel_update_session (node : loc) : M tunnel unit :=
  if decide (max_session_count = 0) then mret tt else
  on_set (HevList.hev_list_del node);;
  on_set (HevList.hev_list_add_tail node).

(** The end of a session's task, after [hev_socks5_session_run]. *)
Definition hev_socks5_session_task_entry (s : loc) : M tunnel unit :=
  hev_socks5_tunnel_delete_session s;;
  hev_object_unref s.

(** ** The handlers *)

Definition ERR_OK : Z := 0.
Definition ERR_MEM : Z := -1.
Definition ERR_RST : Z := -14.
Definition ERR_ABRT : Z := -13.

(** What a handler does with the connection of the stack: the session gets it, or the
    destructor of the session aborts or removes it, or the handler removes it, or the
    mapped DNS gets it, or it is left alone. *)
Inductive fate := Session | Destroyed | Removed | ToDNS | Untouched.

(** [mem]: the memory for the session, when it can be made; [task]: whether the task can. *)
Definition tcp_accept_handler (err : Z) (mem : option loc) (task : bool) : M tunnel (Z * fate) :=
  if decide (err ≠ ERR_OK) then mret (err, Untouched) else
  r ← get run;
  if decide (r = 0) then mret (ERR_RST, Untouched) else
  match mem with
  | None => mret (ERR_MEM, Untouched)
  | Some x =>
      session_new x;;
      if negb task then hev_object_unref x;; mret (ERR_MEM, Destroyed) else
      hev_task_new (task_of x);;
      hev_socks5_tunnel_insert_session x;;
      hev_task_run (task_of x);;
      hev_task_wakeup task_lwip_timer;;
      mret (ERR_OK, Session)
  end.

(** A datagram for a new flow: whether [hev_mapped_dns_get ()] is there, the address family,
    the configuration's address and port of the mapped DNS, and those of the flow. *)
Record datagram := mk_datagram {
  dns : bool; is_v4 : bool; faddr : Z; fport : Z; addr : Z; port : Z }.

Definition to_dns (d : datagram) : bool :=
  dns d && is_v4 d && bool_decide (fport d = port d /\ faddr d = addr d).

Definition udp_recv_handler (d : datagram) (mem : option loc) (task : bool) : M tunnel fate :=
  r ← get run;
  if decide (r = 0) then mret Removed else
  if to_dns d then mret ToDNS else
  match mem with
  | None => mret Removed
  | Some x =>
      session_new x;;
      if negb task then hev_object_unref x;; mret Destroyed else
      hev_task_new (task_of x);;
      hev_socks5_tunnel_insert_session x;;
      hev_task_run (task_of x);;
      hev_task_wakeup task_lwip_timer;;
      mret Session
  end.

(** ** Stopping *)

(** [for (; node; node = hev_list_node_next (node))]; a round for each node is enough. *)
Fixpoint terminate_all (fuel : nat) (node : ptr) : M tunnel unit :=
  match node with
  | None => mret tt
  | Some x =>
      match fuel with
      | O => mfail
      | S fuel =>
          terminate x;;
          next ← on_set (HevList.hev_list_node_next x);
          terminate_all fuel next
      end
  end.

(** After the byte of [hev_socks5_tunnel_stop] has arrived; joining the other tasks is
    modelled in TunnelTasks. *)
Definition event_task_entry : M tunnel unit :=
  set_run 0;;
  node ← on_set HevList.hev_list_first;
  fuel ← get (fun t => S (size (HevList.nodes (session_set t))));
  terminate_all fuel node.

(** ** The steps of the tasks *)

Inductive label :=
  | LAccept (err : Z) (mem : option loc) (task : bool)
  | LDatagram (d : datagram) (mem : option loc) (task : bool)
  | LYield (s : loc)       (* the session's task yields *)
  | LEnd (s : loc)         (* the session's task ends *)
  | LStop.

Definition do_label (l : label) : M tunnel unit :=
  match l with
  | LAccept err mem task => tcp_accept_handler err mem task;; mret tt
  | LDatagram d mem task => udp_recv_handler d mem task;; mret tt
  | LYield s => hev_socks5_tunnel_update_session s
  | LEnd s => hev_socks5_session_task_entry s;; hev_task_exit (task_of s)
  | LStop => event_task_entry
  end.
End Tunnel.

(** ** The mapped DNS's connection *)

(** [p]: the payload of the datagram, NULL when the stack gives none, and [rest] the memory
    behind it; [b]: the memory of the response's buffer.  The response that is sent, if
    any; all is freed and removed. *)
Definition dns_recv_handler (heap : MappedDNS.heap_oracle) (p : option bytes) (rest : bytes) (b : option bytes)
    : M MappedDNS.HevMappedDNS (option bytes) := fun d =>
  match b with
  | None => Some (None, d)
  | Some b =>
      match p with
      | None => None
      | Some p =>
          match MappedDNS.hev_mapped_dns_handle heap (Z.of_nat (length p)) (Z.of_nat (length b))
                  (MappedDNS.mk_io d (p ++ rest) b) with
          | Some (res, s) =>
              Some (if decide (res < 0) then None else Some (take (Z.to_nat res) (MappedDNS.sb s)), MappedDNS.self s)
          | None => None
          end
      end
  end.

End TunnelSessions.
