(* ===== verification/TunnelSessionsProofs.v ===== *)
(** * The sessions of the tunnel: proofs *)

From stdpp Require Import sorting.
From S2P Require Import Prelude HevList MappedDNS MappedDNSProofs MappedDNSHandle TunnelSessions.

Module TunnelSessionsProofs.
Import TunnelSessions.

(** ** The abstract machine: a list of sessions, least recently active first *)

Record spec := mk_spec { ss : list loc; running : bool; ended : gset loc }.

Definition without (x : loc) (l : list loc) : list loc := filter (.≠ x) l.

(** A limit that works: with one of 1, and a negative one, a session is told to end before its
    task runs. *)
Definition sound_limit (max : Z) : Prop := max = 0 \/ 2 <= max.

(** What the task system knows of a task: whether it lives, and who waits for its end. *)
Definition status (t : tunnel) (k : task) : option (bool * option task) :=
  (fun h => (bool_decide (state h ≠ HEV_TASK_STOPPED), joiner h)) <$> tasks t !! k.

Section Spec.
(** The limit, and the status of the tasks that are not of a session, which sessions do not
    change. *)
Context (max : Z) (base : task -> option (bool * option task)).

Definition spec_insert (x : loc) (s : spec) : spec :=
  let l := ss s ++ [x] in
  mk_spec l (running s)
    (if decide (max = 0 \/ Z.of_nat (length l) < max) then ended s
     else match l with y :: _ => {[ y ]} ∪ ended s | [] => ended s end).

Definition spec_new (mem : option loc) (task : bool) (s : spec) : spec :=
  if running s then match mem with Some x => if task then spec_insert x s else s | None => s end else s.

Definition spec_label (l : label) (s : spec) : spec :=
  match l with
  | LAccept err mem task => if decide (err = ERR_OK) then spec_new mem task s else s
  | LDatagram d mem task => if to_dns d then s else spec_new mem task s
  | LYield x => if decide (max = 0) then s else mk_spec (without x (ss s) ++ [x]) (running s) (ended s)
  | LEnd x => mk_spec (without x (ss s)) (running s) (ended s ∖ {[ x ]})
  | LStop => mk_spec (ss s) false (list_to_set (ss s) ∪ ended s)
  end.

(** New memory is new, and only the task of a session that is there yields or ends. *)
Definition enabled (l : label) (s : spec) : Prop :=
  match l with
  | LAccept _ (Some x) _ | LDatagram _ (Some x) _ => x ∉ ss s
  | LYield x | LEnd x => x ∈ ss s
  | _ => True
  end.

(** ** The relation *)

Record core (t : tunnel) (s : spec) : Prop := {
  im_set : HevList.dl_repr (session_set t) (ss s);
  im_dom : dom (HevList.nodes (session_set t)) = list_to_set (ss s);
  im_count : session_count t = Z.of_nat (length (ss s));
  im_run : run t = if running s then 1 else 0;
  im_ended : terminated t = ended s;
  im_sub : ended s ⊆ list_to_set (ss s) }.

(** The tasks of [l] live, and no other session has one. *)
Definition tasks_are (t : tunnel) (l : list loc) : Prop := forall k,
  status t k = match k with
               | task_of x => if decide (x ∈ l) then Some (true, None) else None
               | k => base k
               end.

Record implements (t : tunnel) (s : spec) : Prop := {
  im_core :> core t s;
  im_tasks : tasks_are t (ss s);
  im_timer : running s = true -> fst <$> base task_lwip_timer = Some true }.

Lemma implements_nodup t s : implements t s -> NoDup (ss s).
Proof. intros [[[H _] _ _ _ _ _] _ _]. exact H. Qed.

Lemma without_absent x l : x ∉ l -> without x l = l.
Proof.
  induction l as [|y l IH]; [done|]. intros [Hy Hl]%not_elem_of_cons. unfold without in *.
  rewrite filter_cons_True by congruence. by rewrite IH.
Qed.

Lemma without_middle x l1 l2 : x ∉ l1 -> x ∉ l2 -> without x (l1 ++ x :: l2) = l1 ++ l2.
Proof.
  intros H1 H2. unfold without. rewrite filter_app, filter_cons_False by (intros H; by apply H).
  fold (without x l1). fold (without x l2). by rewrite !without_absent.
Qed.

Lemma wp_on_set {A} (m : M HevList.state A) t (Q : A -> tunnel -> Prop) :
  wp m (session_set t) (fun a s => Q a (mk_tunnel s (session_count t) (run t) (terminated t) (tasks t))) -> wp (on_set m) t Q.
Proof. unfold wp, on_set. by destruct (m (session_set t)) as [[]|]. Qed.

(** *** Tasks *)

(** [t'] is [t] but for the tasks, whose status changes to what [f] says. *)
Definition retask (t t' : tunnel) (f : task -> option (bool * option task)) : Prop :=
  session_set t' = session_set t ∧ session_count t' = session_count t ∧ run t' = run t ∧ terminated t' = terminated t
  ∧ forall k, status t' k = f k.

Definition put (k : task) (v : option (bool * option task)) (f : task -> option (bool * option task)) (k' : task) :=
  if decide (k' = k) then v else f k'.

Lemma put_same k v f : f k = v -> forall k', put k v f k' = f k'.
Proof. intros <- k'. unfold put. by case_decide; subst. Qed.

Lemma status_some t k b j : status t k = Some (b, j) ->
  exists h, tasks t !! k = Some h ∧ joiner h = j ∧ (b = true <-> state h ≠ HEV_TASK_STOPPED).
Proof.
  unfold status. intros (h & Hh & [= -> ->])%fmap_Some. exists h. split_and!; [done | done |]. apply bool_decide_eq_true.
Qed.

Lemma wp_set_tasks g f t (Q : unit -> tunnel -> Prop) :
  (forall k, (fun h => (bool_decide (state h ≠ HEV_TASK_STOPPED), joiner h)) <$> g (tasks t) !! k = f k) ->
  (forall t', retask t t' f -> Q tt t') -> wp (set_tasks g) t Q.
Proof. intros Hf HQ. eapply wp_put; [done|]. by apply HQ. Qed.

Lemma wp_set_state k v b j t (Q : unit -> tunnel -> Prop) : status t k = Some (b, j) ->
  (forall t', retask t t' (put k (Some (bool_decide (v ≠ HEV_TASK_STOPPED), j)) (status t)) -> Q tt t') ->
  wp (set_state k v) t Q.
Proof.
  intros (h & Hh & Hj & _)%status_some HQ. apply wp_bind. eapply wp_get; [done|].
  eapply wp_set_tasks; [|exact HQ]. intros k'. unfold put, status. destruct (decide (k' = k)) as [->|Hk].
  - rewrite lookup_insert_eq. cbn. by rewrite Hj.
  - by rewrite lookup_insert_ne by done.
Qed.

Lemma wp_task_new k t (Q : unit -> tunnel -> Prop) :
  (forall t', retask t t' (put k (Some (false, None)) (status t)) -> Q tt t') -> wp (hev_task_new k) t Q.
Proof.
  intros HQ. eapply wp_set_tasks; [|exact HQ]. intros k'. unfold put, status. destruct (decide (k' = k)) as [->|Hk].
  - by rewrite lookup_insert_eq.
  - by rewrite lookup_insert_ne by done.
Qed.

Lemma wp_task_run k j t (Q : unit -> tunnel -> Prop) : status t k = Some (false, j) ->
  (forall t', retask t t' (put k (Some (true, j)) (status t)) -> Q tt t') -> wp (hev_task_run k) t Q.
Proof.
  intros Hs HQ. destruct (status_some _ _ _ _ Hs) as (h & Hh & Hj & Hb). apply wp_bind. eapply wp_get; [done|].
  rewrite decide_False by (intros Hst; by apply Hb in Hst). by eapply wp_set_state.
Qed.

(** Waking a task that lives: it is still there, and nothing else changes. *)
Lemma wp_wakeup k j t (Q : unit -> tunnel -> Prop) : status t k = Some (true, j) ->
  (forall t', retask t t' (status t) -> Q tt t') -> wp (hev_task_wakeup k) t Q.
Proof.
  intros Hs HQ. destruct (status_some _ _ _ _ Hs) as (h & Hh & Hj & Hb). apply wp_bind. eapply wp_get; [done|].
  destruct (state h) eqn:Hst.
  - by destruct (proj1 Hb eq_refl).
  - apply wp_ret, HQ. by split_and!.
  - eapply wp_set_state; [done|]. intros t' (H1 & H2 & H3 & H4 & H5). apply HQ. split_and!; try done.
    intros k'. rewrite H5. by apply put_same.
Qed.

Lemma core_retask t t' f s : retask t t' f -> core t s -> core t' s.
Proof. intros (H1 & H2 & H3 & H4 & _) []. split; by rewrite ?H1, ?H2, ?H3, ?H4. Qed.

(** *** Sessions *)

Lemma wp_terminate x t (Q : unit -> tunnel -> Prop) : x ∈ dom (HevList.nodes (session_set t)) ->
  status t (task_of x) = Some (true, None) ->
  (forall t', retask (mk_tunnel (session_set t) (session_count t) (run t) ({[ x ]} ∪ terminated t) (tasks t)) t' (status t) -> Q tt t') ->
  wp (terminate x) t Q.
Proof.
  intros Hx Hs HQ. apply wp_bind. eapply wp_put; [apply elem_of_dom in Hx as [n ->]; done|]. by eapply wp_wakeup.
Qed.

(** The memory and the task of a new session, before it is in the set. *)
Record fresh (x : loc) (t : tunnel) (s : spec) : Prop := {
  fr_set : HevList.dl_repr (session_set t) (ss s);
  fr_dom : dom (HevList.nodes (session_set t)) = {[ x ]} ∪ list_to_set (ss s);
  fr_new : x ∉ ss s;
  fr_count : session_count t = Z.of_nat (length (ss s));
  fr_run : run t = if running s then 1 else 0;
  fr_ended : terminated t ∖ {[ x ]} = ended s;
  fr_sub : ended s ⊆ list_to_set (ss s) }.

Lemma wp_insert x t s : sound_limit max -> fresh x t s -> terminated t = ended s ->
  (forall y, y ∈ ss s -> status t (task_of y) = Some (true, None)) ->
  wp (hev_socks5_tunnel_insert_session max x) t (fun _ t' => core t' (spec_insert x s) ∧ forall k, status t' k = status t k).
Proof.
  intros Hmax [Hr Hd Hx Hc Hrun _ Hsub] He Hlive. unfold hev_socks5_tunnel_insert_session.
  apply wp_bind, wp_on_set. eapply wp_mono.
  { apply (HevList.wp_add_tail _ _ _ Hr); [|done]. apply elem_of_dom. rewrite Hd. set_solver. }
  intros _ l' [Hr' Hd']. apply wp_bind. eapply wp_get; [done|]. apply wp_bind. eapply wp_put; [done|].
  apply wp_bind. eapply wp_get; [done|]. cbn [session_count].
  assert (session_count t + 1 = Z.of_nat (length (ss s ++ [x]))) as Hlen by (rewrite Hc, length_app; simpl; lia).
  assert (dom (HevList.nodes l') = list_to_set (ss s ++ [x])) as Hdom by (rewrite Hd', Hd, list_to_set_app_L; set_solver).
  unfold spec_insert. rewrite Hlen. destruct (decide (max = 0 \/ Z.of_nat (length (ss s ++ [x])) < max)) as [Hm|Hm].
  - apply wp_ret. split; [|done]. split; try done. cbn. set_solver.
  - apply wp_bind, wp_on_set. cbn [session_set session_count run terminated tasks].
    eapply wp_mono; [by apply HevList.wp_first|]. intros r l'' [-> ->].
    destruct (ss s) as [|y l] eqn:Hl; cbn [app HevList.head_or].
    { exfalso. apply Hm. cbn [app length]. unfold sound_limit in Hmax. lia. }
    apply wp_terminate; cbn [session_set terminated session_count run].
    + rewrite Hdom. set_solver.
    + rewrite <- (Hlive y); [done | apply list_elem_of_here].
    + intros t' Ht'. split; [|by destruct Ht' as (_ & _ & _ & _ & Hst)].
      eapply core_retask; [exact Ht'|]. cbn [app] in *.
      split; cbn [session_set terminated session_count run ss running ended]; try done; [by rewrite He | set_solver].
Qed.

Lemma wp_new x t s : core t s -> x ∉ ss s ->
  wp (session_new x) t (fun _ t' => fresh x t' s ∧ terminated t' = ended s ∧ forall k, status t' k = status t k).
Proof.
  intros [H1 H2 H3 H4 H5 H6] Hx. apply wp_on_set. eapply wp_mono.
  { apply HevList.wp_list_alloc; [|exact H1]. apply not_elem_of_dom. rewrite H2. set_solver. }
  intros _ l' (Hr & Hn & _). split_and!; try done. split; cbn; try done; [by rewrite Hn, dom_insert_L, H2 | rewrite H5; set_solver].
Qed.

Lemma wp_unref x t (s : spec) : fresh x t s ->
  wp (hev_object_unref x) t (fun _ t' => core t' s ∧ forall k, status t' k = status t k).
Proof.
  intros [H1 H2 Hx H3 H4 H5 H6]. apply wp_bind, wp_on_set. eapply wp_mono.
  { apply HevList.wp_list_free; [|exact Hx|exact H1]. apply elem_of_dom. rewrite H2. set_solver. }
  intros _ l' [Hr Hn]. eapply wp_put; [done|]. split; [|done]. split; cbn; try done. rewrite Hn, dom_delete_L, H2. set_solver.
Qed.

Lemma fresh_retask x t t' f s : retask t t' f -> fresh x t s -> fresh x t' s.
Proof. intros (H1 & H2 & H3 & H4 & _) []. split; by rewrite ?H1, ?H2, ?H3, ?H4. Qed.

(** From the memory to the running task: the new session's task is started after the
    insertion, and the timer is woken. *)
Lemma wp_spec_new {A} x task (a b : A) t s : sound_limit max -> implements t s -> running s = true -> x ∉ ss s ->
  wp (session_new x;;
      if negb task then hev_object_unref x;; mret a else
      hev_task_new (task_of x);; hev_socks5_tunnel_insert_session max x;; hev_task_run (task_of x);;
      hev_task_wakeup task_lwip_timer;; mret b) t
    (fun _ t' => implements t' (spec_new (Some x) task s)).
Proof.
  intros Hmax [Hcore Hts Htm] Hrun Hx. specialize (Htm Hrun). apply wp_bind. eapply wp_mono; [by eapply wp_new|].
  intros _ t1 (Hf & He & Hs1). unfold spec_new. rewrite Hrun.
  destruct task; cbn [negb]; apply wp_bind.
  2:{ eapply wp_mono; [by apply wp_unref|]. intros ? t2 [Hc2 Hs2]. apply wp_ret. split; [done | | done].
      intros k. by rewrite Hs2, Hs1. }
  apply wp_task_new. intros t2 Ht2. pose proof Ht2 as (_ & _ & _ & He2 & Hs2). apply wp_bind.
  assert (forall k, status t2 k = put (task_of x) (Some (false, None)) (status t) k) as Hst2.
  { intros k. rewrite Hs2. unfold put. case_decide; [done | by rewrite Hs1]. }
  eapply wp_mono; [apply (wp_insert x t2 s Hmax); [by eapply fresh_retask | congruence |]|].
  { intros y Hy. rewrite Hst2. unfold put. rewrite decide_False by (intros [= ->]; done). by rewrite Hts, decide_True. }
  intros ? t3 [Hc3 Hs3]. apply wp_bind.
  eapply (wp_task_run _ None); [rewrite Hs3, Hst2; unfold put; by rewrite decide_True|].
  intros t4 Ht4. pose proof Ht4 as (_ & _ & _ & _ & Hs4). apply wp_bind.
  assert (tasks_are t4 (ss s ++ [x])) as Hst4.
  { intros k. rewrite Hs4. unfold put. destruct (decide (k = task_of x)) as [->|Hk].
    - rewrite decide_True; [done|]. set_solver.
    - rewrite Hs3, Hst2. unfold put. rewrite decide_False by done. rewrite Hts. destruct k as [| | |y]; try done.
      apply decide_ext. rewrite elem_of_app, list_elem_of_singleton. naive_solver. }
  destruct (base task_lwip_timer) as [[b0 j]|] eqn:Hb; [|done]. cbn in Htm. injection Htm as ->.
  eapply (wp_wakeup _ j); [by rewrite Hst4, Hb|]. intros t5 Ht5. apply wp_ret. split.
  - eapply core_retask; [exact Ht5|]. by eapply core_retask; [exact Ht4|].
  - destruct Ht5 as (_ & _ & _ & _ & Hs5). intros k. rewrite Hs5, Hst4. by destruct k.
  - intros _. by rewrite Hb.
Qed.

(** The task of a session is gone once it has ended. *)
Lemma wp_exit_session x t l l' : tasks_are t l -> x ∈ l -> (forall y, y ∈ l' <-> y ∈ l ∧ y ≠ x) -> forall s, core t s ->
  wp (hev_task_exit (task_of x)) t (fun _ t' => core t' s ∧ tasks_are t' l').
Proof.
  intros Hts Hx Hl s Hc. assert (status t (task_of x) = Some (true, None)) as Hst by (by rewrite Hts, decide_True).
  destruct (status_some _ _ _ _ Hst) as (h & Hh & Hj & _). apply wp_bind. eapply wp_get; [done|].
  rewrite Hj. apply wp_bind, wp_ret, wp_bind. eapply wp_set_state; [done|].
  intros t1 Ht1. pose proof Ht1 as (_ & _ & _ & _ & Hs1).
  apply (wp_set_tasks _ (put (task_of x) None (status t1))).
  { intros k. unfold put, status. destruct (decide (k = task_of x)) as [->|Hk]; [by rewrite lookup_delete_eq | by rewrite lookup_delete_ne by done]. }
  intros t2 Ht2. split; [by eapply core_retask, core_retask|].
  destruct Ht2 as (_ & _ & _ & _ & Hs2). intros k. rewrite Hs2. unfold put. rewrite Hs1. unfold put.
  destruct (decide (k = task_of x)) as [->|Hk].
  - rewrite decide_False; [done|]. rewrite Hl. tauto.
  - rewrite Hts. destruct k as [| | |y]; try done. apply decide_ext. rewrite Hl. naive_solver.
Qed.

Lemma wp_delete x t s : implements t s -> x ∈ ss s ->
  wp (do_label max (LEnd x)) t (fun _ t' => implements t' (spec_label (LEnd x) s)).
Proof.
  intros Him Hx. pose proof (implements_nodup _ _ Him) as Hnd. destruct Him as [[H1 H2 H3 H4 H5 H6] Hts Htm].
  destruct s as [l r e]. cbn [ss running ended] in *. cbn [do_label spec_label ss running ended].
  destruct (list_elem_of_split _ _ Hx) as (l1 & l2 & ->). apply NoDup_middle in Hnd as (Hx1 & Hx2 & Hnd).
  rewrite without_middle by done. apply wp_bind. apply wp_bind, wp_bind, wp_on_set.
  eapply wp_mono; [by apply HevList.wp_del|]. intros _ l' [Hr Hd].
  apply wp_bind. eapply wp_get; [done|]. eapply wp_put; [done|].
  eapply wp_mono; [apply (wp_unref x _ (mk_spec (l1 ++ l2) r (e ∖ {[ x ]})))|].
  - split; cbn [session_set session_count run terminated tasks ss running ended]; try done.
    + rewrite Hd, H2. rewrite !list_to_set_app_L. cbn. set_solver.
    + set_solver.
    + rewrite H3, !length_app. simpl. lia.
    + by rewrite H5.
    + rewrite list_to_set_app_L in *. cbn in H6. set_solver.
  - intros _ t1 [Hc1 Hs1]. eapply wp_mono; [apply (wp_exit_session x t1 (l1 ++ x :: l2) (l1 ++ l2)); [| done | | exact Hc1]|].
    + intros k. by rewrite Hs1, <- Hts.
    + intros y. set_solver.
    + by intros _ t2 [Hc2 Ht2].
Qed.

Lemma wp_update x t s : implements t s -> x ∈ ss s ->
  wp (hev_socks5_tunnel_update_session max x) t (fun _ t' => implements t' (spec_label (LYield x) s)).
Proof.
  intros Him Hx. unfold hev_socks5_tunnel_update_session. cbn [spec_label].
  destruct (decide (max = 0)); [by apply wp_ret|].
  pose proof (implements_nodup _ _ Him) as Hnd. destruct Him as [[H1 H2 H3 H4 H5 H6] Hts Htm].
  destruct s as [l r e]. cbn [ss running ended] in *.
  destruct (list_elem_of_split _ _ Hx) as (l1 & l2 & ->). pose proof Hnd as Hnd'. apply NoDup_middle in Hnd' as (Hx1 & Hx2 & _).
  rewrite without_middle by done. apply wp_bind, wp_on_set.
  eapply wp_mono; [by apply HevList.wp_del|]. intros _ l' [Hr Hd]. apply wp_on_set. cbn [session_set session_count run terminated tasks].
  eapply wp_mono; [apply (HevList.wp_add_tail _ _ x Hr)|].
  - apply elem_of_dom. rewrite Hd, H2. set_solver.
  - set_solver.
  - intros _ l'' [Hr' Hd']. split; [split|..]; cbn [session_set session_count run terminated ss running ended]; try done.
    + rewrite Hd', Hd, H2, !list_to_set_app_L. cbn. set_solver.
    + rewrite H3, !length_app. simpl. lia.
    + rewrite !list_to_set_app_L in *. cbn in *. set_solver.
    + intros k. etrans; [apply (Hts k)|].
      destruct k as [| | |y]; try done. apply decide_ext. set_solver.
Qed.

(** The walk over the set, from its middle. *)
Lemma wp_terminate_all l2 : forall fuel l1 t, HevList.dl_repr (session_set t) (l1 ++ l2) ->
  dom (HevList.nodes (session_set t)) = list_to_set (l1 ++ l2) -> (length l2 < fuel)%nat ->
  (forall x, x ∈ l2 -> status t (task_of x) = Some (true, None)) ->
  wp (terminate_all fuel (HevList.head_or l2 None)) t (fun _ t' =>
    retask (mk_tunnel (session_set t) (session_count t) (run t) (list_to_set l2 ∪ terminated t) (tasks t)) t' (status t)).
Proof.
  induction l2 as [|x l2 IH]; intros fuel l1 t Hr Hd Hf Hl.
  { destruct fuel; apply wp_ret; split_and!; try done; cbn; set_solver. }
  destruct fuel as [|fuel]; [simpl in Hf; lia|]. cbn [terminate_all HevList.head_or].
  apply wp_bind, wp_terminate; [rewrite Hd; set_solver | apply Hl, list_elem_of_here|].
  intros t1 (E1 & E2 & E3 & E4 & E5). cbn [session_set session_count run terminated] in *.
  apply wp_bind, wp_on_set. rewrite E1.
  eapply wp_mono; [by eapply HevList.wp_node_next|]. intros r l' [-> ->].
  eapply wp_mono; [apply (IH fuel (l1 ++ [x])); cbn [session_set]; [by rewrite <- app_assoc | by rewrite <- app_assoc | simpl in Hf; lia|]|].
  - intros y Hy. etrans; [apply E5|]. apply Hl. by apply list_elem_of_further.
  - intros _ t' (F1 & F2 & F3 & F4 & F5). cbn [session_set session_count run terminated] in *.
    split_and!; cbn [session_set session_count run terminated]; [done | congruence | congruence | rewrite F4, E4; set_solver |].
    intros k. rewrite F5. unfold status at 1. cbn [tasks]. apply E5.
Qed.

Lemma wp_stop t s : implements t s -> wp event_task_entry t (fun _ t' => implements t' (spec_label LStop s)).
Proof.
  intros [[H1 H2 H3 H4 H5 H6] Hts Htm]. unfold event_task_entry. apply wp_bind. eapply wp_put; [done|].
  apply wp_bind, wp_on_set. cbn [session_set session_count run terminated tasks].
  eapply wp_mono; [by apply HevList.wp_first|]. intros r l' [-> ->].
  apply wp_bind. eapply wp_get; [done|]. cbn [session_set session_count run terminated tasks].
  assert (size (HevList.nodes (session_set t)) = length (ss s)) as Hsize.
  { rewrite <- size_dom, H2. apply size_list_to_set. destruct H1 as [H1 _]. exact H1. }
  eapply wp_mono; [apply (wp_terminate_all (ss s) _ []); cbn [session_set app]; [done | done | rewrite Hsize; lia |]|].
  - intros x Hx. etrans; [apply (Hts (task_of x))|]. by rewrite decide_True.
  - intros ? t' Ht'. split; [eapply core_retask; [exact Ht'|] | |].
    + split; cbn; try done; [by rewrite H5 | set_solver].
    + destruct Ht' as (_ & _ & _ & _ & Hs). intros k. rewrite Hs. apply Hts.
    + done.
Qed.

Lemma wp_label l t s : sound_limit max -> implements t s -> enabled l s ->
  wp (do_label max l) t (fun _ t' => implements t' (spec_label l s)).
Proof.
  intros Hmax Him He. destruct l as [err mem task|d mem task|x|x|]; cbn [spec_label enabled] in *.
  - cbn [do_label]. apply wp_bind. eapply wp_mono with (P := fun _ t' => implements t' _); [|intros _ t' H; apply wp_ret; exact H].
    unfold tcp_accept_handler. destruct (decide (err = ERR_OK)) as [->|Hne].
    + rewrite decide_False by (intros H; by apply H). apply wp_bind. eapply wp_get; [done|].
      pose proof (im_run _ _ Him) as Hrun. unfold spec_new. destruct (running s) eqn:Hr; rewrite Hrun; cbn.
      * destruct mem as [x|]; [|by apply wp_ret].
        pose proof (wp_spec_new x task (ERR_MEM, Destroyed) (ERR_OK, Session) t s Hmax Him Hr He) as Hw.
        unfold spec_new in Hw. by rewrite Hr in Hw.
      * by apply wp_ret.
    + rewrite decide_True by done. by apply wp_ret.
  - cbn [do_label]. apply wp_bind. eapply wp_mono with (P := fun _ t' => implements t' _); [|intros _ t' H; apply wp_ret; exact H].
    unfold udp_recv_handler. apply wp_bind. eapply wp_get; [done|].
    pose proof (im_run _ _ Him) as Hrun. unfold spec_new. destruct (running s) eqn:Hr; rewrite Hrun; cbn.
    + destruct (to_dns d); [by apply wp_ret|]. destruct mem as [x|]; [|by apply wp_ret].
      pose proof (wp_spec_new x task Destroyed Session t s Hmax Him Hr He) as Hw.
      unfold spec_new in Hw. by rewrite Hr in Hw.
    + destruct (to_dns d); by apply wp_ret.
  - by apply wp_update.
  - by apply wp_delete.
  - by apply wp_stop.
Qed.

(** ** Sequences of steps *)

Fixpoint do_labels (ls : list label) : M tunnel unit :=
  match ls with [] => mret tt | l :: ls => do_label max l;; do_labels ls end.

Definition spec_labels (ls : list label) (s : spec) : spec := foldl (fun s l => spec_label l s) s ls.

Fixpoint enabled_all (ls : list label) (s : spec) : Prop :=
  match ls with [] => True | l :: ls => enabled l s ∧ enabled_all ls (spec_label l s) end.

Definition initial_spec : spec := mk_spec [] true ∅.

(** At the start all tasks of the tunnel live, and nobody waits for them. *)
Lemma implements_initial : (forall k, base k = Some (true, None)) -> implements initial_tunnel initial_spec.
Proof.
  intros Hb. split; [split; try done; apply HevList.dl_repr_empty | | by rewrite Hb].
  intros [| | |x]; rewrite ?Hb; [done..|]. by rewrite decide_False by apply not_elem_of_nil.
Qed.

Lemma wp_labels ls : sound_limit max -> forall t s, implements t s -> enabled_all ls s ->
  wp (do_labels ls) t (fun _ t' => implements t' (spec_labels ls s)).
Proof.
  intros Hmax. induction ls as [|l ls IH]; intros t s Him He; [by apply wp_ret|]. destruct He as [He Hes].
  cbn [do_labels]. apply wp_bind. eapply wp_mono; [by apply wp_label|]. intros ? t1 H1.
  cbn [spec_labels foldl]. by apply IH.
Qed.

Lemma enabled_all_app ls k : forall s, enabled_all (ls ++ k) s -> enabled_all k (spec_labels ls s).
Proof. induction ls as [|l ls IH]; intros s; [done|]. intros [_ H]. by apply IH. Qed.

Lemma enabled_all_snoc ls l s : enabled_all (ls ++ [l]) s -> enabled_all ls s ∧ enabled l (spec_labels ls s).
Proof.
  revert s. induction ls as [|l0 ls IH]; intros s; cbn; [tauto|]. intros [H1 H2]. by destruct (IH _ H2).
Qed.

Lemma spec_labels_snoc ls l s : spec_labels (ls ++ [l]) s = spec_label l (spec_labels ls s).
Proof. unfold spec_labels. by rewrite foldl_app. Qed.

Lemma without_elem x y l : y ∈ without x l ↔ y ∈ l ∧ y ≠ x.
Proof. unfold without. rewrite list_elem_of_filter. tauto. Qed.

(** An induction over the states that can be reached. *)
Lemma spec_ind (P : list label -> spec -> Prop) : sound_limit max -> (forall k, base k = Some (true, None)) ->
  P [] initial_spec ->
  (forall ls l, let s := spec_labels ls initial_spec in
    enabled_all ls initial_spec -> NoDup (ss s) -> enabled l s -> P ls s -> P (ls ++ [l]) (spec_label l s)) ->
  forall ls, enabled_all ls initial_spec -> P ls (spec_labels ls initial_spec).
Proof.
  intros Hmax Hb H0 Hstep ls. induction ls as [|l ls IH] using rev_ind; intros He; [done|].
  destruct (enabled_all_snoc _ _ _ He) as [He1 He2]. rewrite spec_labels_snoc. apply Hstep; auto.
  destruct (wp_elim _ _ _ (wp_labels ls Hmax _ _ (implements_initial Hb) He1)) as ([] & t & _ & H). by eapply implements_nodup.
Qed.

(** ** The order of the set *)

Definition touches (l : label) (x : loc) : bool :=
  match l with
  | LAccept _ (Some y) _ | LDatagram _ (Some y) _ | LYield y => bool_decide (y = x)
  | _ => false
  end.

Fixpoint last_active_rev (ls : list label) (x : loc) : nat :=
  match ls with [] => 0 | l :: ls => if touches l x then S (length ls) else last_active_rev ls x end.

(** The number of the last step in which a session did something. *)
Definition last_active (ls : list label) (x : loc) : nat := last_active_rev (reverse ls) x.

Lemma last_active_snoc ls l x :
  last_active (ls ++ [l]) x = if touches l x then S (length ls) else last_active ls x.
Proof. unfold last_active. rewrite reverse_snoc. cbn. by rewrite length_reverse. Qed.

Lemma last_active_bound ls x : (last_active ls x <= length ls)%nat.
Proof.
  induction ls as [|l ls IH] using rev_ind; [done|]. rewrite last_active_snoc, length_app. cbn.
  destruct (touches l x); lia.
Qed.

Definition older (ls : list label) (x y : loc) : Prop := (last_active ls x < last_active ls y)%nat.

Lemma sorted_keep ls l (k : list loc) : (forall x, x ∈ k -> touches l x = false) ->
  StronglySorted (older ls) k -> StronglySorted (older (ls ++ [l])) k.
Proof.
  intros Ht H. induction H as [|x k H IH Hall]; [constructor|]. constructor.
  - apply IH. intros y Hy. apply Ht. by apply list_elem_of_further.
  - rewrite Forall_forall in Hall |- *. intros y Hy. unfold older. rewrite !last_active_snoc.
    rewrite !Ht by (by apply list_elem_of_here || by apply list_elem_of_further). by apply Hall.
Qed.

Lemma sorted_snoc ls l (k : list loc) x : x ∉ k -> touches l x = true -> (forall y, y ∈ k -> touches l y = false) ->
  StronglySorted (older ls) k -> StronglySorted (older (ls ++ [l])) (k ++ [x]).
Proof.
  intros Hx Hl Ht H. apply StronglySorted_app_2; [|by apply sorted_keep | by repeat constructor].
  intros y z Hy ->%list_elem_of_singleton. unfold older. rewrite !last_active_snoc.
  rewrite Hl, (Ht y Hy). pose proof (last_active_bound ls y). lia.
Qed.

Lemma sorted_without (R : loc -> loc -> Prop) x (k : list loc) : StronglySorted R k -> StronglySorted R (without x k).
Proof.
  induction 1 as [|y k H IH Hall]; [constructor|]. unfold without in *. rewrite filter_cons. case_decide; [|done].
  constructor; [done|]. rewrite Forall_forall in Hall |- *. intros z Hz. apply Hall. by apply list_elem_of_filter in Hz as [_ ?].
Qed.

Lemma touches_mem (mem : option loc) y :
  match mem with Some x => bool_decide (x = y) | None => false end = bool_decide (mem = Some y).
Proof.
  destruct mem as [x|]; [apply bool_decide_ext; naive_solver|]. symmetry. by apply bool_decide_eq_false_2.
Qed.

Lemma sorted_step ls l s : max ≠ 0 -> NoDup (ss s) -> enabled l s ->
  StronglySorted (older ls) (ss s) -> StronglySorted (older (ls ++ [l])) (ss (spec_label l s)).
Proof.
  intros Hmax Hnd He Hs.
  assert (forall mem task, (forall y, touches l y = bool_decide (mem = Some y)) -> (forall y, mem = Some y -> y ∉ ss s) ->
    StronglySorted (older (ls ++ [l])) (ss (spec_new mem task s))) as Hnew.
  { intros mem task Ht Hf. assert (StronglySorted (older (ls ++ [l])) (ss s)) as Hkeep.
    { apply sorted_keep; [|done]. intros y Hy. rewrite Ht. apply bool_decide_eq_false_2. intros ->. by eapply Hf. }
    unfold spec_new. destruct (running s); [|done]. destruct mem as [x|]; [|done]. destruct task; [|done].
    cbn [ss spec_insert]. apply sorted_snoc; [by apply Hf | rewrite Ht; by apply bool_decide_eq_true_2 | | done].
    intros y Hy. rewrite Ht. apply bool_decide_eq_false_2. intros [= ->]. by eapply Hf. }
  assert (forall x : loc, (forall y, touches l y = bool_decide (Some x = Some y)) -> x ∉ ss s ->
    StronglySorted (older (ls ++ [l])) (ss s)) as Hskip.
  { intros x Ht Hx. apply sorted_keep; [|done]. intros y Hy. rewrite Ht. apply bool_decide_eq_false_2. by intros [= ->]. }
  destruct l as [err mem task|d mem task|x|x|]; cbn [spec_label enabled] in *.
  - case_decide; [apply Hnew; [apply touches_mem | by intros y ->]|].
    destruct mem as [x|]; [apply (Hskip x); [apply (touches_mem (Some x)) | done] | by apply sorted_keep].
  - destruct (to_dns d); [destruct mem as [x|]; [apply (Hskip x); [apply (touches_mem (Some x)) | done] | by apply sorted_keep]|].
    apply Hnew; [apply touches_mem | by intros y ->].
  - rewrite decide_False by done. cbn [ss]. apply sorted_snoc.
    + rewrite without_elem. tauto.
    + cbn. by apply bool_decide_eq_true_2.
    + intros y [_ Hy]%without_elem. cbn. apply bool_decide_eq_false_2. congruence.
    + by apply sorted_without.
  - cbn [ss]. apply sorted_keep; [done|]. by apply sorted_without.
  - by apply sorted_keep.
Qed.

Lemma sorted_reachable ls : sound_limit max -> (forall k, base k = Some (true, None)) -> max ≠ 0 -> enabled_all ls initial_spec ->
  StronglySorted (older ls) (ss (spec_labels ls initial_spec)).
Proof.
  intros Hsound Hb Hmax. apply (spec_ind (fun ls s => StronglySorted (older ls) (ss s)) Hsound Hb); [constructor|].
  intros ls0 l s _ Hnd He Hs. by apply sorted_step.
Qed.

(** ** The limit *)

(** No session is added while one that was told to end is still there. *)
Fixpoint prompt (ls : list label) (s : spec) : Prop :=
  match ls with
  | [] => True
  | l :: ls => match l with LAccept _ _ _ | LDatagram _ _ _ => ended s = ∅ | _ => True end ∧ prompt ls (spec_label l s)
  end.

Lemma without_length x l : (length (without x l) <= length l)%nat.
Proof. apply length_filter. Qed.

Definition within (s : spec) : Prop :=
  Z.of_nat (length (ss s)) <= max ∧ (ended s = ∅ -> Z.of_nat (length (ss s)) <= max - 1).

Lemma within_step l s : 1 <= max -> NoDup (ss s) -> ended s ⊆ list_to_set (ss s) -> enabled l s ->
  match l with LAccept _ _ _ | LDatagram _ _ _ => ended s = ∅ | _ => True end ->
  within s -> within (spec_label l s).
Proof.
  intros Hmax Hnd Hsub He Hp [H1 H2].
  assert (forall mem task, ended s = ∅ -> within (spec_new mem task s)) as Hnew.
  { intros mem task He0. specialize (H2 He0). unfold spec_new. destruct (running s); [|by split].
    destruct mem as [x|]; [|by split]. destruct task; [|by split]. unfold spec_insert, within. cbn [ss ended].
    rewrite length_app. cbn [length]. split; [lia|]. case_decide as Hm; [lia|].
    destruct (ss s ++ [x]) as [|y k] eqn:Hk; [by destruct (ss s)|]. set_solver. }
  destruct l as [err mem task|d mem task|x|x|]; cbn [spec_label].
  - case_decide; [by apply Hnew | by split].
  - destruct (to_dns d); [by split | by apply Hnew].
  - case_decide; [by split|]. unfold within. cbn [ss ended]. rewrite length_app. cbn [length].
    assert (length (without x (ss s)) < length (ss s))%nat by (eapply length_filter_lt; [exact He | by intros Hx; apply Hx]).
    split; [lia|]. intros Hz. specialize (H2 Hz). lia.
  - unfold within. cbn [ss ended].
    assert (length (without x (ss s)) < length (ss s))%nat by (eapply length_filter_lt; [exact He | by intros Hx; apply Hx]).
    split; intros; lia.
  - unfold within. cbn [ss ended]. split; [done|]. intros Hz. destruct (ss s) as [|y k]; [cbn; lia|]. set_solver.
Qed.

Lemma within_labels ls : forall t s, 2 <= max -> implements t s -> enabled_all ls s -> prompt ls s -> within s ->
  within (spec_labels ls s).
Proof.
  induction ls as [|l ls IH]; intros t s Hmax Him He Hp Hw; [done|]. destruct He as [He Hes], Hp as [Hp Hps].
  destruct (wp_elim _ _ _ (wp_label l t s ltac:(by right) Him He)) as ([] & t' & _ & Him').
  cbn [spec_labels foldl]. apply (IH t' _ Hmax Him' Hes Hps).
  apply within_step; try done; [lia | by eapply implements_nodup | by destruct Him as [[] _ _]].
Qed.

(** ** After the stop *)

Lemma stopped_step l s : running s = false -> enabled l s -> list_to_set (ss s) ⊆ ended s ->
  running (spec_label l s) = false ∧ list_to_set (ss (spec_label l s)) ⊆ ended (spec_label l s)
  ∧ forall x, x ∈ ss (spec_label l s) -> x ∈ ss s ∧ l ≠ LEnd x.
Proof.
  intros Hr He Hs. assert (forall mem task, spec_new mem task s = s) as Hnew by (intros; unfold spec_new; by rewrite Hr).
  destruct l as [err mem task|d mem task|x|x|]; cbn [spec_label enabled] in *; rewrite ?Hnew.
  - case_decide; by split_and!.
  - destruct (to_dns d); by split_and!.
  - case_decide; [by split_and!|]. cbn. split_and!; [done | | ].
    + rewrite list_to_set_app_L. intros y Hy. apply Hs.
      apply elem_of_union in Hy as [Hy|Hy]; [apply elem_of_list_to_set in Hy; apply elem_of_list_to_set; by apply without_elem in Hy as [? _] | set_solver].
    + intros y [[Hy _]%without_elem|Hy]%elem_of_app; split; try done. set_solver.
  - cbn. split_and!; [done | | ].
    + intros y [Hy Hne]%elem_of_list_to_set%without_elem. set_solver.
    + intros y [Hy Hne]%without_elem. split; [done | congruence].
  - cbn. by split_and!; [| set_solver |].
Qed.

Lemma stopped_labels ls : forall s, running s = false -> enabled_all ls s -> list_to_set (ss s) ⊆ ended s ->
  list_to_set (ss (spec_labels ls s)) ⊆ ended (spec_labels ls s)
  ∧ forall x, x ∈ ss (spec_labels ls s) -> x ∈ ss s ∧ LEnd x ∉ ls.
Proof.
  induction ls as [|l ls IH]; intros s Hr He Hs.
  { split; [done|]. intros x Hx. split; [done|]. apply not_elem_of_nil. }
  destruct He as [He Hes]. destruct (stopped_step l s Hr He Hs) as (H1 & H2 & H3).
  destruct (IH _ H1 Hes H2) as [H4 H5]. split; [done|]. intros x Hx. destruct (H5 x Hx) as [H6 H7].
  destruct (H3 x H6) as [H8 H9]. split; [done|]. intros [?|?]%elem_of_cons; [congruence | done].
Qed.

End Spec.

(** ** Properties *)

(** At the start, seen from the sessions. *)
Definition started (k : task) : option (bool * option task) := Some (true, None).

Lemma wp_initial max ls : sound_limit max -> enabled_all max ls initial_spec ->
  wp (do_labels max ls) initial_tunnel (fun _ t => implements started t (spec_labels max ls initial_spec)).
Proof. intros Hmax He. apply wp_labels; [done | by apply implements_initial | done]. Qed.


(** With a limit of one, or a negative one, the first session ends the process: it is told to
    end when its task does not run yet. *)
Lemma insert_first_aborts max x t : max ≠ 0 -> max <= 1 -> HevList.dl_repr (session_set t) [] ->
  x ∈ dom (HevList.nodes (session_set t)) -> session_count t = 0 ->
  tasks t !! task_of x = Some (mk_task HEV_TASK_STOPPED None) -> hev_socks5_tunnel_insert_session max x t = None.
Proof.
  intros Hmax Hle Hr Hx Hc Ht. unfold hev_socks5_tunnel_insert_session.
  destruct (wp_elim _ _ _ (HevList.wp_add_tail _ _ x Hr (proj1 (elem_of_dom _ _) Hx) ltac:(apply not_elem_of_nil)))
    as ([] & l' & Ha & Hr' & Hd).
  destruct (wp_elim _ _ _ (HevList.wp_first _ _ Hr')) as (r & l'' & Hf & -> & ->).
  assert (is_Some (HevList.nodes l' !! x)) as [n Hn] by (apply elem_of_dom; set_solver).
  unfold mbind, M_bind, on_set. rewrite Ha. cbn [get mget set_count mput session_set session_count].
  unfold get, mget. cbn [session_count]. rewrite Hc. rewrite decide_False by lia.
  cbn [session_set]. rewrite Hf. cbn [HevList.head_or app].
  unfold terminate, mbind, M_bind, mput. cbn [session_set]. rewrite Hn.
  unfold hev_task_wakeup, hev_task_get, mbind, M_bind, mget. cbn [tasks]. by rewrite Ht.
Qed.

Theorem hev_socks5_tunnel_insert_session_aborts max x : max ≠ 0 -> max <= 1 ->
  tcp_accept_handler max ERR_OK (Some x) true initial_tunnel = None
  ∧ forall d, to_dns d = false -> udp_recv_handler max d (Some x) true initial_tunnel = None.
Proof.
  intros Hmax Hle. pose proof (implements_initial started (fun _ => eq_refl)) as [Hc _ _].
  destruct (wp_elim _ _ _ (wp_new x _ _ Hc ltac:(apply not_elem_of_nil))) as ([] & t1 & H1 & [F1 F2 _ F4 _ _ _] & _ & _).
  assert (forall (A : Type) (b : A), (hev_task_new (task_of x);; hev_socks5_tunnel_insert_session max x;;
    hev_task_run (task_of x);; hev_task_wakeup task_lwip_timer;; mret b) t1 = None) as Hins.
  { intros A b. unfold mbind at 1, M_bind at 1, hev_task_new, set_tasks, mput. unfold mbind at 1, M_bind at 1.
    rewrite insert_first_aborts; try done; cbn [session_set session_count tasks ss initial_spec];
      [rewrite F2; set_solver | by rewrite lookup_insert_eq]. }
  split.
  - unfold tcp_accept_handler. rewrite decide_False by (intros H; by apply H).
    unfold mbind at 1, M_bind at 1, get, mget. cbn [run initial_tunnel]. rewrite decide_False by done.
    unfold mbind at 1, M_bind at 1. fold initial_tunnel. rewrite H1. cbn [negb]. apply Hins.
  - intros d Hd. unfold udp_recv_handler. unfold mbind at 1, M_bind at 1, get, mget. cbn [run initial_tunnel].
    rewrite decide_False by done. rewrite Hd. unfold mbind at 1, M_bind at 1. fold initial_tunnel. rewrite H1. cbn [negb]. apply Hins.
Qed.

(** When the limit is reached the session that is told to end is the one that has been
    idle for the longest time, never the new one. *)
Theorem hev_socks5_tunnel_insert_session_lru max ls x t : 2 <= max -> enabled_all max (ls ++ [LAccept ERR_OK (Some x) true]) initial_spec ->
  do_labels max ls initial_tunnel = Some (tt, t) -> run t = 1 -> session_count t + 1 >= max ->
  exists y t', do_label max (LAccept ERR_OK (Some x) true) t = Some (tt, t') ∧ terminated t' = {[ y ]} ∪ terminated t
    ∧ y ∈ ss (spec_labels max ls initial_spec)
    ∧ forall z, z ∈ ss (spec_labels max ls initial_spec) -> (last_active ls y <= last_active ls z)%nat.
Proof.
  intros Hmax He Ht Hrun Hcount. destruct (enabled_all_snoc _ _ _ _ He) as [He1 He2].
  assert (sound_limit max) as Hsound by (by right).
  destruct (wp_elim _ _ _ (wp_initial max ls Hsound He1)) as ([] & t0 & Ht0 & Him).
  rewrite Ht in Ht0. injection Ht0 as <-. set (s := spec_labels max ls initial_spec) in *.
  destruct (wp_elim _ _ _ (wp_label max _ _ t s Hsound Him He2)) as ([] & t' & Ht' & Him').
  pose proof (sorted_reachable max started ls Hsound (fun _ => eq_refl) ltac:(lia) He1) as Hsort. fold s in Hsort.
  pose proof (im_run _ _ Him) as Hr. rewrite Hrun in Hr. destruct (running s) eqn:Hrs; [|done].
  pose proof (im_ended _ _ Him') as Hend. pose proof (im_ended _ _ Him) as Hend0. pose proof (im_count _ _ Him) as Hc.
  cbn [spec_label] in Hend. rewrite decide_True in Hend by done. unfold spec_new in Hend. rewrite Hrs in Hend.
  unfold spec_insert in Hend. cbn [ended] in Hend.
  rewrite decide_False in Hend by (rewrite length_app; cbn [length]; lia).
  destruct (ss s) as [|y k] eqn:Hss; cbn [app] in Hend; [cbn [length] in Hc; lia|].
  exists y, t'. split_and!; [done | by rewrite Hend, Hend0 | apply list_elem_of_here |].
  apply StronglySorted_inv in Hsort as [_ Hall]. rewrite Forall_forall in Hall.
  intros z [->|Hz]%elem_of_cons; [done|]. specialize (Hall z Hz). unfold older in Hall. lia.
Qed.

(** C34: What the limit bounds.  As long as sessions that are told to end are gone before the
    next one starts, there are never more than the configured number, and never that many
    that may go on: with a limit of n, the n-th session ends another one. *)
Theorem session_limit max ls t :
  2 <= max -> enabled_all max ls initial_spec -> prompt max ls initial_spec ->
  do_labels max ls initial_tunnel = Some (tt, t) ->
  session_count t <= max ∧ (terminated t = ∅ -> session_count t <= max - 1).
Proof.
  intros Hmax He Hp Ht. destruct (wp_elim _ _ _ (wp_initial max ls ltac:(by right) He)) as ([] & t0 & Ht0 & Him).
  rewrite Ht in Ht0. injection Ht0 as <-. rewrite (im_count _ _ Him), (im_ended _ _ Him).
  apply (within_labels max started ls _ _ Hmax (implements_initial started (fun _ => eq_refl)) He Hp). split; cbn; lia.
Qed.

(** A stop ends everything.  After it no session enters the set, every session in it has
    been told to end, and once their tasks have ended none is left: the list is empty, the
    counter is 0 and no session object exists. *)
Theorem event_task_entry_ends_all max ls ls' t : sound_limit max ->
  enabled_all max (ls ++ LStop :: ls') initial_spec ->
  do_labels max (ls ++ LStop :: ls') initial_tunnel = Some (tt, t) ->
  let s := spec_labels max ls initial_spec in
  (forall x, x ∈ ss (spec_labels max (ls ++ LStop :: ls') initial_spec) -> x ∈ ss s ∧ x ∈ terminated t)
  ∧ ((forall x, x ∈ ss s -> LEnd x ∈ ls') ->
     session_count t = 0 ∧ HevList.dl_repr (session_set t) [] ∧ HevList.nodes (session_set t) = ∅).
Proof.
  intros Hmax He Ht s. destruct (wp_elim _ _ _ (wp_initial max _ Hmax He)) as ([] & t0 & Ht0 & Him).
  rewrite Ht in Ht0. injection Ht0 as <-.
  destruct (enabled_all_app _ _ _ _ He) as [_ He'].
  assert (spec_labels max (ls ++ LStop :: ls') initial_spec = spec_labels max ls' (spec_label max LStop s)) as Heq
    by (unfold spec_labels; by rewrite foldl_app).
  rewrite Heq in *. destruct (stopped_labels max ls' (spec_label max LStop s) ltac:(done) He' ltac:(cbn; set_solver)) as [H1 H2].
  split.
  - intros x Hx. destruct (H2 x Hx) as [H3 _]. split; [done|]. rewrite (im_ended _ _ Him). apply H1. by apply elem_of_list_to_set.
  - intros Hall. assert (ss (spec_labels max ls' (spec_label max LStop s)) = []) as Hnil.
    { destruct (ss (spec_labels max ls' (spec_label max LStop s))) as [|x k] eqn:Hk; [done|].
      destruct (H2 x) as [H3 H4]; [apply list_elem_of_here|]. by destruct H4; apply Hall. }
    destruct Him as [[Hr Hd Hc _ _ _] _ _]. rewrite Hnil in *. split_and!; [done | done |].
    by apply dom_empty_inv_L.
Qed.

(** The mapped DNS's handler answers any datagram of at least a header's length, and
    leaves the cache a cache; what it sends fits the buffer. *)
Theorem dns_recv_handler_ok (heap : MappedDNS.heap_oracle) `{!MappedDNSHandle.GoodHeap heap} d c p rest b :
  MappedDNSProofs.cache d c -> bytes_ok (p ++ rest) -> (12 <= length p)%nat -> rest ≠ [] ->
  exists r d' c', dns_recv_handler heap (Some p) rest (Some b) d = Some (r, d') ∧ MappedDNSProofs.cache d' c'
    ∧ (forall v, r = Some v -> (12 <= length v <= length b)%nat).
Proof.
  intros Hc Hok Hp Hrest. unfold dns_recv_handler.
  assert (length p < length (p ++ rest))%nat as Hlen by (rewrite length_app; destruct rest; [done | cbn; lia]).
  destruct (wp_elim _ _ _ (MappedDNSHandle.wp_handle heap (MappedDNS.max d) (MappedDNS.net d) (MappedDNS.mask d)
    (length (p ++ rest)) (length b) (Z.of_nat (length p)) (Z.of_nat (length b)) (MappedDNS.mk_io d (p ++ rest) b)
    ltac:(split; [by exists c | done | done | done]) ltac:(lia) ltac:(lia)))
    as (r & st & -> & [[c' Hc'] _ _ Hsb] & Hr).
  eexists _, _, c'. split_and!; [reflexivity | done |].
  intros v. case_decide; [done|]. intros [= <-]. rewrite length_take, Hsb. lia.
Qed.

(** ** Witnesses *)

#[export] Instance enabled_dec l s : Decision (enabled l s).
Proof. destruct l as [err [x|] task|d [x|] task|x|x|]; cbn [enabled]; apply _. Defined.

#[export] Instance enabled_all_dec max ls s : Decision (enabled_all max ls s).
Proof.
  revert s. induction ls as [|l ls IH]; intros s; cbn; [left; exact I|].
  destruct (decide (enabled l s)) as [H|H]; [|right; tauto].
  destruct (IH (spec_label max l s)) as [H'|H']; [left; tauto | right; tauto].
Defined.

Definition example_accept (x : loc) : label := LAccept ERR_OK (Some x) true.
Definition example_flow : datagram := mk_datagram true true 1 53 1 8053.

(** Three sessions with a limit of three: the second is the one idle for longest. *)
Definition example_run : list label :=
  [ example_accept 1; LDatagram example_flow (Some 2%positive) true; LYield 1 ].

Definition example_tunnel (max : Z) (ls : list label) : tunnel :=
  match do_labels max ls initial_tunnel with Some (_, t) => t | None => initial_tunnel end.


Lemma hev_socks5_tunnel_insert_session_lru_witness :
  exists y t', do_label 3 (example_accept 3) (example_tunnel 3 example_run) = Some (tt, t')
    ∧ terminated t' = {[ y ]} ∪ terminated (example_tunnel 3 example_run).
Proof.
  destruct (hev_socks5_tunnel_insert_session_lru 3 example_run 3 (example_tunnel 3 example_run))
    as (y & t' & H1 & H2 & _).
  - lia.
  - apply (bool_decide_unpack _). vm_compute. exact I.
  - vm_compute. reflexivity.
  - vm_compute. reflexivity.
  - vm_compute. discriminate.
  - exists y, t'. exact (conj H1 H2).
Defined.

Lemma session_limit_witness : session_count (example_tunnel 3 (example_run ++ [example_accept 3])) <= 3.
Proof.
  apply (session_limit 3 (example_run ++ [example_accept 3])).
  - lia.
  - apply (bool_decide_unpack _). vm_compute. exact I.
  - vm_compute. tauto.
  - vm_compute. reflexivity.
Defined.

Lemma event_task_entry_ends_all_witness :
  session_count (example_tunnel 3 (example_run ++ LStop :: [LEnd 1; LYield 2; LEnd 2])) = 0.
Proof.
  destruct (event_task_entry_ends_all 3 example_run [LEnd 1; LYield 2; LEnd 2]
    (example_tunnel 3 (example_run ++ LStop :: [LEnd 1; LYield 2; LEnd 2]))) as [_ H].
  - right. lia.
  - apply (bool_decide_unpack _). vm_compute. exact I.
  - vm_compute. reflexivity.
  - apply H. intros x. vm_compute (ss _). intros [-> |[-> |[]%not_elem_of_nil]%elem_of_cons]%elem_of_cons.
    + apply list_elem_of_further, list_elem_of_further, list_elem_of_here.
    + apply list_elem_of_here.
Defined.

#[local] Existing Instance MappedDNSHandle.fresh_heap_good.

Lemma dns_recv_handler_ok_witness :
  exists r d', dns_recv_handler MappedDNSHandle.fresh_heap (Some (replicate 12 0)) [0] (Some (replicate 512 0))
    MappedDNSProofs.example_dns = Some (r, d').
Proof.
  destruct (dns_recv_handler_ok MappedDNSHandle.fresh_heap MappedDNSProofs.example_dns [] (replicate 12 0) [0]
    (replicate 512 0)) as (r & d' & c' & H & _).
  - exact MappedDNSProofs.example_cache.
  - by repeat constructor.
  - vm_compute. lia.
  - discriminate.
  - exists r, d'. exact H.
Defined.

End TunnelSessionsProofs.
