(* ===== verification/MappedConnection.v ===== *)
(** * From a DNS query to a connection by name

    What the mapped DNS is for: an application asks for the address of a name, connects to
    the address it is given, and the proxy is asked for the name.  The path goes through
    the tunnel's DNS handler (TunnelSessions), the cache (MappedDNS), the constructor of the
    TCP session (SessionTCPLife) and the handshake (Socks5Interop); the file composes
    their lemmas. *)

From S2P Require Import Prelude Socks5Addr Socks5Io Socks5Client Socks5Server Socks5Handshake Socks5Interop MappedDNS MappedDNSProofs MappedDNSHandle MappedDNSQuery SessionTCP SessionTCPLife SessionTCPLifeProofs TunnelSessions.

Module MappedConnection.
Import Socks5Addr MappedDNS MappedDNSProofs MappedDNSHandle MappedDNSQuery.

(** ** Addresses on the wire *)

Lemma be32_ok v : bytes_ok (be32 v).
Proof. repeat constructor; apply Z.mod_pos_bound; lia. Qed.

Lemma ip4_host_be32 v : ip4_host (be32 v) = v mod 2 ^ 32.
Proof.
  unfold ip4_host, be32, u8. cbn [foldl]. rewrite !Z.shiftr_div_pow2 by lia.
  Z.div_mod_to_equations. lia.
Qed.

Lemma s32_mod v : is_s32 v -> s32 (v mod 2 ^ 32) = v.
Proof. unfold is_s32, s32. intros H. Z.div_mod_to_equations. lia. Qed.

Lemma s32_shift v : is_s32 v <-> Z.shiftr v 31 = 0 \/ Z.shiftr v 31 = -1.
Proof. unfold is_s32. rewrite Z.shiftr_div_pow2 by lia. Z.div_mod_to_equations. lia. Qed.

Lemma lor_s32 a b : is_s32 a -> is_s32 b -> is_s32 (Z.lor a b).
Proof. rewrite !s32_shift, Z.shiftr_lor. intros [->| ->] [->| ->]; vm_compute; tauto. Qed.

(** ** Calls of the cache *)

(** What other queries and other connections do to the cache in the meantime. *)
Inductive call := Ask (nm : bytes) | Dial (ip : Z).

Definition call_ok (c : call) : Prop := match c with Ask nm => cstr_ok nm | Dial _ => True end.

Definition do_call (heap : heap_oracle) (i : nat) (c : call) : M HevMappedDNS unit :=
  match c with
  | Ask nm => a ← mget (fun d => Some (heap i (dom (nodes d)))); hev_mapped_dns_find (fst a) (snd a) nm;; mret tt
  | Dial ip => hev_mapped_dns_lookup ip;; mret tt
  end.

Fixpoint do_calls (heap : heap_oracle) (i : nat) (cs : list call) : M HevMappedDNS unit :=
  match cs with [] => mret tt | c :: cs => do_call heap i c;; do_calls heap (S i) cs end.

Lemma name_at_elem j c n : name_at j c = Some n -> (n, j) ∈ c.
Proof. intros (c1 & c2 & -> & _)%name_at_split. set_solver. Qed.

Lemma young_elem k nm i c j : young k nm i c -> (nm, j) ∈ c -> j = i.
Proof.
  intros (c1 & c2 & -> & _ & Hn) [Hj|[[= ->]|Hj]%elem_of_cons]%elem_of_app; [|done|];
    destruct Hn; rewrite fmap_app; apply (list_elem_of_fmap_2 fst) in Hj; set_solver.
Qed.

(** One more entry can become younger. *)
Lemma young_lookup k nm i j c : young k nm i c -> young (S k) nm i (spec_lookup j c).2.
Proof.
  intros Hy. unfold spec_lookup. destruct (name_at j c) as [n|] eqn:Hn; cbn [snd].
  - destruct (decide (n = nm)) as [->|Hne]; [|by apply young_append, young_without].
    rewrite (young_elem _ _ _ _ _ Hy (name_at_elem _ _ _ Hn)).
    destruct Hy as (c1 & c2 & -> & Hk & Hnm). rewrite fmap_app in Hnm.
    rewrite without_app by set_solver. exists (c1 ++ c2), []. rewrite app_nil_r, fmap_app.
    split_and!; [done | simpl; lia | done].
  - destruct Hy as (c1 & c2 & -> & Hk & Hnm). exists c1, c2. split_and!; [done | lia | done].
Qed.

Lemma wp_call (heap : heap_oracle) `{!GoodHeap heap} nm idx x j k d c :
  cache d c -> 0 <= s32_lnot (mask d) -> call_ok x -> young k nm idx c -> Z.of_nat (S k) < max d ->
  wp (do_call heap j x) d (fun _ d' => exists c', cache d' c' ∧ young (S k) nm idx c' ∧ same_params d d').
Proof.
  intros Hc Hm Hx Hy Hk. destruct x as [n|ip]; cbn [do_call call_ok] in *.
  - apply wp_bind. eapply wp_get; [done|]. rewrite gh_dup. apply wp_bind.
    eapply wp_mono; [apply (wp_find _ c); [exact Hc | exact Hx|]|].
    { intros l Hl. apply not_elem_of_dom. by eapply gh_fresh. }
    intros r d' Hpost. apply wp_ret. unfold find_post_mem in Hpost. case_match; [|case_match];
      [destruct Hpost as (_ & Hc' & Hp) | destruct Hpost as (_ & Hc' & Hp) | destruct Hpost as [_ ->]].
    + eexists. split_and!; [exact Hc' | apply young_find; [done|lia] | apply Hp..].
    + eexists. split_and!; [exact Hc' | apply young_find; [done|lia] | apply Hp..].
    + exists c. split_and!; [done | eapply young_mono; [done|lia] | done..].
  - apply wp_bind. eapply wp_mono; [by apply (wp_lookup d c ip)|]. intros r d' (_ & Hc' & Hp).
    apply wp_ret. eexists. split_and!; [exact Hc' | by apply young_lookup | apply Hp..].
Qed.

Lemma wp_calls (heap : heap_oracle) `{!GoodHeap heap} nm idx cs : forall j k d c,
  cache d c -> 0 <= s32_lnot (mask d) -> Forall call_ok cs -> young k nm idx c ->
  Z.of_nat (k + length cs) < max d ->
  wp (do_calls heap j cs) d (fun _ d' => exists c',
    cache d' c' ∧ young (k + length cs) nm idx c' ∧ same_params d d').
Proof.
  induction cs as [|x cs IH]; intros j k d c Hc Hm Hok Hy Hk; cbn [do_calls].
  - apply wp_ret. exists c. by rewrite Nat.add_0_r.
  - apply Forall_cons in Hok as [Hx Hok]. simpl length in Hk |- *. apply wp_bind.
    eapply wp_mono; [eapply (wp_call heap nm idx x j k); [done.. | lia]|].
    intros _ d' (c' & Hc' & Hy' & Hp). pose proof Hp as (Hp1 & Hp2 & Hp3).
    eapply wp_mono; [eapply (IH _ (S k)); [exact Hc' | by rewrite Hp3 | done | done | rewrite Hp1; lia]|].
    intros _ d'' (c'' & Hc'' & Hy'' & Hq1 & Hq2 & Hq3). exists c''.
    rewrite <- Nat.add_succ_comm. split_and!; [done | done |]. split_and!; congruence.
Qed.

(** ** The query *)

Section Query.
Context (heap : heap_oracle) `{!GoodHeap heap} (d : HevMappedDNS) (c : list entry) (k : Z).
Context (ls : list bytes) (i0 i1 fl an ns ar : Z) (rest b : bytes) (l : loc).
Hypothesis (Hc : cache d c) (Hnet : good_network d k).
Hypothesis (Hls : Forall label_ok ls) (Hne : ls ≠ []) (Hfl : is_u16 fl).
Hypothesis (Hl : (heap 0%nat (dom (nodes d))).1 = Some l).

Let req := request ls i0 i1 fl an ns ar.
Let nm := name_text ls.

Lemma mask_ok d' : good_network d' k -> 0 <= s32_lnot (mask d').
Proof. intros [Hk -> _ _]. rewrite Z.ones_equiv. pose proof (Z.pow_pos_nonneg 2 k). lia. Qed.

Lemma answer_bytes_length ip : length (answer_bytes ip) = 16%nat.
Proof. done. Qed.

(** The answer is sent, and the name is the youngest of the cache. *)
Lemma query_answered : (length req + 16 <= length b)%nat ->
  exists i d' c', TunnelSessions.dns_recv_handler heap (Some req) rest (Some b) d
      = Some (Some (response ls i0 i1 fl (Z.lor (net d) i)), d')
    ∧ 0 <= i < max d ∧ cache d' c' ∧ young 0 nm i c' ∧ same_params d d'.
Proof.
  intros Hroom. pose proof Hc as [lc Hinv].
  pose proof (spec_find_range (max d) d lc c nm Hinv eq_refl) as Hr.
  set (i := (spec_find (max d) nm c).1) in *. set (qlen := Z.of_nat (length req)).
  destruct (wp_elim _ _ _ (wp_handle_query heap d c ls i0 i1 fl an ns ar rest b Hc Hls Hne Hfl l
    (Z.of_nat (length b)) (fun r st => r = qlen + 16 ∧ find_post d c nm i (self st)
      ∧ sb st = response ls i0 i1 fl (Z.lor (net d) i) ++ drop (Z.to_nat (qlen + 16)) b)
    Hl ltac:(apply Hr) eq_refl ltac:(fold req; lia) ltac:(intros; by split_and!)))
    as (r & st & He & -> & (_ & Hc' & Hp) & Hsb).
  exists i, (self st), (spec_find (max d) nm c).2. split_and!; [| lia | lia | done | |apply Hp..].
  - unfold TunnelSessions.dns_recv_handler. fold req qlen in He. fold qlen. rewrite He.
    rewrite decide_False by lia. rewrite Hsb, take_exact; [done|].
    unfold response. rewrite !length_app, answer_bytes_length. unfold qlen, req, request.
    rewrite !length_app. cbn [header length be16 app]. lia.
  - destruct (find_youngest (max d) nm c ltac:(lia) (inv_names_nodup _ _ _ Hinv)) as (c' & He' & Hn).
    fold i in He'. rewrite He'. exists c', []. rewrite app_nil_r. split_and!; [done | simpl; lia | done].
Qed.

(** A young entry is found under its address. *)
Lemma young_address d' c' j i : cache d' c' -> same_params d d' -> young j nm i c' -> 0 <= i < max d ->
  exists d'', hev_mapped_dns_lookup (Z.lor (net d) i) d' = Some (Some nm, d'').
Proof.
  intros Hc' Hp Hy Hi. pose proof Hp as (Hmax & Hn & _). pose proof (good_network_params _ _ _ Hp Hnet) as Hg.
  assert (host_part d' (Z.lor (net d) i) = i) as Hh.
  { rewrite <- Hn. apply (host_part_address d' k); [done | by rewrite Hmax]. }
  destruct (wp_elim _ _ _ (wp_lookup d' c' (Z.lor (net d) i) Hc' (mask_ok _ Hg))) as (r & d'' & He & Hr & _).
  exists d''. rewrite He, Hr, Hh. destruct Hc' as [ls' Hinv'].
  unfold spec_lookup. by rewrite (name_at_young _ _ _ _ Hy) by by eapply inv_idx_nodup.
Qed.

(** The answer stays good for as many calls as the cache has room. *)
Lemma query_kept cs : (length req + 16 <= length b)%nat ->
  Forall call_ok cs -> Z.of_nat (length cs) < max d ->
  exists i d1 d2 d3, TunnelSessions.dns_recv_handler heap (Some req) rest (Some b) d
      = Some (Some (response ls i0 i1 fl (Z.lor (net d) i)), d1)
    ∧ 0 <= i < max d ∧ do_calls heap 0 cs d1 = Some (tt, d2)
    ∧ hev_mapped_dns_lookup (Z.lor (net d) i) d2 = Some (Some nm, d3).
Proof.
  intros Hroom Hok Hlen. destruct (query_answered Hroom) as (i & d1 & c1 & He & Hi & Hc1 & Hy & Hp).
  pose proof Hp as (Hmax & Hn & Hm).
  destruct (wp_elim _ _ _ (wp_calls heap nm i cs 0 0 d1 c1 Hc1 (mask_ok _ (good_network_params _ _ _ Hp Hnet)) Hok Hy
    ltac:(rewrite Hmax; simpl; lia))) as ([] & d2 & He2 & c2 & Hc2 & Hy2 & Hq1 & Hq2 & Hq3).
  destruct (young_address d2 c2 _ i Hc2 ltac:(split_and!; congruence) Hy2 Hi) as [d3 H3].
  by exists i, d1, d2, d3.
Qed.
End Query.

(** ** The connection *)

Section Connect.
Context `{Resolver} `{Socks5Server.Authenticator} `{!ResolverOk}.
Import Socks5Io Socks5Server Socks5Handshake Socks5Interop SessionTCPLife SessionTCPLifeProofs.

(** What the cache says about an address. *)
Definition lookup_in (d : HevMappedDNS) (ip : Z) : option bytes := r ← hev_mapped_dns_lookup ip d; r.1.

(** A new connection of the stack to an IPv4 address. *)
Record connects_to (v : Z) (cn : tcp_pcb) : Prop := {
  ct_there : there cn = true; ct_type : ip_type (local_ip cn) = IPADDR_TYPE_V4; ct_ok : ip_ok (local_ip cn);
  ct_addr : take 4 (ip_bytes (local_ip cn)) = be32 v; ct_port : is_u16 (local_port cn) }.

Lemma destination_by_name dns cn v n : connects_to v cn -> is_s32 v -> dns v = Some n ->
  mapped_name (Some dns) (local_ip cn) = Some n ∧ destination_of (Some dns) cn = Name n (local_port cn).
Proof.
  intros [_ Ht _ Ha _] Hv Hd.
  assert (mapped_name (Some dns) (local_ip cn) = Some n) as Hn.
  { unfold mapped_name. by rewrite Ha, ip4_host_be32, (s32_mod v Hv). }
  split; [done|]. unfold destination_of, lwip_address. by rewrite decide_True, Hn.
Qed.

Lemma session_for_name dns (ans : forall e, Socks5Io.answer e) v n s addr t :
  objects t !! s = None -> connects_to v (conn t) -> is_s32 v -> length addr = sizeof_addr ->
  dns v = Some n -> cstr_ok n ∧ (0 < length n <= 255)%nat -> (forall z, ans (Socks5Io.EMalloc z) = true) ->
  exists t' o, hev_socks5_session_tcp_new (Some dns) ans (Some s) addr t = Some (Some s, t')
    ∧ objects t' !! s = Some o
    ∧ client o = Socks5Client.hev_socks5_client_construct Socks5Io.HEV_SOCKS5_TYPE_TCP
                   (Socks5Client.ClientTCP (Some (encode (Name n (local_port (conn t)))))).
Proof.
  intros Hs Hct Hv Ha Hd Hn Hans. destruct (destination_by_name dns (conn t) v n Hct Hv Hd) as [Hm Hdest].
  destruct (wp_elim _ _ _ (wp_session_new (Some dns) ans s addr t (fun r t' => r = Some s ∧
      t' = with_session (add_calls [Socks5Io.EMalloc (copy_size (Some dns) (conn t))] t) s (client_of (Some dns) (conn t))
             (callbacks_to s (conn t)) new_session) Hs (ct_there _ _ Hct)
    ltac:(split; [done | apply Hct | apply Hct | rewrite Hm; by intros ? [= <-]])
    ltac:(intros Hf; by rewrite Hans in Hf) ltac:(intros _; by split))) as (r & t' & He & -> & Ht').
  exists t', (mk_object (client_of (Some dns) (conn t)) new_session). split; [exact He|]. subst t'.
  split; [apply lookup_insert_eq|]. cbn [client]. unfold client_of. by rewrite Hdest.
Qed.

Lemma asks_for_name u p n port : address_ok (Name n port) ->
  (forall u' p', u = Some u' -> p = Some p' -> cred_ok u' ∧ cred_ok p') ->
  ready_client (Socks5Client.hev_socks5_client_set_auth u p (Socks5Client.hev_socks5_client_construct
    Socks5Io.HEV_SOCKS5_TYPE_TCP (Socks5Client.ClientTCP (Some (encode (Name n port)))))) (Name n port).
Proof.
  intros Ha Hc. split; [done..|]. intros u' p'. unfold Socks5Client.creds. cbn.
  destruct u as [u''|], p as [p''|]; try done. cbn. intros [= <- <-]. by apply Hc.
Qed.

(** The client's and the server's calls come to an end: both have the same verdict. *)
Definition proxied cfgc cfgs binder sysc syss pipeline stack s sv a : Prop :=
  exists s' sv' o i,
    let final := mk_net (Ret (verdict syss s sv a, s')) (Ret (verdict syss s sv a, sv')) o i in
    (forall n, reach sysc syss (start cfgc cfgs binder pipeline stack s sv) n -> reach sysc syss n final)
    ∧ (verdict syss s sv a = 0 -> served syss s sv sv' a).

Lemma ready_proxied cfgc cfgs binder sysc syss pipeline stack s sv a :
  ready_client s a -> ready_server sv -> sockaddr_ok stack ->
  proxied cfgc cfgs binder sysc syss pipeline stack s sv a.
Proof.
  intros Hc Hsv Hst.
  destruct (handshake_end cfgc cfgs binder sysc syss pipeline stack s sv a Hc Hsv Hst) as (s' & sv' & o & i & Hn & Hv).
  exists s', sv', o, i. split; [|done]. intros n. eapply reach_confluent; [exact Hn | apply ret_stuck].
Qed.
End Connect.

(** ** The whole path *)

Lemma name_text_pos ls : Forall label_ok ls -> ls ≠ [] -> (0 < length (name_text ls))%nat.
Proof.
  intros Hls Hne. destruct ls as [|x ls]; [done|]. apply Forall_cons in Hls as [[_ Hx] _].
  unfold name_text, dotted. rewrite fmap_cons. cbn [concat tail app]. rewrite length_app. lia.
Qed.

(** C3: The application asks for the address of a name, and connects to the one in the
    answer, while the cache is used less often than it has entries: the session is made,
    the proxy is asked for the name, in every order of the client's and the server's
    steps, and after a success the server is connected to what its resolver has for the
    name. *)
Theorem mapped_name_reaches_server `{Resolver} `{Socks5Server.Authenticator} `{!ResolverOk}
  (heap : heap_oracle) `{!GoodHeap heap} d c k ls i0 i1 fl an ns ar rest b l cs :
  cache d c -> good_network d k -> is_s32 (net d) -> is_s32 (mask d) ->
  Forall label_ok ls -> ls ≠ [] -> (length (name_text ls) <= 255)%nat -> is_u16 fl ->
  (heap 0%nat (dom (nodes d))).1 = Some l ->
  (length (request ls i0 i1 fl an ns ar) + 16 <= length b)%nat ->
  Forall call_ok cs -> Z.of_nat (length cs) < max d ->
  exists v d1 d2,
    TunnelSessions.dns_recv_handler heap (Some (request ls i0 i1 fl an ns ar)) rest (Some b) d
      = Some (Some (response ls i0 i1 fl v), d1)
    ∧ do_calls heap 0 cs d1 = Some (tt, d2)
    ∧ forall (ans : forall e, Socks5Io.answer e) s addr t,
        SessionTCPLife.objects t !! s = None -> connects_to v (SessionTCPLife.conn t) ->
        length addr = sizeof_addr -> (forall z, ans (Socks5Io.EMalloc z) = true) ->
        exists t' o,
          SessionTCPLife.hev_socks5_session_tcp_new (Some (lookup_in d2)) ans (Some s) addr t = Some (Some s, t')
          ∧ SessionTCPLife.objects t' !! s = Some o
          ∧ forall cfgc cfgs binder sysc syss pipeline stack sv u p,
              (forall u' p', u = Some u' -> p = Some p' -> Socks5Handshake.cred_ok u' ∧ Socks5Handshake.cred_ok p') ->
              Socks5Interop.ready_server sv -> sockaddr_ok stack ->
              proxied cfgc cfgs binder sysc syss pipeline stack
                (Socks5Client.hev_socks5_client_set_auth u p (SessionTCPLife.client o)) sv
                (Name (name_text ls) (SessionTCPLife.local_port (SessionTCPLife.conn t))).
Proof.
  intros Hc Hnet Hsn Hsm Hls Hne Hlen Hfl Hl Hroom Hcs Hroom2.
  destruct (query_kept heap d c k ls i0 i1 fl an ns ar rest b l Hc Hnet Hls Hne Hfl Hl cs Hroom Hcs Hroom2)
    as (i & d1 & d2 & d3 & He & Hi & Hcalls & Hlk).
  exists (Z.lor (net d) i), d1, d2. split_and!; [exact He | exact Hcalls |].
  intros ans s addr t Hs Hct Ha Hans.
  assert (is_s32 i) as Hi32.
  { destruct Hnet as [_ Hm _ Hmax]. unfold is_s32, s32_lnot in *. lia. }
  assert (cstr_ok (name_text ls) ∧ (0 < length (name_text ls) <= 255)%nat) as [Hcs1 Hcs2].
  { split; [by apply name_text_ok | split; [by apply name_text_pos | done]]. }
  destruct (session_for_name (lookup_in d2) ans (Z.lor (net d) i) (name_text ls) s addr t Hs Hct
    (lor_s32 _ _ Hsn Hi32) Ha ltac:(unfold lookup_in; by rewrite Hlk) (conj Hcs1 Hcs2) Hans) as (t' & o & Hnew & Ho & Hcl).
  exists t', o. split_and!; [exact Hnew | exact Ho |].
  intros cfgc cfgs binder sysc syss pipeline stack sv u p Hcr Hsv Hst. rewrite Hcl.
  apply ready_proxied; [|done|done]. apply asks_for_name; [|done].
  split_and!; [done | lia | lia | apply Hct..].
Qed.

(** ** An instance: the name "ab", another query, and a connection to port 443 *)

Definition example_conn (v : Z) : SessionTCPLife.tcp_pcb :=
  SessionTCPLife.mk_pcb true None false false false (mk_ip IPADDR_TYPE_V4 (be32 v ++ replicate 12 0)) 443.
Definition example_stack (v : Z) : SessionTCPLife.stack := SessionTCPLife.mk_stack (example_conn v) ∅ [] [] None 0.

Lemma example_connects v : connects_to v (example_conn v).
Proof.
  split; [done | done | | done | unfold is_u16; cbn; lia]. split_and!; [|done|by left].
  apply bytes_ok_app. split; [apply be32_ok|]. apply Forall_replicate. unfold is_u8. lia.
Qed.

#[local] Existing Instance Socks5Interop.example_authenticator.
#[local] Existing Instance example_resolver.
#[local] Existing Instance example_resolver_ok.

Lemma example_stack_ok : sockaddr_ok Socks5Interop.example_stack.
Proof. split; [apply Forall_replicate; unfold is_u8; lia|]. split; [done|]. unfold is_u16. cbn. lia. Qed.

Lemma mapped_name_reaches_server_witness :
  exists v d1 d2 t' o,
    TunnelSessions.dns_recv_handler fresh_heap (Some (request [[97; 98]] 7 8 256 0 0 0)) [0] (Some (replicate 64 0)) example_dns
      = Some (Some (response [[97; 98]] 7 8 256 v), d1)
    ∧ do_calls fresh_heap 0 [Ask [99]] d1 = Some (tt, d2)
    ∧ SessionTCPLife.hev_socks5_session_tcp_new (Some (lookup_in d2)) SessionTCPLifeProofs.example_answers (Some 1%positive)
        zero_addr (example_stack v) = Some (Some 1%positive, t')
    ∧ proxied Socks5Interop.example_cfg Socks5Interop.example_cfg Socks5Io.hev_socks5_bind Socks5Interop.example_system
        Socks5Interop.example_system true Socks5Interop.example_stack
        (Socks5Client.hev_socks5_client_set_auth (Some [117]) (Some [112]) (SessionTCPLife.client o))
        (Socks5Server.set_obj Socks5Server.OAuth (Socks5Server.hev_socks5_server_construct 3)) (Name [97; 98] 443).
Proof.
  destruct (mapped_name_reaches_server fresh_heap example_dns [] 17 [[97; 98]] 7 8 256 0 0 0 [0] (replicate 64 0)
    (fresh (∅ : gset loc)) [Ask [99]]) as (v & d1 & d2 & H1 & H2 & H3).
  - exact example_cache.
  - split; [done | done | done | vm_compute; discriminate].
  - split; vm_compute; done.
  - split; vm_compute; done.
  - apply Forall_cons. split; [|constructor]. split; [by repeat constructor | simpl; lia].
  - done.
  - simpl. lia.
  - done.
  - done.
  - simpl. lia.
  - by repeat constructor.
  - done.
  - destruct (H3 SessionTCPLifeProofs.example_answers 1%positive zero_addr (example_stack v)) as (t' & o & H4 & _ & H5);
      [done | apply example_connects | done | done |].
    exists v, d1, d2, t', o. split; [exact H1|]. split; [exact H2|]. split; [exact H4|].
    apply (H5 Socks5Interop.example_cfg Socks5Interop.example_cfg Socks5Io.hev_socks5_bind Socks5Interop.example_system
      Socks5Interop.example_system true Socks5Interop.example_stack
      (Socks5Server.set_obj Socks5Server.OAuth (Socks5Server.hev_socks5_server_construct 3)) (Some [117]) (Some [112])).
    + intros u' p' [= <-] [= <-]. unfold Socks5Handshake.cred_ok. simpl. lia.
    + by right.
    + exact example_stack_ok.
Defined.

End MappedConnection.
