(* ===== verification/TunnelTasks.v ===== *)
(** * The tasks of the tunnel: src/hev-socks5-tunnel.c, over src of hev-task-system

    Once the task system runs, one task reads the device, one drives the timers of the
    network stack, one waits for the stop, and each session has one.  A step is what one task
    does from one yield to the next, or an event that makes a task ready.  The sessions are
    those of TunnelSessions. *)

From S2P Require Import Prelude HevList TunnelSessions.

Module TunnelTasks.
Import TunnelSessions.

(** ** State *)

(** Where the event task is: it reads the byte of the stop, it joins the two other tasks. *)
Inductive event_pc := Reading | JoiningIo | JoiningTimer | Ended.

#[export] Instance event_pc_eq_dec : EqDecision event_pc.
Proof. solve_decision. Defined.

(** What the timer task does: the timers of the stack, and how it waits. *)
Inductive tick := TcpTmr | IpReassTmr | Nd6Tmr | Ip6ReassTmr | SleepTick | YieldTick.

#[export] Instance tick_eq_dec : EqDecision tick.
Proof. solve_decision. Defined.

(** [byte]: the byte of [hev_socks5_tunnel_stop] is in the event sockets; [timer_i]: the
    counter [i] of the timer task. *)
Record system := mk_system {
  tun : tunnel; event_at : event_pc; byte : bool; timer_i : Z; ticks : list tick }.

Definition on_tunnel {A} (m : M tunnel A) : M system A := fun s =>
  match m (tun s) with
  | Some (a, t) => Some (a, mk_system t (event_at s) (byte s) (timer_i s) (ticks s))
  | None => None
  end.
Definition goto (p : event_pc) : M system unit :=
  mput (fun s => Some (mk_system (tun s) p (byte s) (timer_i s) (ticks s))).
Definition set_byte (b : bool) : M system unit :=
  mput (fun s => Some (mk_system (tun s) (event_at s) b (timer_i s) (ticks s))).

(** [hev_task_yield (HEV_TASK_WAITIO)], and [hev_task_sleep]. *)
Definition wait (k : task) : M tunnel unit := set_state k HEV_TASK_WAITING.

(** ** The start *)

(** After the initialisation the three tasks are there and were not run; the counter, and what
    the timers did, start with the timer task. *)
Definition initialised : tunnel :=
  let made := mk_task HEV_TASK_STOPPED None in
  mk_tunnel HevList.empty_list 0 0 ∅ {[ task_event := made; task_lwip_io := made; task_lwip_timer := made ]}.

(** Before [hev_task_system_run]. *)
Definition hev_socks5_tunnel_run : M tunnel unit :=
  hev_task_run task_event;;
  hev_task_run task_lwip_io;;
  hev_task_run task_lwip_timer;;
  set_run 1.

Definition initial_system : system := mk_system initial_tunnel Reading false 1 [].

(** ** Joining *)

(** The loop of [hev_task_join], up to a yield of the current task or its end. *)
Definition join_loop (target self : task) : M tunnel bool :=
  h ← hev_task_get target;
  if decide (state h = HEV_TASK_STOPPED) then mret true else
  hev_task_wakeup target;; wait self;; mret false.

Definition hev_task_join (target self : task) : M tunnel bool :=
  h ← hev_task_get target;
  match joiner h with
  | Some _ => mret true
  | None => set_tasks (<[ target := mk_task (state h) (Some self) ]>);; join_loop target self
  end.

(** ** The event task *)

Definition end_event (joined : bool) : M system unit :=
  if joined then on_tunnel (hev_task_exit task_event);; goto Ended else goto JoiningTimer.

Definition after_io (joined : bool) : M system unit :=
  if joined then j ← on_tunnel (hev_task_join task_lwip_timer task_event); end_event j else goto JoiningIo.

Definition run_event : M system unit :=
  p ← mget (fun s => Some (event_at s));
  match p with
  | Reading =>
      b ← mget (fun s => Some (byte s));
      if negb b then on_tunnel (wait task_event) else
      set_byte false;;
      on_tunnel event_task_entry;;
      j ← on_tunnel (hev_task_join task_lwip_io task_event);
      after_io j
  | JoiningIo => j ← on_tunnel (join_loop task_lwip_io task_event); after_io j
  | JoiningTimer => j ← on_tunnel (join_loop task_lwip_timer task_event); end_event j
  | Ended => mfail
  end.

Section System.
Context (max_session_count : Z).

(** ** The task that reads the device *)

(** What a packet comes to, for the sessions. *)
Inductive packet :=
  | PAccept (err : Z) (mem : option loc) (task : bool)
  | PDatagram (d : datagram) (mem : option loc) (task : bool).
Definition packet_label (p : packet) : label :=
  match p with
  | PAccept err mem task => LAccept err mem task
  | PDatagram d mem task => LDatagram d mem task
  end.

Fixpoint handle (ps : list packet) : M tunnel unit :=
  match ps with
  | [] => mret tt
  | p :: ps => do_label max_session_count (packet_label p);; handle ps
  end.

(** [ps]: the packets it can read at once.  When it is resumed after a stop the reader's
    yielder ends the read, and the loop ends. *)
Definition run_io (ps : list packet) : M tunnel unit :=
  r ← get run;
  if decide (r = 0) then hev_task_exit task_lwip_io else
  handle ps;; wait task_lwip_io.

(** ** The task that drives the timers *)

Definition timer_ticks (i : Z) : list tick :=
  TcpTmr :: if decide (Z.land i 3 = 0) then [IpReassTmr; Nd6Tmr; Ip6ReassTmr] else [].

Definition run_timer : M system unit :=
  r ← on_tunnel (get run);
  if decide (r = 0) then on_tunnel (hev_task_exit task_lwip_timer) else
  node ← on_tunnel (on_set HevList.hev_list_first);
  mput (fun s => Some (mk_system (tun s) (event_at s) (byte s) (u32 (timer_i s + 1))
    (ticks s ++ timer_ticks (timer_i s) ++ [match node with Some _ => SleepTick | None => YieldTick end])));;
  on_tunnel (wait task_lwip_timer).

(** ** Sessions *)

(** A session's task yields, after it has updated its place in the set or before it could
    ([update]), and waits or only lets others run; or it ends. *)
Inductive session_step := SYield (update waits : bool) | SEnd.

Definition run_session (x : loc) (how : session_step) : M tunnel unit :=
  match how with
  | SYield update waits =>
      mwhen update (do_label max_session_count (LYield x));;
      mwhen waits (wait (task_of x))
  | SEnd => do_label max_session_count (LEnd x)
  end.

(** ** Steps *)

Inductive step :=
  | Byte                    (* hev_socks5_tunnel_stop writes its byte *)
  | Wake (k : task)         (* a descriptor, a timer or the stack makes a task ready *)
  | RunSession (x : loc) (how : session_step)
  | RunIo (ps : list packet)
  | RunTimer
  | RunEvent.

Definition do_step (l : step) : M system unit :=
  match l with
  | Byte => set_byte true
  | Wake k => on_tunnel (hev_task_wakeup k)
  | RunSession x how => on_tunnel (run_session x how)
  | RunIo ps => on_tunnel (run_io ps)
  | RunTimer => run_timer
  | RunEvent => run_event
  end.

Fixpoint do_steps (ls : list step) : M system unit :=
  match ls with [] => mret tt | l :: ls => do_step l;; do_steps ls end.

(** ** What can happen *)

Definition in_state (v : HevTaskState) (k : task) (t : tunnel) : bool :=
  match tasks t !! k with Some h => bool_decide (state h = v) | None => false end.

(** The memory of a new session is new. *)
Definition fresh_packet (p : packet) (t : tunnel) : bool :=
  match p with
  | PAccept _ (Some x) _ | PDatagram _ (Some x) _ => bool_decide (HevList.nodes (session_set t) !! x = None)
  | _ => true
  end.
Fixpoint fresh_packets (ps : list packet) (t : tunnel) : bool :=
  match ps with
  | [] => true
  | p :: ps => fresh_packet p t &&
               match do_label max_session_count (packet_label p) t with
               | Some (_, t') => fresh_packets ps t'
               | None => true
               end
  end.

(** The scheduler runs a task that is ready.  The stop writes one byte, which wakes the event
    task; once it has read it nothing but a join's end does. *)
Definition can (l : step) (s : system) : bool :=
  match l with
  | Byte => bool_decide (event_at s = Reading) && negb (byte s)
  | Wake task_event => byte s && in_state HEV_TASK_WAITING task_event (tun s)
  | Wake k => in_state HEV_TASK_WAITING k (tun s)
  | RunSession x _ => in_state HEV_TASK_RUNNING (task_of x) (tun s)
  | RunIo ps => in_state HEV_TASK_RUNNING task_lwip_io (tun s) && fresh_packets ps (tun s)
  | RunTimer => in_state HEV_TASK_RUNNING task_lwip_timer (tun s)
  | RunEvent => in_state HEV_TASK_RUNNING task_event (tun s)
  end.

Fixpoint can_all (ls : list step) (s : system) : bool :=
  match ls with
  | [] => true
  | l :: ls => can l s && match do_step l s with Some (_, s') => can_all ls s' | None => true end
  end.

(** The steps of the tunnel's own tasks. *)
Definition of_tunnel (l : step) : bool :=
  match l with RunIo _ | RunTimer | RunEvent => true | _ => false end.
End System.

End TunnelTasks.
