(* ===== verification/TunnelTasksProofs.v ===== *)
(** * The tasks of the tunnel: proofs

    An invariant over the phases of the stop shows that no task is woken that does not run,
    and a rank that every step of the tunnel's own tasks decreases shows that they end. *)

From S2P Require Import Prelude HevList TunnelSessions TunnelSessionsProofs TunnelTasks.

Module TunnelTasksProofs.
Import TunnelSessions TunnelSessionsProofs TunnelTasks.

(** ** Tasks, exactly *)

Definition with_tasks (t : tunnel) (m : gmap task HevTask) : tunnel :=
  mk_tunnel (session_set t) (session_count t) (run t) (terminated t) m.

Lemma with_tasks_same t : with_tasks t (tasks t) = t.
Proof. by destruct t. Qed.

Lemma wp_tunnel_part {A} (m : M tunnel A) s (Q : A -> system -> Prop) :
  wp m (tun s) (fun a t => Q a (mk_system t (event_at s) (byte s) (timer_i s) (ticks s))) -> wp (on_tunnel m) s Q.
Proof. unfold wp, on_tunnel. by destruct (m (tun s)) as [[]|]. Qed.

Lemma wp_state k v h t (Q : unit -> tunnel -> Prop) : tasks t !! k = Some h ->
  Q tt (with_tasks t (<[ k := mk_task v (joiner h) ]> (tasks t))) -> wp (set_state k v) t Q.
Proof. intros Hh HQ. apply wp_bind. eapply wp_get; [done|]. by eapply wp_put. Qed.

Lemma wp_wake k h t (Q : unit -> tunnel -> Prop) : tasks t !! k = Some h -> state h ≠ HEV_TASK_STOPPED ->
  Q tt (with_tasks t (<[ k := mk_task HEV_TASK_RUNNING (joiner h) ]> (tasks t))) -> wp (hev_task_wakeup k) t Q.
Proof.
  intros Hh Hs HQ. apply wp_bind. eapply wp_get; [done|]. destruct h as [[] j]; [done | | by eapply wp_state].
  apply wp_ret. cbn [joiner] in HQ. by rewrite insert_id, with_tasks_same in HQ.
Qed.

Definition own (k : task) : Prop := k = task_event \/ k = task_lwip_io \/ k = task_lwip_timer.

Lemma own_event : own task_event.
Proof. by left. Qed.
Lemma own_io : own task_lwip_io.
Proof. right. by left. Qed.
Lemma own_timer : own task_lwip_timer.
Proof. right. by right. Qed.
#[local] Hint Resolve own_event own_io own_timer : core.

(** The end of a task of the tunnel, and of whoever waits for it. *)
Lemma wp_exit k v t (Q : unit -> tunnel -> Prop) : own k -> tasks t !! k = Some (mk_task v None) ->
  Q tt (with_tasks t (<[ k := mk_task HEV_TASK_STOPPED None ]> (tasks t))) -> wp (hev_task_exit k) t Q.
Proof.
  intros Hk Hh HQ. apply wp_bind. eapply wp_get; [done|]. apply wp_bind, wp_ret, wp_bind. eapply wp_state; [done|].
  destruct Hk as [-> |[-> | ->]]; by apply wp_ret.
Qed.

Lemma wp_exit_joined k v w t (Q : unit -> tunnel -> Prop) : own k -> k ≠ task_event ->
  tasks t !! k = Some (mk_task v (Some task_event)) -> tasks t !! task_event = Some (mk_task w None) -> w ≠ HEV_TASK_STOPPED ->
  Q tt (with_tasks t (<[ k := mk_task HEV_TASK_STOPPED (Some task_event) ]>
    (<[ task_event := mk_task HEV_TASK_RUNNING None ]> (tasks t)))) -> wp (hev_task_exit k) t Q.
Proof.
  intros Hk Hne Hh He Hw HQ. apply wp_bind. eapply wp_get; [done|]. apply wp_bind. eapply wp_wake; [done | done |].
  apply wp_bind. eapply wp_state; [cbn; by rewrite lookup_insert_ne|].
  destruct Hk as [-> |[-> | ->]]; by apply wp_ret.
Qed.

(** ** The sessions, seen from the tasks *)

Definition sessions_ok (t : tunnel) (sp : spec) : Prop := implements (status t) t sp.

Lemma rebase b t sp : implements b t sp -> sessions_ok t sp.
Proof.
  intros [Hc Ht Hm]. split; [done | |].
  - intros k. pose proof (Ht k) as Hk. by destruct k.
  - intros Hr. rewrite (Ht task_lwip_timer). by apply Hm.
Qed.

(** A change to the tunnel's own tasks. *)
Lemma sessions_retask t t' sp : sessions_ok t sp ->
  session_set t' = session_set t -> session_count t' = session_count t -> run t' = run t -> terminated t' = terminated t ->
  (forall x, tasks t' !! task_of x = tasks t !! task_of x) ->
  (running sp = true -> fst <$> status t' task_lwip_timer = Some true) -> sessions_ok t' sp.
Proof.
  intros [Hc Ht _] H1 H2 H3 H4 Hx Hm. split; [destruct Hc; split; congruence || by rewrite ?H1, ?H2, ?H3, ?H4 | | done].
  intros k. destruct k as [| | |x]; try done. rewrite <- (Ht (task_of x)). unfold status. by rewrite Hx.
Qed.

Lemma sessions_live t sp x h : sessions_ok t sp -> tasks t !! task_of x = Some h -> x ∈ ss sp ∧ joiner h = None.
Proof.
  intros [_ Ht _] Hh. specialize (Ht (task_of x)). unfold status in Ht. rewrite Hh in Ht. cbn in Ht.
  case_decide; [|done]. by injection Ht.
Qed.

(** ** The invariant *)

Definition phase (s : system) : Prop :=
  let at_ k := tasks (tun s) !! k in
  match event_at s with
  | Reading => run (tun s) = 1 ∧ forall k, own k -> exists v, at_ k = Some (mk_task v None) ∧ v ≠ HEV_TASK_STOPPED
  | JoiningIo => run (tun s) = 0 ∧ (exists v, at_ task_lwip_timer = Some (mk_task v None))
      ∧ ((at_ task_lwip_io = Some (mk_task HEV_TASK_RUNNING (Some task_event))
          ∧ at_ task_event = Some (mk_task HEV_TASK_WAITING None))
         \/ (at_ task_lwip_io = Some (mk_task HEV_TASK_STOPPED (Some task_event))
             ∧ at_ task_event = Some (mk_task HEV_TASK_RUNNING None)))
  | JoiningTimer => run (tun s) = 0 ∧ (exists j, at_ task_lwip_io = Some (mk_task HEV_TASK_STOPPED j))
      ∧ ((at_ task_lwip_timer = Some (mk_task HEV_TASK_RUNNING (Some task_event))
          ∧ at_ task_event = Some (mk_task HEV_TASK_WAITING None))
         \/ (at_ task_lwip_timer = Some (mk_task HEV_TASK_STOPPED (Some task_event))
             ∧ at_ task_event = Some (mk_task HEV_TASK_RUNNING None)))
  | Ended => run (tun s) = 0 ∧ forall k, own k -> exists j, at_ k = Some (mk_task HEV_TASK_STOPPED j)
  end
  ∧ (event_at s ≠ Reading -> byte s = false).

Record inv (s : system) : Prop := {
  inv_spec : exists sp, sessions_ok (tun s) sp;
  inv_phase : phase s }.

(** How many steps of the tunnel's own tasks are left, once the stop was read. *)
Definition stopped (k : task) (t : tunnel) : bool :=
  match tasks t !! k with Some (mk_task HEV_TASK_STOPPED _) | None => true | _ => false end.

Definition rank (s : system) : nat :=
  match event_at s with
  | Reading => 5
  | JoiningIo => (if stopped task_lwip_io (tun s) then 1 else 2) + (if stopped task_lwip_timer (tun s) then 0 else 2)
  | JoiningTimer => if stopped task_lwip_timer (tun s) then 1 else 2
  | Ended => 0
  end.

Lemma phase_same t t' p b i l i' l' : phase (mk_system t p b i l) -> run t' = run t ->
  (forall k, own k -> tasks t' !! k = tasks t !! k) -> phase (mk_system t' p b i' l').
Proof.
  unfold own. intros [Hp Hb] Hr Hk. split; [|exact Hb]. cbn [tun event_at] in *.
  destruct p; rewrite Hr, ?(Hk task_event), ?(Hk task_lwip_io), ?(Hk task_lwip_timer) by tauto; try done.
  - destruct Hp as [? Hp]. split; [done|]. intros k Ho. rewrite Hk by done. by apply Hp.
  - destruct Hp as [? Hp]. split; [done|]. intros k Ho. rewrite Hk by done. by apply Hp.
Qed.

Lemma tasks_inv_initial : inv initial_system.
Proof.
  split; [exists initial_spec; eapply rebase, (implements_initial started); done|].
  split; [|done]. split; [done|]. intros k [-> |[-> | ->]]; by eexists.
Qed.

(** ** Sessions' steps *)

(** What does not touch the tasks. *)
Definition keeps {A} (m : M tunnel A) : Prop :=
  forall t a t', m t = Some (a, t') -> tasks t' = tasks t ∧ run t' = run t.

Lemma untouched_bind {A B} (m : M tunnel A) (f : A -> M tunnel B) : keeps m -> (forall a, keeps (f a)) -> keeps (m ≫= f).
Proof.
  intros Hm Hf t b t'. unfold mbind, M_bind. destruct (m t) as [[a t1]|] eqn:H1; [|done].
  intros H2. destruct (Hm _ _ _ H1), (Hf _ _ _ _ H2). split; congruence.
Qed.

Lemma keeps_on_set {A} (m : M HevList.state A) : keeps (on_set m).
Proof. intros t a t'. unfold on_set. destruct (m (session_set t)) as [[]|]; [|done]. by intros [= _ <-]. Qed.

Lemma untouched_get {A} (f : tunnel -> A) : keeps (get f).
Proof. by intros t a t' [= _ <-]. Qed.

Lemma keeps_count n : keeps (set_count n).
Proof. by intros t a t' [= _ <-]. Qed.

Lemma keeps_update max x : keeps (hev_socks5_tunnel_update_session max x).
Proof.
  unfold hev_socks5_tunnel_update_session. case_decide; [by intros t a t' [= _ <-]|].
  apply untouched_bind; intros; apply keeps_on_set.
Qed.

Lemma keeps_entry x : keeps (hev_socks5_session_task_entry x).
Proof.
  repeat (apply untouched_bind; intros); try apply keeps_on_set; try apply untouched_get; try apply keeps_count.
  by intros t a' t' [= _ <-].
Qed.

Lemma own_session k x : own k -> k ≠ task_of x.
Proof. by intros [-> |[-> | ->]]. Qed.

Section Steps.
Context (max : Z) (Hmax : sound_limit max).

(** The end of a session: its task goes, the tunnel's own stay. *)
Lemma wp_end_session x t sp h : sessions_ok t sp -> tasks t !! task_of x = Some h ->
  wp (do_label max (LEnd x)) t (fun _ t' => (exists sp', sessions_ok t' sp') ∧ run t' = run t
    ∧ forall k, own k -> tasks t' !! k = tasks t !! k).
Proof.
  intros Hok Hh. destruct (sessions_live _ _ _ _ Hok Hh) as [Hx Hj].
  destruct (wp_elim _ _ _ (wp_label max _ (LEnd x) t sp Hmax Hok Hx)) as ([] & t' & Ht & Him).
  eapply wp_intro; [exact Ht|]. split; [by eexists; eapply rebase|].
  cbn [do_label] in Ht. unfold mbind at 1, M_bind at 1 in Ht.
  destruct (hev_socks5_session_task_entry x t) as [[[] t1]|] eqn:H1; [|done].
  destruct (keeps_entry x _ _ _ H1) as [K1 K2].
  assert (wp (hev_task_exit (task_of x)) t1 (fun _ t2 => run t2 = run t1 ∧ forall k, own k -> tasks t2 !! k = tasks t1 !! k)) as Hw.
  { apply wp_bind. eapply wp_get; [by rewrite K1|]. rewrite Hj. apply wp_bind, wp_ret, wp_bind.
    eapply wp_state; [by rewrite K1|]. eapply wp_put; [done|]. split; [done|]. intros k Ho.
    cbn [tasks with_tasks]. pose proof (own_session k x Ho). by rewrite lookup_delete_ne, lookup_insert_ne by done. }
  destruct (wp_elim _ _ _ Hw) as ([] & t2 & H2 & R2 & T2). rewrite Ht in H2. injection H2 as <-.
  split; [congruence|]. intros k Ho. rewrite T2 by done. by rewrite K1.
Qed.

Lemma wp_wait_session x h t sp : sessions_ok t sp -> tasks t !! task_of x = Some h -> state h ≠ HEV_TASK_STOPPED ->
  wp (wait (task_of x)) t (fun _ t' => sessions_ok t' sp ∧ run t' = run t ∧ forall k, own k -> tasks t' !! k = tasks t !! k).
Proof.
  intros [Hc Ht Hm] Hh Hs. eapply wp_state; [done|]. split; [|split; [done|]].
  2:{ intros k Ho. cbn [tasks with_tasks]. pose proof (own_session k x Ho). by rewrite lookup_insert_ne. }
  assert (forall k, status (with_tasks t (<[task_of x := mk_task HEV_TASK_WAITING (joiner h)]> (tasks t))) k = status t k) as Hst.
  { intros k. unfold status. cbn [tasks with_tasks]. destruct (decide (k = task_of x)) as [->|Hk].
    - rewrite lookup_insert_eq, Hh. cbn. by rewrite !bool_decide_eq_true_2.
    - by rewrite lookup_insert_ne. }
  split; [by destruct Hc | | by rewrite Hst].
  intros k. rewrite Hst. specialize (Ht k). by destruct k.
Qed.

Lemma wp_run_session x how t sp h : sessions_ok t sp -> tasks t !! task_of x = Some h -> state h = HEV_TASK_RUNNING ->
  wp (run_session max x how) t (fun _ t' => (exists sp', sessions_ok t' sp') ∧ run t' = run t
    ∧ forall k, own k -> tasks t' !! k = tasks t !! k).
Proof.
  intros Hok Hh Hs. destruct how as [update waits|]; [|by eapply wp_end_session].
  cbn [run_session]. apply wp_bind.
  assert (wp (mwhen update (do_label max (LYield x))) t (fun _ t1 => (exists sp', sessions_ok t1 sp') ∧ tasks t1 = tasks t ∧ run t1 = run t)) as Hw.
  { destruct update; [|apply wp_ret; eauto]. cbn [mwhen]. destruct (sessions_live _ _ _ _ Hok Hh) as [Hx _].
    destruct (wp_elim _ _ _ (wp_label max _ (LYield x) t sp Hmax Hok Hx)) as ([] & t1 & Ht & Him).
    eapply wp_intro; [exact Ht|]. split; [by eexists; eapply rebase | by apply (keeps_update max x _ _ _ Ht)]. }
  eapply wp_mono; [exact Hw|]. intros [] t1 ([sp1 Hok1] & K1 & K2).
  destruct waits; cbn [mwhen]; [|apply wp_ret; split_and!; [by eexists | done | by intros; rewrite K1]].
  eapply wp_mono; [apply (wp_wait_session x h t1 sp1 Hok1); [by rewrite K1 | by rewrite Hs]|].
  intros ? t2 (H1 & H2 & H3). split_and!; [by eexists | congruence | intros k Ho; by rewrite H3, K1].
Qed.

(** ** The packets of one round *)

Lemma fresh_enabled p t sp : sessions_ok t sp -> fresh_packet p t = true -> enabled (packet_label p) sp.
Proof.
  intros [Hc _ _] Hf. assert (forall x, HevList.nodes (session_set t) !! x = None -> x ∉ ss sp) as Hx.
  { intros x H%not_elem_of_dom. rewrite (im_dom _ _ Hc) in H. set_solver. }
  destruct p as [err [x|] task|d [x|] task]; cbn in *; try done; apply Hx; by apply bool_decide_eq_true in Hf.
Qed.

Lemma wp_handle_packets ps b : forall t sp, implements b t sp -> fresh_packets max ps t = true ->
  wp (handle max ps) t (fun _ t' => exists sp', implements b t' sp' ∧ running sp' = running sp).
Proof.
  induction ps as [|p ps IH]; intros t sp Him Hf; [apply wp_ret; by exists sp|].
  cbn [fresh_packets] in Hf. apply andb_prop in Hf as [Hf Hfs].
  assert (enabled (packet_label p) sp) as He by (eapply fresh_enabled; [by eapply rebase | done]).
  destruct (wp_elim _ _ _ (wp_label max b _ t sp Hmax Him He)) as ([] & t1 & Ht & Him1). rewrite Ht in Hfs.
  cbn [handle]. apply wp_bind. eapply wp_intro; [exact Ht|].
  eapply wp_mono; [by apply (IH t1 _ Him1)|]. intros ? t2 (sp2 & H1 & H2). exists sp2. split; [done|]. rewrite H2.
  destruct p as [err mem task|d mem task]; cbn [packet_label spec_label].
  - case_decide; [|done]. unfold spec_new. destruct (running sp) eqn:Hr; [|done]. destruct mem; [|done]. by destruct task.
  - destruct (to_dns d); [done|]. unfold spec_new. destruct (running sp) eqn:Hr; [|done]. destruct mem; [|done]. by destruct task.
Qed.

(** ** The steps keep the invariant *)

Lemma running_run t sp : sessions_ok t sp -> run t = 1 <-> running sp = true.
Proof. intros Hok. pose proof (im_run _ _ Hok) as Hr. rewrite Hr. by destruct (running sp). Qed.

(** While the stop has not been read: any change that leaves the own tasks alive. *)
Lemma inv_reading t t' b i l i' l' sp : inv (mk_system t Reading b i l) -> implements (status t) t' sp -> run t' = 1 ->
  inv (mk_system t' Reading b i' l').
Proof.
  intros [_ [[_ Hp] _]] Him Hr. split; [by exists sp; eapply rebase|]. split; [|done]. split; [done|].
  intros k Ho. destruct (Hp k Ho) as (v & Hv & Hne).
  assert (status t' k = Some (true, None)) as Hs.
  { destruct Him as [_ Ht _]. etrans; [apply (Ht k)|]. cbn [tun] in Hv.
    destruct Ho as [-> |[-> | ->]]; unfold status; rewrite Hv; cbn; by rewrite bool_decide_eq_true_2. }
  destruct (status_some _ _ _ _ Hs) as ([v' j] & Hh & Hj & Hb). cbn in Hj. subst j. exists v'. split; [done|]. by apply Hb.
Qed.

(** A live task of the tunnel waits or is woken. *)
Lemma implements_set b t sp k v h : implements b t sp -> own k -> tasks t !! k = Some h -> state h ≠ HEV_TASK_STOPPED ->
  v ≠ HEV_TASK_STOPPED -> implements b (with_tasks t (<[ k := mk_task v (joiner h) ]> (tasks t))) sp.
Proof.
  intros [Hc Ht Hm] Ho Hh Hs Hv. split; [by destruct Hc | | done].
  intros k'. rewrite <- Ht. unfold status. cbn [tasks with_tasks]. destruct (decide (k' = k)) as [->|Hk].
  - rewrite lookup_insert_eq, Hh. cbn. by rewrite !bool_decide_eq_true_2.
  - by rewrite lookup_insert_ne.
Qed.

Lemma in_state_some v k t : in_state v k t = true -> exists j, tasks t !! k = Some (mk_task v j).
Proof.
  unfold in_state. destruct (tasks t !! k) as [[w j]|]; [|done]. intros H%bool_decide_eq_true. cbn in H. subst. by exists j.
Qed.

Lemma stopped_sessions t t' sp : sessions_ok t sp -> run t = 0 ->
  session_set t' = session_set t -> session_count t' = session_count t -> run t' = run t -> terminated t' = terminated t ->
  (forall x, tasks t' !! task_of x = tasks t !! task_of x) -> sessions_ok t' sp.
Proof.
  intros Hok Hr. intros. eapply sessions_retask; try done. intros Hrun. apply (running_run _ _ Hok) in Hrun. congruence.
Qed.

(** Maps of tasks are known where they were written. *)
Ltac tasks_simpl := cbn [tun event_at byte run tasks with_tasks session_set session_count terminated] in *; by simplify_map_eq.
Ltac rank_simpl := unfold rank, stopped; cbn [tun event_at run tasks with_tasks] in *; simplify_map_eq; try lia; repeat case_match; first [lia | congruence].

Lemma wp_step_wake k s : inv s -> can max (Wake k) s = true -> 
  wp (do_step max (Wake k)) s (fun _ s' => inv s' ∧ event_at s' = event_at s ∧ rank s' = rank s).
Proof.
  destruct s as [t p b i l]. intros Hinv Hcan. pose proof Hinv as [[sp Hok] Hph]. cbn [tun] in Hok.
  assert (exists j, tasks t !! k = Some (mk_task HEV_TASK_WAITING j) ∧ (k = task_event -> b = true)) as (j & Hk & Hb).
  { cbn [can tun byte] in Hcan. destruct k; [apply andb_prop in Hcan as [Hb Hcan]|..];
      apply in_state_some in Hcan as [j Hj]; by exists j. }
  cbn [do_step]. apply wp_tunnel_part. eapply wp_wake; [exact Hk | done |]. cbn [joiner event_at byte timer_i ticks].
  split_and!; [|done|]; cycle 1.
  { assert (forall k', stopped k' (with_tasks t (<[ k := mk_task HEV_TASK_RUNNING j ]> (tasks t))) = stopped k' t) as Hst.
    { intros k'. unfold stopped. cbn [tasks with_tasks]. destruct (decide (k' = k)) as [->|Hne].
      - by rewrite lookup_insert_eq, Hk.
      - by rewrite lookup_insert_ne. }
    unfold rank. cbn [tun event_at]. by rewrite !Hst. }
  destruct (decide (own k)) as [Ho|Ho].
  - destruct p; cycle 1.
    1-3: destruct Hph as [Hp Hbf]; specialize (Hbf ltac:(done)); cbn [byte tun event_at] in Hbf, Hp; subst b.
    1-3: assert (k ≠ task_event) as Hne by (intros Heq; by specialize (Hb Heq)).
    + destruct Hp as (Hr & (v & Htm) & [[Hio He]|[Hio He]]); (destruct Ho as [-> |[-> | ->]]; [done | by rewrite Hk in Hio |]);
        cbn [tun run] in *; (split; [exists sp; eapply stopped_sessions; try done; intros x; tasks_simpl|]);
        (split; [|done]); (split; [done|]); (split; [eexists; tasks_simpl|]).
      * left. split; tasks_simpl.
      * right. split; tasks_simpl.
    + destruct Hp as (Hr & (v & Hio) & [[Htm He]|[Htm He]]); destruct Ho as [-> |[-> | ->]]; try done; cbn [tun] in *; by simplify_map_eq.
    + destruct Hp as (Hr & Hp). destruct (Hp k Ho) as [j' Hj']. cbn [tun] in Hj'. by rewrite Hk in Hj'.
    + eapply inv_reading; [exact Hinv | | by destruct Hph as [[Hr _] _]].
      apply (implements_set _ _ _ _ HEV_TASK_RUNNING (mk_task HEV_TASK_WAITING j) Hok Ho Hk); done.
  - destruct k as [| | |x]; [destruct Ho; unfold own; tauto..|].
    assert (forall k, status (with_tasks t (<[task_of x := mk_task HEV_TASK_RUNNING j]> (tasks t))) k = status t k) as Hst.
    { intros k. unfold status. cbn [tasks with_tasks]. destruct (decide (k = task_of x)) as [->|Hne].
      - by rewrite lookup_insert_eq, Hk.
      - by rewrite lookup_insert_ne. }
    split.
    + exists sp. destruct Hok as [Hc Ht Hm]. split; [by destruct Hc | | cbn [tun]; by rewrite Hst].
      intros k. cbn [tun]. rewrite Hst. specialize (Ht k). by destruct k.
    + eapply phase_same; [exact Hph | done |]. intros k Hk'. cbn [tasks with_tasks]. pose proof (own_session k x Hk').
      by rewrite lookup_insert_ne.
Qed.

Lemma wp_step_session x how s : inv s -> can max (RunSession x how) s = true ->
  wp (do_step max (RunSession x how)) s (fun _ s' => inv s' ∧ event_at s' = event_at s ∧ rank s' = rank s).
Proof.
  destruct s as [t p b i l]. intros [[sp Hok] Hph] Hcan. apply in_state_some in Hcan as [j Hj]. cbn [tun] in *.
  cbn [do_step]. apply wp_tunnel_part. eapply wp_mono; [by eapply wp_run_session|].
  intros ? t' ([sp' Hok'] & Hr & Hk). split_and!; [split; [by exists sp' | by eapply phase_same] | done |].
  unfold rank, stopped. cbn [tun event_at]. by rewrite !Hk.
Qed.

Lemma wp_step_io ps s : inv s -> can max (RunIo ps) s = true -> 
  wp (do_step max (RunIo ps)) s (fun _ s' => inv s' ∧ event_at s' = event_at s ∧ (event_at s ≠ Reading -> rank s' < rank s)%nat).
Proof.
  destruct s as [t p b i l]. intros Hinv Hcan. pose proof Hinv as [[sp Hok] Hph]. cbn [tun] in Hok.
  apply andb_prop in Hcan as [Hcan Hf]. apply in_state_some in Hcan as [j Hj]. cbn [tun] in *.
  cbn [do_step]. apply wp_tunnel_part. unfold run_io. apply wp_bind. eapply wp_get; [done|]. cbn [event_at byte timer_i ticks].
  destruct p; destruct Hph as [Hp Hb]; cbn [tun event_at byte] in *.
  - destruct Hp as [Hr Hp]. rewrite decide_False by (rewrite Hr; done). apply wp_bind.
    eapply wp_mono; [by eapply wp_handle_packets|]. intros ? t1 (sp1 & Him1 & Hrun1).
    assert (run t1 = 1) as Hr1 by (rewrite (im_run _ _ Him1), Hrun1; by rewrite (proj1 (running_run _ _ Hok) Hr)).
    destruct (Hp _ own_io) as (v & Hv & Hne).
    assert (status t1 task_lwip_io = Some (true, None)) as Hs.
    { destruct Him1 as [_ Ht _]. etrans; [apply (Ht task_lwip_io)|]. unfold status. rewrite Hv. cbn. by rewrite bool_decide_eq_true_2. }
    destruct (status_some _ _ _ _ Hs) as ([w j'] & Hh & Hj' & Hw). cbn in Hj'. subst j'.
    eapply wp_state; [exact Hh|]. split_and!; [|done|by intros []]. eapply inv_reading; [exact Hinv | | exact Hr1].
    apply implements_set; try done. by apply Hw.
  - destruct Hp as (Hr & Htm & [[Hio He]|[Hio He]]); [|by rewrite Hj in Hio].
    rewrite decide_True by done. eapply wp_exit_joined; try done. split_and!; [|done|intros _; rank_simpl].
    split; [exists sp; eapply stopped_sessions; try done; intros x; tasks_simpl|].
    split; [|done]. split; [done|]. destruct Htm as [v Htm]. split; [exists v; tasks_simpl|]. right. split; tasks_simpl.
  - destruct Hp as (Hr & (v & Hio) & _). by rewrite Hj in Hio.
  - destruct Hp as (Hr & Hp). destruct (Hp _ own_io) as [j' Hj']. by rewrite Hj in Hj'.
Qed.

Lemma wp_step_timer s : inv s -> can max RunTimer s = true -> 
  wp (do_step max RunTimer) s (fun _ s' => inv s' ∧ event_at s' = event_at s ∧ (event_at s ≠ Reading -> rank s' < rank s)%nat).
Proof.
  destruct s as [t p b i l]. intros Hinv Hcan. pose proof Hinv as [[sp Hok] Hph].
  apply in_state_some in Hcan as [j Hj]. cbn [tun] in *.
  cbn [do_step]. unfold run_timer. apply wp_bind, wp_tunnel_part. eapply wp_get; [done|]. cbn [tun event_at byte timer_i ticks].
  destruct p; destruct Hph as [Hp Hb]; cbn [tun event_at byte] in *.
  - destruct Hp as [Hr Hp]. rewrite decide_False by (rewrite Hr; done). apply wp_bind, wp_tunnel_part, wp_on_set.
    pose proof Hok as [[Hset _ _ _ _ _] _ _]. eapply wp_mono; [by apply HevList.wp_first|]. intros node st [-> ->].
    apply wp_bind. eapply wp_put; [done|]. apply wp_tunnel_part. cbn [tun event_at byte timer_i ticks].
    destruct (Hp _ own_timer) as (v & Hv & Hne).
    eapply wp_state; [exact Hv|]. split_and!; [|done|by intros []]. eapply inv_reading; [exact Hinv | | exact Hr].
    apply (implements_set (status t) t sp task_lwip_timer HEV_TASK_WAITING (mk_task v None) Hok); done.
  - destruct Hp as (Hr & (v & Htm) & Hd). rewrite decide_True by done. apply wp_tunnel_part.
    eapply wp_exit; [done | exact Htm |]. split_and!; [|done|intros _; rank_simpl].
    split; [exists sp; eapply stopped_sessions; try done; intros x; tasks_simpl|].
    split; [|done]. split; [done|]. split; [eexists; tasks_simpl|].
    destruct Hd as [[Hio He]|[Hio He]]; [left|right]; split; tasks_simpl.
  - destruct Hp as (Hr & (v & Hio) & [[Htm He]|[Htm He]]); [|by rewrite Hj in Htm].
    rewrite decide_True by done. apply wp_tunnel_part. eapply wp_exit_joined; try done. split_and!; [|done|intros _; rank_simpl].
    split; [exists sp; eapply stopped_sessions; try done; intros x; tasks_simpl|].
    split; [|done]. split; [done|]. split; [eexists; tasks_simpl|]. right. split; tasks_simpl.
  - destruct Hp as (Hr & Hp). destruct (Hp _ own_timer) as [j' Hj']. by rewrite Hj in Hj'.
Qed.

(** Joining a task that lives wakes it and makes the event task wait. *)
Lemma wp_join_loop k v w j t (Q : bool -> tunnel -> Prop) : own k -> k ≠ task_event ->
  tasks t !! k = Some (mk_task v j) -> tasks t !! task_event = Some (mk_task w None) ->
  Q (bool_decide (v = HEV_TASK_STOPPED))
    (if decide (v = HEV_TASK_STOPPED) then t else
     with_tasks t (<[ task_event := mk_task HEV_TASK_WAITING None ]> (<[ k := mk_task HEV_TASK_RUNNING j ]> (tasks t)))) ->
  wp (join_loop k task_event) t Q.
Proof.
  intros Ho Hne Hk He HQ. apply wp_bind. eapply wp_get; [done|]. cbn [state]. destruct (decide (v = HEV_TASK_STOPPED)) as [->|Hv].
  - by apply wp_ret.
  - rewrite bool_decide_eq_false_2 in HQ by done. apply wp_bind. eapply wp_wake; [done | done |]. apply wp_bind.
    eapply wp_state; [cbn; by rewrite lookup_insert_ne|]. apply wp_ret. exact HQ.
Qed.

Lemma wp_join k v w t (Q : bool -> tunnel -> Prop) : own k -> k ≠ task_event ->
  tasks t !! k = Some (mk_task v None) -> tasks t !! task_event = Some (mk_task w None) ->
  Q (bool_decide (v = HEV_TASK_STOPPED))
    (with_tasks t (if decide (v = HEV_TASK_STOPPED) then <[ k := mk_task v (Some task_event) ]> (tasks t) else
       <[ task_event := mk_task HEV_TASK_WAITING None ]> (<[ k := mk_task HEV_TASK_RUNNING (Some task_event) ]> (tasks t)))) ->
  wp (hev_task_join k task_event) t Q.
Proof.
  intros Ho Hne Hk He HQ. apply wp_bind. eapply wp_get; [done|]. cbn [joiner]. apply wp_bind. eapply wp_put; [done|].
  eapply wp_join_loop; [done | done | cbn; by rewrite lookup_insert_eq | cbn; by rewrite lookup_insert_ne |].
  cbn [tasks with_tasks state] in *. case_decide; [done|]. unfold with_tasks in *. cbn [session_set session_count run terminated] in *.
  by rewrite insert_insert_eq.
Qed.

(** Every session in the set was told to end. *)
Definition all_told (t : tunnel) : Prop := dom (HevList.nodes (session_set t)) ⊆ terminated t.

Lemma own_live t b t1 sp k v : implements b t1 sp -> b = status t -> own k -> tasks t !! k = Some (mk_task v None) ->
  v ≠ HEV_TASK_STOPPED -> exists w, tasks t1 !! k = Some (mk_task w None) ∧ w ≠ HEV_TASK_STOPPED.
Proof.
  intros [_ Ht _] -> Ho Hk Hv. assert (status t1 k = Some (true, None)) as Hs.
  { etrans; [apply (Ht k)|]. destruct Ho as [-> |[-> | ->]]; unfold status; rewrite Hk; cbn; by rewrite bool_decide_eq_true_2. }
  destruct (status_some _ _ _ _ Hs) as ([w j] & Hh & Hj & Hb). cbn in Hj. subst j. exists w. split; [done | by apply Hb].
Qed.

Lemma wp_event_reading t b i l : inv (mk_system t Reading b i l) ->
  wp run_event (mk_system t Reading b i l) (fun _ s' => inv s' ∧
    if b then event_at s' = JoiningIo ∧ all_told (tun s') else event_at s' = Reading).
Proof.
  intros Hinv. pose proof Hinv as [[sp Hok] [[Hr Hp] _]]. cbn [tun event_at] in *.
  unfold run_event. apply wp_bind. eapply wp_get; [done|]. cbn [event_at]. apply wp_bind. eapply wp_get; [done|]. cbn [byte].
  destruct (Hp _ own_event) as (v & Hv & Hne).
  destruct b; cbn [negb].
  - apply wp_bind. eapply wp_put; [done|]. apply wp_bind, wp_tunnel_part. cbn [tun event_at byte timer_i ticks].
    eapply wp_mono; [exact (wp_stop max (status t) t sp Hok)|]. cbn beta. intros ? t1 Him. apply wp_bind, wp_tunnel_part. cbn [tun event_at byte timer_i ticks].
    destruct (own_live t _ t1 _ _ _ Him eq_refl own_event Hv Hne) as (v1 & Hv1 & _).
    destruct (Hp _ own_io) as (w & Hw & Hwn).
    destruct (own_live t _ t1 _ _ _ Him eq_refl own_io Hw Hwn) as (w1 & Hw1 & Hwn1).
    destruct (Hp _ own_timer) as (u & Hu & Hun).
    destruct (own_live t _ t1 _ _ _ Him eq_refl own_timer Hu Hun) as (u1 & Hu1 & _).
    eapply (wp_join task_lwip_io); [done | done | exact Hw1 | exact Hv1 |].
    rewrite bool_decide_eq_false_2, decide_False by done. cbn [after_io]. eapply wp_put; [done|].
    cbn [tun event_at byte timer_i ticks]. split_and!; [|done|].
    + pose proof (im_run _ _ Him) as Hr1. cbn in Hr1.
      split; [eexists; eapply stopped_sessions; [eapply rebase; exact Him | done..|]; intros x; tasks_simpl|].
      split; [|done]. split; [done|]. split; [exists u1; tasks_simpl|]. left. split; tasks_simpl.
    + unfold all_told. cbn [tun with_tasks session_set terminated]. rewrite (im_dom _ _ Him), (im_ended _ _ Him). cbn. set_solver.
  - apply wp_tunnel_part. eapply wp_state; [exact Hv|]. split; [|done]. eapply inv_reading; [exact Hinv | | exact Hr].
    apply (implements_set (status t) t sp task_event HEV_TASK_WAITING (mk_task v None) Hok); done.
Qed.

Lemma wp_event_joining s : inv s -> event_at s ≠ Reading -> can max RunEvent s = true ->
  wp run_event s (fun _ s' => inv s' ∧ event_at s' ≠ Reading ∧ (rank s' < rank s)%nat).
Proof.
  destruct s as [t p b i l]. intros [[sp Hok] [Hp Hb]] Hne Hcan. cbn [event_at] in Hne. apply in_state_some in Hcan as [j Hj].
  cbn [tun event_at byte] in *. specialize (Hb Hne). subst b.
  unfold run_event. apply wp_bind. eapply wp_get; [done|]. cbn [event_at].
  destruct p; [done | | |]; cbn [tun event_at byte] in *.
  - destruct Hp as (Hr & (v & Htm) & [[Hio He]|[Hio He]]); [by rewrite Hj in He|].
    apply wp_bind, wp_tunnel_part. cbn [tun event_at byte timer_i ticks].
    eapply wp_join_loop; [done | done | exact Hio | exact He |]. rewrite bool_decide_eq_true_2, decide_True by done.
    cbn [after_io]. apply wp_bind, wp_tunnel_part. cbn [tun event_at byte timer_i ticks].
    eapply wp_join; [done | done | exact Htm | exact He |]. cbn [tun event_at byte timer_i ticks].
    destruct (decide (v = HEV_TASK_STOPPED)) as [->|Hv].
    + rewrite bool_decide_eq_true_2 by done. cbn [end_event]. apply wp_bind, wp_tunnel_part. cbn [tun event_at byte timer_i ticks].
      eapply wp_exit; [done | tasks_simpl |]. eapply wp_put; [done|]. cbn [tun event_at byte timer_i ticks].
      split_and!; [|done|rank_simpl].
      split; [exists sp; eapply stopped_sessions; try done; intros x; tasks_simpl|]. split; [|done]. split; [done|].
      intros k [-> |[-> | ->]]; eexists; tasks_simpl.
    + rewrite bool_decide_eq_false_2 by done. cbn [end_event]. eapply wp_put; [done|]. cbn [tun event_at byte timer_i ticks].
      split_and!; [|done|rank_simpl].
      split; [exists sp; eapply stopped_sessions; try done; intros x; tasks_simpl|]. split; [|done]. split; [done|].
      split; [eexists; tasks_simpl|]. left. split; tasks_simpl.
  - destruct Hp as (Hr & (v & Hio) & [[Htm He]|[Htm He]]); [by rewrite Hj in He|].
    apply wp_bind, wp_tunnel_part. cbn [tun event_at byte timer_i ticks].
    eapply wp_join_loop; [done | done | exact Htm | exact He |]. rewrite bool_decide_eq_true_2, decide_True by done.
    cbn [end_event]. apply wp_bind, wp_tunnel_part. cbn [tun event_at byte timer_i ticks].
    eapply wp_exit; [done | exact He |]. eapply wp_put; [done|]. cbn [tun event_at byte timer_i ticks].
    split_and!; [|done|rank_simpl].
    split; [exists sp; eapply stopped_sessions; try done; intros x; tasks_simpl|]. split; [|done]. split; [done|].
    intros k [-> |[-> | ->]]; eexists; tasks_simpl.
  - destruct Hp as (Hr & Hp). destruct (Hp _ own_event) as [j' Hj']. by rewrite Hj in Hj'.
Qed.

(** Every step keeps the invariant, and those of the tunnel's own tasks come to an end. *)
Lemma wp_step l s : inv s -> can max l s = true -> wp (do_step max l) s (fun _ s' => inv s'
  ∧ (event_at s ≠ Reading -> event_at s' ≠ Reading ∧ (rank s' + (if of_tunnel l then 1 else 0) <= rank s)%nat)).
Proof.
  intros Hinv Hcan. destruct l as [|k|x how|ps| |]; cbn [of_tunnel].
  - destruct s as [t p b i l]. eapply wp_put; [done|]. cbn [can event_at byte] in *.
    apply andb_prop in Hcan as [->%bool_decide_eq_true _]. split; [|by intros []]. destruct Hinv as [? [? ?]]. by split.
  - eapply wp_mono; [by apply wp_step_wake|]. intros ? s' (H1 & -> & ->). split_and!; [done|]. intros. split; [done | lia].
  - eapply wp_mono; [by apply wp_step_session|]. intros ? s' (H1 & -> & ->). split_and!; [done|]. intros. split; [done | lia].
  - eapply wp_mono; [by apply wp_step_io|]. intros ? s' (H1 & -> & H2). split_and!; [done|]. intros Hne. split; [done|]. specialize (H2 Hne). lia.
  - eapply wp_mono; [by apply wp_step_timer|]. intros ? s' (H1 & -> & H2). split_and!; [done|]. intros Hne. split; [done|]. specialize (H2 Hne). lia.
  - destruct (decide (event_at s = Reading)) as [He|He].
    + destruct s as [t p b i l]. cbn in He. subst p. eapply wp_mono; [by apply wp_event_reading|].
      intros ? s' [H1 _]. split; [done | by intros []].
    + eapply wp_mono; [by apply wp_event_joining|]. intros ? s' (H1 & H2 & H3). split_and!; [done|]. intros. split; [done | lia].
Qed.

Lemma wp_steps ls : forall s, inv s -> can_all max ls s = true -> wp (do_steps max ls) s (fun _ s' => inv s'
  ∧ (event_at s ≠ Reading -> event_at s' ≠ Reading ∧ (rank s' + length (filter of_tunnel ls) <= rank s)%nat)).
Proof.
  induction ls as [|l ls IH]; intros s Hinv Hcan; [apply wp_ret; split; [done | intros; split; [done | cbn; lia]]|].
  cbn [can_all] in Hcan. apply andb_prop in Hcan as [Hl Hls].
  destruct (wp_elim _ _ _ (wp_step l s Hinv Hl)) as ([] & s1 & Hs1 & Hinv1 & Hr1). rewrite Hs1 in Hls.
  cbn [do_steps]. apply wp_bind. eapply wp_intro; [exact Hs1|]. eapply wp_mono; [by apply IH|].
  intros ? s2 [Hinv2 Hr2]. split; [done|]. intros Hne. destruct (Hr1 Hne) as [Hne1 H1]. destruct (Hr2 Hne1) as [Hne2 H2].
  split; [done|]. destruct (of_tunnel l) eqn:Hl'.
  - rewrite filter_cons_True by (rewrite Hl'; exact I). cbn [length]. lia.
  - rewrite filter_cons_False by (rewrite Hl'; by intros []). lia.
Qed.

Lemma rank_bound s : event_at s ≠ Reading -> (rank s <= 4)%nat.
Proof. unfold rank. destruct (event_at s); [done|..]; intros _; repeat case_match; lia. Qed.

(** There is always a task of the tunnel to run while one is left. *)
Lemma inv_progress s : inv s -> event_at s ≠ Reading ->
  event_at s = Ended \/ can max RunEvent s = true \/ can max RunTimer s = true \/ can max (RunIo []) s = true.
Proof.
  intros [_ [Hp _]] Hne. unfold can, in_state. destruct (event_at s); [done | | | by left]; right.
  - destruct Hp as (_ & _ & [[Hio _]|[_ He]]).
    + right. right. by rewrite Hio.
    + left. by rewrite He.
  - destruct Hp as (_ & _ & [[Htm _]|[_ He]]).
    + right. left. by rewrite Htm.
    + left. by rewrite He.
Qed.

Lemma inv_byte s : inv s -> event_at s = Reading -> byte s = true -> can max RunEvent s = true \/ can max (Wake task_event) s = true.
Proof.
  intros [_ [Hp _]] Hr Hb. rewrite Hr in Hp. destruct Hp as [_ Hp]. destruct (Hp _ own_event) as (v & Hv & Hne).
  unfold can, in_state. rewrite Hv, Hb. cbn. destruct v; [done | by left | by right].
Qed.

Lemma inv_ended s : inv s -> event_at s = Ended -> HevList.nodes (session_set (tun s)) = ∅ ->
  forall k h, tasks (tun s) !! k = Some h -> state h = HEV_TASK_STOPPED.
Proof.
  intros [[sp Hok] [Hp _]] He Hn k h Hh. rewrite He in Hp. destruct Hp as [_ Hp].
  destruct k as [| | |x]; [destruct (Hp _ own_event) as [j Hj]; rewrite Hh in Hj; by injection Hj as ->
                          |destruct (Hp _ own_io) as [j Hj]; rewrite Hh in Hj; by injection Hj as ->
                          |destruct (Hp _ own_timer) as [j Hj]; rewrite Hh in Hj; by injection Hj as -> |].
  destruct (sessions_live _ _ _ _ Hok Hh) as [Hx _]. pose proof (im_dom _ _ Hok) as Hd. rewrite Hn, dom_empty_L in Hd. set_solver.
Qed.
End Steps.

(** ** Properties *)



(** ** The timers of the stack *)

(** What the timer task does in its first [n] rounds. *)
Fixpoint rounds (n : nat) : list tick :=
  match n with O => [] | S m => rounds m ++ timer_ticks (u32 (Z.of_nat m + 1)) end.

Definition count (x : tick) (l : list tick) : nat := length (filter (.= x) l).

Lemma rounds_count n : count TcpTmr (rounds n) = n
  ∧ forall x, x ∈ [IpReassTmr; Nd6Tmr; Ip6ReassTmr] -> count x (rounds n) = (n / 4)%nat.
Proof.
  assert (forall x l k, count x (l ++ k) = count x l + count x k)%nat as Happ.
  { intros. unfold count. by rewrite filter_app, length_app. }
  assert (forall m, Z.land (u32 (Z.of_nat m + 1)) 3 = Z.of_nat (S m mod 4)) as Hland.
  { intros m. change 3 with (Z.ones 2). rewrite Z.land_ones by lia. unfold u32. change (2 ^ 32) with (2 ^ 2 * 2 ^ 30).
    rewrite Z.mod_mod_divide by (by exists (2 ^ 30)). change (2 ^ 2) with (Z.of_nat 4). rewrite Nat2Z.inj_mod. f_equal. lia. }
  induction n as [|n [IH1 IH2]]; [split; [done | by intros x Hx]|]. cbn [rounds]. unfold timer_ticks. rewrite Hland. split.
  - rewrite Happ, IH1. case_decide.
    + change (count TcpTmr [TcpTmr; IpReassTmr; Nd6Tmr; Ip6ReassTmr]) with 1%nat. lia.
    + change (count TcpTmr [TcpTmr]) with 1%nat. lia.
  - intros x Hx. rewrite Happ, (IH2 x Hx).
    pose proof (Nat.div_mod_eq (S n) 4). pose proof (Nat.div_mod_eq n 4).
    pose proof (Nat.mod_upper_bound (S n) 4 ltac:(done)). pose proof (Nat.mod_upper_bound n 4 ltac:(done)). case_decide as Hm.
    + assert (count x [TcpTmr; IpReassTmr; Nd6Tmr; Ip6ReassTmr] = 1)%nat as ->.
      { unfold count. repeat (apply elem_of_cons in Hx as [-> |Hx]; [reflexivity|]). by apply not_elem_of_nil in Hx. }
      lia.
    + assert (count x [TcpTmr] = 0)%nat as ->.
      { unfold count. repeat (apply elem_of_cons in Hx as [-> |Hx]; [reflexivity|]). by apply not_elem_of_nil in Hx. }
      lia.
Qed.

(** Only the timer task's rounds drive the timers. *)
Definition same_ticks {A} (m : M system A) : Prop :=
  forall s a s', m s = Some (a, s') -> ticks s' = ticks s ∧ timer_i s' = timer_i s.

Lemma same_bind {A B} (m : M system A) (f : A -> M system B) : same_ticks m -> (forall a, same_ticks (f a)) -> same_ticks (m ≫= f).
Proof.
  intros Hm Hf s b s'. unfold mbind, M_bind. destruct (m s) as [[a s1]|] eqn:H1; [|done].
  intros H2. destruct (Hm _ _ _ H1), (Hf _ _ _ _ H2). split; congruence.
Qed.

Lemma same_on_tunnel {A} (m : M tunnel A) : same_ticks (on_tunnel m).
Proof. intros s a s'. unfold on_tunnel. destruct (m (tun s)) as [[]|]; [|done]. by intros [= _ <-]. Qed.

Lemma same_goto p : same_ticks (goto p).
Proof. by intros s a s' [= _ <-]. Qed.

Lemma same_byte b : same_ticks (set_byte b).
Proof. by intros s a s' [= _ <-]. Qed.

Lemma same_get {A} (f : system -> option A) : same_ticks (mget f).
Proof. intros s a s'. unfold mget. destruct (f s); [|done]. by intros [= _ <-]. Qed.

#[local] Hint Resolve same_bind same_on_tunnel same_goto same_byte same_get : core.

Lemma same_event : same_ticks run_event.
Proof.
  assert (forall j, same_ticks (end_event j)) as He by (intros []; cbn [end_event]; auto).
  assert (forall j, same_ticks (after_io j)) as Ha by (intros []; cbn [after_io]; auto).
  apply same_bind; [done|]. intros []; auto 6.
  - apply same_bind; [done|]. intros []; cbn [negb]; auto 6.
  - by intros s a s'.
Qed.

Definition ticked (s : system) : Prop :=
  exists n, timer_i s = u32 (Z.of_nat n + 1) ∧ filter (fun x => x ≠ SleepTick ∧ x ≠ YieldTick) (ticks s) = rounds n.

Lemma u32_succ z : u32 (u32 z + 1) = u32 (z + 1).
Proof. unfold u32. by rewrite Zplus_mod_idemp_l. Qed.

Lemma ticked_step max l s s' : ticked s -> do_step max l s = Some (tt, s') -> ticked s'.
Proof.
  intros (n & Hi & Ht) Hs. assert (same_ticks (do_step max l) -> ticked s') as Hsame.
  { intros H. destruct (H _ _ _ Hs) as [H1 H2]. exists n. by rewrite H1, H2. }
  destruct l as [|k|x how|ps| |]; try (apply Hsame; cbn [do_step]; auto; fail); [|apply Hsame, same_event].
  cbn [do_step] in Hs. unfold run_timer in Hs.
  unfold mbind at 1, M_bind at 1 in Hs. unfold on_tunnel at 1, get, mget in Hs.
  destruct (decide (run (tun s) = 0)) as [Hr|Hr].
  { apply same_on_tunnel in Hs as [H1 H2]. exists n. by rewrite H1, H2. }
  unfold mbind at 1, M_bind at 1 in Hs. unfold on_tunnel at 1, on_set, HevList.hev_list_first, mget in Hs.
  cbn [tun event_at byte timer_i ticks session_set] in Hs.
  unfold mbind at 1, M_bind at 1, mput in Hs. apply same_on_tunnel in Hs as [H1 H2]. cbn [timer_i ticks] in H1, H2.
  exists (S n). split; [rewrite H2, Hi, u32_succ; f_equal; lia|]. rewrite H1, !filter_app, Ht, Hi. cbn [rounds]. f_equal.
  assert (filter (fun x => x ≠ SleepTick ∧ x ≠ YieldTick) (timer_ticks (u32 (Z.of_nat n + 1))) = timer_ticks (u32 (Z.of_nat n + 1))) as ->.
  { unfold timer_ticks. by case_decide. }
  destruct (HevList.head (session_set (tun s))); by rewrite app_nil_r.
Qed.

(** Each round of the timer task drives TCP, every fourth the reassembly and the neighbours,
    also when the counter wraps. *)
Theorem timer_periods max ls s : do_steps max ls initial_system = Some (tt, s) ->
  forall x, x ∈ [IpReassTmr; Nd6Tmr; Ip6ReassTmr] -> count x (ticks s) = (count TcpTmr (ticks s) / 4)%nat.
Proof.
  intros Hs. assert (ticked s) as (n & _ & Ht).
  { assert (forall s0, ticked s0 -> do_steps max ls s0 = Some (tt, s) -> ticked s) as H; [|apply (H initial_system); [by exists 0%nat | done]].
    clear Hs. induction ls as [|l ls IH]; intros s0 H0 Hs; [by injection Hs as <-|].
    cbn [do_steps] in Hs. unfold mbind, M_bind in Hs. destruct (do_step max l s0) as [[[] s1]|] eqn:H1; [|done].
    apply (IH s1); [by eapply ticked_step | done]. }
  assert (forall x, x ≠ SleepTick ∧ x ≠ YieldTick -> count x (ticks s) = count x (rounds n)) as Hc.
  { intros x Hx. rewrite <- Ht. unfold count. f_equal. rewrite list_filter_filter_l; [done|]. by intros y ->. }
  destruct (rounds_count n) as [H1 H2]. intros x Hx. rewrite (Hc TcpTmr), H1 by done. rewrite Hc, H2; [done | done |].
  repeat (apply elem_of_cons in Hx as [-> |Hx]; [done|]). by apply not_elem_of_nil in Hx.
Qed.

(** ** Witnesses *)

(** Two sessions start, one yields and waits; the stop comes while the reader waits. *)
Definition example_steps : list step :=
  [ RunIo [PAccept ERR_OK (Some 1%positive) true; PDatagram example_flow (Some 2%positive) true];
    RunSession 1 (SYield false true); RunTimer; RunEvent; Wake (task_of 1); RunSession 1 (SYield true true); Byte; Wake task_event ].
Definition example_end : list step :=
  [ RunEvent; RunSession 2 SEnd; RunIo []; Wake task_lwip_timer; RunTimer; RunSession 1 (SYield true false); RunEvent; RunSession 1 SEnd ].

Definition example_system (ls : list step) : system :=
  match do_steps 3 ls initial_system with Some (_, s) => s | None => initial_system end.



End TunnelTasksProofs.
