(* ===== verification/TunnelDevice.v ===== *)
(** * The tunnel device of Linux: src/hev-tunnel-linux.c

    The device is opened, named by the kernel, and set up through sockets that are opened for
    one request each.  What the kernel answers is an argument; the model keeps the
    descriptors that are open, so that using or closing another one is an error, and what the
    kernel was asked.  The state and the calls serve the devices of the BSD systems too; the
    tunnel works with any device that has the operations of hev-tunnel.h. *)

From Stdlib Require Import String.
From S2P Require Import Prelude Socks5Addr Socks5Io.

Module TunnelDevice.
Import Socks5Addr.

(** ** State *)

Inductive request :=
  | TUNSETIFF | SIOCSIFMTU | SIOCGIFFLAGS | SIOCSIFFLAGS | SIOCSIFADDR | SIOCSIFNETMASK | SIOCGIFINDEX
  | TUNGIFNAME | SIOCSIFNAME | SIOCIFDESTROY | FIONBIO | CTLIOCGINFO | SIOCAIFADDR | SIOCAIFADDR_IN6.

#[export] Instance request_eq_dec : EqDecision request.
Proof. solve_decision. Defined.

Inductive call :=
  | COpen (path : bytes) | CSocket (domain : Z) | CIoctl (r : request) (arg : bytes)
  | CConnect (sa : bytes) | CGetsockopt (val : bytes).

(** The result, [errno], and the memory of the argument afterwards. *)
Record answer := mk_answer { a_res : Z; a_errno : Z; a_out : bytes }.

(** [tun_name]: the static variable; [fds]: the open descriptors; [asked]: the requests with
    their arguments before and after. *)
Record device := mk_device { tun_name : bytes; fds : list Z; asked : list (request * bytes * bytes) }.

Definition IFNAMSIZ : nat := 16.
Definition sizeof_ifreq : nat := 40.
Definition sizeof_in6_ifreq : nat := 24.
Definition zero_ifreq : bytes := replicate sizeof_ifreq 0.

(** The offset of the union in [struct ifreq]; the members of [struct in6_ifreq]. *)
Definition ifr_ifru : Z := 16.
Definition sin_addr : Z := 20.
Definition ifr6_prefixlen : Z := 16.
Definition ifr6_ifindex : Z := 20.

Definition IFF_UP : Z := 1.
Definition IFF_TUN : Z := 1.
Definition IFF_NO_PI : Z := 4096.
Definition IFF_MULTI_QUEUE : Z := 256.
Definition AF_INET : Z := 2.
Definition AF_INET6 : Z := 10.
Definition EEXIST : Z := 17.

Definition le32 (v : Z) : bytes := le16 v ++ le16 (v / 2 ^ 16).

Section Device.
Context (kernel : device -> call -> answer).

(** ** System calls *)

Definition opening (c : call) : M device Z := fun d =>
  let f := a_res (kernel d c) in
  if decide (f < 0) then Some (f, d) else Some (f, mk_device (tun_name d) (f :: fds d) (asked d)).

Definition close (f : Z) : M device unit := fun d =>
  match Socks5Io.take_out f (fds d) with
  | Some l => Some (tt, mk_device (tun_name d) l (asked d))
  | None => None
  end.

Definition ioctl (f : Z) (r : request) (arg : bytes) : M device answer := fun d =>
  let a := kernel d (CIoctl r arg) in
  if decide (f ∈ fds d) then Some (a, mk_device (tun_name d) (fds d) (asked d ++ [(r, arg, a_out a)])) else None.

Definition mem (v : option bytes) : M device bytes := mget (fun _ => v).
Definition get_name : M device bytes := mget (fun d => Some (tun_name d)).
Definition set_name (n : bytes) : M device unit := mput (fun d => Some (mk_device n (fds d) (asked d))).

(** [memcpy (ifr.ifr_name, tun_name, IFNAMSIZ)] *)
Definition named (ifr : bytes) : M device bytes := n ← get_name; mem (wr ifr 0 n).

(** ** Opening *)

Definition hev_tunnel_open (name : option bytes) (multi_queue : bool) : M device Z :=
  f ← opening (COpen (lit "/dev/net/tun"));
  if decide (f < 0) then mret (-1) else
  let flags := Z.lor IFF_TUN IFF_NO_PI in
  ifr ← mem (wr zero_ifreq ifr_ifru (le16 (if multi_queue then Z.lor flags IFF_MULTI_QUEUE else flags)));
  ifr ← mem (match name with Some s => wr ifr 0 (strncpy s (IFNAMSIZ - 1)) | None => Some ifr end);
  a ← ioctl f TUNSETIFF ifr;
  if decide (a_res a < 0) then close f;; mret (a_res a) else
  n ← mem (rd (a_out a) 0 (Z.of_nat IFNAMSIZ));
  set_name n;;
  mret f.

Definition hev_tunnel_close (f : Z) : M device unit := close f.

(** ** Settings *)

Definition hev_tunnel_set_mtu (mtu : Z) : M device Z :=
  ifr ← mem (wr zero_ifreq ifr_ifru (le32 mtu));
  f ← opening (CSocket AF_INET);
  if decide (f < 0) then mret (-1) else
  ifr ← named ifr;
  a ← ioctl f SIOCSIFMTU ifr;
  close f;;
  mret (a_res a).

Definition hev_tunnel_set_state (up : bool) : M device Z :=
  f ← opening (CSocket AF_INET);
  if decide (f < 0) then mret (-1) else
  ifr ← named zero_ifreq;
  a ← ioctl f SIOCGIFFLAGS ifr;
  if decide (a_res a < 0) then close f;; mret (a_res a) else
  v ← mem (rd (a_out a) ifr_ifru 2);
  let flags := of_le16 v in
  ifr ← mem (wr (a_out a) ifr_ifru (le16 (if up then Z.lor flags IFF_UP else Z.ldiff flags IFF_UP)));
  a ← ioctl f SIOCSIFFLAGS ifr;
  close f;;
  mret (a_res a).

Section Addresses.
Context `{Resolver}.

(** The shift of a 32-bit integer by 32 or more is not defined. *)
Definition netmask (prefix : Z) : option Z :=
  let n := u32 (32 - prefix) in
  if decide (n < 32) then Some (u32 (Z.shiftl (2 ^ 32 - 1) n)) else None.

Definition hev_tunnel_set_ipv4 (addr : bytes) (prefix : Z) : M device Z :=
  f ← opening (CSocket AF_INET);
  if decide (f < 0) then mret (-1) else
  ifr ← named zero_ifreq;
  ifr ← mem (wr ifr ifr_ifru (le16 AF_INET));
  match inet_pton4 addr with
  | None => close f;; mret 0
  | Some ip =>
      ifr ← mem (wr ifr sin_addr ip);
      a ← ioctl f SIOCSIFADDR ifr;
      if decide (a_res a < 0) then close f;; mret (a_res a) else
      ifr ← mem (wr (a_out a) ifr_ifru (le16 AF_INET));
      m ← mget (fun _ => netmask prefix);
      ifr ← mem (wr ifr sin_addr (le32 (htonl m)));
      a ← ioctl f SIOCSIFNETMASK ifr;
      let res := if decide (a_res a < 0 ∧ a_errno a = EEXIST) then 0 else a_res a in
      close f;;
      mret res
  end.

Definition hev_tunnel_set_ipv6 (addr : bytes) (prefix : Z) : M device Z :=
  f ← opening (CSocket AF_INET6);
  if decide (f < 0) then mret (-1) else
  ifr ← named zero_ifreq;
  a ← ioctl f SIOCGIFINDEX ifr;
  if decide (a_res a < 0) then close f;; mret (a_res a) else
  ifr6 ← mem (wr (replicate sizeof_in6_ifreq 0) ifr6_prefixlen (le32 prefix));
  index ← mem (rd (a_out a) ifr_ifru 4);
  ifr6 ← mem (wr ifr6 ifr6_ifindex index);
  match inet_pton6 addr with
  | None => close f;; mret 0
  | Some ip =>
      ifr6 ← mem (wr ifr6 0 ip);
      a ← ioctl f SIOCSIFADDR ifr6;
      let res := if decide (a_res a < 0 ∧ a_errno a = EEXIST) then 0 else a_res a in
      close f;;
      mret res
  end.

End Addresses.
End Device.

(** ** Packets: src/hev-tunnel.h *)

(** [buf]: the memory of the new buffer, if there is any; [read]: the result, and the memory
    afterwards.  The buffer and its length. *)
Definition hev_tunnel_read (buf : option bytes) (read : bytes -> Z * bytes) : option (bytes * Z) :=
  match buf with
  | None => None
  | Some payload => let '(s, payload) := read payload in if decide (s <= 0) then None else Some (payload, u16 s)
  end.

(** A chain has at least one piece; 512 of them fit the vector. *)
Definition hev_tunnel_write (pieces : list bytes) (write : bytes -> Z) (writev : list bytes -> Z) : option Z :=
  match pieces with
  | [] => None
  | [p] => Some (write p)
  | _ => Some (writev (take 512 pieces))
  end.

(** ** Devices *)

(** The operations of hev-tunnel.h, whatever the system. *)
Record operations (S : Type) := mk_operations {
  tunnel_open : option bytes -> bool -> M S Z;
  tunnel_close : Z -> M S unit;
  tunnel_set_mtu : Z -> M S Z;
  tunnel_set_state : bool -> M S Z;
  tunnel_set_ipv4 : bytes -> Z -> M S Z;
  tunnel_set_ipv6 : bytes -> Z -> M S Z;
}.
Arguments mk_operations {_}.
Arguments tunnel_open {_}.
Arguments tunnel_close {_}.
Arguments tunnel_set_mtu {_}.
Arguments tunnel_set_state {_}.
Arguments tunnel_set_ipv4 {_}.
Arguments tunnel_set_ipv6 {_}.

Definition linux (kernel : device -> call -> answer) `{Resolver} : operations device :=
  mk_operations (hev_tunnel_open kernel) hev_tunnel_close (hev_tunnel_set_mtu kernel) (hev_tunnel_set_state kernel)
    (hev_tunnel_set_ipv4 kernel) (hev_tunnel_set_ipv6 kernel).

(** The device's part of [tunnel_init]: the descriptor, negative if the device cannot be
    opened, and whether all went well. *)
Definition bring_up {S} (dev : operations S) (name : option bytes) (multi_queue : bool) (mtu : Z) (ipv4 ipv6 : option bytes)
  : M S (Z * bool) :=
  f ← tunnel_open dev name multi_queue;
  if decide (f < 0) then mret (f, false) else
  res ← tunnel_set_mtu dev mtu;
  if decide (res < 0) then mret (f, false) else
  res ← match ipv4 with Some a => tunnel_set_ipv4 dev a 32 | None => mret 0 end;
  if decide (res < 0) then mret (f, false) else
  res ← match ipv6 with Some a => tunnel_set_ipv6 dev a 128 | None => mret 0 end;
  if decide (res < 0) then mret (f, false) else
  res ← tunnel_set_state dev true;
  if decide (res < 0) then mret (f, false) else
  mret (f, true).

End TunnelDevice.
