(* ===== verification/TunnelDeviceProofs.v ===== *)
(** * The tunnel device of Linux: proofs

    Whatever the kernel answers, a request leaves the descriptors as they were, and what the
    kernel is asked is what the settings say. *)

From S2P Require Import Prelude Socks5Addr Socks5Io TunnelDevice.

Module TunnelDeviceProofs.
Import Socks5Addr TunnelDevice.

Definition gives_name (r : request) : bool :=
  match r with TUNSETIFF | TUNGIFNAME | CTLIOCGINFO => true | _ => false end.

(** What the requests promise of their argument, see netdevice(7): it stays where it is, and
    those that read a setting leave the name alone. *)
Class KernelOk (kernel : device -> call -> answer) : Prop := {
  out_size d r arg : length (a_out (kernel d (CIoctl r arg))) = length arg;
  keeps_name d r arg : gives_name r = false -> take IFNAMSIZ (a_out (kernel d (CIoctl r arg))) = take IFNAMSIZ arg }.

(** ** Arguments of requests *)

Definition has_name (n b : bytes) : Prop := length b = sizeof_ifreq ∧ take IFNAMSIZ b = n.

(** A value in the union. *)
Definition holds (off : Z) (v b : bytes) : Prop := rd b off (Z.of_nat (length v)) = Some v.

Lemma holds_wr off v b b' : wr b off v = Some b' -> holds off v b'.
Proof.
  unfold wr. case_decide as Hd; [|done]. intros [= <-]. unfold holds. destruct Hd as [H1 H2].
  apply (rd_app (take (Z.to_nat off) b) v (drop (Z.to_nat off + length v) b)); [done | rewrite length_take; lia | done].
Qed.

Lemma holds_wr_other off v off' v' b b' : wr b off v = Some b' -> holds off' v' b -> 0 <= off' ->
  off' + Z.of_nat (length v') <= off \/ off + Z.of_nat (length v) <= off' -> holds off' v' b'.
Proof.
  intros Hw Hh H0 Hor. pose proof (length_wr _ _ _ _ Hw) as Hl. unfold holds, rd in *.
  case_decide as Hd; [|done]. injection Hh as Hh. rewrite decide_True by lia. f_equal. etrans; [|exact Hh]. clear Hh.
  unfold wr in Hw. case_decide as Hd'; [|done]. injection Hw as <-. apply list_eq. intros i.
  destruct (decide (i < length v')%nat) as [Hi|Hi].
  - rewrite Nat2Z.id. rewrite !(lookup_take_lt _ _ i Hi), !lookup_drop. destruct Hor as [Hor|Hor].
    + rewrite lookup_app_l by (rewrite length_take; lia). by rewrite lookup_take_lt by lia.
    + rewrite lookup_app_r by (rewrite length_take; lia). rewrite length_take, lookup_app_r by lia.
      rewrite lookup_drop. f_equal. lia.
  - rewrite Nat2Z.id. by rewrite !lookup_take_ge by lia.
Qed.

Lemma name_wr n off v b b' : wr b off v = Some b' -> 16 <= off -> has_name n b -> has_name n b'.
Proof.
  intros Hw Ho [Hl Hn]. split; [by rewrite (length_wr _ _ _ _ Hw)|]. rewrite <- Hn.
  unfold wr in Hw. case_decide as Hd; [|done]. injection Hw as <-. unfold IFNAMSIZ in *.
  rewrite take_app_le by (rewrite length_take; lia). rewrite take_take. f_equal. lia.
Qed.

Lemma name_wr_name n b b' : length n = IFNAMSIZ -> length b = sizeof_ifreq -> wr b 0 n = Some b' -> has_name n b'.
Proof.
  intros Hn Hb Hw. split; [by rewrite (length_wr _ _ _ _ Hw)|]. rewrite wr_0 in Hw by (rewrite Hn, Hb; unfold IFNAMSIZ, sizeof_ifreq; lia).
  injection Hw as <-. rewrite <- Hn. by rewrite take_app_length.
Qed.

Lemma wr_fits b off v : 0 <= off -> off + Z.of_nat (length v) <= Z.of_nat (length b) -> exists b', wr b off v = Some b'.
Proof. intros. eexists. by apply wr_bound. Qed.

Lemma length_le32 v : length (le32 v) = 4%nat.
Proof. done. Qed.

(** ** Running *)

(** The requests of [rs] were made, with arguments that fit, and nothing else changed. *)
Definition fits (q : request * bytes * bytes) (p : request * (bytes -> bytes -> Prop)) : Prop :=
  fst (fst q) = fst p ∧ snd p (snd (fst q)) (snd q).
Definition did (rs : list (request * (bytes -> bytes -> Prop))) (d d' : device) : Prop :=
  exists qs, asked d' = asked d ++ qs ∧ Forall2 fits qs rs.
Definition quiet (d d' : device) : Prop := fds d' = fds d ∧ tun_name d' = tun_name d.

Lemma did_app rs1 rs2 d1 d2 d3 : did rs1 d1 d2 -> did rs2 d2 d3 -> did (rs1 ++ rs2) d1 d3.
Proof.
  intros (q1 & H1 & F1) (q2 & H2 & F2). exists (q1 ++ q2). split; [by rewrite H2, H1, app_assoc | by apply Forall2_app].
Qed.

Lemma did_one r (P : bytes -> bytes -> Prop) b o d d' : asked d' = asked d ++ [(r, b, o)] -> P b o -> did [(r, P)] d d'.
Proof. intros H HP. exists [(r, b, o)]. split; [done|]. by repeat constructor. Qed.

Lemma did_nil d d' : asked d' = asked d -> did [] d d'.
Proof. intros H. exists []. split; [by rewrite app_nil_r | constructor]. Qed.

Section Device.
Context (kernel : device -> call -> answer) `{!KernelOk kernel}.

Definition with_fds (l : list Z) (d : device) : device := mk_device (tun_name d) l (asked d).

(** What every setting does: it opens a socket, works with it and closes it. *)
Lemma wp_opening c d (Q : Z -> device -> Prop) :
  (forall f, f < 0 -> Q f d) -> (forall f, ~ f < 0 -> Q f (with_fds (f :: fds d) d)) -> wp (opening kernel c) d Q.
Proof. intros H1 H2. unfold wp, opening. case_decide; [by apply H1 | by apply H2]. Qed.

Lemma wp_close_last f l d (Q : unit -> device -> Prop) : fds d = f :: l -> Q tt (with_fds l d) -> wp (close f) d Q.
Proof. intros Hf HQ. unfold wp, close. rewrite Hf. cbn [Socks5Io.take_out]. by rewrite decide_True. Qed.

Lemma wp_ioctl f r arg l d (Q : answer -> device -> Prop) : fds d = f :: l ->
  (forall a, length (a_out a) = length arg -> (gives_name r = false -> take IFNAMSIZ (a_out a) = take IFNAMSIZ arg) ->
     Q a (mk_device (tun_name d) (fds d) (asked d ++ [(r, arg, a_out a)]))) -> wp (ioctl kernel f r arg) d Q.
Proof.
  intros Hf HQ. unfold wp, ioctl. rewrite decide_True by (rewrite Hf; apply list_elem_of_here).
  apply HQ; [apply out_size | intros; by apply keeps_name].
Qed.

Lemma wp_mem v b d (Q : bytes -> device -> Prop) : v = Some b -> Q b d -> wp (mem v) d Q.
Proof. intros -> HQ. by eapply wp_get. Qed.

Lemma wp_wr b off v d (Q : bytes -> device -> Prop) : 0 <= off -> off + Z.of_nat (length v) <= Z.of_nat (length b) ->
  (forall b', wr b off v = Some b' -> Q b' d) -> wp (mem (wr b off v)) d Q.
Proof. intros H0 H1 HQ. destruct (wr_fits b off v H0 H1) as [b' Hb]. eapply wp_mem; [exact Hb | by apply HQ]. Qed.

Lemma wp_named b d (Q : bytes -> device -> Prop) : length (tun_name d) = IFNAMSIZ -> length b = sizeof_ifreq ->
  (forall b', wr b 0 (tun_name d) = Some b' -> has_name (tun_name d) b' -> Q b' d) -> wp (named b) d Q.
Proof.
  intros Hn Hb HQ. apply wp_bind. eapply wp_get; [done|]. apply wp_wr; [done | rewrite Hn, Hb; unfold IFNAMSIZ, sizeof_ifreq; lia|].
  intros b' Hw. apply HQ; [done | by eapply name_wr_name].
Qed.

(** ** The settings *)

(** What a setting does: the descriptors and the name stay, and when it reports no error the
    requests were made. *)
Definition sets (rs : list (request * (bytes -> bytes -> Prop))) (m : M device Z) : Prop := forall d, length (tun_name d) = IFNAMSIZ ->
  wp m d (fun res d' => quiet d d' ∧ (0 <= res -> did rs d d')).

Definition names (n : bytes) (P : bytes -> Prop) (b o : bytes) : Prop := has_name n b ∧ P b.

Definition mtu_requests (n : bytes) (mtu : Z) : list (request * (bytes -> bytes -> Prop)) :=
  [(SIOCSIFMTU, names n (holds ifr_ifru (le32 mtu)))].

Lemma length_zero : length zero_ifreq = sizeof_ifreq.
Proof. done. Qed.

Ltac sized := rewrite ?length_zero, ?length_le32, ?length_replicate in *; cbn [length le16]; unfold has_name, sizeof_ifreq, sizeof_in6_ifreq, ifr_ifru, sin_addr, ifr6_prefixlen, ifr6_ifindex, IFNAMSIZ in *; lia.

Lemma wp_set_mtu mtu d : length (tun_name d) = IFNAMSIZ ->
  wp (hev_tunnel_set_mtu kernel mtu) d (fun res d' => quiet d d' ∧ (0 <= res -> did (mtu_requests (tun_name d) mtu) d d')).
Proof.
  intros Hn. apply wp_bind, wp_wr; [done | sized |]. intros b Hb. pose proof (length_wr _ _ _ _ Hb) as Hl.
  apply wp_bind, wp_opening; intros f Hf; [rewrite decide_True by done; apply wp_ret; split; [done | intros; exfalso; lia]|].
  rewrite decide_False by done. apply wp_bind, wp_named; [done | done |]. intros b' Hb' Hname.
  apply wp_bind. eapply wp_ioctl; [done|]. intros a _ _. apply wp_bind. eapply wp_close_last; [done|]. apply wp_ret.
  split; [done|]. intros _. eapply did_one; [done|]. split; [done|].
  eapply holds_wr_other; [exact Hb' | by eapply holds_wr | done | right; cbn [tun_name with_fds]; rewrite Hn; sized].
Qed.

(** The flags that are asked for: those the kernel has, with one of them changed. *)
Definition with_up (up : bool) (flags : Z) : Z := if up then Z.lor flags IFF_UP else Z.ldiff flags IFF_UP.

(** [v]: the flags the kernel answers, as it stores them. *)
Definition state_requests (n : bytes) (up : bool) (v : bytes) : list (request * (bytes -> bytes -> Prop)) :=
  [(SIOCGIFFLAGS, fun b o => has_name n b ∧ length v = 2%nat ∧ holds ifr_ifru v o);
   (SIOCSIFFLAGS, names n (holds ifr_ifru (le16 (with_up up (of_le16 v)))))].

Lemma wp_set_flags up d : length (tun_name d) = IFNAMSIZ ->
  wp (hev_tunnel_set_state kernel up) d (fun res d' => quiet d d' ∧ (0 <= res -> exists v, did (state_requests (tun_name d) up v) d d')).
Proof.
  intros Hn. apply wp_bind, wp_opening; intros f Hf; [rewrite decide_True by done; apply wp_ret; split; [done | intros; exfalso; lia]|].
  rewrite decide_False by done. apply wp_bind, wp_named; [done | done |]. intros b Hb Hname.
  apply wp_bind. eapply wp_ioctl; [done|]. intros a Hl Hk. cbn [tun_name with_fds fds asked] in *.
  destruct (decide (a_res a < 0)); [apply wp_bind; eapply wp_close_last; [done|]; apply wp_ret; split; [done | intros; exfalso; lia]|].
  assert (has_name (tun_name d) (a_out a)) as Hname' by (split; [rewrite Hl; apply Hname | rewrite Hk by done; apply Hname]).
  set (v := take (Z.to_nat 2) (drop (Z.to_nat ifr_ifru) (a_out a))).
  assert (rd (a_out a) ifr_ifru 2 = Some v) as Hv by (apply rd_bound; sized).
  apply wp_bind. eapply wp_mem; [exact Hv|]. apply wp_bind, wp_wr; [done | sized |]. intros b' Hb'.
  apply wp_bind. eapply wp_ioctl; [done|]. intros a' _ _. apply wp_bind. eapply wp_close_last; [done|]. apply wp_ret.
  split; [done|]. intros _. cbn [tun_name with_fds fds asked]. exists v. eexists [_; _]. split; [by rewrite <- app_assoc|].
  pose proof (length_rd _ _ _ _ Hv) as Hlv.
  apply Forall2_cons; split; [split; [done|]; split; [exact Hname|]; split; [lia | unfold holds; cbn [fst snd]; by rewrite Hlv]|].
  apply Forall2_cons; split; [|constructor]. split; [done|]. split; [eapply name_wr; [exact Hb' | done | done] | by eapply holds_wr].
Qed.

Context `{Resolver} `{!ResolverOk}.

Definition ipv4_requests (n : bytes) (addr : bytes) : list (request * (bytes -> bytes -> Prop)) :=
  match inet_pton4 addr with
  | Some ip => [(SIOCSIFADDR, names n (fun b => holds ifr_ifru (le16 AF_INET) b ∧ holds sin_addr ip b));
                (SIOCSIFNETMASK, names n (fun b => holds ifr_ifru (le16 AF_INET) b ∧ holds sin_addr [255; 255; 255; 255] b))]
  | None => []
  end.

Lemma wp_set_ipv4 addr d : length (tun_name d) = IFNAMSIZ ->
  wp (hev_tunnel_set_ipv4 kernel addr 32) d (fun res d' => quiet d d' ∧ (0 <= res -> did (ipv4_requests (tun_name d) addr) d d')).
Proof.
  intros Hn. apply wp_bind, wp_opening; intros f Hf; [rewrite decide_True by done; apply wp_ret; split; [done | intros; exfalso; lia]|].
  rewrite decide_False by done. apply wp_bind, wp_named; [done | done |]. intros b Hb Hname. cbn [tun_name with_fds] in Hname.
  apply wp_bind, wp_wr; [done | sized |]. intros b1 Hb1.
  assert (has_name (tun_name d) b1) as Hname1 by (eapply name_wr; [exact Hb1 | done | done]).
  unfold ipv4_requests. destruct (inet_pton4 addr) as [ip|] eqn:Hip.
  2:{ apply wp_bind. eapply wp_close_last; [done|]. apply wp_ret. split; [done|]. intros _. by apply did_nil. }
  pose proof (pton4_size _ _ Hip) as Hsize.
  apply wp_bind, wp_wr; [done | rewrite Hsize; sized |]. intros b2 Hb2.
  assert (has_name (tun_name d) b2) as Hname2 by (eapply name_wr; [exact Hb2 | done | done]).
  assert (holds ifr_ifru (le16 AF_INET) b2) as Hfam.
  { eapply holds_wr_other; [exact Hb2 | by eapply holds_wr | done | left; sized]. }
  apply wp_bind. eapply wp_ioctl; [done|]. intros a Hl Hk. cbn [tun_name with_fds fds asked] in *.
  destruct (decide (a_res a < 0)); [apply wp_bind; eapply wp_close_last; [done|]; apply wp_ret; split; [done | intros; exfalso; lia]|].
  assert (has_name (tun_name d) (a_out a)) as Hname' by (split; [rewrite Hl; apply Hname2 | rewrite Hk by done; apply Hname2]).
  apply wp_bind, wp_wr; [done | sized |]. intros b3 Hb3. apply wp_bind. eapply wp_get; [reflexivity|].
  assert (has_name (tun_name d) b3) as Hname3 by (eapply name_wr; [exact Hb3 | done | done]).
  apply wp_bind, wp_wr; [done | sized |]. intros b4 Hb4.
  apply wp_bind. eapply wp_ioctl; [done|]. intros a' _ _. apply wp_bind. eapply wp_close_last; [done|]. apply wp_ret.
  split; [done|]. intros _. cbn [tun_name with_fds fds asked]. eexists [_; _]. split; [by rewrite <- app_assoc|].
  apply Forall2_cons; split; [split; [done|]; split; [exact Hname2|]; split; [exact Hfam | by apply (holds_wr _ _ _ _ Hb2)]|].
  apply Forall2_cons; split; [|constructor]. split; [done|]. split; [eapply name_wr; [exact Hb4 | done | done]|].
  split; [|by apply (holds_wr _ _ _ _ Hb4)]. eapply holds_wr_other; [exact Hb4 | by eapply holds_wr | done | left; sized].
Qed.

Definition ipv6_requests (n : bytes) (addr : bytes) : list (request * (bytes -> bytes -> Prop)) :=
  (SIOCGIFINDEX, names n (fun _ => True)) ::
  match inet_pton6 addr with
  | Some ip => [(SIOCSIFADDR, fun b _ => holds 0 ip b ∧ holds ifr6_prefixlen (le32 128) b)]
  | None => []
  end.

Lemma wp_set_ipv6 addr d : length (tun_name d) = IFNAMSIZ ->
  wp (hev_tunnel_set_ipv6 kernel addr 128) d (fun res d' => quiet d d' ∧ (0 <= res -> did (ipv6_requests (tun_name d) addr) d d')).
Proof.
  intros Hn. apply wp_bind, wp_opening; intros f Hf; [rewrite decide_True by done; apply wp_ret; split; [done | intros; exfalso; lia]|].
  rewrite decide_False by done. apply wp_bind, wp_named; [done | done |]. intros b Hb Hname. cbn [tun_name with_fds] in Hname.
  apply wp_bind. eapply wp_ioctl; [done|]. intros a Hl Hk. cbn [tun_name with_fds fds asked] in *.
  destruct (decide (a_res a < 0)); [apply wp_bind; eapply wp_close_last; [done|]; apply wp_ret; split; [done | intros; exfalso; lia]|].
  apply wp_bind, wp_wr; [done | sized |]. intros b1 Hb1. pose proof (length_wr _ _ _ _ Hb1) as Hl1. rewrite length_replicate in Hl1.
  apply wp_bind. eapply wp_mem; [apply rd_bound; sized|].
  assert (length (take (Z.to_nat 4) (drop (Z.to_nat ifr_ifru) (a_out a))) = 4%nat) as Hi by (rewrite length_take, length_drop; sized).
  apply wp_bind, wp_wr; [done | rewrite Hi; sized |]. intros b2 Hb2. pose proof (length_wr _ _ _ _ Hb2) as Hl2.
  unfold ipv6_requests. destruct (inet_pton6 addr) as [ip|] eqn:Hip.
  2:{ apply wp_bind. eapply wp_close_last; [done|]. apply wp_ret. split; [done|]. intros _. by eapply did_one; [|split]. }
  pose proof (pton6_size _ _ Hip) as Hsize.
  apply wp_bind, wp_wr; [done | rewrite Hsize; sized |]. intros b3 Hb3.
  apply wp_bind. eapply wp_ioctl; [done|]. intros a' _ _. apply wp_bind. eapply wp_close_last; [done|]. apply wp_ret.
  split; [done|]. intros _. cbn [tun_name with_fds fds asked]. eexists [_; _]. split; [by rewrite <- app_assoc|].
  apply Forall2_cons; split; [by split; [|split]|]. apply Forall2_cons; split; [|constructor]. split; [done|].
  split; [by eapply holds_wr|].
  eapply holds_wr_other; [exact Hb3 | | done | right; rewrite Hsize; sized].
  eapply holds_wr_other; [exact Hb2 | by eapply holds_wr | done | left; sized].
Qed.

(** ** Opening *)

Definition open_requests (name : option bytes) (multi_queue : bool) : list (request * (bytes -> bytes -> Prop)) :=
  let flags := Z.lor IFF_TUN IFF_NO_PI in
  [(TUNSETIFF, fun b _ => holds ifr_ifru (le16 (if multi_queue then Z.lor flags IFF_MULTI_QUEUE else flags)) b
      ∧ match name with Some s => holds 0 (strncpy s (IFNAMSIZ - 1)) b | None => True end)].

Lemma wp_open name mq d : wp (hev_tunnel_open kernel name mq) d (fun f d' =>
  (f < 0 ∧ quiet d d')
  \/ (0 <= f ∧ fds d' = f :: fds d ∧ length (tun_name d') = IFNAMSIZ ∧ did (open_requests name mq) d d')).
Proof.
  apply wp_bind, wp_opening; intros f Hf; [rewrite decide_True by done; apply wp_ret; left; split; [lia | done]|].
  rewrite decide_False by done. apply wp_bind, wp_wr; [done | sized |]. intros b Hb. pose proof (length_wr _ _ _ _ Hb) as Hl.
  assert (exists b', match name with Some s => wr b 0 (strncpy s (IFNAMSIZ - 1)) | None => Some b end = Some b'
    ∧ length b' = sizeof_ifreq ∧ snd (hd (TUNSETIFF, fun _ _ => False) (open_requests name mq)) b' []) as (b' & Hb' & Hl' & HP).
  { cbn [hd open_requests snd]. destruct name as [s|].
    - destruct (wr_fits b 0 (strncpy s (IFNAMSIZ - 1))) as [b' Hb']; [done | rewrite length_strncpy; sized |].
      exists b'. split; [done|]. pose proof (length_wr _ _ _ _ Hb') as Hl'. split; [by rewrite Hl'|].
      split; [|by eapply holds_wr]. eapply holds_wr_other; [exact Hb' | by eapply holds_wr | done | right; rewrite length_strncpy; sized].
    - exists b. split_and!; [done | done | by eapply holds_wr | done]. }
  apply wp_bind. eapply wp_mem; [exact Hb'|]. apply wp_bind. eapply wp_ioctl; [done|]. intros a Ha _.
  destruct (decide (a_res a < 0)); [apply wp_bind; eapply wp_close_last; [done|]; apply wp_ret; left; by split|].
  apply wp_bind. eapply wp_mem; [apply rd_bound; sized|]. apply wp_bind. eapply wp_put; [done|]. apply wp_ret. right.
  cbn [fds tun_name asked with_fds]. split_and!; [lia | done | rewrite length_take, length_drop; sized | eapply did_one; [done | exact HP]].
Qed.

(** ** The device as a whole *)

Definition all_requests (name : option bytes) (mq : bool) (mtu : Z) (ipv4 ipv6 : option bytes) (n v : bytes) :=
  open_requests name mq ++ mtu_requests n mtu
  ++ match ipv4 with Some a => ipv4_requests n a | None => [] end
  ++ match ipv6 with Some a => ipv6_requests n a | None => [] end
  ++ state_requests n true v.

(** A setting that may be left out, and the way to the next one. *)
Lemma wp_setting_then {B} (m : M device Z) (k : Z -> M device B) (rs : bytes -> list (request * (bytes -> bytes -> Prop))) d (Q : B -> device -> Prop) :
  (wp m d (fun res d' => quiet d d' ∧ (0 <= res -> did (rs (tun_name d)) d d'))) ->
  (forall res d', quiet d d' -> res < 0 -> wp (k res) d' Q) ->
  (forall res d', quiet d d' -> ~ res < 0 -> did (rs (tun_name d)) d d' -> wp (k res) d' Q) -> wp (m ≫= k) d Q.
Proof.
  intros Hm Hf Hs. apply wp_bind. eapply wp_mono; [exact Hm|]. intros res d' [Hq Hd].
  destruct (decide (res < 0)); [by apply Hf | apply Hs; try done; apply Hd; lia].
Qed.

Lemma quiet_trans d1 d2 d3 : quiet d1 d2 -> quiet d2 d3 -> quiet d1 d3.
Proof. intros [] []. split; congruence. Qed.

Lemma wp_bring_up name mq mtu ipv4 ipv6 d : wp (bring_up (linux kernel) name mq mtu ipv4 ipv6) d (fun '(f, ok) d' =>
  fds d' = (if decide (f < 0) then fds d else f :: fds d)
  ∧ (ok = true -> 0 <= f ∧ length (tun_name d') = IFNAMSIZ ∧ exists v, did (all_requests name mq mtu ipv4 ipv6 (tun_name d') v) d d')).
Proof.
  apply wp_bind. eapply wp_mono; [apply wp_open|]. intros f d1 [[Hf Hq]|(Hf & Hfds & Hn & H1)].
  { rewrite decide_True by done. apply wp_ret. rewrite decide_True by done. split; [apply Hq | done]. }
  rewrite decide_False by lia.
  assert (forall d', quiet d1 d' -> wp (mret (f, false)) d' (fun '(f, ok) d' =>
    fds d' = (if decide (f < 0) then fds d else f :: fds d)
    ∧ (ok = true -> 0 <= f ∧ length (tun_name d') = IFNAMSIZ ∧ exists v, did (all_requests name mq mtu ipv4 ipv6 (tun_name d') v) d d'))) as Hfail.
  { intros d' [Hq _]. apply wp_ret. rewrite decide_False by lia. split; [congruence | done]. }
  eapply (wp_setting_then _ _ (fun n => mtu_requests n mtu)); [by apply wp_set_mtu | intros res d2 Q2 Hr; rewrite decide_True by done; by apply Hfail|].
  intros res d2 Q2 Hr H2. rewrite decide_False by done.
  eapply (wp_setting_then _ _ (fun n => match ipv4 with Some a => ipv4_requests n a | None => [] end)).
  { destruct ipv4; [apply wp_set_ipv4; by rewrite (proj2 Q2) | apply wp_ret; split; [done | intros _; by apply did_nil]]. }
  { intros res3 d3 Q3 Hr3. rewrite decide_True by done. apply Hfail. by eapply quiet_trans. }
  intros res3 d3 Q3 Hr3 H3. rewrite decide_False by done. pose proof (quiet_trans _ _ _ Q2 Q3) as Q13.
  eapply (wp_setting_then _ _ (fun n => match ipv6 with Some a => ipv6_requests n a | None => [] end)).
  { destruct ipv6; [apply wp_set_ipv6; by rewrite (proj2 Q13) | apply wp_ret; split; [done | intros _; by apply did_nil]]. }
  { intros res4 d4 Q4 Hr4. rewrite decide_True by done. apply Hfail. by eapply quiet_trans. }
  intros res4 d4 Q4 Hr4 H4. rewrite decide_False by done. pose proof (quiet_trans _ _ _ Q13 Q4) as Q14.
  apply wp_bind. eapply wp_mono; [apply wp_set_flags; by rewrite (proj2 Q14)|]. intros res5 d5 [Q5 H5].
  destruct (decide (res5 < 0)) as [Hr5|Hr5]; [apply Hfail; by eapply quiet_trans|].
  destruct (H5 ltac:(lia)) as [v H5']. clear H5. rename H5' into H5. pose proof (quiet_trans _ _ _ Q14 Q5) as [F15 N15].
  apply wp_ret. rewrite decide_False by lia. split; [congruence|]. intros _. split; [done|]. split; [congruence|]. exists v.
  rewrite (proj2 Q14) in H5. rewrite (proj2 Q13) in H4. rewrite (proj2 Q2) in H3. rewrite N15.
  unfold all_requests. repeat (eapply did_app; [eassumption|]). done.
Qed.
End Device.

(** ** What the tunnel needs of a device

    [idle]: the states without the device; [up f]: those where it is open as [f]. *)
Class DeviceOk {S} (dev : operations S) (names : option bytes -> Prop) (idle : S -> Prop) (up : Z -> S -> Prop) : Prop := {
  open_ok name mq d : names name -> idle d ->
    wp (tunnel_open dev name mq) d (fun f d' => (f < 0 ∧ idle d') \/ (0 <= f ∧ up f d'));
  close_ok f d : up f d -> wp (tunnel_close dev f) d (fun _ d' => idle d');
  mtu_ok f mtu d : up f d -> wp (tunnel_set_mtu dev mtu) d (fun _ d' => up f d');
  state_ok f b d : up f d -> wp (tunnel_set_state dev b) d (fun _ d' => up f d');
  ipv4_ok f a d : up f d -> wp (tunnel_set_ipv4 dev a 32) d (fun _ d' => up f d');
  ipv6_ok f a d : up f d -> wp (tunnel_set_ipv6 dev a 128) d (fun _ d' => up f d') }.

Section Contract.
Context {S : Type} (dev : operations S) (names : option bytes -> Prop) (idle : S -> Prop) (up : Z -> S -> Prop).
Context `{!DeviceOk dev names idle up}.

Definition held (f : Z) (d : S) : Prop := (f < 0 ∧ idle d) \/ (0 <= f ∧ up f d).

(** A step of [bring_up] that keeps the device. *)
Lemma wp_up_step (m : M S Z) (k : M S (Z * bool)) f d : up f d -> 0 <= f ->
  wp m d (fun _ d' => up f d') -> (forall d', up f d' -> wp k d' (fun '(g, _) d' => g = f ∧ up f d')) ->
  wp (res ← m; if decide (res < 0) then mret (f, false) else k) d (fun '(g, _) d' => g = f ∧ up f d').
Proof.
  intros Hu Hf Hm Hk. apply wp_bind. eapply wp_mono; [exact Hm|]. intros res d' Hu'.
  case_decide; [by apply wp_ret | by apply Hk].
Qed.

Lemma wp_bring_up_held name mq mtu ipv4 ipv6 d : names name -> idle d ->
  wp (bring_up dev name mq mtu ipv4 ipv6) d (fun '(f, ok) d' => (f < 0 ∧ ok = false ∧ idle d') \/ (0 <= f ∧ up f d')).
Proof.
  intros Hn Hd. apply wp_bind. eapply wp_mono; [by apply open_ok|]. intros f d1 [[Hf H1]|[Hf H1]].
  { rewrite decide_True by done. apply wp_ret. by left. }
  rewrite decide_False by lia. eapply (wp_mono _ _ (fun '(g, _) d' => g = f ∧ up f d')); [|intros [g ok] d' Hg; cbn in Hg; destruct Hg as [-> Hu]; by right].
  apply wp_up_step; [done | done | by apply mtu_ok | intros d2 H2].
  apply wp_up_step; [done | done | destruct ipv4; [by apply ipv4_ok | by apply wp_ret] | intros d3 H3].
  apply wp_up_step; [done | done | destruct ipv6; [by apply ipv6_ok | by apply wp_ret] | intros d4 H4].
  apply wp_up_step; [done | done | by apply state_ok | intros d5 H5]. by apply wp_ret.
Qed.

(** Bringing a device up and closing it again leaves nothing behind. *)
Theorem bring_up_close name mq mtu ipv4 ipv6 d : names name -> idle d ->
  exists f ok d', bring_up dev name mq mtu ipv4 ipv6 d = Some ((f, ok), d')
    ∧ (f < 0 -> ok = false ∧ idle d')
    ∧ (0 <= f -> up f d' ∧ exists d'', tunnel_close dev f d' = Some (tt, d'') ∧ idle d'').
Proof.
  intros Hn Hd. destruct (wp_elim _ _ _ (wp_bring_up_held name mq mtu ipv4 ipv6 d Hn Hd)) as ([f ok] & d' & He & Hr).
  exists f, ok, d'. split_and!; [done | intros Hf; destruct Hr as [(_ & ? & ?)|[? _]]; [done | lia] |].
  intros Hf. destruct Hr as [[? _]|[_ Hu]]; [lia|]. split; [done|].
  destruct (wp_elim _ _ _ (close_ok f d' Hu)) as ([] & d'' & Hc & Hi). by exists d''.
Qed.
End Contract.

Definition open_as (l : list Z) (f : Z) (d : device) : Prop := fds d = f :: l ∧ length (tun_name d) = IFNAMSIZ.

#[export] Instance linux_ok (kernel : device -> call -> answer) `{!KernelOk kernel} `{Resolver} `{!ResolverOk} l :
  DeviceOk (linux kernel) (fun _ => True) (fun d => fds d = l) (open_as l).
Proof.
  assert (forall f d d', open_as l f d -> quiet d d' -> open_as l f d') as Hq.
  { intros f d d' [] []. split; congruence. }
  split; cbn [linux tunnel_open tunnel_close tunnel_set_mtu tunnel_set_state tunnel_set_ipv4 tunnel_set_ipv6].
  - intros name mq d _ Hd. eapply wp_mono; [by apply wp_open|].
    intros f d' [[Hf [H1 _]]|(Hf & H1 & H2 & _)]; [left; by rewrite H1 | right; by rewrite <- Hd].
  - intros f d [Hd _]. by apply (wp_close_last f l).
  - intros f mtu d Hu. eapply wp_mono; [apply wp_set_mtu; [done | apply Hu]|]. intros ? d' [? _]. by eapply Hq.
  - intros f b d Hu. eapply wp_mono; [apply wp_set_flags; [done | apply Hu]|]. intros ? d' [? _]. by eapply Hq.
  - intros f a d Hu. eapply wp_mono; [apply wp_set_ipv4; [done | done | apply Hu]|]. intros ? d' [? _]. by eapply Hq.
  - intros f a d Hu. eapply wp_mono; [apply wp_set_ipv6; [done | done | apply Hu]|]. intros ? d' [? _]. by eapply Hq.
Qed.

(** ** Properties *)

(** C36: Bringing the device up.  Whatever the kernel answers, every socket that is opened for a
    request is closed, so that in the end exactly the device is open, or nothing if it could
    not be opened; and when no error is reported the kernel was asked for the configured
    name, and then, under the name it gave, for the configured length of packets, addresses
    and masks (as far as they are addresses), and for its flags with only "up" added.  Closing
    the device closes it. *)
Theorem bring_up_ok (kernel : device -> call -> answer) `{!KernelOk kernel} `{Resolver} `{!ResolverOk} name mq mtu ipv4 ipv6 d :
  exists f ok d', bring_up (linux kernel) name mq mtu ipv4 ipv6 d = Some ((f, ok), d')
    ∧ (ok = true -> 0 <= f ∧ length (tun_name d') = IFNAMSIZ ∧ exists v, did (all_requests name mq mtu ipv4 ipv6 (tun_name d') v) d d')
    ∧ (f < 0 -> fds d' = fds d)
    ∧ (0 <= f -> fds d' = f :: fds d ∧ exists d'', hev_tunnel_close f d' = Some (tt, d'') ∧ fds d'' = fds d).
Proof.
  destruct (wp_elim _ _ _ (wp_bring_up kernel name mq mtu ipv4 ipv6 d)) as ([f ok] & d' & He & Hfds & Hok).
  exists f, ok, d'. split_and!; [done | done | intros Hf; by rewrite decide_True in Hfds |].
  intros Hf. rewrite decide_False in Hfds by lia. split; [done|].
  destruct (wp_elim _ _ _ (wp_close_last f (fds d) d' (fun _ d'' => fds d'' = fds d) Hfds eq_refl)) as ([] & d'' & Hc & Hd). by exists d''.
Qed.

(** An address that is none is not refused: the setting reports success and asks for nothing. *)
Theorem hev_tunnel_set_ipv4_accepts_anything (kernel : device -> call -> answer) `{Resolver} addr prefix f d :
  inet_pton4 addr = None -> length (tun_name d) = IFNAMSIZ -> 0 <= f -> a_res (kernel d (CSocket AF_INET)) = f ->
  hev_tunnel_set_ipv4 kernel addr prefix d = Some (0, d).
Proof.
  intros Hip Hn Hf Ha. unfold hev_tunnel_set_ipv4, mbind, M_bind, opening. rewrite Ha, decide_False, decide_False by lia.
  unfold named, get_name, mem, mget, mbind, M_bind. cbn [tun_name].
  destruct (wr_fits zero_ifreq 0 (tun_name d)) as [b Hb]; [done | rewrite Hn, length_zero; unfold IFNAMSIZ, sizeof_ifreq; lia|].
  rewrite Hb. pose proof (length_wr _ _ _ _ Hb) as Hl. rewrite length_zero in Hl.
  destruct (wr_fits b ifr_ifru (le16 AF_INET)) as [b' ->]; [done | rewrite Hl; cbn; unfold ifr_ifru, sizeof_ifreq; lia|].
  rewrite Hip. unfold close. cbn [fds Socks5Io.take_out]. rewrite decide_True by done. by destruct d.
Qed.

(** A packet of up to 512 pieces comes back as it was written, in one piece. *)
Theorem tunnel_packet_round_trip pieces (mem : bytes) :
  concat pieces ≠ [] -> (length pieces <= 512)%nat -> (length (concat pieces) <= length mem < 2 ^ 16)%nat ->
  hev_tunnel_write pieces (fun p => if decide (p = concat pieces) then Z.of_nat (length p) else -1)
    (fun v => if decide (concat v = concat pieces) then Z.of_nat (length (concat v)) else -1)
    = Some (Z.of_nat (length (concat pieces)))
  ∧ hev_tunnel_read (Some mem) (fun m => (Z.of_nat (length (concat pieces)), concat pieces ++ drop (length (concat pieces)) m))
    = Some (concat pieces ++ drop (length (concat pieces)) mem, Z.of_nat (length (concat pieces))).
Proof.
  intros Hne Hn Hm. assert (Z.of_nat (2 ^ 16) = 2 ^ 16) as H16 by (vm_compute; reflexivity).
  assert (0 < length (concat pieces))%nat by (destruct (concat pieces); [done | simpl; lia]). split.
  - unfold hev_tunnel_write. destruct pieces as [|p [|q pieces]]; [done | |].
    + cbn [concat]. rewrite app_nil_r. by rewrite decide_True.
    + rewrite take_ge by lia. by rewrite decide_True.
  - unfold hev_tunnel_read. rewrite decide_False by lia. do 2 f_equal. unfold u16. rewrite Z.mod_small by lia. done.
Qed.

(** ** Witnesses *)

(** A kernel that does what it is asked. *)
Definition example_kernel (d : device) (c : call) : answer :=
  match c with
  | COpen _ => mk_answer 7 0 []
  | CSocket _ => mk_answer 8 0 []
  | CIoctl _ arg => mk_answer 0 0 arg
  | CConnect _ => mk_answer 0 0 []
  | CGetsockopt v => mk_answer 0 0 v
  end.

#[local] Instance example_kernel_ok : KernelOk example_kernel.
Proof. by split. Qed.

Definition example_device : device := mk_device (replicate 16 0) [] [].

Lemma bring_up_ok_witness : exists d', @bring_up device (@linux example_kernel example_resolver) (Some [116; 117; 110]) false 1500 (Some [49]) None example_device
    = Some ((7, true), d') ∧ length (tun_name d') = IFNAMSIZ ∧ fds d' = [7].
Proof.
  destruct (@bring_up_ok example_kernel _ example_resolver example_resolver_ok (Some [116; 117; 110]) false 1500 (Some [49]) None example_device)
    as (f & ok & d' & He & Hok & _ & Hf).
  assert (f = 7 ∧ ok = true) as [-> ->].
  { vm_compute in He. by injection He as <- <- _. }
  exists d'. destruct (Hok eq_refl) as (_ & Hn & _). destruct (Hf ltac:(lia)) as [Hfds _]. split; [exact He | exact (conj Hn Hfds)].
Defined.

End TunnelDeviceProofs.
