(* ===== verification/TunnelDeviceBSD.v ===== *)
(** * What the tunnel devices of FreeBSD, NetBSD and macOS share

    hev-tunnel-{freebsd,netbsd,macos}.c open their devices differently, and configure them in
    the same words, apart from the sizes of the structures of their headers.  The settings are
    translated once, from hev-tunnel-freebsd.c; TunnelDeviceFreeBSD, TunnelDeviceNetBSD and
    TunnelDeviceMacOS have the devices.  State and calls are those of TunnelDevice. *)

From S2P Require Import Prelude Socks5Addr Socks5Io TunnelDevice.

Module TunnelDeviceBSD.
Import Socks5Addr TunnelDevice.

(** ** The headers of the system *)

(** The sizes of [struct ifreq], [struct ifaliasreq], [struct in6_aliasreq], and the family of
    IPv6; the members below are at the same offsets in all of them. *)
Record layout := mk_layout { ifreq_size : nat; ifaliasreq_size : nat; in6_aliasreq_size : nat; INET6 : Z }.

Definition sizeof_sockaddr : Z := 16.
Definition sizeof_sockaddr_in6 : Z := 28.
Definition ifra_addr : Z := 16.
Definition ifra_broadaddr : Z := 32.
Definition ifra_mask : Z := 48.
Definition ifra_prefixmask : Z := 72.
Definition ifra_vltime : Z := 120.
Definition ifra_pltime : Z := 124.
Definition of_sin_addr : Z := 4.
Definition of_sin6_addr : Z := 8.
Definition ND6_INFINITE_LIFETIME : Z := 2 ^ 32 - 1.

(** [strncpy (tun_name, name, IFNAMSIZ - 1)] *)
Definition set_tun_name (name : bytes) : M device unit :=
  n ← get_name; n ← mem (wr n 0 (strncpy name (IFNAMSIZ - 1))); set_name n.

(** [strcpy (ifra.ifra_name, tun_name)] *)
Definition strcpy_name (ifra : bytes) : M device bytes :=
  n ← get_name; s ← mem (cstr_of n); mem (wr ifra 0 (s ++ [0])).

(** ** Settings *)

Section Settings.
Context (L : layout) (kernel : device -> call -> answer) `{Resolver}.

Let opening := opening kernel.
Let ioctl := ioctl kernel.

Definition hev_tunnel_set_mtu (mtu : Z) : M device Z :=
  ifr ← mem (wr (replicate (ifreq_size L) 0) ifr_ifru (le32 mtu));
  f ← opening (CSocket AF_INET);
  if decide (f < 0) then mret (-1) else
  ifr ← named ifr;
  a ← ioctl f SIOCSIFMTU ifr;
  close f;;
  mret (a_res a).

Definition hev_tunnel_set_state (up : bool) : M device Z :=
  f ← opening (CSocket AF_INET);
  if decide (f < 0) then mret (-1) else
  ifr ← named (replicate (ifreq_size L) 0);
  a ← ioctl f SIOCGIFFLAGS ifr;
  if decide (a_res a < 0) then close f;; mret (a_res a) else
  v ← mem (rd (a_out a) ifr_ifru 2);
  let flags := of_le16 v in
  ifr ← mem (wr (a_out a) ifr_ifru (le16 (if up then Z.lor flags IFF_UP else Z.ldiff flags IFF_UP)));
  a ← ioctl f SIOCSIFFLAGS ifr;
  close f;;
  mret (a_res a).

Definition hev_tunnel_set_ipv4 (addr : bytes) (prefix : Z) : M device Z :=
  f ← opening (CSocket AF_INET);
  if decide (f < 0) then mret (-1) else
  ifra ← strcpy_name (replicate (ifaliasreq_size L) 0);
  ifra ← mem (wr ifra ifra_addr [sizeof_sockaddr; AF_INET]);
  match inet_pton4 addr with
  | None => close f;; mret 0
  | Some ip =>
      ifra ← mem (wr ifra (ifra_addr + of_sin_addr) ip);
      a ← mem (rd ifra ifra_addr sizeof_sockaddr);
      ifra ← mem (wr ifra ifra_broadaddr a);
      ifra ← mem (wr ifra ifra_mask [sizeof_sockaddr; AF_INET]);
      m ← mget (fun _ => netmask prefix);
      ifra ← mem (wr ifra (ifra_mask + of_sin_addr) (le32 (htonl m)));
      a ← ioctl f SIOCAIFADDR ifra;
      close f;;
      mret (a_res a)
  end.

(** The mask of a prefix, from [memset] on; [bytes[i]] is at [ifra_prefixmask + of_sin6_addr + i]. *)
Definition set_prefixmask (ifra : bytes) (prefix : Z) : option bytes :=
  let at_ i := ifra_prefixmask + of_sin6_addr + i in
  ifra ← wr ifra (at_ 0) (replicate 16 255);
  b ← rd8 ifra (at_ (prefix / 8));
  ifra ← wr ifra (at_ (prefix / 8)) [u8 (Z.shiftl b (prefix mod 8))];
  let prefix := u32 (prefix + prefix mod 8) in
  let i := prefix / 8 in
  if decide (i < 16) then wr ifra (at_ i) (replicate (Z.to_nat (16 - i)) 0) else Some ifra.

Definition hev_tunnel_set_ipv6 (addr : bytes) (prefix : Z) : M device Z :=
  ifra ← mem (wr (replicate (in6_aliasreq_size L) 0) ifra_vltime (le32 ND6_INFINITE_LIFETIME));
  ifra ← mem (wr ifra ifra_pltime (le32 ND6_INFINITE_LIFETIME));
  f ← opening (CSocket (INET6 L));
  if decide (f < 0) then mret (-1) else
  ifra ← strcpy_name ifra;
  ifra ← mem (wr ifra ifra_addr [sizeof_sockaddr_in6; INET6 L]);
  match inet_pton6 addr with
  | None => close f;; mret 0
  | Some ip =>
      ifra ← mem (wr ifra (ifra_addr + of_sin6_addr) ip);
      ifra ← mem (wr ifra ifra_prefixmask [sizeof_sockaddr_in6; INET6 L]);
      ifra ← mem (set_prefixmask ifra prefix);
      a ← ioctl f SIOCAIFADDR_IN6 ifra;
      close f;;
      mret (a_res a)
  end.

(** The interface is destroyed as well. *)
Definition hev_tunnel_close (f : Z) : M device unit :=
  close f;;
  f ← opening (CSocket AF_INET);
  if decide (f < 0) then mret tt else
  ifr ← named (replicate (ifreq_size L) 0);
  ioctl f SIOCIFDESTROY ifr;;
  close f.
End Settings.

End TunnelDeviceBSD.
