(* ===== verification/TunnelDeviceFreeBSD.v ===== *)
(** * The tunnel device of FreeBSD: src/hev-tunnel-freebsd.c

    The device is opened by its name, or any free one is, and named then. *)

From Stdlib Require Import String.
From S2P Require Import Prelude Socks5Addr Socks5Io TunnelDevice TunnelDeviceBSD.

Module TunnelDeviceFreeBSD.
Import Socks5Addr TunnelDevice.
Import TunnelDeviceBSD.

(** The headers' sizes and the family of IPv6. *)
Definition layout : TunnelDeviceBSD.layout := mk_layout 32 68 136 28.

Section Open.
Context (kernel : device -> call -> answer).
(** What the local variables [ifr] and [buf] hold before they are set. *)
Context (junk_ifr junk_buf : bytes).

(** The path is cut to the buffer.  SIOCSIFNAME's argument: the name that is there, and what
    [ifr_data] points to, the name to be. *)
Definition hev_tunnel_open (name : option bytes) (multi_queue : bool) : M device Z :=
  name ← mget (fun _ => name);
  let path := take 255 (lit "/dev/" ++ name) in
  buf ← mem (wr junk_buf 0 (path ++ [0]));
  tfd ← opening kernel (COpen path);
  if decide (tfd >= 0) then set_tun_name name;; mret tfd else
  tfd ← opening kernel (COpen (lit "/dev/tun"));
  if decide (tfd < 0) then mret (-1) else
  a ← ioctl kernel tfd TUNGIFNAME junk_ifr;
  if decide (a_res a < 0) then close tfd;; mret (-1) else
  sfd ← opening kernel (CSocket AF_INET);
  if decide (sfd < 0) then close tfd;; mret (-1) else
  buf ← mem (wr buf 0 (strncpy name 255));
  a ← ioctl kernel sfd SIOCSIFNAME (take IFNAMSIZ (a_out a) ++ buf);
  close sfd;;
  if decide (a_res a < 0) then close tfd;; mret (-1) else
  set_tun_name name;; mret tfd.

(** The settings, with the sizes of this system. *)
Definition hev_tunnel_set_mtu : Z -> M device Z := TunnelDeviceBSD.hev_tunnel_set_mtu layout kernel.
Definition hev_tunnel_set_state : bool -> M device Z := TunnelDeviceBSD.hev_tunnel_set_state layout kernel.
Definition hev_tunnel_set_ipv4 `{Resolver} : bytes -> Z -> M device Z := TunnelDeviceBSD.hev_tunnel_set_ipv4 layout kernel.
Definition hev_tunnel_set_ipv6 `{Resolver} : bytes -> Z -> M device Z := TunnelDeviceBSD.hev_tunnel_set_ipv6 layout kernel.
Definition hev_tunnel_close : Z -> M device unit := TunnelDeviceBSD.hev_tunnel_close layout kernel.

Definition tunnel `{Resolver} : operations device :=
  mk_operations hev_tunnel_open hev_tunnel_close hev_tunnel_set_mtu hev_tunnel_set_state hev_tunnel_set_ipv4 hev_tunnel_set_ipv6.
End Open.

End TunnelDeviceFreeBSD.
