(* ===== verification/TunnelDeviceNetBSD.v ===== *)
(** * The tunnel device of NetBSD: src/hev-tunnel-netbsd.c

    The device is opened by its name. *)

From Stdlib Require Import String.
From S2P Require Import Prelude Socks5Addr Socks5Io TunnelDevice TunnelDeviceBSD.

Module TunnelDeviceNetBSD.
Import Socks5Addr TunnelDevice.
Import TunnelDeviceBSD.

(** The headers' sizes and the family of IPv6. *)
Definition layout : TunnelDeviceBSD.layout := mk_layout 144 64 128 24.

Section Open.
Context (kernel : device -> call -> answer).

Definition hev_tunnel_open (name : option bytes) (multi_queue : bool) : M device Z :=
  name ← mget (fun _ => name);
  f ← opening kernel (COpen (take 255 (lit "/dev/" ++ name)));
  if decide (f < 0) then mret (-1) else
  a ← ioctl kernel f FIONBIO (le32 1);
  if decide (a_res a < 0) then close f;; mret (-1) else
  set_tun_name name;; mret f.

(** The settings, with the sizes of this system. *)
Definition hev_tunnel_set_mtu : Z -> M device Z := TunnelDeviceBSD.hev_tunnel_set_mtu layout kernel.
Definition hev_tunnel_set_state : bool -> M device Z := TunnelDeviceBSD.hev_tunnel_set_state layout kernel.
Definition hev_tunnel_set_ipv4 `{Resolver} : bytes -> Z -> M device Z := TunnelDeviceBSD.hev_tunnel_set_ipv4 layout kernel.
Definition hev_tunnel_set_ipv6 `{Resolver} : bytes -> Z -> M device Z := TunnelDeviceBSD.hev_tunnel_set_ipv6 layout kernel.
Definition hev_tunnel_close : Z -> M device unit := TunnelDeviceBSD.hev_tunnel_close layout kernel.

Definition tunnel `{Resolver} : operations device :=
  mk_operations hev_tunnel_open hev_tunnel_close hev_tunnel_set_mtu hev_tunnel_set_state hev_tunnel_set_ipv4 hev_tunnel_set_ipv6.
End Open.

End TunnelDeviceNetBSD.
