(* ===== verification/TunnelDeviceMacOS.v ===== *)
(** * The tunnel device of macOS: src/hev-tunnel-macos.c

    The device is a socket of the kernel, packets have their family in front
    (src/hev-tunnel-macos.h). *)

From Stdlib Require Import String.
From S2P Require Import Prelude Socks5Addr Socks5Io Config TunnelDevice TunnelDeviceBSD.

Module TunnelDeviceMacOS.
Import Socks5Addr TunnelDevice.
Import TunnelDeviceBSD.

(** The headers' sizes and the family of IPv6. *)
Definition layout : TunnelDeviceBSD.layout := mk_layout 32 64 128 30.

Definition PF_SYSTEM : Z := 32.
Definition AF_SYS_CONTROL : Z := 2.
Definition UTUN_CONTROL_NAME : bytes := lit "com.apple.net.utun_control".
Definition sizeof_ctl_info : nat := 100.
Definition ctl_name : Z := 4.
Definition sizeof_sockaddr_ctl : Z := 32.
Definition sc_id : Z := 4.
Definition sc_unit : Z := 8.

(** [sscanf (name, "utun%u", &unit)]: the number, if there is one. *)
Definition scan_utun (name : bytes) : option Z :=
  if decide (take 4 name = lit "utun") then
    match snd (Config.sign_of (Config.skip_spaces (drop 4 name))) with
    | b :: _ => if decide (Config.digit_val b < 10) then Some (u32 (Config.strtoul (drop 4 name) 10)) else None
    | [] => None
    end
  else None.

Section Open.
Context (kernel : device -> call -> answer).
(** What the local variable [sc] holds before it is set. *)
Context (junk_sc : bytes).

Definition hev_tunnel_open (name : option bytes) (multi_queue : bool) : M device Z :=
  ci ← mem (wr (replicate sizeof_ctl_info 0) ctl_name (strncpy UTUN_CONTROL_NAME 96));
  f ← opening kernel (CSocket PF_SYSTEM);
  if decide (f < 0) then mret (-1) else
  a ← ioctl kernel f CTLIOCGINFO ci;
  if decide (a_res a < 0) then close f;; mret (a_res a) else
  id ← mem (rd (a_out a) 0 4);
  sc ← mem (wr junk_sc sc_id id);
  sc ← mem (wr sc 0 ([sizeof_sockaddr_ctl; PF_SYSTEM] ++ le16 AF_SYS_CONTROL));
  name ← mget (fun _ => name);
  sc ← mem (wr sc sc_unit (le32 (match scan_utun name with Some u => u32 (u + 1) | None => 0 end)));
  a ← mget (fun d => Some (kernel d (CConnect sc)));
  if decide (a_res a < 0) then close f;; mret (a_res a) else
  a ← ioctl kernel f FIONBIO (le32 1);
  if decide (a_res a < 0) then close f;; mret (a_res a) else
  n ← get_name;
  a ← mget (fun d => Some (kernel d (CGetsockopt n)));
  set_name (a_out a);;
  if decide (a_res a < 0) then close f;; mret (a_res a) else
  mret f.

Definition hev_tunnel_close (f : Z) : M device unit := close f.

(** The settings, with the sizes of this system. *)
Definition hev_tunnel_set_mtu : Z -> M device Z := TunnelDeviceBSD.hev_tunnel_set_mtu layout kernel.
Definition hev_tunnel_set_state : bool -> M device Z := TunnelDeviceBSD.hev_tunnel_set_state layout kernel.
Definition hev_tunnel_set_ipv4 `{Resolver} : bytes -> Z -> M device Z := TunnelDeviceBSD.hev_tunnel_set_ipv4 layout kernel.
Definition hev_tunnel_set_ipv6 `{Resolver} : bytes -> Z -> M device Z := TunnelDeviceBSD.hev_tunnel_set_ipv6 layout kernel.

Definition tunnel `{Resolver} : operations device :=
  mk_operations hev_tunnel_open hev_tunnel_close hev_tunnel_set_mtu hev_tunnel_set_state hev_tunnel_set_ipv4 hev_tunnel_set_ipv6.
End Open.

(** *** Packets: src/hev-tunnel-macos.h

    Each packet has its family in front, as a 32-bit value in network order. *)

Definition sizeof_type : Z := 4.

(** [buf]: the memory of the new buffer, if there is any; [readv]: the result, and the memory
    afterwards.  The buffer and its length.  The result is compared as an unsigned value. *)
Definition hev_tunnel_read (buf : option bytes) (readv : bytes -> Z * bytes) : option (bytes * Z) :=
  match buf with
  | None => None
  | Some payload =>
      let '(s, payload) := readv payload in
      if decide (u64 s <= sizeof_type) then None else Some (payload, u16 (s - sizeof_type))
  end.

(** The family, told by the first byte of the first piece that is not empty. *)
Fixpoint packet_type (pieces : list bytes) : Z :=
  match pieces with
  | [] => 0
  | [] :: pieces => packet_type pieces
  | (b :: _) :: _ => if decide (Z.land (Z.shiftr b 4) 15 = 4) then htonl AF_INET else htonl (INET6 layout)
  end.

(** [pieces]: the payloads of the chain, of which 511 fit.  [writev] is given the pieces. *)
Definition hev_tunnel_write (pieces : list bytes) (writev : list bytes -> Z) : Z :=
  let sent := take 511 pieces in
  let res := writev (le32 (packet_type sent) :: sent) in
  if decide (u64 res <= sizeof_type) then -1 else res.

End TunnelDeviceMacOS.
