(* ===== verification/TunnelDeviceBSDProofs.v ===== *)
(** * The tunnel devices of the BSD systems: proofs

    The three devices fulfil the contract of TunnelDeviceProofs, and the kernel is asked for
    the configured addresses and masks. *)

From Stdlib Require Import String.
From S2P Require Import Prelude Socks5Addr Socks5Io TunnelDevice TunnelDeviceProofs TunnelDeviceBSD TunnelDeviceFreeBSD TunnelDeviceNetBSD TunnelDeviceMacOS.

Module TunnelDeviceBSDProofs.
Import Socks5Addr TunnelDevice TunnelDeviceProofs TunnelDeviceBSD.

(** ** Names and layouts *)

(** The members are inside the structures. *)
Class LayoutOk (L : layout) : Prop := {
  ifreq_fits : (32 <= ifreq_size L)%nat;
  ifaliasreq_fits : (64 <= ifaliasreq_size L)%nat;
  in6_aliasreq_fits : (128 <= in6_aliasreq_size L)%nat }.

#[export] Instance freebsd_layout_ok : LayoutOk TunnelDeviceFreeBSD.layout.
Proof. split; cbn; lia. Qed.
#[export] Instance netbsd_layout_ok : LayoutOk TunnelDeviceNetBSD.layout.
Proof. split; cbn; lia. Qed.
#[export] Instance macos_layout_ok : LayoutOk TunnelDeviceMacOS.layout.
Proof. split; cbn; lia. Qed.

(** The last byte of the static name is never written. *)
Definition terminated (n : bytes) : Prop := length n = IFNAMSIZ ∧ n !! 15%nat = Some 0.

Lemma cstr_of_short m k : m !! k = Some 0 -> exists s, cstr_of m = Some s ∧ (length s <= k)%nat.
Proof.
  revert k. induction m as [|b m IH]; intros k Hk; [done|]. cbn [cstr_of]. case_decide as Hb; [exists []; split; [done | simpl; lia]|].
  destruct k as [|k]; [by injection Hk as ->|]. destruct (IH k Hk) as (s & -> & Hs). exists (b :: s). split; [done | simpl; lia].
Qed.

Lemma terminated_cstr n : terminated n -> exists s, cstr_of n = Some s ∧ (length s <= 15)%nat.
Proof. intros [_ H]. by apply cstr_of_short. Qed.

Lemma terminated_wr n s n' : terminated n -> wr n 0 (strncpy s 15) = Some n' -> terminated n'.
Proof.
  intros [Hl Hn] Hw. split; [by rewrite (length_wr _ _ _ _ Hw)|].
  rewrite wr_0 in Hw by (rewrite length_strncpy, Hl; unfold IFNAMSIZ; lia). injection Hw as <-.
  rewrite lookup_app_r by (rewrite length_strncpy; lia). by rewrite length_strncpy, lookup_drop.
Qed.

Lemma rd_rd b o l o' l' v : rd b o l = Some v -> 0 <= o' -> 0 <= l' -> o' + l' <= l -> rd v o' l' = rd b (o + o') l'.
Proof.
  intros Hv H0 H1 H2. pose proof (length_rd _ _ _ _ Hv) as Hl. unfold rd in *. case_decide as Hd; [|done]. injection Hv as <-.
  rewrite length_take, length_drop in Hl. rewrite !decide_True by (rewrite ?length_take, ?length_drop; lia). f_equal.
  rewrite skipn_firstn_comm, drop_drop, take_take. rewrite Z2Nat.inj_add by lia. f_equal. lia.
Qed.

Lemma holds_part b off v o w : holds off v b -> holds o w v -> 0 <= o -> o + Z.of_nat (length w) <= Z.of_nat (length v) -> holds (off + o) w b.
Proof. unfold holds. intros Hv Hw Ho Hl. by rewrite <- (rd_rd _ _ _ _ _ _ Hv) by lia. Qed.

(** ** Settings *)

Ltac sizes := rewrite ?length_le32, ?length_replicate, ?length_app in *; cbn [length le16] in *;
  unfold ifr_ifru, ifra_addr, ifra_broadaddr, ifra_mask, ifra_prefixmask, ifra_vltime, ifra_pltime, of_sin_addr, of_sin6_addr,
    sizeof_sockaddr, IFNAMSIZ in *; lia.
(** A value that was written last, or is not touched by the last write. *)
Ltac still := match goal with H : wr ?b ?off ?v = Some ?b' |- holds _ _ ?b' =>
  first [by apply (holds_wr _ _ _ _ H) | eapply (holds_wr_other _ _ _ _ _ _ H); [|sizes|sizes]] end.

Section Settings.
Context (L : layout) `{!LayoutOk L} (kernel : device -> call -> answer) `{!KernelOk kernel}.

Lemma wp_named_any b d (Q : bytes -> device -> Prop) : length (tun_name d) = IFNAMSIZ -> (IFNAMSIZ <= length b)%nat ->
  (forall b', wr b 0 (tun_name d) = Some b' -> Q b' d) -> wp (named b) d Q.
Proof.
  intros Hn Hb HQ. apply wp_bind. eapply wp_get; [done|]. apply wp_wr; [done | unfold IFNAMSIZ in *; lia|]. done.
Qed.

Lemma wp_strcpy_name b d (Q : bytes -> device -> Prop) : terminated (tun_name d) -> (IFNAMSIZ <= length b)%nat ->
  (forall s b', cstr_of (tun_name d) = Some s -> (length s <= 15)%nat -> wr b 0 (s ++ [0]) = Some b' -> Q b' d) -> wp (strcpy_name b) d Q.
Proof.
  intros Hn Hb HQ. destruct (terminated_cstr _ Hn) as (s & Hs & Hl). apply wp_bind. eapply wp_get; [done|].
  apply wp_bind. eapply wp_mem; [exact Hs|]. apply wp_wr; [done | rewrite length_app; unfold IFNAMSIZ in *; simpl; lia|].
  intros b' Hb'. by apply (HQ s).
Qed.

Definition asks (r : request) (P : bytes -> Prop) (d d' : device) : Prop := did [(r, fun b _ => P b)] d d'.

Ltac no_socket := rewrite decide_True by done; apply wp_ret; split; [done | intros; exfalso; lia].
Lemma asks_one r (P : bytes -> Prop) b o d d' : asked d' = asked d ++ [(r, b, o)] -> P b -> asks r P d d'.
Proof. intros H HP. exists [(r, b, o)]. split; [done|]. by repeat constructor. Qed.

(** The last request of a setting, on a socket that was opened for it. *)
Lemma wp_last_request f r arg P d :
  P arg -> wp (a ← ioctl kernel f r arg; close f;; mret (a_res a)) (with_fds (f :: fds d) d)
    (fun res d' => quiet d d' ∧ (0 <= res -> asks r P d d')).
Proof.
  intros HP. apply wp_bind. eapply (wp_ioctl kernel); [done|]. intros a _ _. apply wp_bind. eapply wp_close_last; [done|]. apply wp_ret.
  split; [done|]. intros _. by eapply asks_one.
Qed.

Lemma wp_bsd_set_mtu mtu d : length (tun_name d) = IFNAMSIZ ->
  wp (hev_tunnel_set_mtu L kernel mtu) d (fun res d' => quiet d d' ∧
    (0 <= res -> asks SIOCSIFMTU (fun b => holds 0 (tun_name d) b ∧ holds ifr_ifru (le32 mtu) b) d d')).
Proof.
  intros Hn. pose proof ifreq_fits. apply wp_bind, wp_wr; [done | sizes |]. intros b Hb. pose proof (length_wr _ _ _ _ Hb) as Hl.
  apply wp_bind, wp_opening; intros f Hf; [no_socket|].
  rewrite decide_False by done. apply wp_bind, wp_named_any; [done | sizes |]. intros b' Hb'. cbn [tun_name with_fds] in Hb'.
  apply wp_last_request. split; [still|]. eapply holds_wr_other; [exact Hb' | by eapply holds_wr | done | right; rewrite Hn; sizes].
Qed.

Lemma wp_bsd_set_state up d : length (tun_name d) = IFNAMSIZ ->
  wp (hev_tunnel_set_state L kernel up) d (fun res d' => quiet d d' ∧ (0 <= res -> exists v : bytes,
    did [(SIOCGIFFLAGS, fun b o => holds 0 (tun_name d) b ∧ length v = 2%nat ∧ holds ifr_ifru v o);
         (SIOCSIFFLAGS, fun b _ => holds ifr_ifru (le16 (with_up up (of_le16 v))) b)] d d')).
Proof.
  intros Hn. pose proof ifreq_fits. apply wp_bind, wp_opening; intros f Hf; [no_socket|].
  rewrite decide_False by done. apply wp_bind, wp_named_any; [done | sizes |]. intros b Hb. cbn [tun_name with_fds] in Hb.
  pose proof (length_wr _ _ _ _ Hb) as Hlb.
  apply wp_bind. eapply (wp_ioctl kernel); [done|]. intros a Hl _. cbn [tun_name with_fds fds asked] in *.
  destruct (decide (a_res a < 0)); [apply wp_bind; eapply wp_close_last; [done|]; apply wp_ret; split; [done | intros; exfalso; lia]|].
  set (v := take (Z.to_nat 2) (drop (Z.to_nat ifr_ifru) (a_out a))).
  assert (rd (a_out a) ifr_ifru 2 = Some v) as Hv by (apply rd_bound; sizes).
  apply wp_bind. eapply wp_mem; [exact Hv|]. apply wp_bind, wp_wr; [done | sizes |]. intros b' Hb'.
  apply wp_bind. eapply (wp_ioctl kernel); [done|]. intros a' _ _. apply wp_bind. eapply wp_close_last; [done|]. apply wp_ret.
  split; [done|]. intros _. cbn [tun_name with_fds fds asked]. exists v. eexists [_; _]. split; [by rewrite <- app_assoc|].
  pose proof (length_rd _ _ _ _ Hv) as Hlv.
  apply Forall2_cons; split; [split; [done|]; split; [by eapply holds_wr|]; split; [lia | unfold holds; cbn [fst snd]; by rewrite Hlv]|].
  apply Forall2_cons; split; [|constructor]. split; [done | by eapply holds_wr].
Qed.

Context `{Resolver} `{!ResolverOk}.

(** The name ends with a NUL in these requests. *)
Definition cname (d : device) (b : bytes) : Prop := exists s, cstr_of (tun_name d) = Some s ∧ holds 0 (s ++ [0]) b.

Definition ipv4_alias (d : device) (ip b : bytes) : Prop :=
  cname d b ∧ holds ifra_addr [sizeof_sockaddr; AF_INET] b ∧ holds (ifra_addr + of_sin_addr) ip b
  ∧ holds (ifra_broadaddr + of_sin_addr) ip b ∧ holds (ifra_mask + of_sin_addr) [255; 255; 255; 255] b.

Lemma wp_bsd_set_ipv4 addr d : terminated (tun_name d) ->
  wp (hev_tunnel_set_ipv4 L kernel addr 32) d (fun res d' => quiet d d' ∧
    (0 <= res -> match inet_pton4 addr with Some ip => asks SIOCAIFADDR (ipv4_alias d ip) d d' | None => did [] d d' end)).
Proof.
  intros Hn. pose proof ifaliasreq_fits. apply wp_bind, wp_opening; intros f Hf; [no_socket|].
  rewrite decide_False by done. apply wp_bind, wp_strcpy_name; [done | sizes |]. intros s b1 Hs Hls Hb1. cbn [tun_name with_fds] in Hs.
  pose proof (length_wr _ _ _ _ Hb1) as L1. rewrite length_replicate in L1.
  apply wp_bind, wp_wr; [done | sizes |]. intros b2 Hb2. pose proof (length_wr _ _ _ _ Hb2) as L2.
  destruct (inet_pton4 addr) as [ip|] eqn:Hip.
  2:{ apply wp_bind. eapply wp_close_last; [done|]. apply wp_ret. split; [done|]. intros _. by apply did_nil. }
  pose proof (pton4_size _ _ Hip) as Hsize.
  apply wp_bind, wp_wr; [done | sizes |]. intros b3 Hb3. pose proof (length_wr _ _ _ _ Hb3) as L3.
  assert (exists a, rd b3 ifra_addr sizeof_sockaddr = Some a) as [a Ha] by (eexists; apply rd_bound; sizes).
  pose proof (length_rd _ _ _ _ Ha) as La.
  apply wp_bind. eapply wp_mem; [exact Ha|]. apply wp_bind, wp_wr; [done | sizes |]. intros b4 Hb4. pose proof (length_wr _ _ _ _ Hb4) as L4.
  apply wp_bind, wp_wr; [done | sizes |]. intros b5 Hb5. pose proof (length_wr _ _ _ _ Hb5) as L5.
  apply wp_bind. eapply wp_get; [reflexivity|].
  apply wp_bind, wp_wr; [done | sizes |]. intros b6 Hb6. pose proof (length_wr _ _ _ _ Hb6) as L6.
  change (le32 (htonl _)) with [255; 255; 255; 255] in Hb6.
  assert (holds of_sin_addr ip a) as Hia.
  { unfold holds. rewrite (rd_rd _ _ _ _ _ _ Ha) by sizes. by apply (holds_wr _ _ _ _ Hb3). }
  assert (holds (ifra_broadaddr + of_sin_addr) ip b4) as Hbr.
  { apply (holds_part b4 ifra_broadaddr a); [by eapply holds_wr | done | done | sizes]. }
  apply wp_last_request. split_and!; [exists s; split; [done|]; do 6 still | do 5 still | do 4 still | do 2 still; exact Hbr | still].
Qed.

(** The mask of a full prefix: the loop and the shift change nothing. *)
Lemma full_prefixmask b : (128 <= length b)%nat ->
  exists b', set_prefixmask b 128 = Some b' ∧ length b' = length b
    ∧ holds (ifra_prefixmask + of_sin6_addr) (replicate 16 255) b'
    ∧ forall off v, 0 <= off -> off + Z.of_nat (length v) <= ifra_prefixmask + of_sin6_addr \/ 97 <= off -> holds off v b -> holds off v b'.
Proof.
  intros Hl. unfold set_prefixmask. cbv zeta.
  destruct (wr_fits b (ifra_prefixmask + of_sin6_addr + 0) (replicate 16 255)) as [b1 H1]; [done | sizes|].
  rewrite H1. cbn [mbind option_bind]. pose proof (length_wr _ _ _ _ H1) as L1.
  change (128 / 8) with 16. change (128 mod 8) with 0. unfold rd8. rewrite decide_True by done.
  destruct (lookup_lt_is_Some_2 b1 (Z.to_nat (ifra_prefixmask + of_sin6_addr + 16))) as [x Hx]; [sizes|].
  rewrite Hx. cbn [mbind option_bind].
  destruct (wr_fits b1 (ifra_prefixmask + of_sin6_addr + 16) [u8 (Z.shiftl x 0)]) as [b2 H2]; [done | sizes|].
  rewrite H2. cbn [mbind option_bind]. pose proof (length_wr _ _ _ _ H2) as L2. rewrite decide_False by (vm_compute; discriminate).
  exists b2. split_and!; [done | congruence | still; by apply (holds_wr _ _ _ _ H1) |].
  intros off v Hoff Hor Hv. eapply holds_wr_other; [exact H2 | | done | sizes].
  eapply holds_wr_other; [exact H1 | exact Hv | done | sizes].
Qed.

Definition ipv6_alias (d : device) (ip b : bytes) : Prop :=
  cname d b ∧ holds ifra_addr [sizeof_sockaddr_in6; INET6 L] b ∧ holds (ifra_addr + of_sin6_addr) ip b
  ∧ holds (ifra_prefixmask + of_sin6_addr) (replicate 16 255) b
  ∧ holds ifra_vltime (le32 ND6_INFINITE_LIFETIME) b ∧ holds ifra_pltime (le32 ND6_INFINITE_LIFETIME) b.

Lemma wp_bsd_set_ipv6 addr d : terminated (tun_name d) ->
  wp (hev_tunnel_set_ipv6 L kernel addr 128) d (fun res d' => quiet d d' ∧
    (0 <= res -> match inet_pton6 addr with Some ip => asks SIOCAIFADDR_IN6 (ipv6_alias d ip) d d' | None => did [] d d' end)).
Proof.
  intros Hn. pose proof in6_aliasreq_fits.
  apply wp_bind, wp_wr; [done | sizes |]. intros b1 Hb1. pose proof (length_wr _ _ _ _ Hb1) as L1. rewrite length_replicate in L1.
  apply wp_bind, wp_wr; [done | sizes |]. intros b2 Hb2. pose proof (length_wr _ _ _ _ Hb2) as L2.
  apply wp_bind, wp_opening; intros f Hf; [no_socket|].
  rewrite decide_False by done. apply wp_bind, wp_strcpy_name; [done | sizes |]. intros s b3 Hs Hls Hb3. cbn [tun_name with_fds] in Hs.
  pose proof (length_wr _ _ _ _ Hb3) as L3.
  apply wp_bind, wp_wr; [done | sizes |]. intros b4 Hb4. pose proof (length_wr _ _ _ _ Hb4) as L4.
  destruct (inet_pton6 addr) as [ip|] eqn:Hip.
  2:{ apply wp_bind. eapply wp_close_last; [done|]. apply wp_ret. split; [done|]. intros _. by apply did_nil. }
  pose proof (pton6_size _ _ Hip) as Hsize.
  apply wp_bind, wp_wr; [done | sizes |]. intros b5 Hb5. pose proof (length_wr _ _ _ _ Hb5) as L5.
  apply wp_bind, wp_wr; [done | sizes |]. intros b6 Hb6. pose proof (length_wr _ _ _ _ Hb6) as L6.
  destruct (full_prefixmask b6) as (b7 & Hb7 & L7 & Hm & Hk); [lia|].
  apply wp_bind. eapply wp_mem; [exact Hb7|]. apply wp_last_request.
  split_and!; [exists s; split; [done|]; apply Hk; [done | left; sizes | do 4 still]
    | apply Hk; [done | left; sizes | do 3 still] | apply Hk; [done | left; sizes | do 2 still] | exact Hm
    | apply Hk; [done | right; sizes | do 6 still] | apply Hk; [done | right; sizes | do 5 still]].
Qed.

(** ** Opening and closing *)

Lemma wp_set_tun_name n d (Q : unit -> device -> Prop) : terminated (tun_name d) ->
  (forall n', terminated n' -> Q tt (mk_device n' (fds d) (asked d))) -> wp (set_tun_name n) d Q.
Proof.
  intros Hn HQ. apply wp_bind. eapply wp_get; [done|]. apply wp_bind.
  apply wp_wr; [done | rewrite length_strncpy, (proj1 Hn); unfold IFNAMSIZ; lia|]. intros n' Hn'.
  eapply wp_put; [done|]. apply HQ. by eapply terminated_wr.
Qed.

(** The device is open on top of [l], and the static name is a string. *)
Definition bsd_idle (l : list Z) (d : device) : Prop := fds d = l ∧ terminated (tun_name d).
Definition bsd_up (l : list Z) (f : Z) (d : device) : Prop := fds d = f :: l ∧ terminated (tun_name d).

Lemma wp_bsd_close l f d : bsd_up l f d -> wp (hev_tunnel_close L kernel f) d (fun _ d' => bsd_idle l d').
Proof.
  intros [Hd Hn]. pose proof ifreq_fits. apply wp_bind. eapply wp_close_last; [exact Hd|].
  apply wp_bind, wp_opening; intros g Hg; [rewrite decide_True by done; by apply wp_ret|].
  rewrite decide_False by done. apply wp_bind, wp_named_any; [apply Hn | sizes |]. intros b _.
  apply wp_bind. eapply (wp_ioctl kernel); [done|]. intros a _ _. by eapply wp_close_last.
Qed.

(** The settings are the same, so a device is good if it opens and closes well. *)
Lemma configured_ok names open close l :
  (forall name mq d, names name -> bsd_idle l d -> wp (open name mq) d (fun f d' => (f < 0 ∧ bsd_idle l d') \/ (0 <= f ∧ bsd_up l f d'))) ->
  (forall f d, bsd_up l f d -> wp (close f) d (fun _ d' => bsd_idle l d')) ->
  DeviceOk (mk_operations open close (hev_tunnel_set_mtu L kernel) (hev_tunnel_set_state L kernel)
    (hev_tunnel_set_ipv4 L kernel) (hev_tunnel_set_ipv6 L kernel)) names (bsd_idle l) (bsd_up l).
Proof.
  intros Ho Hc. assert (forall f d d', bsd_up l f d -> quiet d d' -> bsd_up l f d') as Hq.
  { intros f d d' [] []. split; congruence. }
  split; cbn [tunnel_open tunnel_close tunnel_set_mtu tunnel_set_state tunnel_set_ipv4 tunnel_set_ipv6]; [done | done | ..];
    intros f x d Hu.
  - eapply wp_mono; [apply wp_bsd_set_mtu, Hu|]. intros ? d' [? _]. by eapply Hq.
  - eapply wp_mono; [apply wp_bsd_set_state, Hu|]. intros ? d' [? _]. by eapply Hq.
  - eapply wp_mono; [apply wp_bsd_set_ipv4, Hu|]. intros ? d' [? _]. by eapply Hq.
  - eapply wp_mono; [apply wp_bsd_set_ipv6, Hu|]. intros ? d' [? _]. by eapply Hq.
Qed.
End Settings.

(** A device is asked for by name. *)
Definition named_device (name : option bytes) : Prop := is_Some name.

Section Open.
Context (kernel : device -> call -> answer) `{!KernelOk kernel} `{Resolver} `{!ResolverOk} (l : list Z).

Lemma path_fits name : (length (take 255 (lit "/dev/" ++ name)) <= 255)%nat.
Proof. rewrite length_take. lia. Qed.

Lemma freebsd_open (junk_ifr junk_buf : bytes) name mq d :
  length junk_buf = 256%nat -> named_device name -> bsd_idle l d ->
  wp (TunnelDeviceFreeBSD.hev_tunnel_open kernel junk_ifr junk_buf name mq) d
    (fun f d' => (f < 0 ∧ bsd_idle l d') \/ (0 <= f ∧ bsd_up l f d')).
Proof.
  intros Hbuf [n ->] [Hd Hn]. pose proof (path_fits n) as Hp. apply wp_bind. eapply wp_get; [done|].
  apply wp_bind, wp_wr; [done | rewrite length_app; simpl length at 2; lia|]. intros buf Hb. pose proof (length_wr _ _ _ _ Hb) as Lb.
  apply wp_bind, wp_opening; intros f Hf; cycle 1.
  { rewrite decide_True by lia. apply wp_bind, wp_set_tun_name; [done|]. intros n' Hn'. apply wp_ret. right. rewrite <- Hd. split; [lia | by split]. }
  rewrite decide_False by lia. apply wp_bind, wp_opening; intros g Hg; [rewrite decide_True by done; apply wp_ret; by left|].
  rewrite decide_False by done. apply wp_bind. eapply (wp_ioctl kernel); [done|]. intros a _ _.
  destruct (decide (a_res a < 0)); [apply wp_bind; eapply wp_close_last; [done|]; apply wp_ret; by left|].
  apply wp_bind, wp_opening; intros s Hs; [rewrite decide_True by done; apply wp_bind; eapply wp_close_last; [done|]; apply wp_ret; by left|].
  rewrite decide_False by done. apply wp_bind, wp_wr; [done | rewrite length_strncpy; lia|]. intros buf' _.
  apply wp_bind. eapply (wp_ioctl kernel); [done|]. intros a' _ _. apply wp_bind. eapply wp_close_last; [done|].
  destruct (decide (a_res a' < 0)); [apply wp_bind; eapply wp_close_last; [done|]; apply wp_ret; by left|].
  apply wp_bind, wp_set_tun_name; [done|]. intros n' Hn'. apply wp_ret. right. rewrite <- Hd. split; [lia | by split].
Qed.

Lemma netbsd_open name mq d : named_device name -> bsd_idle l d ->
  wp (TunnelDeviceNetBSD.hev_tunnel_open kernel name mq) d (fun f d' => (f < 0 ∧ bsd_idle l d') \/ (0 <= f ∧ bsd_up l f d')).
Proof.
  intros [n ->] [Hd Hn]. apply wp_bind. eapply wp_get; [done|].
  apply wp_bind, wp_opening; intros f Hf; [rewrite decide_True by done; apply wp_ret; by left|].
  rewrite decide_False by done. apply wp_bind. eapply (wp_ioctl kernel); [done|]. intros a _ _.
  destruct (decide (a_res a < 0)); [apply wp_bind; eapply wp_close_last; [done|]; apply wp_ret; by left|].
  apply wp_bind, wp_set_tun_name; [done|]. intros n' Hn'. apply wp_ret. right. rewrite <- Hd. split; [lia | by split].
Qed.

(** What the kernel promises of UTUN_OPT_IFNAME, see net/if_utun.h: the name of the interface
    is a string that fits. *)
Class UtunOk : Prop := utun_name d v : terminated v -> terminated (a_out (kernel d (CGetsockopt v))).

Lemma macos_open `{!UtunOk} (junk_sc : bytes) name mq d : length junk_sc = 32%nat -> named_device name -> bsd_idle l d ->
  wp (TunnelDeviceMacOS.hev_tunnel_open kernel junk_sc name mq) d (fun f d' => (f < 0 ∧ bsd_idle l d') \/ (0 <= f ∧ bsd_up l f d')).
Proof.
  intros Hsc [n ->] [Hd Hn]. apply wp_bind, wp_wr; [done | by vm_compute|]. intros ci Hci.
  pose proof (length_wr _ _ _ _ Hci) as Lci. rewrite length_replicate in Lci. unfold TunnelDeviceMacOS.sizeof_ctl_info in Lci.
  apply wp_bind, wp_opening; intros f Hf; [rewrite decide_True by done; apply wp_ret; left; split; [lia | done]|].
  rewrite decide_False by done. apply wp_bind. eapply (wp_ioctl kernel); [done|]. intros a La _.
  destruct (decide (a_res a < 0)); [apply wp_bind; eapply wp_close_last; [done|]; apply wp_ret; by left|].
  assert (exists id, rd (a_out a) 0 4 = Some id) as [id Hid] by (eexists; apply rd_bound; lia).
  pose proof (length_rd _ _ _ _ Hid) as Lid. apply wp_bind. eapply wp_mem; [exact Hid|].
  apply wp_bind, wp_wr; [done | unfold TunnelDeviceMacOS.sc_id; lia|]. intros sc1 Hw1. pose proof (length_wr _ _ _ _ Hw1) as L1.
  apply wp_bind, wp_wr; [done | cbn; lia|]. intros sc2 Hw2. pose proof (length_wr _ _ _ _ Hw2) as L2.
  apply wp_bind. eapply wp_get; [done|].
  apply wp_bind, wp_wr; [done | rewrite length_le32; unfold TunnelDeviceMacOS.sc_unit; lia|]. intros sc3 _.
  apply wp_bind. eapply wp_get; [done|].
  destruct (decide (a_res _ < 0)); [apply wp_bind; eapply wp_close_last; [done|]; apply wp_ret; by left|].
  apply wp_bind. eapply (wp_ioctl kernel); [done|]. intros a' _ _.
  destruct (decide (a_res a' < 0)); [apply wp_bind; eapply wp_close_last; [done|]; apply wp_ret; by left|].
  apply wp_bind. eapply wp_get; [done|]. apply wp_bind. eapply wp_get; [done|]. cbn [tun_name with_fds fds asked].
  match goal with |- context [kernel ?d (CGetsockopt ?v)] => pose proof (utun_name d v Hn) as Hn'; set (g := kernel d (CGetsockopt v)) in * end.
  apply wp_bind. eapply wp_put; [done|]. cbn [fds asked].
  destruct (decide (a_res g < 0)).
  { apply wp_bind. eapply wp_close_last; [cbn; reflexivity|]. apply wp_ret. left. repeat split; [done | done | apply Hn' ..]. }
  apply wp_ret. right. rewrite <- Hd. split; [lia | by split].
Qed.

Lemma freebsd_ok (junk_ifr junk_buf : bytes) : length junk_buf = 256%nat ->
  DeviceOk (TunnelDeviceFreeBSD.tunnel kernel junk_ifr junk_buf) named_device (bsd_idle l) (bsd_up l).
Proof.
  intros Hb. apply configured_ok; [apply _.. | |].
  - intros. by apply freebsd_open.
  - intros. by apply (wp_bsd_close TunnelDeviceFreeBSD.layout kernel).
Qed.

#[export] Instance netbsd_ok : DeviceOk (TunnelDeviceNetBSD.tunnel kernel) named_device (bsd_idle l) (bsd_up l).
Proof. apply configured_ok; [apply _.. | |]; intros; [by apply netbsd_open | by apply (wp_bsd_close TunnelDeviceNetBSD.layout kernel)]. Qed.

Lemma macos_ok `{!UtunOk} (junk_sc : bytes) : length junk_sc = 32%nat ->
  DeviceOk (TunnelDeviceMacOS.tunnel kernel junk_sc) named_device (bsd_idle l) (bsd_up l).
Proof.
  intros Hb. apply configured_ok; [apply _.. | |].
  - intros. by apply macos_open.
  - intros f d [Hd Hn]. eapply wp_mono; [|intros ? ? Hi; exact Hi]. by apply (wp_close_last f l).
Qed.
End Open.

(** ** Properties *)

(** On each of the three systems, bringing the device up and closing it leaves every
    descriptor closed that was opened, whatever the kernel answers. *)
Theorem bsd_bring_up_close (kernel : device -> call -> answer) `{!KernelOk kernel, !UtunOk kernel} `{Resolver} `{!ResolverOk}
  (junk_ifr junk_buf junk_sc : bytes) dev name mq mtu ipv4 ipv6 d :
  length junk_buf = 256%nat -> length junk_sc = 32%nat -> terminated (tun_name d) ->
  dev ∈ [TunnelDeviceFreeBSD.tunnel kernel junk_ifr junk_buf; TunnelDeviceNetBSD.tunnel kernel; TunnelDeviceMacOS.tunnel kernel junk_sc] ->
  exists f ok d', bring_up dev (Some name) mq mtu ipv4 ipv6 d = Some ((f, ok), d')
    ∧ (f < 0 -> ok = false ∧ fds d' = fds d)
    ∧ (0 <= f -> fds d' = f :: fds d ∧ exists d'', tunnel_close dev f d' = Some (tt, d'') ∧ fds d'' = fds d).
Proof.
  intros Hb Hs Hn Hdev. assert (DeviceOk dev named_device (bsd_idle (fds d)) (bsd_up (fds d))) as Hok.
  { repeat (apply elem_of_cons in Hdev as [->|Hdev]); [by apply freebsd_ok | by apply netbsd_ok | by apply macos_ok | by apply not_elem_of_nil in Hdev]. }
  destruct (bring_up_close dev named_device (bsd_idle (fds d)) (bsd_up (fds d)) (Some name) mq mtu ipv4 ipv6 d)
    as (f & ok & d' & He & H1 & H2); [by eexists | done |].
  exists f, ok, d'. split_and!; [done | intros Hf; destruct (H1 Hf) as (? & ? & _); done |].
  intros Hf. destruct (H2 Hf) as ([Hu _] & d'' & Hc & Hi & _). split; [done|]. by exists d''.
Qed.

(** What the kernel is asked when an address is set: an alias for the interface, with the
    address, for IPv4 as its broadcast address too, and with the mask of all bits. *)
Theorem bsd_addresses_ok (L : layout) `{!LayoutOk L} (kernel : device -> call -> answer) `{!KernelOk kernel} `{Resolver} `{!ResolverOk} addr d :
  terminated (tun_name d) ->
  (exists res d', hev_tunnel_set_ipv4 L kernel addr 32 d = Some (res, d') ∧ quiet d d' ∧
    (0 <= res -> match inet_pton4 addr with Some ip => asks SIOCAIFADDR (ipv4_alias d ip) d d' | None => did [] d d' end))
  ∧ (exists res d', hev_tunnel_set_ipv6 L kernel addr 128 d = Some (res, d') ∧ quiet d d' ∧
    (0 <= res -> match inet_pton6 addr with Some ip => asks SIOCAIFADDR_IN6 (ipv6_alias L d ip) d d' | None => did [] d d' end)).
Proof.
  intros Hn. split.
  - destruct (wp_elim _ _ _ (wp_bsd_set_ipv4 L kernel addr d Hn)) as (res & d' & He & Hq & Hr). by exists res, d'.
  - destruct (wp_elim _ _ _ (wp_bsd_set_ipv6 L kernel addr d Hn)) as (res & d' & He & Hq & Hr). by exists res, d'.
Qed.

(** Without a name in the configuration, the devices of the BSD systems use a null pointer. *)
Theorem bsd_open_no_name kernel junk_ifr junk_buf mq d :
  TunnelDeviceFreeBSD.hev_tunnel_open kernel junk_ifr junk_buf None mq d = None ∧ TunnelDeviceNetBSD.hev_tunnel_open kernel None mq d = None.
Proof. done. Qed.

(** What is on the wire for a packet on macOS. *)
Definition wire (pieces : list bytes) : bytes := le32 (TunnelDeviceMacOS.packet_type pieces) ++ concat pieces.

(** A vector read of a whole message into the family and a payload. *)
Definition readv_of (w payload : bytes) : Z * bytes := (Z.of_nat (length w), drop 4 w ++ drop (length w - 4) payload).

Lemma packet_type_family pieces b rest : concat pieces = b :: rest ->
  le32 (TunnelDeviceMacOS.packet_type pieces) = [0; 0; 0; if decide (Z.land (Z.shiftr b 4) 15 = 4) then AF_INET else 30].
Proof.
  induction pieces as [|[|x p] pieces IH]; [done | exact IH |]. intros [= -> _]. cbn [TunnelDeviceMacOS.packet_type]. by case_decide.
Qed.

(** On macOS a packet goes out with the family of its version in front, and a reader that gets
    what was written has the packet, as one piece, with its length. *)
Theorem macos_packet_round_trip pieces (mem : bytes) b rest :
  concat pieces = b :: rest -> (length pieces <= 511)%nat -> (length (concat pieces) <= length mem < 2 ^ 16)%nat ->
  TunnelDeviceMacOS.hev_tunnel_write pieces (fun v => if decide (concat v = wire pieces) then Z.of_nat (length (concat v)) else -1)
    = Z.of_nat (length (wire pieces))
  ∧ take 4 (wire pieces) = [0; 0; 0; if decide (Z.land (Z.shiftr b 4) 15 = 4) then AF_INET else 30]
  ∧ TunnelDeviceMacOS.hev_tunnel_read (Some mem) (readv_of (wire pieces))
    = Some (concat pieces ++ drop (length (concat pieces)) mem, Z.of_nat (length (concat pieces))).
Proof.
  intros Hb Hn Hm. assert (length (wire pieces) = 4 + length (concat pieces))%nat as Hl by (unfold wire; by rewrite length_app, length_le32).
  assert (0 < length (concat pieces))%nat by (rewrite Hb; simpl; lia).
  assert (Z.of_nat (2 ^ 16) = 2 ^ 16) as H16 by (vm_compute; reflexivity).
  split_and!.
  - unfold TunnelDeviceMacOS.hev_tunnel_write. rewrite take_ge by lia.
    change (concat (le32 (TunnelDeviceMacOS.packet_type pieces) :: pieces)) with (wire pieces). cbv zeta beta.
    change (concat (le32 (TunnelDeviceMacOS.packet_type pieces) :: pieces)) with (wire pieces).
    rewrite (decide_True (P := wire pieces = wire pieces)) by done. rewrite decide_False; [done|]. unfold u64, TunnelDeviceMacOS.sizeof_type. rewrite Z.mod_small by lia. lia.
  - rewrite <- (packet_type_family pieces b rest Hb). unfold wire. by rewrite take_app_length' by done.
  - unfold TunnelDeviceMacOS.hev_tunnel_read, readv_of. rewrite Hl. unfold TunnelDeviceMacOS.sizeof_type. rewrite decide_False; cycle 1.
    { unfold u64. rewrite Z.mod_small by lia. lia. }
    replace (4 + length (concat pieces) - 4)%nat with (length (concat pieces)) by lia.
    unfold wire. rewrite drop_app_length' by done. do 2 f_equal. unfold u16. rewrite Z.mod_small by lia. lia.
Qed.

(** A failed read is taken for a packet of 65531 bytes: the comparison is unsigned. *)
Theorem macos_read_error_accepted (mem : bytes) : TunnelDeviceMacOS.hev_tunnel_read (Some mem) (fun m => (-1, m)) = Some (mem, 65531).
Proof. reflexivity. Qed.

(** The mask of a prefix of [p] bits. *)
Definition mask_byte (p i : Z) : Z := if decide (8 * (i + 1) <= p) then 255 else if decide (p <= 8 * i) then 0 else 256 - 2 ^ (8 * (i + 1) - p).
Definition mask_of (p : Z) : bytes := mask_byte p <$> seqZ 0 16.

(** The mask of an IPv6 prefix is the one of its length for the prefix of an address, 128, and
    for the other multiples of four, and wrong for every other length: the byte where the
    prefix ends is shifted by the bits that should stay, and cleared by the loop when these
    are fewer than four. *)
Theorem prefixmask_multiples_of_four p : 0 <= p <= 128 ->
  (set_prefixmask (replicate 128 0) p ≫= fun b => rd b (ifra_prefixmask + of_sin6_addr) 16) = Some (mask_of p)
  <-> p mod 4 = 0.
Proof.
  intros Hp.
  assert (Forall (fun p => bool_decide ((set_prefixmask (replicate 128 0) p ≫= fun b => rd b (ifra_prefixmask + of_sin6_addr) 16) = Some (mask_of p))
    = bool_decide (p mod 4 = 0)) (seqZ 0 129)) as Hall by (apply (bool_decide_unpack _); vm_compute; exact I).
  rewrite Forall_forall in Hall. specialize (Hall p). rewrite elem_of_seqZ in Hall. specialize (Hall ltac:(lia)).
  rewrite <- (bool_decide_eq_true (_ = Some _)), <- (bool_decide_eq_true (p mod 4 = 0)). by rewrite Hall.
Qed.

End TunnelDeviceBSDProofs.
