(* ===== verification/TunnelDeviceWindows.v ===== *)
(** * The tunnel device of Windows: src/hev-tunnel-windows.c, src/misc/hev-wintun.c

    The device is an adapter of the Wintun library, packets travel through a session of it.
    The library, the adapter, the session and the packets are handles; the model keeps those
    that are open, so that using or closing another one is an error.  What the library and the
    system answer is an argument. *)

From Stdlib Require Import String.
From S2P Require Import Prelude Socks5Addr Config TunnelDevice.

Module TunnelDeviceWindows.
Import Socks5Addr.

(** ** State *)

Inductive handle := HLibrary (h : Z) | HAdapter (h : Z) | HSession (h : Z) | HPacket (h : Z).

#[export] Instance handle_eq_dec : EqDecision handle.
Proof. solve_decision. Defined.

(** A handle or a pointer is 0 when there is none; other results are as documented. *)
Inductive call :=
  | LoadLibraryExW | GetProcAddress (name : bytes)
  | MultiByteToWideChar (name : bytes) | WintunCreateAdapter (name : bytes)
  | ConvertInterfaceLuidToIndex | GetIfEntry | SetIfEntry (mtu : Z)
  | CreateUnicastIpAddressEntry (family : Z) (addr : bytes) (prefix : Z)
  | WintunStartSession (capacity : Z) | WintunAllocateSendPacket (size : Z).

(** The static variables, what is open, the calls that change the adapter, and the packets
    that were sent. *)
Record windows := mk_windows {
  wintun : Z; adapter : Z; session : Z; tun_name : bytes;
  open : list handle; done_ : list call; sent : list bytes }.

Definition set_wintun v s := mk_windows v (adapter s) (session s) (tun_name s) (open s) (done_ s) (sent s).
Definition set_adapter v s := mk_windows (wintun s) v (session s) (tun_name s) (open s) (done_ s) (sent s).
Definition set_session v s := mk_windows (wintun s) (adapter s) v (tun_name s) (open s) (done_ s) (sent s).
Definition set_tun_name v s := mk_windows (wintun s) (adapter s) (session s) v (open s) (done_ s) (sent s).
Definition set_open v s := mk_windows (wintun s) (adapter s) (session s) (tun_name s) v (done_ s) (sent s).
Definition add_done v s := mk_windows (wintun s) (adapter s) (session s) (tun_name s) (open s) (done_ s ++ [v]) (sent s).
Definition add_sent v s := mk_windows (wintun s) (adapter s) (session s) (tun_name s) (open s) (done_ s) (sent s ++ [v]).

Definition NO_ERROR : Z := 0.
Definition ERROR_OBJECT_ALREADY_EXISTS : Z := 5010.
Definition HEV_WINTUN_EAGAIN : Z := 259.

Definition upd (f : windows -> windows) : M windows unit := mput (fun s => Some (f s)).
Definition get {A} (f : windows -> A) : M windows A := mget (fun s => Some (f s)).

Fixpoint take_out (h : handle) (l : list handle) : option (list handle) :=
  match l with
  | [] => None
  | x :: l => if decide (x = h) then Some l else cons x <$> take_out h l
  end.

(** A handle that is used, and one that is closed. *)
Definition use_handle (h : handle) : M windows unit := mput (fun s => if decide (h ∈ open s) then Some s else None).
Definition closing (h : handle) : M windows unit := mput (fun s => l ← take_out h (open s); Some (set_open l s)).

Section Windows.
Context (system : windows -> call -> Z).

Definition ask (c : call) : M windows Z := get (fun s => system s c).

(** A call that may give a handle. *)
Definition opening (c : call) (k : Z -> handle) : M windows Z :=
  h ← ask c; (if decide (h = 0) then mret tt else upd (fun s => set_open (k h :: open s) s));; mret h.

(** ** misc/hev-wintun.c *)

Definition functions : list bytes :=
  [ lit "WintunCreateAdapter"; lit "WintunCloseAdapter"; lit "WintunGetAdapterLUID"; lit "WintunStartSession";
    lit "WintunEndSession"; lit "WintunGetReadWaitEvent"; lit "WintunReceivePacket"; lit "WintunReleaseReceivePacket";
    lit "WintunAllocateSendPacket"; lit "WintunSendPacket" ].

(** Whether one of them is missing. *)
Fixpoint missing (names : list bytes) : M windows bool :=
  match names with
  | [] => mret false
  | n :: names => p ← ask (GetProcAddress n); if decide (p = 0) then mret true else missing names
  end.

Definition hev_wintun_open : M windows Z :=
  self ← opening LoadLibraryExW HLibrary;
  if decide (self = 0) then mret 0 else
  b ← missing functions;
  if b : bool then closing (HLibrary self);; mret 0 else mret self.

Definition hev_wintun_close (self : Z) : M windows unit := closing (HLibrary self).

(** The library's functions are there as long as the library is. *)
Definition in_library : M windows unit := w ← get wintun; use_handle (HLibrary w).

Definition hev_wintun_adapter_create (name : bytes) : M windows Z :=
  len ← ask (MultiByteToWideChar name);
  if decide (len >= 256) then mret 0 else
  in_library;;
  opening (WintunCreateAdapter name) HAdapter.

Definition hev_wintun_adapter_close (adapter : Z) : M windows unit := in_library;; closing (HAdapter adapter).

(** WintunGetAdapterLUID *)
Definition luid (adapter : Z) : M windows unit := in_library;; use_handle (HAdapter adapter).

Definition hev_wintun_adapter_get_index (adapter : Z) (index : Z) : M windows Z :=
  luid adapter;;
  r ← ask ConvertInterfaceLuidToIndex;
  if decide (r ≠ NO_ERROR) then mret (-1) else mret (s32 index).

Definition hev_wintun_adapter_set_mtu (adapter : Z) (mtu : Z) : M windows Z :=
  luid adapter;;
  r ← ask ConvertInterfaceLuidToIndex;
  if decide (r ≠ NO_ERROR) then mret (-1) else
  r ← ask GetIfEntry;
  if decide (r ≠ NO_ERROR) then mret (-1) else
  r ← ask (SetIfEntry (u32 mtu));
  if decide (r ≠ NO_ERROR) then mret (-1) else
  upd (add_done (SetIfEntry (u32 mtu)));; mret 0.

(** [hev_wintun_adapter_set_ipv4] and [_ipv6], which differ in the member of the union. *)
Definition set_unicast (family : Z) (adapter : Z) (addr : bytes) (prefix : Z) : M windows Z :=
  luid adapter;;
  r ← ask (CreateUnicastIpAddressEntry family addr (u8 prefix));
  if decide (r ≠ NO_ERROR ∧ r ≠ ERROR_OBJECT_ALREADY_EXISTS) then mret (-1) else
  upd (add_done (CreateUnicastIpAddressEntry family addr (u8 prefix)));; mret 0.
Definition hev_wintun_adapter_set_ipv4 : Z -> bytes -> Z -> M windows Z := set_unicast 2.
Definition hev_wintun_adapter_set_ipv6 : Z -> bytes -> Z -> M windows Z := set_unicast 23.

Definition hev_wintun_session_start (adapter : Z) : M windows Z :=
  in_library;; use_handle (HAdapter adapter);; opening (WintunStartSession 0x400000) HSession.
Definition hev_wintun_session_stop (session : Z) : M windows unit := in_library;; closing (HSession session).
Definition hev_wintun_session_get_read_wait_event (session : Z) : M windows unit := in_library;; use_handle (HSession session).
Definition hev_wintun_session_release (session packet : Z) : M windows unit :=
  in_library;; use_handle (HSession session);; closing (HPacket packet).

(** ** hev-tunnel-windows.c *)

Definition hev_tunnel_open (name : option bytes) (multi_queue : bool) : M windows Z :=
  w ← hev_wintun_open;
  upd (set_wintun w);;
  if decide (w = 0) then mret (-1) else
  name ← mget (fun _ => name);
  a ← hev_wintun_adapter_create name;
  upd (set_adapter a);;
  if decide (a = 0) then hev_wintun_close w;; mret (-1) else
  n ← mget (fun s => wr (tun_name s) 0 (strncpy name (TunnelDevice.IFNAMSIZ - 1)));
  upd (set_tun_name n);;
  mret 0.

Definition hev_tunnel_close (f : Z) : M windows unit :=
  s ← get session;
  mwhen (negb (bool_decide (s = 0))) (hev_wintun_session_stop s);;
  a ← get adapter; hev_wintun_adapter_close a;;
  w ← get wintun; hev_wintun_close w.

Definition hev_tunnel_set_mtu (mtu : Z) : M windows Z := a ← get adapter; hev_wintun_adapter_set_mtu a mtu.

Definition hev_tunnel_set_state (up : bool) : M windows Z :=
  if up then
    a ← get adapter;
    s ← hev_wintun_session_start a;
    upd (set_session s);;
    mret (if decide (s = 0) then -1 else 0)
  else
    s ← get session;
    mwhen (negb (bool_decide (s = 0))) (hev_wintun_session_stop s;; upd (set_session 0));;
    mret 0.

Section Addresses.
Context `{Resolver}.

Definition hev_tunnel_set_ipv4 (addr : bytes) (prefix : Z) : M windows Z :=
  match inet_pton4 addr with
  | None => mret (-1)
  | Some ip => a ← get adapter; hev_wintun_adapter_set_ipv4 a ip prefix
  end.
Definition hev_tunnel_set_ipv6 (addr : bytes) (prefix : Z) : M windows Z :=
  match inet_pton6 addr with
  | None => mret (-1)
  | Some ip => a ← get adapter; hev_wintun_adapter_set_ipv6 a ip prefix
  end.

Definition tunnel : TunnelDevice.operations windows :=
  TunnelDevice.mk_operations hev_tunnel_open hev_tunnel_close hev_tunnel_set_mtu hev_tunnel_set_state
    hev_tunnel_set_ipv4 hev_tunnel_set_ipv6.
End Addresses.

(** *** Packets *)

(** A buffer of the stack around a packet of the session. *)
Record HevPBuf := mk_pbuf { mem : Z; payload : bytes }.

Definition hev_pbuf_free (p : HevPBuf) : M windows unit :=
  s ← get session; hev_wintun_session_release s (mem p).

(** One turn of the reader: the packet, if there is one, the last error, and what the yielder
    returns if it is called. *)
Inductive turn := Packet (h : Z) (data : bytes) | Nothing (error yielded : Z).
Inductive read_result := Waiting | Null | Got (p : HevPBuf).

(** [spin] is an [int], which overflows at last; the memory of the buffer is [mem]. *)
Fixpoint hev_tunnel_read (mem yielder : bool) (turns : list turn) (spin : Z) : M windows read_result :=
  match turns with
  | [] => mret Waiting
  | t :: turns =>
      s ← get session; in_library;; use_handle (HSession s);;
      match t with
      | Packet h data =>
          upd (fun s => set_open (HPacket h :: open s) s);;
          mret (if mem then Got (mk_pbuf h data) else Null)
      | Nothing error yielded =>
          if decide (error = HEV_WINTUN_EAGAIN) then
            if decide (spin = 2 ^ 31 - 1) then mfail else
            if decide (spin < 1000) then hev_tunnel_read mem yielder turns (spin + 1)
            else if yielder && bool_decide (yielded ≠ 0) then mret Null
            else hev_tunnel_read mem yielder turns (spin + 1)
          else mret Null
      end
  end.

(** The pieces one after the other into the packet's memory. *)
Fixpoint copy_pieces (packet : bytes) (size : Z) (pieces : list bytes) : option (bytes * Z) :=
  match pieces with
  | [] => Some (packet, size)
  | p :: pieces => packet ← wr packet size p; copy_pieces packet (size + Z.of_nat (length p)) pieces
  end.

(** [tot_len]: what the first buffer of the chain says; [junk]: what the new packet holds. *)
Definition hev_tunnel_write (tot_len : Z) (junk : bytes) (pieces : list bytes) : M windows Z :=
  s ← get session; in_library;; use_handle (HSession s);;
  packet ← ask (WintunAllocateSendPacket tot_len);
  if decide (packet = 0) then mret (-1) else
  r ← mget (fun _ => copy_pieces (take (Z.to_nat tot_len) junk) 0 pieces);
  upd (add_sent (fst r));;
  mret (snd r).
End Windows.

End TunnelDeviceWindows.
