(* ===== verification/TunnelDeviceWindowsProofs.v ===== *)
(** * The tunnel device of Windows: proofs

    Whatever the library and the system answer, a device that came up is released by closing
    it, and packets pass through unchanged. *)

From S2P Require Import Prelude Socks5Addr TunnelDevice TunnelDeviceWindows.

Module TunnelDeviceWindowsProofs.
Import Socks5Addr TunnelDeviceWindows.

Lemma wp_ask system c d (Q : Z -> windows -> Prop) : Q (system d c) d -> wp (ask system c) d Q.
Proof. intros HQ. by eapply wp_get. Qed.

Lemma wp_closing_last h l d (Q : unit -> windows -> Prop) : open d = h :: l -> Q tt (set_open l d) -> wp (closing h) d Q.
Proof. intros Ho HQ. eapply wp_put; [rewrite Ho; cbn [take_out]; by rewrite decide_True|]. exact HQ. Qed.

Lemma wp_use h d (Q : unit -> windows -> Prop) : h ∈ open d -> Q tt d -> wp (use_handle h) d Q.
Proof. intros Hh HQ. eapply wp_put; [by rewrite decide_True|]. exact HQ. Qed.

Lemma wp_in_library d (Q : unit -> windows -> Prop) : HLibrary (wintun d) ∈ open d -> Q tt d -> wp in_library d Q.
Proof. intros Hh HQ. apply wp_bind. eapply wp_get; [done|]. by apply wp_use. Qed.

Lemma wp_opening_handle system c k d (Q : Z -> windows -> Prop) :
  Q 0 d -> (forall h, h ≠ 0 -> Q h (set_open (k h :: open d) d)) -> wp (opening system c k) d Q.
Proof.
  intros H0 H1. apply wp_bind, wp_ask. destruct (decide (system d c = 0)) as [->|Hn].
  - apply wp_bind, wp_ret, wp_ret. exact H0.
  - apply wp_bind. eapply wp_put; [done|]. apply wp_ret. by apply H1.
Qed.

(** ** The device *)

(** Nothing but the calls that change the adapter, and the session, is different. *)
Definition same_device (d d' : windows) : Prop :=
  wintun d' = wintun d ∧ adapter d' = adapter d ∧ open d' = open d ∧ session d' = session d.

(** The device is open on top of [l], with or without a session. *)
Record opened (l : list handle) (d : windows) : Prop := {
  op_open : open d = HAdapter (adapter d) :: HLibrary (wintun d) :: l }.
Record running (l : list handle) (d : windows) : Prop := {
  rn_session : session d ≠ 0;
  rn_open : open d = HSession (session d) :: HAdapter (adapter d) :: HLibrary (wintun d) :: l }.

Section Device.
Context (system : windows -> call -> Z) (l : list handle).

Lemma opened_library d : opened l d -> HLibrary (wintun d) ∈ open d.
Proof. intros [->]. apply list_elem_of_further, list_elem_of_here. Qed.
Lemma opened_adapter d : opened l d -> HAdapter (adapter d) ∈ open d.
Proof. intros [->]. apply list_elem_of_here. Qed.

Lemma wp_missing names d (Q : bool -> windows -> Prop) : (forall b, Q b d) -> wp (missing system names) d Q.
Proof.
  intros HQ. induction names as [|n names IH]; [by apply wp_ret|]. apply wp_bind, wp_ask. case_decide; [by apply wp_ret | exact IH].
Qed.

Lemma wp_wintun_open d (Q : Z -> windows -> Prop) :
  Q 0 d -> (forall w, w ≠ 0 -> Q w (set_open (HLibrary w :: open d) d)) -> wp (hev_wintun_open system) d Q.
Proof.
  intros H0 H1. apply wp_bind, wp_opening_handle; [rewrite decide_True by done; by apply wp_ret|].
  intros w Hw. rewrite decide_False by done. apply wp_bind, wp_missing. intros [|].
  - apply wp_bind. eapply wp_closing_last; [done|]. apply wp_ret. by destruct d.
  - apply wp_ret. by apply H1.
Qed.

Lemma wp_luid d (Q : unit -> windows -> Prop) : opened l d -> Q tt d -> wp (luid (adapter d)) d Q.
Proof. intros Ho HQ. apply wp_bind, wp_in_library; [by apply opened_library|]. apply wp_use; [by apply opened_adapter | done]. Qed.

Lemma opened_same d d' : opened l d -> same_device d d' -> opened l d'.
Proof. intros [Ho] (Hw & Ha & Hop & _). split. by rewrite Hop, Hw, Ha. Qed.

Lemma wp_mtu mtu d : opened l d -> wp (hev_tunnel_set_mtu system mtu) d (fun _ d' => opened l d').
Proof.
  intros Ho. apply wp_bind. eapply wp_get; [done|]. apply wp_bind, wp_luid; [done|].
  apply wp_bind, wp_ask. case_decide; [by apply wp_ret|].
  apply wp_bind, wp_ask. case_decide; [by apply wp_ret|].
  apply wp_bind, wp_ask. case_decide; [by apply wp_ret|].
  apply wp_bind. eapply wp_put; [done|]. apply wp_ret. by eapply opened_same.
Qed.

Lemma wp_unicast fam ip prefix d : opened l d -> wp (set_unicast system fam (adapter d) ip prefix) d (fun _ d' => opened l d').
Proof.
  intros Ho. apply wp_bind, wp_luid; [done|]. apply wp_bind, wp_ask. case_decide; [by apply wp_ret|].
  apply wp_bind. eapply wp_put; [done|]. apply wp_ret. by eapply opened_same.
Qed.

Lemma wp_ipv4 `{Resolver} a d : opened l d -> wp (hev_tunnel_set_ipv4 system a 32) d (fun _ d' => opened l d').
Proof.
  intros Ho. unfold hev_tunnel_set_ipv4. destruct (inet_pton4 a); [|by apply wp_ret].
  apply wp_bind. eapply wp_get; [done|]. by apply wp_unicast.
Qed.
Lemma wp_ipv6 `{Resolver} a d : opened l d -> wp (hev_tunnel_set_ipv6 system a 128) d (fun _ d' => opened l d').
Proof.
  intros Ho. unfold hev_tunnel_set_ipv6. destruct (inet_pton6 a); [|by apply wp_ret].
  apply wp_bind. eapply wp_get; [done|]. by apply wp_unicast.
Qed.

Lemma wp_start d : opened l d -> wp (hev_tunnel_set_state system true) d (fun res d' =>
  if decide (res < 0) then opened l d' else running l d').
Proof.
  intros Ho. apply wp_bind. eapply wp_get; [done|]. apply wp_bind.
  apply wp_bind, wp_in_library; [by apply opened_library|]. apply wp_bind, wp_use; [by apply opened_adapter|].
  apply wp_opening_handle.
  - apply wp_bind. eapply wp_put; [done|]. apply wp_ret. rewrite (decide_True (P := 0 = 0)), decide_True by done. destruct Ho as [Ho]. by split.
  - intros s Hs. apply wp_bind. eapply wp_put; [done|]. apply wp_ret. rewrite (decide_False (P := s = 0)), decide_False by (done || lia).
    destruct Ho as [Ho]. split; [done|]. cbn. by rewrite Ho.
Qed.

Lemma wp_windows_open n mq d : length (tun_name d) = TunnelDevice.IFNAMSIZ -> open d = l ->
  wp (hev_tunnel_open system (Some n) mq) d (fun f d' => (f = -1 ∧ open d' = l) \/ (f = 0 ∧ opened l d')).
Proof.
  intros Hn Hl. apply wp_bind, wp_wintun_open.
  { apply wp_bind. eapply wp_put; [done|]. rewrite decide_True by done. apply wp_ret. by left. }
  intros w Hw. apply wp_bind. eapply wp_put; [done|]. rewrite decide_False by done. apply wp_bind. eapply wp_get; [done|].
  set (d1 := set_wintun w _). assert (open d1 = HLibrary w :: l) as Ho1 by (unfold d1; cbn; by rewrite Hl).
  assert (forall d2, open d2 = HLibrary w :: l -> wp (hev_wintun_close w;; mret (-1)) d2
    (fun f d' => (f = -1 ∧ open d' = l) \/ (f = 0 ∧ opened l d'))) as Hfail.
  { intros d2 Ho2. apply wp_bind. eapply wp_closing_last; [exact Ho2|]. apply wp_ret. by left. }
  apply wp_bind. unfold hev_wintun_adapter_create. apply wp_bind, wp_ask. case_decide.
  { apply wp_ret. apply wp_bind. eapply wp_put; [done|]. rewrite decide_True by done. by apply Hfail. }
  apply wp_bind, wp_in_library; [rewrite Ho1; apply list_elem_of_here|]. apply wp_opening_handle.
  { apply wp_bind. eapply wp_put; [done|]. rewrite decide_True by done. by apply Hfail. }
  intros a Ha. apply wp_bind. eapply wp_put; [done|]. rewrite decide_False by done. apply wp_bind.
  eapply wp_get; [apply wr_bound; rewrite ?length_strncpy; cbn [tun_name set_adapter set_open d1 set_wintun]; rewrite ?Hn; unfold TunnelDevice.IFNAMSIZ; lia|].
  apply wp_bind. eapply wp_put; [done|]. apply wp_ret. right. split; [done|]. split. cbn. by rewrite Hl.
Qed.

Lemma wp_close_running f d : running l d -> wp (hev_tunnel_close f) d (fun _ d' => open d' = l ∧ session d' = session d).
Proof.
  intros [Hs Ho]. apply wp_bind. eapply wp_get; [done|]. apply wp_bind. rewrite bool_decide_eq_false_2 by done.
  apply wp_bind, wp_in_library; [rewrite Ho; set_solver|]. eapply wp_closing_last; [exact Ho|].
  apply wp_bind. eapply wp_get; [done|]. apply wp_bind, wp_bind, wp_in_library; [cbn; set_solver|].
  eapply wp_closing_last; [done|]. apply wp_bind. eapply wp_get; [done|]. by eapply wp_closing_last.
Qed.

(** A step of [TunnelDevice.bring_up] on an open device. *)
Lemma wp_windows_step (m : M windows Z) k d (Q : Z * bool -> windows -> Prop) : wp m d (fun _ d' => opened l d') ->
  (forall d', opened l d' -> Q (0, false) d') -> (forall d', opened l d' -> wp k d' Q) ->
  wp (res ← m; if decide (res < 0) then mret (0, false) else k) d Q.
Proof.
  intros Hm Hf Hk. apply wp_bind. eapply wp_mono; [exact Hm|]. intros res d' Hu. case_decide; [apply wp_ret; by apply Hf | by apply Hk].
Qed.

Lemma wp_windows_bring_up `{Resolver} n mq mtu ipv4 ipv6 d : length (tun_name d) = TunnelDevice.IFNAMSIZ -> open d = l ->
  wp (TunnelDevice.bring_up (tunnel system) (Some n) mq mtu ipv4 ipv6) d (fun '(f, ok) d' =>
    if decide (f < 0) then ok = false ∧ open d' = l else if ok : bool then running l d' else opened l d').
Proof.
  intros Hn Hl. apply wp_bind. eapply wp_mono; [by apply wp_windows_open|]. intros f d1 [[-> Ho]|[-> Ho]]; [by apply wp_ret|].
  cbn beta. apply (wp_windows_step _ _ _ _ (wp_mtu mtu d1 Ho)); [done|]. intros d2 H2.
  apply (wp_windows_step (match ipv4 with Some a => _ | None => mret 0 end)); [destruct ipv4; [by apply wp_ipv4 | by apply wp_ret] | done|]. intros d3 H3.
  apply (wp_windows_step (match ipv6 with Some a => _ | None => mret 0 end)); [destruct ipv6; [by apply wp_ipv6 | by apply wp_ret] | done|]. intros d4 H4.
  apply wp_bind. eapply wp_mono; [by apply wp_start|]. intros res d5 H5. cbv beta in H5.
  destruct (decide (res < 0)); by apply wp_ret.
Qed.
End Device.

(** ** Properties *)

(** Bringing the device up and closing it: if the device cannot be opened nothing is left, if
    it is up then closing it releases session, adapter and library, and if a setting fails the
    adapter and the library stay open, since the tunnel does not close it then. *)
Theorem windows_bring_up_close (system : windows -> call -> Z) `{Resolver} n mq mtu ipv4 ipv6 d :
  length (tun_name d) = TunnelDevice.IFNAMSIZ ->
  exists f ok d', TunnelDevice.bring_up (tunnel system) (Some n) mq mtu ipv4 ipv6 d = Some ((f, ok), d')
    ∧ (f < 0 -> ok = false ∧ open d' = open d)
    ∧ (0 <= f -> ok = false -> open d' = HAdapter (adapter d') :: HLibrary (wintun d') :: open d)
    ∧ (0 <= f -> ok = true -> exists d'', hev_tunnel_close f d' = Some (tt, d'') ∧ open d'' = open d
        ∧ session d'' = session d' ∧ session d' ≠ 0).
Proof.
  intros Hn. destruct (wp_elim _ _ _ (wp_windows_bring_up system (open d) n mq mtu ipv4 ipv6 d Hn eq_refl)) as ([f ok] & d' & He & Hr).
  exists f, ok, d'. cbv beta iota in Hr. split_and!; [done | intros Hf; by rewrite decide_True in Hr | |].
  - intros Hf ->. rewrite decide_False in Hr by lia. by destruct Hr.
  - intros Hf ->. rewrite decide_False in Hr by lia.
    destruct (wp_elim _ _ _ (wp_close_running system (open d) f d' Hr)) as ([] & d'' & Hc & Ho & Hs). exists d''.
    split_and!; [done | done | done | by destruct Hr].
Qed.

(** Closing forgets the session in the library, but not in its variable: a device that is
    opened again and closed before it is up ends the same session a second time. *)
Theorem windows_close_ends_twice f d : session d ≠ 0 -> HSession (session d) ∉ open d -> hev_tunnel_close f d = None.
Proof.
  intros Hs Ho. unfold hev_tunnel_close, get, mget, mbind, M_bind. rewrite bool_decide_eq_false_2 by done. cbn [negb mwhen].
  unfold hev_wintun_session_stop, in_library, get, mget, use_handle, closing, mput, mbind, M_bind.
  case_decide; [|done]. assert (forall k, HSession (session d) ∉ k -> take_out (HSession (session d)) k = None) as Hno.
  { induction k as [|x k IH]; [done|]. intros [Hx Hk]%not_elem_of_cons. cbn [take_out]. rewrite decide_False by done. by rewrite IH. }
  by rewrite Hno.
Qed.

Section Packets.
Context (l : list handle).

(** The session is open, with packets on top. *)
Definition in_session (ps : list Z) (d : windows) : Prop :=
  running l (set_open (drop (length ps) (open d)) d) ∧ take (length ps) (open d) = HPacket <$> ps.

Lemma in_session_open ps d : in_session ps d ->
  open d = (HPacket <$> ps) ++ HSession (session d) :: HAdapter (adapter d) :: HLibrary (wintun d) :: l.
Proof. intros [[_ Ho] Ht]. cbn in Ho. rewrite <- (take_drop (length ps) (open d)) at 1. by rewrite Ht, Ho. Qed.

Lemma in_session_push ps h d : in_session ps d -> in_session (h :: ps) (set_open (HPacket h :: open d) d).
Proof. intros [[Hs Ho] Ht]. split; [split; [done | exact Ho] | cbn; by rewrite Ht]. Qed.

Lemma wp_read mem yielder turns : forall spin ps d, in_session ps d -> 0 <= spin -> spin + Z.of_nat (length turns) < 2 ^ 31 ->
  wp (hev_tunnel_read mem yielder turns spin) d (fun r d' =>
    match r with
    | Got p => mem = true ∧ in_session (TunnelDeviceWindows.mem p :: ps) d' ∧ Packet (TunnelDeviceWindows.mem p) (payload p) ∈ turns
    | _ => in_session ps d' \/ mem = false ∧ exists h, in_session (h :: ps) d'
    end).
Proof.
  induction turns as [|t turns IH]; intros spin ps d Hi H0 Hs; [apply wp_ret; by left|]. cbn [hev_tunnel_read].
  apply wp_bind. eapply wp_get; [done|].
  assert (forall A (k : M windows A) Q, wp k d Q -> wp (in_library;; use_handle (HSession (session d));; k) d Q) as Hss.
  { intros A k Q Hk. pose proof (in_session_open _ _ Hi) as Ho.
    apply wp_bind, wp_in_library; [rewrite Ho; set_solver|]. apply wp_bind, wp_use; [rewrite Ho; set_solver | done]. }
  apply Hss. destruct t as [h data|error yielded].
  - apply wp_bind. eapply wp_put; [done|]. apply wp_ret. pose proof (in_session_push _ h _ Hi) as Hp. destruct mem.
    + split_and!; [done | exact Hp | apply list_elem_of_here].
    + right. split; [done|]. by exists h.
  - assert (wp (hev_tunnel_read mem yielder turns (spin + 1)) d (fun r d' =>
      match r with
      | Got p => mem = true ∧ in_session (TunnelDeviceWindows.mem p :: ps) d' ∧ Packet (TunnelDeviceWindows.mem p) (payload p) ∈ Nothing error yielded :: turns
      | _ => in_session ps d' \/ mem = false ∧ exists h, in_session (h :: ps) d'
      end)) as Hrest.
    { eapply wp_mono; [apply IH; [done | lia | simpl in Hs; lia]|]. intros [| |p] d'; [done | done |].
      intros (? & ? & ?). split_and!; [done | done | by apply list_elem_of_further]. }
    case_decide; [|apply wp_ret; by left]. rewrite decide_False by (simpl in Hs; lia).
    case_decide; [exact Hrest|]. destruct (yielder && _); [apply wp_ret; by left | exact Hrest].
Qed.
End Packets.

(** Reading: whatever the session answers, for fewer than 2^31 turns, the reader either has one
    of the packets the session gave, which is released with its buffer, or none, and then no
    packet is held, unless there was no memory for its buffer: that packet is never released. *)
Theorem windows_read_ok l mem yielder turns ps d :
  in_session l ps d -> Z.of_nat (length turns) < 2 ^ 31 ->
  exists r d', hev_tunnel_read mem yielder turns 0 d = Some (r, d')
    ∧ match r with
      | Got p => mem = true ∧ Packet (TunnelDeviceWindows.mem p) (payload p) ∈ turns
          ∧ exists d'', hev_pbuf_free p d' = Some (tt, d'') ∧ in_session l ps d''
      | _ => in_session l ps d' \/ mem = false ∧ exists h, in_session l (h :: ps) d'
      end.
Proof.
  intros Hi Hn. destruct (wp_elim _ _ _ (wp_read l mem yielder turns 0 ps d Hi ltac:(lia) ltac:(lia))) as (r & d' & He & Hr).
  exists r, d'. split; [done|]. destruct r as [| |p]; [done | done |]. destruct Hr as (Hm & Hp & Ht). split_and!; [done | done |].
  assert (wp (hev_pbuf_free p) d' (fun _ d'' => in_session l ps d'')) as Hwp.
  { apply wp_bind. eapply wp_get; [done|]. pose proof (in_session_open _ _ _ Hp) as Ho.
    apply wp_bind, wp_in_library; [rewrite Ho; set_solver|]. apply wp_bind, wp_use; [rewrite Ho; set_solver|].
    eapply wp_closing_last; [exact Ho|]. destruct Hp as [[Hs Hd] Htk]. rewrite Ho in Hd, Htk. cbn in Hd, Htk.
    split; [split; [done | exact Hd]|]. cbn. by injection Htk. }
  destruct (wp_elim _ _ _ Hwp) as ([] & d'' & Hf & Hd). by exists d''.
Qed.

Lemma copy_pieces_all pieces : forall pre rest, (length (concat pieces) <= length rest)%nat ->
  copy_pieces (pre ++ rest) (Z.of_nat (length pre)) pieces
  = Some (pre ++ concat pieces ++ drop (length (concat pieces)) rest, Z.of_nat (length pre + length (concat pieces))).
Proof.
  induction pieces as [|p pieces IH]; intros pre rest Hl; cbn [copy_pieces concat].
  - cbn. by rewrite drop_0, Nat.add_0_r.
  - cbn [concat] in Hl. rewrite length_app in Hl. rewrite (wr_app pre rest) by (done || lia). cbn [mbind option_bind].
    rewrite app_assoc, <- Nat2Z.inj_add, <- length_app, IH by (rewrite length_drop; lia).
    rewrite <- !app_assoc, drop_drop, !length_app. by rewrite Nat.add_assoc.
Qed.

(** Writing: the packet that is sent is the chain in one piece. *)
Theorem windows_write_ok system l pieces junk d :
  in_session l [] d -> length junk = length (concat pieces) ->
  let n := Z.of_nat (length junk) in
  exists res d', hev_tunnel_write system n junk pieces d = Some (res, d') ∧ open d' = open d
    ∧ (system d (WintunAllocateSendPacket n) = 0 -> res = -1 ∧ sent d' = sent d)
    ∧ (system d (WintunAllocateSendPacket n) ≠ 0 -> res = n ∧ sent d' = sent d ++ [concat pieces]).
Proof.
  intros Hi Hl n.
  assert (wp (hev_tunnel_write system n junk pieces) d (fun res d' => open d' = open d
    ∧ (system d (WintunAllocateSendPacket n) = 0 -> res = -1 ∧ sent d' = sent d)
    ∧ (system d (WintunAllocateSendPacket n) ≠ 0 -> res = n ∧ sent d' = sent d ++ [concat pieces]))) as Hwp.
  { apply wp_bind. eapply wp_get; [done|]. pose proof (in_session_open _ _ _ Hi) as Ho.
    apply wp_bind, wp_in_library; [rewrite Ho; set_solver|]. apply wp_bind, wp_use; [rewrite Ho; set_solver|].
    apply wp_bind, wp_ask. case_decide; [by apply wp_ret|]. apply wp_bind.
    eapply wp_get; [rewrite take_ge by (unfold n; lia); apply (copy_pieces_all pieces [] junk); lia|].
    apply wp_bind. eapply wp_put; [done|]. apply wp_ret. cbn [fst snd app].
    rewrite drop_ge, app_nil_r by lia. split_and!; [done | done |]. intros _. split; [unfold n; cbn; lia | done]. }
  destruct (wp_elim _ _ _ Hwp) as (res & d' & He & Hr). by exists res, d'.
Qed.

End TunnelDeviceWindowsProofs.
