(* ===== verification/SocketOps.v ===== *)
(** * Socket primitives: src/app/src/main/cpp/socket_ops/socket_ops_jni.c

    The time to live of a socket, its segment size, and a send whose bytes are exchanged
    in the kernel's queue.  The memory that is given to the kernel is a set of pages that
    the process and the socket's queue share, so the model has pages, mappings of them, and
    a queue that refers to pages.  What system calls answer is an argument; that a gift is
    queued by reference, or copied, is one too. *)

From S2P Require Import Prelude.

Module SocketOps.

(** ** State *)

(** A piece of a pipe or of the socket's queue: the first bytes of pages, or a copy. *)
Inductive segment := Ref (l : loc) (n : nat) | Copied (v : bytes).

(** The process and the socket: errno, pages, the mapped ones, open descriptors, what the
    pipe holds, the arrays that the Java machine has pinned, the time to live for IPv4 and
    for IPv6, the segment size, the bytes that are not acknowledged, and what went on the
    wire, with its time to live. *)
Record world := mk_world {
  errno : Z; pages : gmap loc bytes; mapped : gset loc; fds : gset Z; pipe : option segment;
  pinned : gset Z; ttl4 : Z; ttl6 : Z; maxseg : Z; queue : list segment; wire : list (Z * Z * bytes) }.

Definition set_errno v w := mk_world v (pages w) (mapped w) (fds w) (pipe w) (pinned w) (ttl4 w) (ttl6 w) (maxseg w) (queue w) (wire w).
Definition set_pages p m w := mk_world (errno w) p m (fds w) (pipe w) (pinned w) (ttl4 w) (ttl6 w) (maxseg w) (queue w) (wire w).
Definition set_fds f p w := mk_world (errno w) (pages w) (mapped w) f p (pinned w) (ttl4 w) (ttl6 w) (maxseg w) (queue w) (wire w).
Definition set_pinned v w := mk_world (errno w) (pages w) (mapped w) (fds w) (pipe w) v (ttl4 w) (ttl6 w) (maxseg w) (queue w) (wire w).
Definition set_ttl4 v w := mk_world (errno w) (pages w) (mapped w) (fds w) (pipe w) (pinned w) v (ttl6 w) (maxseg w) (queue w) (wire w).
Definition set_ttl6 v w := mk_world (errno w) (pages w) (mapped w) (fds w) (pipe w) (pinned w) (ttl4 w) v (maxseg w) (queue w) (wire w).
Definition set_maxseg v w := mk_world (errno w) (pages w) (mapped w) (fds w) (pipe w) (pinned w) (ttl4 w) (ttl6 w) v (queue w) (wire w).
Definition set_queue q s w := mk_world (errno w) (pages w) (mapped w) (fds w) (pipe w) (pinned w) (ttl4 w) (ttl6 w) (maxseg w) q s.

Definition upd (f : world -> world) : M world unit := mput (fun w => Some (f w)).
Definition get {A} (f : world -> A) : M world A := mget (fun w => Some (f w)).

(** ** System calls *)

(** Success, or an error with its errno. *)
Inductive answer A := Ok (a : A) | Err (e : Z).
Arguments Ok {A}. Arguments Err {A}.

(** A call that sets an option: its result, and its effect when it succeeds. *)
Definition setsockopt (a : answer unit) (effect : world -> world) : M world Z :=
  match a with Ok _ => upd effect;; mret 0 | Err e => upd (set_errno e);; mret (-1) end.

(** The bytes of a piece as they are now. *)
Definition contents (p : gmap loc bytes) (s : segment) : option bytes :=
  match s with Ref l n => v ← p !! l; rd v 0 (Z.of_nat n) | Copied v => Some v end.
Fixpoint queue_contents (p : gmap loc bytes) (q : list segment) : option bytes :=
  match q with [] => Some [] | s :: q => v ← contents p s; vs ← queue_contents p q; Some (v ++ vs) end.

(** What the other side gets when the queue is sent again. *)
Definition retransmit (w : world) : option bytes := queue_contents (pages w) (queue w).

Definition mmap (a : answer loc) (size : Z) : M world ptr :=
  match a with
  | Ok l => mput (fun w => Some (set_pages (<[ l := replicate (Z.to_nat size) 0 ]> (pages w)) ({[ l ]} ∪ mapped w) w));; mret (Some l)
  | Err e => upd (set_errno e);; mret None
  end.

(** The pages stay as long as a queue refers to them. *)
Definition munmap (l : loc) : M world unit :=
  mput (fun w => if decide (l ∈ mapped w) then Some (set_pages (pages w) (mapped w ∖ {[ l ]}) w) else None).

(** [memcpy] to a mapped buffer *)
Definition memcpy (l : loc) (v : bytes) : M world unit :=
  mput (fun w => if decide (l ∈ mapped w) then
                   b ← pages w !! l; b ← wr b 0 v; Some (set_pages (<[ l := b ]> (pages w)) (mapped w) w)
                 else None).

Definition do_pipe (a : answer (Z * Z)) : M world (option (Z * Z)) :=
  match a with
  | Ok (r, t) => upd (fun w => set_fds ({[ r; t ]} ∪ fds w) None w);; mret (Some (r, t))
  | Err e => upd (set_errno e);; mret None
  end.

Definition close (f : Z) : M world unit :=
  mput (fun w => if decide (f ∈ fds w) then Some (set_fds (fds w ∖ {[ f ]}) (pipe w) w) else None).

(** [GetByteArrayElements] and [ReleaseByteArrayElements] of an array, by its name. *)
Definition FAKE : Z := 0.
Definition REAL : Z := 1.
Definition get_elements (a : Z) (ok : bool) (v : bytes) : M world (option bytes) :=
  if ok then upd (fun w => set_pinned ({[ a ]} ∪ pinned w) w);; mret (Some v) else mret None.
Definition release_elements (a : Z) : M world unit :=
  mput (fun w => if decide (a ∈ pinned w) then Some (set_pinned (pinned w ∖ {[ a ]}) w) else None).

(** [vmsplice] with SPLICE_F_GIFT: the first bytes of the pages go to the pipe. *)
Definition vmsplice (a : answer nat) (l : loc) (len : nat) : M world Z :=
  match a with
  | Ok k =>
      mput (fun w => if decide (l ∈ mapped w) then
                       v ← pages w !! l; rd v 0 (Z.of_nat len);;
                       Some (set_fds (fds w) (Some (Ref l (Nat.min k len))) w)
                     else None);;
      mret (Z.of_nat (Nat.min k len))
  | Err e => upd (set_errno e);; mret (-1)
  end.

(** How the kernel queues a gift: by reference, or as a copy. *)
Inductive queueing := ByReference | ByCopy.

(** [splice] from the pipe to the socket.  [now]: the bytes are sent at once. *)
Definition splice (how : queueing) (now : bool) (a : answer nat) (len : nat) : M world Z :=
  match a with
  | Err e => upd (set_errno e);; mret (-1)
  | Ok k =>
      p ← get pipe;
      match p with
      | None => mret 0
      | Some (Copied v) => mfail
      | Some (Ref l n) =>
          let k := Nat.min k (Nat.min len n) in
          p ← get pages;
          v ← mget (fun _ => contents p (Ref l k));
          upd (fun w => set_queue (queue w ++ [match how with ByReference => Ref l k | ByCopy => Copied v end])
                          (if now then wire w ++ [(ttl4 w, ttl6 w, v)] else wire w) w);;
          mret (Z.of_nat k)
      end
  end.

(** ** The primitives *)

Definition EIO : Z := 5.
Definition ENOMEM : Z := 12.
Definition EINVAL : Z := 22.

(** The answers to the two calls. *)
Record ttl_answers := mk_ttl { a_v4 : answer unit; a_v6 : answer unit }.

Definition set_ttl_both (a : ttl_answers) (ttl : Z) : M world Z :=
  rc_v4 ← setsockopt (a_v4 a) (set_ttl4 ttl);
  rc_v6 ← setsockopt (a_v6 a) (set_ttl6 ttl);
  if decide (rc_v4 = 0 \/ rc_v6 = 0) then mret 0 else
  e ← get errno; mret (- e).

Definition nativeSetIpTtl (a : ttl_answers) (ttl : Z) : M world Z := set_ttl_both a ttl.

Definition nativeSetTcpMaxSeg (a : answer unit) (fd mss : Z) : M world Z :=
  if decide (fd < 0 \/ mss < 40) then mret (- EINVAL) else
  rc ← setsockopt a (set_maxseg mss);
  if decide (rc < 0) then e ← get errno; mret (- e) else mret 0.

(** What the calls of [nativeSendFakeThenSwap] answer. *)
Record answers := mk_answers {
  r_page_size : Z; r_mmap : answer loc; r_pipe : answer (Z * Z); r_fake : bool; r_real : bool;
  r_low : ttl_answers; r_vmsplice : answer nat; r_splice : answer nat; r_now : bool; r_normal : ttl_answers }.

(** [((size_t)fake_len + page_size - 1) & ~((size_t)page_size - 1)] *)
Definition round_to_pages (len page_size : Z) : Z :=
  Z.land (u64 (len + page_size - 1)) (u64 (Z.lnot (u64 (page_size - 1)))).

Definition nativeSendFakeThenSwap (how : queueing) (r : answers) (fake real : option bytes) (low_ttl normal_ttl : Z)
    : M world Z :=
  match fake, real with
  | Some fake, Some real =>
      let fake_len := Z.of_nat (length fake) in
      if decide (fake_len <= 0 \/ fake_len ≠ Z.of_nat (length real)) then mret (- EINVAL) else
      let page_size := if decide (r_page_size r <= 0) then 4096 else r_page_size r in
      buf ← mmap (r_mmap r) (round_to_pages fake_len page_size);
      match buf with
      | None => e ← get errno; mret (- e)
      | Some buf =>
      p ← do_pipe (r_pipe r);
      match p with
      | None => e ← get errno; munmap buf;; mret (- e)
      | Some (p0, p1) =>
      fake_ptr ← get_elements FAKE (r_fake r) fake;
      real_ptr ← get_elements REAL (r_real r) real;
      match fake_ptr, real_ptr with
      | Some fake_ptr, Some real_ptr =>
          memcpy buf fake_ptr;;
          set_ttl_both (r_low r) low_ttl;;
          vsp ← vmsplice (r_vmsplice r) buf (length fake);
          if decide (vsp ≠ fake_len) then
            e ← get errno;
            set_ttl_both (r_normal r) normal_ttl;;
            release_elements FAKE;; release_elements REAL;;
            close p0;; close p1;; munmap buf;;
            mret (if decide (vsp < 0) then - e else - EIO)
          else
          spliced ← splice how (r_now r) (r_splice r) (length fake);
          if decide (spliced < 0) then
            e ← get errno;
            set_ttl_both (r_normal r) normal_ttl;;
            release_elements FAKE;; release_elements REAL;;
            close p0;; close p1;; munmap buf;;
            mret (- e)
          else
          set_ttl_both (r_normal r) normal_ttl;;
          memcpy buf real_ptr;;
          release_elements FAKE;; release_elements REAL;;
          close p0;; close p1;; munmap buf;;
          mret spliced
      | _, _ =>
          mwhen (match fake_ptr with Some _ => true | None => false end) (release_elements FAKE);;
          mwhen (match real_ptr with Some _ => true | None => false end) (release_elements REAL);;
          close p0;; close p1;; munmap buf;;
          mret (- ENOMEM)
      end
      end
      end
  | _, _ => mret (- EINVAL)
  end.

End SocketOps.
