(* ===== verification/SocketOpsProofs.v ===== *)
(** * Socket primitives: proofs *)

From S2P Require Import Prelude SocketOps.

Module SocketOpsProofs.
Import SocketOps.

(** ** Rounding to pages *)

Lemma round_to_pages_spec len k : 0 < len < 2 ^ 31 -> 0 <= k <= 30 ->
  round_to_pages len (2 ^ k) = (len + 2 ^ k - 1) / 2 ^ k * 2 ^ k.
Proof.
  intros Hl Hk. pose proof (Z.pow_le_mono_r 2 k 30 ltac:(lia) ltac:(lia)). pose proof (Z.pow_pos_nonneg 2 k ltac:(lia) ltac:(lia)).
  unfold round_to_pages, u64. rewrite (Z.mod_small (len + _ - 1)), (Z.mod_small (2 ^ k - 1)) by lia.
  rewrite <- Z.land_ones by lia. rewrite Z.land_assoc, (Z.land_comm _ (Z.ones 64)), Z.land_assoc.
  rewrite (Z.land_comm (Z.ones 64)), (Z.land_ones (len + _ - 1)) by lia. rewrite Z.mod_small by lia.
  rewrite <- Z.ldiff_land. replace (2 ^ k - 1) with (Z.ones k) by (rewrite Z.ones_equiv; lia).
  rewrite Z.ldiff_ones_r, Z.shiftl_mul_pow2, Z.shiftr_div_pow2 by lia. done.
Qed.

Lemma round_to_pages_bounds len k : 0 < len < 2 ^ 31 -> 0 <= k <= 30 ->
  len <= round_to_pages len (2 ^ k) < len + 2 ^ k.
Proof.
  intros Hl Hk. rewrite round_to_pages_spec by done. pose proof (Z.pow_pos_nonneg 2 k ltac:(lia) ltac:(lia)).
  pose proof (Z.div_mod (len + 2 ^ k - 1) (2 ^ k) ltac:(lia)). pose proof (Z.mod_pos_bound (len + 2 ^ k - 1) (2 ^ k) ltac:(lia)). lia.
Qed.

(** ** The calls *)

Definition done_for (a : answer unit) : bool := match a with Ok _ => true | Err _ => false end.

(** The options are set where the call succeeds; nothing else changes but errno. *)
Definition with_ttl (a : ttl_answers) (ttl : Z) (w w' : world) : Prop :=
  exists e, w' = mk_world e (pages w) (mapped w) (fds w) (pipe w) (pinned w)
    (if done_for (a_v4 a) then ttl else ttl4 w) (if done_for (a_v6 a) then ttl else ttl6 w) (maxseg w) (queue w) (wire w).

Lemma wp_set_ttl_both a ttl w (Q : Z -> world -> Prop) :
  (forall r w', with_ttl a ttl w w' -> Q r w') -> wp (set_ttl_both a ttl) w Q.
Proof.
  intros HQ. destruct a as [[[]|e4] [[]|e6]]; unfold wp; cbn; apply HQ; eexists; reflexivity.
Qed.

Lemma rd_take v n : (n <= length v)%nat -> rd v 0 (Z.of_nat n) = Some (take n v).
Proof. intros H. unfold rd. rewrite decide_True by lia. by rewrite Nat2Z.id. Qed.

Lemma wr_front (m v : bytes) : (length v <= length m)%nat -> wr m 0 v = Some (v ++ drop (length v) m).
Proof. intros H. unfold wr. by rewrite decide_True by lia. Qed.

Lemma wp_memcpy l v b w (Q : unit -> world -> Prop) :
  l ∈ mapped w -> pages w !! l = Some b -> (length v <= length b)%nat ->
  Q tt (set_pages (<[ l := v ++ drop (length v) b ]> (pages w)) (mapped w) w) -> wp (memcpy l v) w Q.
Proof.
  intros Hm Hb Hl HQ. unfold memcpy. eapply wp_put; [|exact HQ].
  rewrite decide_True by done. rewrite Hb. cbn. rewrite wr_front by done. done.
Qed.

(** The resources of the function on top of those the process had. *)
Record holding (w0 : world) (buf : loc) (p0 p1 : Z) (w : world) : Prop := {
  hd_mapped : mapped w = {[ buf ]} ∪ mapped w0;
  hd_fds : fds w = {[ p0; p1 ]} ∪ fds w0;
  hd_pinned : pinned w = {[ FAKE; REAL ]} ∪ pinned w0 }.

(** The function's resources are new ones. *)
Record fresh_for (w0 : world) (buf : loc) (p0 p1 : Z) : Prop := {
  ff_mapped : buf ∉ mapped w0; ff_pages : pages w0 !! buf = None;
  ff_p0 : p0 ∉ fds w0; ff_p1 : p1 ∉ fds w0; ff_pipe : p0 ≠ p1;
  ff_fake : FAKE ∉ pinned w0; ff_real : REAL ∉ pinned w0 }.

(** What the process keeps. *)
Definition same_resources (w0 w : world) : Prop := mapped w = mapped w0 ∧ fds w = fds w0 ∧ pinned w = pinned w0.
Definition same_socket (w0 w : world) : Prop :=
  queue w = queue w0 ∧ wire w = wire w0 ∧ pages w = pages w0 ∧ maxseg w = maxseg w0.

Lemma wp_release a w (Q : unit -> world -> Prop) :
  a ∈ pinned w -> Q tt (set_pinned (pinned w ∖ {[ a ]}) w) -> wp (release_elements a) w Q.
Proof. intros Ha HQ. eapply wp_put; [|exact HQ]. cbn. by rewrite decide_True. Qed.

Lemma wp_close f w (Q : unit -> world -> Prop) :
  f ∈ fds w -> Q tt (set_fds (fds w ∖ {[ f ]}) (pipe w) w) -> wp (close f) w Q.
Proof. intros Hf HQ. eapply wp_put; [|exact HQ]. cbn. by rewrite decide_True. Qed.

Lemma wp_munmap l w (Q : unit -> world -> Prop) :
  l ∈ mapped w -> Q tt (set_pages (pages w) (mapped w ∖ {[ l ]}) w) -> wp (munmap l) w Q.
Proof. intros Hl HQ. eapply wp_put; [|exact HQ]. cbn. by rewrite decide_True. Qed.

(** The end that every path of the function has. *)
Lemma wp_unwind w0 buf p0 p1 (v : Z) w (Q : Z -> world -> Prop) :
  fresh_for w0 buf p0 p1 -> mapped w = {[ buf ]} ∪ mapped w0 -> fds w = {[ p0; p1 ]} ∪ fds w0 ->
  Q v (set_pages (pages w) (mapped w0) (set_fds (fds w0) (pipe w) w)) ->
  wp (close p0;; close p1;; munmap buf;; mret v) w Q.
Proof.
  intros [] Hm Hf HQ. apply wp_bind, wp_close; [rewrite Hf; set_solver|]. apply wp_bind, wp_close; [cbn; rewrite Hf; set_solver|].
  apply wp_bind, wp_munmap; [cbn; rewrite Hm; set_solver|]. apply wp_ret. cbn in *.
  assert (mapped w ∖ {[ buf ]} = mapped w0) as -> by (rewrite Hm; set_solver).
  assert (fds w ∖ {[ p0 ]} ∖ {[ p1 ]} = fds w0) as -> by (rewrite Hf; set_solver). exact HQ.
Qed.

Lemma wp_cleanup w0 buf p0 p1 (v : Z) w (Q : Z -> world -> Prop) :
  fresh_for w0 buf p0 p1 -> holding w0 buf p0 p1 w ->
  Q v (set_pages (pages w) (mapped w0) (set_fds (fds w0) (pipe w) (set_pinned (pinned w0) w))) ->
  wp (release_elements FAKE;; release_elements REAL;; close p0;; close p1;; munmap buf;; mret v) w Q.
Proof.
  intros Hff [Hm Hf Hp] HQ. pose proof Hff as [].
  apply wp_bind, wp_release; [rewrite Hp; set_solver|]. apply wp_bind, wp_release; [cbn; rewrite Hp; set_solver|].
  eapply wp_unwind; [exact Hff | done | done |]. cbn in *.
  assert (pinned w ∖ {[ FAKE ]} ∖ {[ REAL ]} = pinned w0) as -> by (rewrite Hp; set_solver). exact HQ.
Qed.

(** ** The send *)

(** What the environment gives is new, and an errno is positive.  Pages have a size that is
    a power of two; an unknown size is taken to be 4096. *)
Record answers_ok (r : answers) (w : world) : Prop := {
  ao_page : r_page_size r <= 0 \/ exists k, 0 <= k <= 30 ∧ r_page_size r = 2 ^ k;
  ao_mmap : match r_mmap r with Ok l => l ∉ mapped w ∧ pages w !! l = None | Err e => 0 < e end;
  ao_pipe : match r_pipe r with Ok (a, b) => a ∉ fds w ∧ b ∉ fds w ∧ a ≠ b | Err e => 0 < e end;
  ao_vmsplice : match r_vmsplice r with Ok _ => True | Err e => 0 < e end;
  ao_splice : match r_splice r with Ok _ => True | Err e => 0 < e end;
  ao_pinned : FAKE ∉ pinned w ∧ REAL ∉ pinned w }.

(** The time to live of one family after the call: as it was, or as it should be, unless
    the call that restores it failed. *)
Definition restored (a : answer unit) (before normal after : Z) : Prop :=
  done_for a = true -> after = before \/ after = normal.

Record unwound (r : answers) (normal_ttl : Z) (w0 w : world) : Prop := {
  uw_resources : same_resources w0 w;
  uw_ttl4 : restored (a_v4 (r_normal r)) (ttl4 w0) normal_ttl (ttl4 w);
  uw_ttl6 : restored (a_v6 (r_normal r)) (ttl6 w0) normal_ttl (ttl6 w) }.

Definition kept (w0 w : world) : Prop := queue w = queue w0 ∧ wire w = wire w0 ∧ maxseg w = maxseg w0
  ∧ forall l, pages w0 !! l = None \/ pages w !! l = pages w0 !! l.

(** The queue and the wire after [n] bytes were queued. *)
Definition queued (how : queueing) (r : answers) (fake real : bytes) (low_ttl : Z) (n : nat) (w0 w : world) : Prop :=
  (n <= length fake)%nat
  ∧ (exists l s, pages w0 !! l = None ∧ queue w = queue w0 ++ [s]
      ∧ contents (pages w) s = Some (take n (match how with ByReference => real | ByCopy => fake end)))
  ∧ (forall l, pages w0 !! l = None \/ pages w !! l = pages w0 !! l)
  ∧ wire w = if r_now r then wire w0 ++ [(if done_for (a_v4 (r_low r)) then low_ttl else ttl4 w0,
                                         if done_for (a_v6 (r_low r)) then low_ttl else ttl6 w0, take n fake)] else wire w0.

(** The part between the two memcpys, from the state where everything is held. *)
Lemma wp_cleanup_ttl r normal_ttl w0 buf p0 p1 v w (Q : Z -> world -> Prop) :
  fresh_for w0 buf p0 p1 -> holding w0 buf p0 p1 w ->
  (forall w', unwound r normal_ttl w0 w' -> queue w' = queue w -> wire w' = wire w -> maxseg w' = maxseg w ->
     pages w' = pages w -> (done_for (a_v4 (r_normal r)) = true -> ttl4 w' = normal_ttl) ->
     (done_for (a_v6 (r_normal r)) = true -> ttl6 w' = normal_ttl) -> Q v w') ->
  wp (set_ttl_both (r_normal r) normal_ttl;; release_elements FAKE;; release_elements REAL;;
      close p0;; close p1;; munmap buf;; mret v) w Q.
Proof.
  intros Hff Hh HQ. apply wp_bind, wp_set_ttl_both. intros _ w1 [e ->].
  eapply wp_cleanup; [exact Hff | by destruct Hh; split |]. destruct Hh. apply HQ; cbn; try done.
  - split; [done| |]; cbn; unfold restored; intros ->; by right.
  - by intros ->.
  - by intros ->.
Qed.

Definition sent (how : queueing) (r : answers) (fake real : bytes) (low_ttl normal_ttl : Z) (w0 : world) (v : Z) (w : world) : Prop :=
  unwound r normal_ttl w0 w
  ∧ ((v < 0 ∧ kept w0 w)
     \/ (0 <= v ∧ queued how r fake real low_ttl (Z.to_nat v) w0 w
        ∧ (done_for (a_v4 (r_normal r)) = true -> ttl4 w = normal_ttl)
        ∧ (done_for (a_v6 (r_normal r)) = true -> ttl6 w = normal_ttl))).

Lemma kept_insert (w0 : world) l v : pages w0 !! l = None ->
  forall l', pages w0 !! l' = None \/ <[ l := v ]> (pages w0) !! l' = pages w0 !! l'.
Proof. intros Hl l'. destruct (decide (l' = l)) as [->|]; [by left | right; by rewrite lookup_insert_ne]. Qed.

(** From the call of vmsplice on; the pages hold the fake. *)
Lemma wp_gift how r (fake real rest : bytes) low_ttl normal_ttl w0 buf p0 p1 w :
  answers_ok r w0 -> fresh_for w0 buf p0 p1 -> holding w0 buf p0 p1 w -> length real = length fake -> (0 < length fake)%nat ->
  pages w = <[ buf := fake ++ rest ]> (pages w0) -> queue w = queue w0 -> wire w = wire w0 -> maxseg w = maxseg w0 ->
  ttl4 w = (if done_for (a_v4 (r_low r)) then low_ttl else ttl4 w0) ->
  ttl6 w = (if done_for (a_v6 (r_low r)) then low_ttl else ttl6 w0) ->
  wp (vsp ← vmsplice (r_vmsplice r) buf (length fake);
      if decide (vsp ≠ Z.of_nat (length fake)) then
        e ← get errno;
        set_ttl_both (r_normal r) normal_ttl;;
        release_elements FAKE;; release_elements REAL;;
        close p0;; close p1;; munmap buf;;
        mret (if decide (vsp < 0) then - e else - EIO)
      else
      spliced ← splice how (r_now r) (r_splice r) (length fake);
      if decide (spliced < 0) then
        e ← get errno;
        set_ttl_both (r_normal r) normal_ttl;;
        release_elements FAKE;; release_elements REAL;;
        close p0;; close p1;; munmap buf;;
        mret (- e)
      else
      set_ttl_both (r_normal r) normal_ttl;;
      memcpy buf real;;
      release_elements FAKE;; release_elements REAL;;
      close p0;; close p1;; munmap buf;;
      mret spliced) w (sent how r fake real low_ttl normal_ttl w0).
Proof.
  intros [_ _ _ Hv Hs _] Hff Hh Hlen H0 Hpg Hq Hw Hms H4 H6. pose proof (ff_pages _ _ _ _ Hff) as Hnew.
  assert (forall e w1, 0 < e -> holding w0 buf p0 p1 w1 -> pages w1 = pages w -> queue w1 = queue w0 -> wire w1 = wire w0 ->
    maxseg w1 = maxseg w0 ->
    wp (set_ttl_both (r_normal r) normal_ttl;; release_elements FAKE;; release_elements REAL;;
      close p0;; close p1;; munmap buf;; mret (- e)) w1 (sent how r fake real low_ttl normal_ttl w0)) as Hfail.
  { intros e w1 He Hh1 Hpg1 Hq1 Hw1 Hms1. eapply wp_cleanup_ttl; [exact Hff | exact Hh1|].
    intros w' Hu Hq' Hw' Hm' Hp' _ _. split; [done|]. left. split; [lia|]. split_and!; [congruence..|].
    rewrite Hp', Hpg1, Hpg. by apply kept_insert. }
  assert (forall n, (n <= length fake)%nat -> rd (fake ++ rest) 0 (Z.of_nat n) = Some (take n fake)) as Hrd.
  { intros n Hn. rewrite rd_take by (rewrite length_app; lia). by rewrite take_app_le. }
  pose proof Hh as Hh'. destruct Hh' as [Hm _ _].
  destruct (r_vmsplice r) as [k|e]; cbn [vmsplice].
  2: { apply wp_bind, wp_bind. eapply wp_put; [done|]. apply wp_ret. rewrite decide_True by lia.
       apply wp_bind. eapply wp_get; [done|]. rewrite decide_True by lia. apply Hfail; try done. by destruct Hh. }
  apply wp_bind, wp_bind. eapply wp_put.
  { rewrite decide_True by set_solver. rewrite Hpg, lookup_insert_eq. cbn. rewrite Hrd by done. done. }
  apply wp_ret. case_decide as Hk.
  { apply wp_bind. eapply wp_get; [done|]. rewrite decide_False by lia. apply (Hfail EIO); try done. by destruct Hh. }
  replace (Nat.min k (length fake)) with (length fake) by lia. clear Hk k.
  destruct (r_splice r) as [k|e]; cbn [splice].
  2: { apply wp_bind, wp_bind. eapply wp_put; [done|]. apply wp_ret. rewrite decide_True by lia.
       apply wp_bind. eapply wp_get; [done|]. apply Hfail; try done. by destruct Hh. }
  apply wp_bind, wp_bind. eapply wp_get; [done|]. cbn.
  apply wp_bind. eapply wp_get; [done|]. apply wp_bind. eapply wp_get.
  { cbn. rewrite Hpg, lookup_insert_eq. cbn. apply Hrd. lia. }
  apply wp_bind. eapply wp_put; [done|]. apply wp_ret. rewrite decide_False by lia.
  set (n := Nat.min k (Nat.min (length fake) (length fake))). assert (n <= length fake)%nat as Hn by lia. clearbody n.
  apply wp_bind, wp_set_ttl_both. intros _ w1 [e ->].
  apply wp_bind. eapply wp_memcpy; [cbn; set_solver | cbn; rewrite Hpg; apply lookup_insert_eq | rewrite length_app; lia |].
  eapply wp_cleanup; [exact Hff | by destruct Hh; split |]. cbn. rewrite Hpg, insert_insert_eq, Hlen, drop_app_length.
  destruct Hh. split; [|right; split; [lia|]; split].
  - split; [done| |]; cbn; unfold restored; intros ->; by right.
  - split_and!; [lia | | by apply kept_insert |].
    + eexists buf, _. split; [done|]. cbn. rewrite Hq, Nat2Z.id. split; [done|].
      destruct how; [|done]. cbn. rewrite lookup_insert_eq. cbn. rewrite rd_take by (rewrite length_app; lia).
      by rewrite take_app_le by lia.
    + cbn. rewrite Hw, H4, H6, Nat2Z.id. done.
  - cbn. split; by intros ->.
Qed.

Lemma alloc_size_ok r w (n : nat) : answers_ok r w -> (0 < n)%nat -> Z.of_nat n < 2 ^ 31 ->
  Z.of_nat n <= round_to_pages (Z.of_nat n) (if decide (r_page_size r <= 0) then 4096 else r_page_size r).
Proof.
  intros [Hp _ _ _ _ _] H0 Hn. case_decide; [apply (round_to_pages_bounds _ 12); lia|].
  destruct Hp as [?|(k & Hk & ->)]; [lia|]. apply round_to_pages_bounds; lia.
Qed.

Lemma unwound_early r normal_ttl w0 w : same_resources w0 w -> ttl4 w = ttl4 w0 -> ttl6 w = ttl6 w0 -> unwound r normal_ttl w0 w.
Proof. intros Hs H4 H6. split; [done | unfold restored; auto..]. Qed.

Lemma wp_send how r fake real low_ttl normal_ttl w0 :
  answers_ok r w0 -> Z.of_nat (length fake) < 2 ^ 31 ->
  wp (nativeSendFakeThenSwap how r (Some fake) (Some real) low_ttl normal_ttl) w0
    (sent how r fake real low_ttl normal_ttl w0).
Proof.
  intros Ha Hsz. pose proof Ha as [_ Hmm Hpp _ _ [Hpf Hpr]]. cbn [nativeSendFakeThenSwap].
  assert (forall e w, 0 < e -> same_resources w0 w -> ttl4 w = ttl4 w0 -> ttl6 w = ttl6 w0 -> kept w0 w ->
    sent how r fake real low_ttl normal_ttl w0 (- e) w) as Hearly.
  { intros e w He Hr H4 H6 Hk. split; [by apply unwound_early|]. left. split; [lia | done]. }
  case_decide as Hbad; [apply wp_ret, (Hearly EINVAL); try done; split_and!; auto|].
  assert (length real = length fake ∧ (0 < length fake)%nat) as [Hlen H0] by lia. clear Hbad.
  pose proof (alloc_size_ok r w0 (length fake) Ha H0 Hsz) as Hal.
  set (sz := round_to_pages _ _) in *. clearbody sz. cbv zeta.
  destruct (r_mmap r) as [buf|e]; cbn [mmap].
  2: { apply wp_bind, wp_bind. eapply wp_put; [done|]. apply wp_ret. apply wp_bind. eapply wp_get; [done|].
       apply wp_ret, Hearly; try done. split_and!; auto. }
  destruct Hmm as [Hnm Hnp]. apply wp_bind, wp_bind. eapply wp_put; [done|]. apply wp_ret.
  pose proof (kept_insert w0 buf) as Hki.
  destruct (r_pipe r) as [[p0 p1]|e]; cbn [do_pipe].
  2: { apply wp_bind, wp_bind. eapply wp_put; [done|]. apply wp_ret. apply wp_bind. eapply wp_get; [done|].
       apply wp_bind, wp_munmap; [cbn; set_solver|]. apply wp_ret, Hearly; try done.
       - split_and!; [cbn; set_solver | done..].
       - split_and!; [done.. | cbn; auto]. }
  destruct Hpp as (Hp0 & Hp1 & Hpne).
  assert (fresh_for w0 buf p0 p1) as Hff by by split.
  apply wp_bind, wp_bind. eapply wp_put; [done|]. apply wp_ret. unfold get_elements.
  destruct (r_fake r).
  - apply wp_bind, wp_bind. eapply wp_put; [done|]. apply wp_ret. destruct (r_real r).
    + apply wp_bind, wp_bind. eapply wp_put; [done|]. apply wp_ret.
      apply wp_bind. eapply wp_memcpy; [cbn; set_solver | cbn; apply lookup_insert_eq | rewrite length_replicate; lia |].
      apply wp_bind, wp_set_ttl_both. intros _ w1 [e ->].
      eapply (wp_gift how r fake real (drop (length fake) (replicate (Z.to_nat sz) 0))); try done.
      * split; cbn; [set_solver.. | unfold FAKE, REAL; set_solver].
      * cbn. by rewrite insert_insert_eq.
    + apply wp_bind, wp_ret. cbn [mwhen].
      apply wp_bind, wp_release; [cbn; set_solver|]. apply wp_bind, wp_ret.
      eapply wp_unwind; [exact Hff | done.. |]. apply (Hearly ENOMEM); try done.
      * split_and!; cbn; [done..|]. set_solver.
      * split_and!; [done.. | cbn; auto].
  - apply wp_bind, wp_ret. destruct (r_real r).
    + apply wp_bind, wp_bind. eapply wp_put; [done|]. apply wp_ret. cbn [mwhen]. apply wp_bind, wp_ret.
      apply wp_bind, wp_release; [cbn; set_solver|].
      eapply wp_unwind; [exact Hff | done.. |]. apply (Hearly ENOMEM); try done.
      * split_and!; cbn; [done..|]. set_solver.
      * split_and!; [done.. | cbn; auto].
    + apply wp_bind, wp_ret. cbn [mwhen]. apply wp_bind, wp_ret. apply wp_bind, wp_ret.
      eapply wp_unwind; [exact Hff | done.. |]. apply (Hearly ENOMEM); try done.
      * split_and!; [done.. | cbn; auto].
Qed.

(** What the queue's pieces hold does not change when the pages they refer to are kept. *)
Lemma queue_contents_app p q s v v' : queue_contents p q = Some v -> contents p s = Some v' ->
  queue_contents p (q ++ [s]) = Some (v ++ v').
Proof.
  revert v. induction q as [|x q IH]; intros v; cbn.
  - intros [= <-] ->. cbn. by rewrite app_nil_r.
  - destruct (contents p x) as [u|]; [|done]. cbn. destruct (queue_contents p q) as [us|]; [|done]. cbn.
    intros [= <-] Hs. rewrite (IH us eq_refl Hs). cbn. by rewrite app_assoc.
Qed.

Lemma queue_contents_kept (p p' : gmap loc bytes) q v : (forall l, p !! l = None \/ p' !! l = p !! l) ->
  queue_contents p q = Some v -> queue_contents p' q = Some v.
Proof.
  intros Hp. revert v. induction q as [|s q IH]; intros v; cbn; [done|].
  destruct (contents p s) as [u|] eqn:Hs; [|done]. cbn.
  destruct (queue_contents p q) as [us|]; [|done]. cbn. intros [= <-]. rewrite (IH us eq_refl).
  assert (contents p' s = Some u) as ->; [|done]. destruct s as [l n|]; [|done]. cbn in *.
  destruct (Hp l) as [Hl | ->]; [by rewrite Hl in Hs | done].
Qed.

(** ** Properties *)

(** C21: Whatever the system calls answer, the send touches no memory it does not have,
    reports an error or how many bytes were queued, and leaves nothing behind: the mapping,
    both ends of the pipe and both arrays are released on every path, and the time to live
    is the normal one again, or was never changed, unless the call that restores it
    fails.  After an error the socket's queue is what it was. *)
Theorem nativeSendFakeThenSwap_unwinds how r fake real low_ttl normal_ttl w0 :
  answers_ok r w0 -> (forall f, fake = Some f -> Z.of_nat (length f) < 2 ^ 31) ->
  exists v w, nativeSendFakeThenSwap how r fake real low_ttl normal_ttl w0 = Some (v, w)
    ∧ same_resources w0 w
    ∧ restored (a_v4 (r_normal r)) (ttl4 w0) normal_ttl (ttl4 w)
    ∧ restored (a_v6 (r_normal r)) (ttl6 w0) normal_ttl (ttl6 w)
    ∧ (v < 0 -> queue w = queue w0 ∧ wire w = wire w0 ∧ forall old, retransmit w0 = Some old -> retransmit w = Some old).
Proof.
  intros Ha Hsz. assert (exists v w, nativeSendFakeThenSwap how r fake real low_ttl normal_ttl w0 = Some (v, w)
    ∧ unwound r normal_ttl w0 w ∧ (v < 0 -> kept w0 w)) as (v & w & He & [Hr H4 H6] & Hk).
  { destruct fake as [fake|]; [destruct real as [real|]|].
    - destruct (wp_elim _ _ _ (wp_send how r fake real low_ttl normal_ttl w0 Ha (Hsz _ eq_refl))) as (v & w & He & Hu & Hs).
      exists v, w. split_and!; [done..|]. destruct Hs as [[_ Hk]|[Hv _]]; [done | intros; lia].
    - exists (- EINVAL), w0. split_and!; [done | by apply unwound_early | intros _; split_and!; auto].
    - exists (- EINVAL), w0. split_and!; [done | by apply unwound_early | intros _; split_and!; auto]. }
  exists v, w. split_and!; [done..|]. intros Hv. destruct (Hk Hv) as (Hq & Hw & _ & Hpg). split_and!; [done..|].
  intros old Hold. unfold retransmit. rewrite Hq. by eapply queue_contents_kept.
Qed.

(** C22: The swap.  When the send reports n bytes, n bytes were queued after those that were
    there; if they went out at once they went out as the fake, with the low time to live
    where the system took it; and what is sent again from now on is the first n bytes of the
    real data, provided the kernel queues gifts by reference - if it copies them, the fake
    is sent again. *)
Theorem nativeSendFakeThenSwap_swaps how r fake real low_ttl normal_ttl w0 v w old :
  answers_ok r w0 -> Z.of_nat (length fake) < 2 ^ 31 ->
  nativeSendFakeThenSwap how r (Some fake) (Some real) low_ttl normal_ttl w0 = Some (v, w) -> 0 <= v ->
  retransmit w0 = Some old ->
  let n := Z.to_nat v in
  (n <= length fake)%nat
  ∧ retransmit w = Some (old ++ take n (match how with ByReference => real | ByCopy => fake end))
  ∧ (r_now r = true -> exists t4 t6, wire w = wire w0 ++ [(t4, t6, take n fake)]
      ∧ (done_for (a_v4 (r_low r)) = true -> t4 = low_ttl) ∧ (done_for (a_v6 (r_low r)) = true -> t6 = low_ttl))
  ∧ (done_for (a_v4 (r_normal r)) = true -> ttl4 w = normal_ttl)
  ∧ (done_for (a_v6 (r_normal r)) = true -> ttl6 w = normal_ttl).
Proof.
  intros Ha Hsz He Hv Hold n.
  destruct (wp_elim _ _ _ (wp_send how r fake real low_ttl normal_ttl w0 Ha Hsz)) as (v' & w' & He' & _ & Hs).
  rewrite He in He'. injection He' as <- <-. destruct Hs as [[? _]|(_ & (Hn & (l & s & _ & Hq & Hc) & Hpg & Hw) & H4 & H6)]; [lia|].
  split_and!; [done | | | done..].
  - unfold retransmit. rewrite Hq. apply queue_contents_app; [by eapply queue_contents_kept | done].
  - intros Hnow. rewrite Hnow in Hw. rewrite Hw. eexists _, _. split_and!; [done | by intros -> | by intros ->].
Qed.

(** ** Witnesses *)

Definition example_world : world := mk_world 0 ∅ ∅ {[ 3 ]} None ∅ 64 64 1400 [Copied [1; 2]] [].
Definition example_ttl : ttl_answers := mk_ttl (Ok tt) (Err 92).
Definition example_answers : answers :=
  mk_answers 4096 (Ok 1%positive) (Ok (4, 5)) true true example_ttl (Ok 3%nat) (Ok 3%nat) true example_ttl.

Lemma example_answers_ok : answers_ok example_answers example_world.
Proof. split; cbn; try done; [right; by exists 12 | set_solver..]. Qed.

Lemma nativeSendFakeThenSwap_unwinds_witness : exists v w,
  nativeSendFakeThenSwap ByReference example_answers (Some [10; 11; 12]) (Some [20; 21; 22]) 1 64 example_world = Some (v, w)
  ∧ same_resources example_world w ∧ v = 3.
Proof.
  destruct (nativeSendFakeThenSwap_unwinds ByReference example_answers (Some [10; 11; 12]) (Some [20; 21; 22]) 1 64 example_world)
    as (v & w & He & Hr & _).
  - exact example_answers_ok.
  - intros f [= <-]. vm_compute. reflexivity.
  - exists v, w. split; [exact He|]. split; [exact Hr|]. vm_compute in He. congruence.
Defined.

Definition example_sent : world :=
  match nativeSendFakeThenSwap ByReference example_answers (Some [10; 11; 12]) (Some [20; 21; 22]) 1 64 example_world with
  | Some (_, w) => w | None => example_world end.

Lemma nativeSendFakeThenSwap_swaps_witness :
  retransmit example_sent = Some [1; 2; 20; 21; 22] ∧ wire example_sent = [(1, 64, [10; 11; 12])].
Proof.
  destruct (nativeSendFakeThenSwap_swaps ByReference example_answers [10; 11; 12] [20; 21; 22] 1 64 example_world
    3 example_sent [1; 2]) as (_ & H & _).
  - exact example_answers_ok.
  - vm_compute. reflexivity.
  - vm_compute. reflexivity.
  - discriminate.
  - vm_compute. reflexivity.
  - split; [exact H | vm_compute; reflexivity].
Defined.

End SocketOpsProofs.
