(* ===== verification/TunnelJni.v ===== *)
(** * The tunnel's JNI wrapper: src/app/src/main/cpp/hev-socks5-tunnel/hev_jni.c

    Two threads: the one that calls the native methods, and the one that runs the tunnel.
    They share the static variables without a lock, so the model interleaves their steps: a
    step makes at most one access to what the threads share.  The methods are called by
    one thread at a time. *)

From S2P Require Import Prelude TunnelPacket.

Module TunnelJni.

(** ** State *)

(** Where the caller is: outside, in [nativeStart] after the check of [tunnel_running], after
    the copy of the configuration, before [pthread_create]; in [nativeStop] in the loop of
    [hev_socks5_tunnel_stop], before its write, and in [pthread_join]. *)
Inductive caller := Idle | Starting | Copied | Marked | Stopping | Writing | Joining.

(** Where the tunnel's thread is: not there, before it has read [config_content], parsing the
    text, before the event sockets exist, between their creation and their end, behind
    [hev_socks5_tunnel_main_from_str], gone. *)
Inductive worker := NoThread | Args | Parsing (l : loc) | Initialising | Up | Returned | Exited.
#[export] Instance worker_eq : EqDecision worker.
Proof. solve_decision. Defined.
#[export] Instance caller_eq : EqDecision caller.
Proof. solve_decision. Defined.

(** [strings]: the copies that are allocated; [stop_byte]: a byte waits in the event socket;
    [joinable]: the threads that were created and not joined. *)
Record state := mk_state {
  tunnel_running : bool; config_content : ptr; tun_fd_global : Z;
  strings : gset loc; java : caller; thread : worker; stop_byte : bool; joinable : nat }.

Definition initial : state := mk_state false None (-1) ∅ Idle NoThread false 0.

Definition at_java j s := mk_state (tunnel_running s) (config_content s) (tun_fd_global s) (strings s) j (thread s) (stop_byte s) (joinable s).
Definition at_thread t s := mk_state (tunnel_running s) (config_content s) (tun_fd_global s) (strings s) (java s) t (stop_byte s) (joinable s).
Definition set_running v s := mk_state v (config_content s) (tun_fd_global s) (strings s) (java s) (thread s) (stop_byte s) (joinable s).
Definition set_config c m s := mk_state (tunnel_running s) c (tun_fd_global s) m (java s) (thread s) (stop_byte s) (joinable s).
Definition set_fd v s := mk_state (tunnel_running s) (config_content s) v (strings s) (java s) (thread s) (stop_byte s) (joinable s).
Definition set_byte v s := mk_state (tunnel_running s) (config_content s) (tun_fd_global s) (strings s) (java s) (thread s) v (joinable s).
Definition set_joinable v s := mk_state (tunnel_running s) (config_content s) (tun_fd_global s) (strings s) (java s) (thread s) (stop_byte s) v.

(** What a step comes to: it is not possible now, it goes wrong, or the next state. *)
Inductive outcome := Blocked | Crash | Next (s : state).

(** [if (config_content) free (config_content)], with [config_content = v] after it. *)
Definition free_config (s : state) (k : state -> outcome) : outcome :=
  match config_content s with
  | None => k s
  | Some l => if decide (l ∈ strings s) then k (set_config (Some l) (strings s ∖ {[ l ]}) s) else Crash
  end.
Definition clear_config (s : state) : state := set_config None (strings s) s.

(** The thread uses the tunnel's static variables. *)
Definition active (t : worker) : bool := match t with NoThread | Exited => false | _ => true end.

(** ** The native methods *)

(** [str]: whether the Java string can be had. *)
Definition start_check (str : bool) (s : state) : outcome :=
  match java s with
  | Idle => if tunnel_running s then Next s else if str then Next (at_java Starting s) else Next s
  | _ => Blocked
  end.

(** The old copy is freed and a new one made, if there is memory. *)
Definition start_copy (new : ptr) (s : state) : outcome :=
  match java s with
  | Starting =>
      free_config s (fun s =>
        match new with
        | None => Next (at_java Idle (clear_config s))
        | Some l => if decide (l ∈ strings s) then Blocked else Next (at_java Copied (set_config (Some l) ({[ l ]} ∪ strings s) s))
        end)
  | _ => Blocked
  end.

Definition start_mark (fd : Z) (s : state) : outcome :=
  match java s with
  | Copied => Next (at_java Marked (set_running true (set_fd fd s)))
  | _ => Blocked
  end.

(** A second thread in the tunnel's static variables is an error. *)
Definition start_create (ok : bool) (s : state) : outcome :=
  match java s with
  | Marked =>
      if ok then
        if active (thread s) then Crash
        else Next (at_java Idle (at_thread Args (set_joinable (S (joinable s)) s)))
      else free_config (set_running false s) (fun s => Next (at_java Idle (clear_config s)))
  | _ => Blocked
  end.

Definition stop_check (s : state) : outcome :=
  match java s with
  | Idle => if tunnel_running s then Next (at_java Stopping s) else Next s
  | _ => Blocked
  end.

(** [fd = READ_ONCE (event_fds[1])], until it is there. *)
Definition stop_poll (s : state) : outcome :=
  match java s with
  | Stopping => Next (if decide (thread s = Up) then at_java Writing s else s)
  | _ => Blocked
  end.

(** The write must succeed. *)
Definition stop_write (s : state) : outcome :=
  match java s with
  | Writing => if decide (thread s = Up) then Next (at_java Joining (set_byte true s)) else Crash
  | _ => Blocked
  end.

Definition stop_join (s : state) : outcome :=
  match java s, thread s with
  | Joining, Exited =>
      free_config (set_joinable (pred (joinable s)) (at_thread NoThread s)) (fun s =>
        Next (at_java Idle (set_fd (-1) (set_running false (clear_config s)))))
  | _, _ => Blocked
  end.

Definition nativeIsRunning (s : state) : bool := tunnel_running s.

Definition nativeSetRejectQuic (enabled : bool) (io : TunnelPacket.tunnel_io) : TunnelPacket.tunnel_io :=
  TunnelPacket.hev_socks5_tunnel_set_reject_quic (if enabled then 1 else 0) io.
Definition nativeSetRejectNonDnsUdp (enabled : bool) (io : TunnelPacket.tunnel_io) : TunnelPacket.tunnel_io :=
  TunnelPacket.hev_socks5_tunnel_set_reject_non_dns_udp (if enabled then 1 else 0) io.

Definition nativeGetStats (s : state) (io : TunnelPacket.tunnel_io) : Z * Z * Z * Z :=
  if tunnel_running s then TunnelPacket.hev_socks5_tunnel_stats io else (0, 0, 0, 0).

(** ** The tunnel's thread *)

(** [hev_socks5_tunnel_main_from_str (config_content, strlen (config_content), ...)] *)
Definition thread_args (s : state) : outcome :=
  match thread s with
  | Args =>
      match config_content s with
      | Some l => if decide (l ∈ strings s) then Next (at_thread (Parsing l) s) else Crash
      | None => Crash
      end
  | _ => Blocked
  end.

(** [ok]: the configuration is accepted. *)
Definition thread_parse (ok : bool) (s : state) : outcome :=
  match thread s with
  | Parsing l => if decide (l ∈ strings s) then Next (at_thread (if ok then Initialising else Returned) s) else Crash
  | _ => Blocked
  end.

(** [event_task_init] has made the sockets, or the initialisation fails before. *)
Definition thread_init (ok : bool) (s : state) : outcome :=
  match thread s with
  | Initialising => Next (at_thread (if ok then Up else Returned) s)
  | _ => Blocked
  end.

(** The tunnel ends when the byte arrives; the initialisation may also fail late.  The
    sockets are closed. *)
Definition thread_end (late : bool) (s : state) : outcome :=
  match thread s with
  | Up => if stop_byte s || late then Next (at_thread Returned (set_byte false s)) else Blocked
  | _ => Blocked
  end.

Definition thread_exit (s : state) : outcome :=
  match thread s with
  | Returned => Next (at_thread Exited (set_running false s))
  | _ => Blocked
  end.

(** ** Runs *)

Inductive label :=
  | StartCheck (str : bool) | StartCopy (new : ptr) | StartMark (fd : Z) | StartCreate (ok : bool)
  | StopCheck | StopPoll | StopWrite | StopJoin
  | ThreadArgs | ThreadParse (ok : bool) | ThreadInit (ok : bool) | ThreadEnd (late : bool) | ThreadExit.

Definition step (l : label) (s : state) : outcome :=
  match l with
  | StartCheck str => start_check str s
  | StartCopy new => start_copy new s
  | StartMark fd => start_mark fd s
  | StartCreate ok => start_create ok s
  | StopCheck => stop_check s
  | StopPoll => stop_poll s
  | StopWrite => stop_write s
  | StopJoin => stop_join s
  | ThreadArgs => thread_args s
  | ThreadParse ok => thread_parse ok s
  | ThreadInit ok => thread_init ok s
  | ThreadEnd late => thread_end late s
  | ThreadExit => thread_exit s
  end.

(** [steps ls s s']: the labels [ls] lead from [s] to [s']. *)
Inductive steps : list label -> state -> state -> Prop :=
  | steps_nil s : steps [] s s
  | steps_cons l ls s s1 s' : step l s = Next s1 -> steps ls s1 s' -> steps (l :: ls) s s'.

End TunnelJni.
