(* ===== verification/TunnelJniProofs.v ===== *)
(** * The tunnel's JNI wrapper: proofs *)

From S2P Require Import Prelude TunnelJni.

Module TunnelJniProofs.
Import TunnelJni.

(** ** The invariant *)

(** What the caller's place says about the rest. *)
Definition caller_inv (s : state) : Prop :=
  match java s with
  | Idle | Stopping => True
  | Starting => tunnel_running s = false
  | Copied => tunnel_running s = false ∧ config_content s ≠ None
  | Marked => tunnel_running s = true ∧ active (thread s) = false ∧ config_content s ≠ None
  | Writing => thread s = Up ∧ stop_byte s = false
  | Joining => (thread s = Up ∧ stop_byte s = true) \/ thread s = Returned \/ thread s = Exited
  end.

(** What the thread's place says about the configuration. *)
Definition worker_inv (s : state) : Prop :=
  match thread s with
  | Args => config_content s ≠ None
  | Parsing l => config_content s = Some l
  | _ => True
  end.

Record inv (s : state) : Prop := {
  iv_strings : strings s = match config_content s with Some l => {[ l ]} | None => ∅ end;
  iv_running : active (thread s) = true -> tunnel_running s = true;
  iv_caller : caller_inv s;
  iv_worker : worker_inv s;
  iv_byte : stop_byte s = true -> thread s = Up ∧ java s = Joining;
  iv_joinable : thread s ≠ NoThread -> (0 < joinable s)%nat }.

Lemma inv_initial : inv initial.
Proof. by split. Qed.

(** Only a failure of the initialisation after the event sockets are made is left out. *)
Definition timely (l : label) : Prop := l ≠ ThreadEnd true.

Lemma free_config_inv s k : strings s = match config_content s with Some l => {[ l ]} | None => ∅ end ->
  exists s', free_config s k = k s' ∧ s' = mk_state (tunnel_running s) (config_content s) (tun_fd_global s) ∅
    (java s) (thread s) (stop_byte s) (joinable s).
Proof.
  intros Hs. destruct s as [ru [l|] fd st ja th by' jo]; cbn in *; subst st; unfold free_config; cbn.
  - rewrite decide_True by set_solver. eexists. split; [reflexivity|]. unfold set_config. cbn. f_equal. set_solver.
  - eexists. split; [reflexivity|]. done.
Qed.

Lemma step_inv l s : timely l -> inv s -> step l s ≠ Crash ∧ forall s', step l s = Next s' -> inv s'.
Proof.
  intros Ht Hi. pose proof Hi as [Hst Hru Hca Hwo Hby Hjo].
  destruct l as [str|new|fd|ok| | | | | |ok|ok|late| ]; cbn [step].
  - unfold start_check. destruct (java s) eqn:Hj; try done. destruct (tunnel_running s) eqn:Hr; [by split; [|intros s' [= <-]]|].
    destruct str; [|by split; [|intros s' [= <-]]]. split; [done|]. intros s' [= <-]. destruct s. cbn in *. subst. split; cbn; try done.
    intros Hb. destruct (Hby Hb). congruence.
  - unfold start_copy. destruct (java s) eqn:Hj; try done. unfold caller_inv in Hca. rewrite Hj in Hca.
    destruct (free_config_inv s (fun s => match new with
      | None => Next (at_java Idle (clear_config s))
      | Some l => if decide (l ∈ strings s) then Blocked else Next (at_java Copied (set_config (Some l) ({[ l ]} ∪ strings s) s)) end) Hst)
      as (s1 & -> & ->). cbn.
    assert (active (thread s) = false) as Hact by (destruct (active (thread s)); [rewrite Hru in Hca by done; done | done]).
    assert (stop_byte s = false) as Hb0 by (destruct (stop_byte s); [destruct (Hby eq_refl); congruence | done]).
    destruct new as [l|].
    + rewrite decide_False by set_solver. split; [done|]. intros s' [= <-]. destruct s as [ru co gf st ja th by' jo]. cbn in *. subst.
      split; cbn; try done; [by rewrite union_empty_r_L | unfold worker_inv; cbn; by destruct th].
    + split; [done|]. intros s' [= <-]. destruct s as [ru co gf st ja th by' jo]. cbn in *. subst.
      split; cbn; try done. unfold worker_inv. cbn. by destruct th.
  - unfold start_mark. destruct (java s) eqn:Hj; try done. split; [done|]. intros s' [= <-].
    unfold caller_inv in Hca. rewrite Hj in Hca. destruct Hca as [Hr Hc].
    assert (active (thread s) = false) as Hact by (destruct (active (thread s)); [rewrite Hru in Hr by done; done | done]).
    destruct s as [ru co gf st ja th by' jo]. cbn in *. subst. split; cbn; try done. intros Hb. by destruct (Hby Hb).
  - unfold start_create. destruct (java s) eqn:Hj; try done. unfold caller_inv in Hca. rewrite Hj in Hca. destruct Hca as (Hr & Hact & Hc).
    assert (stop_byte s = false) as Hb0 by (destruct (stop_byte s); [destruct (Hby eq_refl); congruence | done]).
    destruct ok; [rewrite Hact; split; [done|]; intros s' [= <-]|].
    + destruct s as [ru co gf st ja th by' jo]. cbn in *. subst. split; cbn; try done. intros _. lia.
    + destruct (free_config_inv (set_running false s) (fun s => Next (at_java Idle (clear_config s))) Hst) as (s1 & -> & ->).
      split; [done|]. intros s' [= <-]. destruct s as [ru co gf st ja th by' jo]. cbn in *. subst.
      split; cbn; try done; [congruence | unfold worker_inv; cbn; by destruct th].
  - unfold stop_check. destruct (java s) eqn:Hj; try done. destruct (tunnel_running s) eqn:Hr; (split; [done|]); intros s' [= <-]; [|done].
    destruct s as [ru co gf st ja th by' jo]. cbn in *. subst. split; cbn; try done. intros Hb. by destruct (Hby Hb).
  - unfold stop_poll. destruct (java s) eqn:Hj; try done. split; [done|]. intros s' [= <-]. case_decide as Hup; [|done].
    destruct s as [ru co gf st ja th by' jo]. cbn in *. subst.
    assert (by' = false) as -> by (destruct by'; [by destruct (Hby eq_refl) | done]). by split.
  - unfold stop_write. destruct (java s) eqn:Hj; try done. unfold caller_inv in Hca. rewrite Hj in Hca. destruct Hca as [Hup Hb].
    rewrite decide_True by done. split; [done|]. intros s' [= <-]. destruct s as [ru co gf st ja th by' jo]. cbn in *. subst.
    split; cbn; try done. by left.
  - unfold stop_join. destruct (java s) eqn:Hj; try done. destruct (thread s) eqn:Hth; try done.
    destruct (free_config_inv (set_joinable (pred (joinable s)) (at_thread NoThread s))
      (fun s => Next (at_java Idle (set_fd (-1) (set_running false (clear_config s))))) Hst) as (s1 & -> & ->).
    split; [done|]. intros s' [= <-]. destruct s as [ru co gf st ja th by' jo]. cbn in *. subst.
    split; cbn; try done. intros Hb. by destruct (Hby Hb).
  - unfold thread_args. destruct (thread s) eqn:Hth; try done. unfold worker_inv in Hwo. rewrite Hth in Hwo.
    destruct (config_content s) as [l|] eqn:Hc; [|done]. rewrite decide_True by (rewrite Hst; set_solver). split; [done|]. intros s' [= <-].
    destruct s as [ru co gf st ja th by' jo]. cbn in *. subst. split; cbn; try done.
    + destruct ja; unfold caller_inv in *; cbn in *; try done; naive_solver.
    + intros Hb. by destruct (Hby Hb).
    + intros _. by apply Hjo.
  - unfold thread_parse. destruct (thread s) as [| |l| | | |] eqn:Hth; try done. unfold worker_inv in Hwo. rewrite Hth in Hwo.
    rewrite Hwo in Hst. rewrite decide_True by (rewrite Hst; set_solver). split; [done|]. intros s' [= <-].
    destruct s as [ru co gf st ja th by' jo]. cbn in *. subst. split; cbn; try done.
    + intros _. by apply Hru.
    + destruct ja; unfold caller_inv in *; cbn in *; try done; naive_solver.
    + unfold worker_inv. cbn. by destruct ok.
    + intros Hb. by destruct (Hby Hb).
    + intros _. by apply Hjo.
  - unfold thread_init. destruct (thread s) eqn:Hth; try done. split; [done|]. intros s' [= <-].
    destruct s as [ru co gf st ja th by' jo]. cbn in *. subst. split; cbn; try done.
    + intros _. by apply Hru.
    + destruct ja; unfold caller_inv in *; cbn in *; try done; naive_solver.
    + unfold worker_inv. cbn. by destruct ok.
    + intros Hb. by destruct (Hby Hb).
    + intros _. by apply Hjo.
  - unfold thread_end. destruct (thread s) eqn:Hth; try done. destruct late; [by destruct Ht|]. rewrite orb_false_r.
    destruct (stop_byte s) eqn:Hb; [|done]. split; [done|]. intros s' [= <-]. destruct (Hby eq_refl) as [_ Hj].
    destruct s as [ru co gf st ja th by' jo]. cbn in *. subst. split; cbn; try done; [|intros _; by apply Hjo].
    by right; left.
  - unfold thread_exit. destruct (thread s) eqn:Hth; try done. split; [done|]. intros s' [= <-].
    destruct s as [ru co gf st ja th by' jo]. cbn in *. subst. split; cbn; try done.
    + destruct ja; unfold caller_inv in *; cbn in *; try done; naive_solver.
    + intros Hb. by destruct (Hby Hb).
    + intros _. by apply Hjo.
Qed.

Lemma steps_inv ls s s' : steps ls s s' -> Forall timely ls -> inv s -> inv s'.
Proof.
  induction 1 as [s|l ls s s1 s' Hs _ IH]; [done|]. intros [Hl Hls]%Forall_cons Hi. apply IH; [done|].
  by apply (step_inv l s Hl Hi).
Qed.

(** Runs can be computed. *)
Fixpoint run (ls : list label) (s : state) : outcome :=
  match ls with
  | [] => Next s
  | l :: ls => match step l s with Next s => run ls s | o => o end
  end.

Lemma run_steps ls : forall s s', run ls s = Next s' -> steps ls s s'.
Proof.
  induction ls as [|l ls IH]; intros s s'; cbn [run]; [intros [= <-]; constructor|].
  destruct (step l s) as [| |s1] eqn:Hs; [done..|]. intros Hr. econstructor; [exact Hs | by apply IH].
Qed.

(** ** Stopping *)

(** The steps left until the call of [nativeStop] returns. *)
Definition rank (s : state) : nat :=
  match thread s with Up => 3 | Returned => 2 | Exited => 1 | _ => 0 end.

Lemma joining_step l s s' : inv s -> java s = Joining -> step l s = Next s' ->
  (java s' = Joining ∧ rank s = S (rank s') ∧ inv s' ∧ joinable s' = joinable s)
  \/ (rank s = 1%nat ∧ s' = mk_state false None (-1) ∅ Idle NoThread false (pred (joinable s))).
Proof.
  intros Hi Hj Hs. assert (timely l -> inv s') as Hi' by (intros Ht; by apply (step_inv l s Ht Hi)).
  pose proof Hi as [Hst Hru Hca Hwo Hby Hjo]. unfold caller_inv in Hca. rewrite Hj in Hca. unfold rank.
  destruct l as [str|new|fd|ok| | | | | |ok|ok|late| ]; cbn [step] in Hs.
  - unfold start_check in Hs. by rewrite Hj in Hs.
  - unfold start_copy in Hs. by rewrite Hj in Hs.
  - unfold start_mark in Hs. by rewrite Hj in Hs.
  - unfold start_create in Hs. by rewrite Hj in Hs.
  - unfold stop_check in Hs. by rewrite Hj in Hs.
  - unfold stop_poll in Hs. by rewrite Hj in Hs.
  - unfold stop_write in Hs. by rewrite Hj in Hs.
  - unfold stop_join in Hs. rewrite Hj in Hs. destruct (thread s) eqn:Hth; try done. right. split; [done|].
    destruct (free_config_inv (set_joinable (pred (joinable s)) (at_thread NoThread s))
      (fun s => Next (at_java Idle (set_fd (-1) (set_running false (clear_config s))))) Hst) as (s1 & Hf & ->).
    rewrite Hf in Hs. injection Hs as <-. cbn. assert (stop_byte s = false) as -> by (destruct (stop_byte s); [by destruct (Hby eq_refl) | done]).
    done.
  - unfold thread_args in Hs. destruct (thread s); try done. naive_solver.
  - unfold thread_parse in Hs. destruct (thread s); try done. naive_solver.
  - unfold thread_init in Hs. destruct (thread s); try done. naive_solver.
  - unfold thread_end in Hs. destruct (thread s) eqn:Hth; try done.
    assert (stop_byte s = true) as Hb by naive_solver. left.
    assert (step (ThreadEnd false) s = Next s') as Hs' by (cbn; unfold thread_end; by rewrite Hth, Hb in *).
    rewrite Hb in Hs. injection Hs as <-. split_and!; [done | done | | done].
    by apply (step_inv (ThreadEnd false) s ltac:(done) Hi).
  - unfold thread_exit in Hs. destruct (thread s) eqn:Hth; try done. left. injection Hs as <-. split_and!; [done..| by apply Hi' | done].
Qed.

Lemma joining_progress s : inv s -> java s = Joining -> exists l s', step l s = Next s'.
Proof.
  intros Hi Hj. pose proof Hi as [Hst Hru Hca Hwo Hby Hjo]. unfold caller_inv in Hca. rewrite Hj in Hca.
  destruct Hca as [[Hth Hb]|[Hth|Hth]].
  - exists (ThreadEnd false). cbn. unfold thread_end. rewrite Hth, Hb. by eexists.
  - exists ThreadExit. cbn. unfold thread_exit. rewrite Hth. by eexists.
  - exists StopJoin. cbn. unfold stop_join. rewrite Hj, Hth.
    destruct (free_config_inv (set_joinable (pred (joinable s)) (at_thread NoThread s))
      (fun s => Next (at_java Idle (set_fd (-1) (set_running false (clear_config s))))) Hst) as (s1 & -> & _). by eexists.
Qed.

Lemma joining_rank s : inv s -> java s = Joining -> (0 < rank s <= 3)%nat.
Proof.
  intros [_ _ Hca _ _ _] Hj. unfold caller_inv in Hca. rewrite Hj in Hca. unfold rank.
  destruct Hca as [[-> _]|[-> | ->]]; lia.
Qed.

Lemma joining_runs n : forall s, rank s = n -> inv s -> java s = Joining ->
  (exists ls s', length ls = n ∧ steps ls s s')
  ∧ forall ls s', length ls = n -> steps ls s s' -> s' = mk_state false None (-1) ∅ Idle NoThread false (pred (joinable s)).
Proof.
  induction n as [|n IH]; intros s Hr Hi Hj; pose proof (joining_rank s Hi Hj) as Hpos; [lia|]. split.
  - destruct (joining_progress s Hi Hj) as (l & s1 & Hs). destruct (joining_step l s s1 Hi Hj Hs) as [(Hj1 & Hr1 & Hi1 & _)|[H1 ->]].
    + destruct (IH s1 ltac:(lia) Hi1 Hj1) as [(ls & s' & Hl & Hst) _]. exists (l :: ls), s'. split; [simpl; lia | by econstructor].
    + assert (n = 0)%nat as -> by lia. eexists [l], _. split; [done|]. econstructor; [exact Hs | constructor].
  - intros ls s' Hl Hst. destruct Hst as [|l ls s s1 s' Hs Hst]; [done|]. simpl in Hl.
    destruct (joining_step l s s1 Hi Hj Hs) as [(Hj1 & Hr1 & Hi1 & Hjo)|[H1 ->]].
    + destruct (IH s1 ltac:(lia) Hi1 Hj1) as [_ H]. rewrite (H ls s') by (done || lia). by rewrite Hjo.
    + destruct ls; [|simpl in Hl; lia]. inversion Hst; subst. done.
Qed.

(** ** Properties *)

(** C13: The threads never get in each other's way.  However the steps of the caller and of
    the tunnel's thread are interleaved, whatever fails (unless it is the initialisation
    after the event sockets exist): no copy of the configuration is used after it was
    freed or freed twice, and there is never more than one; no second thread enters the
    tunnel; a stop never writes to a socket that is gone; and while [nativeIsRunning] says
    no, no thread is in the tunnel. *)
Theorem native_methods_safe ls s : Forall timely ls -> steps ls initial s ->
  (forall l, timely l -> step l s ≠ Crash)
  ∧ (nativeIsRunning s = false -> active (thread s) = false)
  ∧ strings s = (match config_content s with Some l => {[ l ]} | None => ∅ end)
  ∧ (forall l, thread s = Parsing l -> l ∈ strings s).
Proof.
  intros Hls Hs. pose proof (steps_inv _ _ _ Hs Hls inv_initial) as Hi. pose proof Hi as [Hst Hru Hca Hwo Hby Hjo].
  split_and!; [intros l Hl; by apply (step_inv l s Hl Hi) | | done |].
  - unfold nativeIsRunning. intros Hf. destruct (active (thread s)); [|done]. by rewrite Hru in Hf.
  - intros l Hth. unfold worker_inv in Hwo. rewrite Hth in Hwo. rewrite Hst, Hwo. set_solver.
Qed.


(** When the start fails after [nativeStop] has seen [tunnel_running], the stop never
    returns: it waits for event sockets that nobody will make. *)
Definition hanging (s : state) : Prop := java s = Stopping ∧ (thread s = Returned \/ thread s = Exited).

Lemma hanging_steps ls s s' : steps ls s s' -> hanging s -> hanging s'.
Proof.
  induction 1 as [s|l ls s s1 s' Hs _ IH]; [done|]. intros [Hj Hth]. apply IH. clear IH.
  destruct l; cbn [step] in Hs;
    unfold start_check, start_copy, start_mark, start_create, stop_check, stop_poll, stop_write, stop_join,
      thread_args, thread_parse, thread_init, thread_end, thread_exit in Hs;
    rewrite ?Hj in Hs; try discriminate; destruct Hth as [Hth|Hth]; rewrite ?Hth in Hs; try discriminate;
    injection Hs as <-; (split; [done|]); cbn; rewrite ?Hth; auto.
Qed.

Theorem nativeStop_hangs : exists ls s, Forall timely ls ∧ steps ls initial s ∧ java s = Stopping
  ∧ forall ls' s', steps ls' s s' -> java s' = Stopping.
Proof.
  exists [StartCheck true; StartCopy (Some 1%positive); StartMark 5; StartCreate true; StopCheck; ThreadArgs; ThreadParse false].
  exists (mk_state true (Some 1%positive) 5 {[ 1%positive ]} Stopping Returned false 1).
  split; [repeat (constructor; [discriminate|]); constructor|].
  split; [apply run_steps; vm_compute; reflexivity|]. split; [reflexivity|].
  intros ls' s' Hs. apply (hanging_steps _ _ _ Hs). split; [reflexivity | by left].
Qed.

(** A start that fails in the thread. *)
Definition failed_start (l : loc) : list label :=
  [StartCheck true; StartCopy (Some l); StartMark 5; StartCreate true; ThreadArgs; ThreadParse false; ThreadExit].

Lemma copy_step s l : java s = Starting -> strings s = match config_content s with Some l => {[ l ]} | None => ∅ end ->
  step (StartCopy (Some l)) s = Next (at_java Copied (set_config (Some l) {[ l ]} s)).
Proof.
  intros Hj Hst. cbn [step]. unfold start_copy. rewrite Hj.
  match goal with |- free_config ?s ?k = _ => destruct (free_config_inv s k Hst) as (s1 & -> & ->) end.
  cbn [strings]. rewrite decide_False by set_solver. by rewrite union_empty_r_L.
Qed.

Lemma args_step s l : thread s = Args -> config_content s = Some l -> strings s = {[ l ]} ->
  step ThreadArgs s = Next (at_thread (Parsing l) s).
Proof. intros Hth Hc Hst. cbn [step]. unfold thread_args. rewrite Hth, Hc, Hst. by rewrite decide_True by set_solver. Qed.

Lemma parse_step s l ok : thread s = Parsing l -> strings s = {[ l ]} ->
  step (ThreadParse ok) s = Next (at_thread (if ok then Initialising else Returned) s).
Proof. intros Hth Hst. cbn [step]. unfold thread_parse. rewrite Hth, Hst. by rewrite decide_True by set_solver. Qed.

Lemma failed_start_steps s l : inv s -> java s = Idle -> tunnel_running s = false -> active (thread s) = false -> stop_byte s = false ->
  steps (failed_start l) s (mk_state false (Some l) 5 {[ l ]} Idle Exited false (S (joinable s))).
Proof.
  intros [Hst _ _ _ _ _] Hj Hr Hth Hb. destruct s as [ru co gf st ja th by' jo]. cbn in Hst, Hj, Hr, Hth, Hb. subst.
  eapply steps_cons; [reflexivity|]. eapply steps_cons; [by apply copy_step|]. eapply steps_cons; [reflexivity|].
  eapply steps_cons; [cbn [step]; unfold start_create; cbn; rewrite Hth; reflexivity|].
  eapply steps_cons; [by apply args_step|]. eapply steps_cons; [by apply (parse_step _ l)|].
  eapply steps_cons; [reflexivity|]. apply steps_nil.
Qed.

Lemma steps_app ls ls' s s1 s' : steps ls s s1 -> steps ls' s1 s' -> steps (ls ++ ls') s s'.
Proof. induction 1 as [|l ls s s0 s1 Hs _ IH]; [done|]. intros H. eapply steps_cons; [exact Hs | by apply IH]. Qed.

(** A thread that ends by itself is never joined: every failed start leaves one behind. *)
Theorem native_threads_leak n : exists ls s, Forall timely ls ∧ steps ls initial s
  ∧ joinable s = n ∧ java s = Idle ∧ active (thread s) = false.
Proof.
  assert (exists ls s, Forall timely ls ∧ steps ls initial s ∧ joinable s = n ∧ java s = Idle ∧ active (thread s) = false
    ∧ tunnel_running s = false ∧ stop_byte s = false) as (ls & s & ? & ? & ? & ? & ? & _); [|by exists ls, s].
  induction n as [|n (ls & s & Hls & Hs & Hn & Hj & Hth & Hr & Hb)].
  { exists [], initial. split_and!; first [done | constructor]. }
  pose proof (failed_start_steps s 1%positive (steps_inv _ _ _ Hs Hls inv_initial) Hj Hr Hth Hb) as Hf. rewrite Hn in Hf.
  exists (ls ++ failed_start 1). eexists. split_and!; [|by eapply steps_app|done..].
  apply Forall_app. split; [done|]. repeat (constructor; [discriminate|]). constructor.
Qed.

(** A failure of the initialisation after the event sockets were made can meet the write of
    a stop. *)
Theorem nativeStop_late_failure : exists ls s, steps ls initial s ∧ step StopWrite s = Crash.
Proof.
  exists [StartCheck true; StartCopy (Some 1%positive); StartMark 5; StartCreate true; ThreadArgs; ThreadParse true; ThreadInit true;
    StopCheck; StopPoll; ThreadEnd true], (mk_state true (Some 1%positive) 5 {[ 1%positive ]} Writing Returned false 1).
  split; [apply run_steps; vm_compute; reflexivity | reflexivity].
Qed.

(** ** Witnesses *)

Definition example_start : list label :=
  [StartCheck true; StartCopy (Some 1%positive); StartMark 5; StartCreate true; ThreadArgs; ThreadParse true; ThreadInit true].
Definition example_stop : list label := [StopCheck; StopPoll; StopWrite].
Definition example_joining : state := mk_state true (Some 1%positive) 5 {[ 1%positive ]} Joining Up true 1.

Lemma example_steps : steps (example_start ++ example_stop) initial example_joining.
Proof. apply run_steps. vm_compute. reflexivity. Qed.

Lemma example_timely : Forall timely (example_start ++ example_stop).
Proof. repeat (constructor; [discriminate|]). constructor. Qed.

Lemma native_methods_safe_witness : strings example_joining = {[ 1%positive ]}
  ∧ (forall l, timely l -> step l example_joining ≠ Crash).
Proof.
  destruct (native_methods_safe (example_start ++ example_stop) example_joining) as (Hc & _ & Hs & _).
  - exact example_timely.
  - exact example_steps.
  - split; [exact Hs | exact Hc].
Defined.


End TunnelJniProofs.
