(* ===== verification/Logger.v ===== *)
(** * The loggers: src/misc/hev-logger.c and src/core/src/hev-socks5-logger.c

    The two files are the same code; each has a descriptor and a level. *)

From Stdlib Require Import Strings.String.
From S2P Require Import Prelude Config.

Module Logger.

(** ** State *)

(** The static variables of one logger, the descriptors that are open, and what was written
    to them. *)
Record logger := mk_logger { fd : Z; req_level : Z; open_fds : gset Z; written : list (Z * bytes) }.

Definition HEV_LOGGER_UNSET : Z := 4.

(** What [hev_logger_init] asks the system for. *)
Inductive target := Dup (n : Z) | Open (path : bytes).

Definition target_of (path : bytes) : target :=
  if decide (strcmp path (lit "stdout") = 0) then Dup 1
  else if decide (strcmp path (lit "stderr") = 0) then Dup 2
  else Open path.

(** [sys]: the descriptor the system answers with, or an error. *)
Definition hev_logger_init (sys : target -> Z) (level : Z) (path : bytes) : M logger Z := fun s =>
  let f := sys (target_of path) in
  Some (if decide (f < 0) then -1 else 0,
        mk_logger f level (if decide (f < 0) then open_fds s else {[ f ]} ∪ open_fds s) (written s)).

(** The variable keeps the number. *)
Definition hev_logger_fini : M logger unit := mput (fun s =>
  if decide (fd s ∈ open_fds s) then Some (mk_logger (fd s) (req_level s) (open_fds s ∖ {[ fd s ]}) (written s)) else None).

Definition hev_logger_enabled (level : Z) (s : logger) : bool :=
  bool_decide (level >= req_level s ∧ fd s >= 0).

(** ** A line *)

(** The decimal digits of a number, the last first. *)
Fixpoint digits (fuel : nat) (v : Z) : bytes :=
  match fuel with
  | O => []
  | S fuel => (48 + v mod 10) :: if decide (v < 10) then [] else digits fuel (v / 10)
  end.
(** [%0<width>u]; 32 bits have ten digits. *)
Definition padded (width : nat) (v : Z) : bytes :=
  let d := digits 10 (u32 v) in replicate (width - length d) 48 ++ reverse d.

Record tm := mk_tm { tm_year : Z; tm_mon : Z; tm_mday : Z; tm_hour : Z; tm_min : Z; tm_sec : Z }.

(** ["[%04u-%02u-%02u %02u:%02u:%02u] "] *)
Definition timestamp (ti : tm) : bytes :=
  [91] ++ padded 4 (1900 + tm_year ti) ++ [45] ++ padded 2 (1 + tm_mon ti) ++ [45] ++ padded 2 (tm_mday ti) ++ [32]
  ++ padded 2 (tm_hour ti) ++ [58] ++ padded 2 (tm_min ti) ++ [58] ++ padded 2 (tm_sec ti) ++ [93; 32].

(** [snprintf] and [vsnprintf]: the buffer afterwards, and the length of the whole text. *)
Definition snprintf (buf text : bytes) : option (bytes * Z) :=
  b ← wr buf 0 (take (length buf - 1) text ++ [0]);
  Some (b, Z.of_nat (length text)).

(** ["[D] "] and so on; the levels are those of the enumeration. *)
Definition tag (level : Z) : option bytes :=
  if decide (level = Config.HEV_LOGGER_DEBUG) then Some [91; 68; 93; 32]
  else if decide (level = Config.HEV_LOGGER_INFO) then Some [91; 73; 93; 32]
  else if decide (level = Config.HEV_LOGGER_WARN) then Some [91; 87; 93; 32]
  else if decide (level = Config.HEV_LOGGER_ERROR) then Some [91; 69; 93; 32]
  else if decide (level = HEV_LOGGER_UNSET) then Some [91; 63; 93; 32]
  else None.

(** [ts] and [msg]: what the two buffers on the stack, of 32 and 1024 bytes, hold; [ti]: the
    time; [text]: the formatted message. *)
Definition hev_logger_log (ts msg : bytes) (ti : tm) (level : Z) (text : bytes) : M logger unit := fun s =>
  if decide (level < req_level s \/ fd s < 0) then Some (tt, s) else
  '(ts, len) ← snprintf ts (timestamp ti);
  iov0 ← rd ts 0 len;
  iov1 ← tag level;
  '(msg, len) ← snprintf msg text;
  iov2 ← rd msg 0 len;
  Some (tt, mk_logger (fd s) (req_level s) (open_fds s) (written s ++ [(fd s, iov0 ++ iov1 ++ iov2 ++ [10])])).

(** ** The logger of the SOCKS5 library *)

Definition hev_socks5_logger_init := hev_logger_init.
Definition hev_socks5_logger_fini := hev_logger_fini.
Definition hev_socks5_logger_enabled := hev_logger_enabled.
Definition hev_socks5_logger_log := hev_logger_log.

(** ** Lines *)

Lemma snprintf_ok buf text : (length text < length buf)%nat -> exists b,
  snprintf buf text = Some (b, Z.of_nat (length text)) ∧ rd b 0 (Z.of_nat (length text)) = Some text.
Proof.
  intros Hl. unfold snprintf. rewrite take_ge by lia. unfold wr. rewrite decide_True by (rewrite length_app; simpl; lia).
  eexists. split; [reflexivity|]. cbn [take Z.to_nat app]. rewrite take_0. unfold rd.
  rewrite decide_True by (rewrite !length_app, length_drop; simpl; lia).
  change (Z.to_nat 0) with 0%nat. rewrite drop_0, Nat2Z.id, <- app_assoc. cbn [app]. by rewrite take_app_length.
Qed.

Lemma snprintf_long buf text : buf ≠ [] -> (length buf < length text)%nat ->
  exists b, snprintf buf text = Some (b, Z.of_nat (length text)) ∧ rd b 0 (Z.of_nat (length text)) = None.
Proof.
  intros Hne Hl. assert (0 < length buf)%nat by (destruct buf; simpl; [done | lia]). unfold snprintf.
  assert (length (take (length buf - 1) text ++ [0]) = length buf) as Hlen by (rewrite length_app, length_take; simpl; lia).
  unfold wr. rewrite Hlen, decide_True by lia. eexists. split; [reflexivity|]. unfold rd. rewrite decide_False; [done|].
  rewrite !length_app, length_take, length_take, length_drop. simpl. lia.
Qed.

Lemma digits_bound n : forall fuel v, 0 <= v < 10 ^ Z.of_nat (S n) -> (length (digits fuel v) <= S n)%nat.
Proof.
  induction n as [|n IH]; intros [|fuel] v Hv; cbn [digits length]; try lia.
  - rewrite decide_True by (change (10 ^ Z.of_nat 1) with 10 in Hv; lia). simpl. lia.
  - case_decide; [simpl; lia|]. cbn [length]. specialize (IH fuel (v / 10)). rewrite (Nat2Z.inj_succ (S n)), Z.pow_succ_r in Hv by lia.
    pose proof (IH ltac:(split; [apply Z.div_pos; lia | apply Z.div_lt_upper_bound; lia])). lia.
Qed.

Lemma padded_length width v : (0 < width)%nat -> 0 <= v < 10 ^ Z.of_nat width -> v < 2 ^ 32 -> length (padded width v) = width.
Proof.
  intros Hw Hv H32. unfold padded. rewrite length_app, length_replicate, length_reverse.
  destruct width as [|n]; [lia|]. pose proof (digits_bound n 10 (u32 v)) as H. unfold u32 in *. rewrite Z.mod_small in * by lia.
  specialize (H Hv). lia.
Qed.

(** A broken-down time of the years 0 to 9999. *)
Definition tm_ok (ti : tm) : Prop :=
  0 <= 1900 + tm_year ti < 10000 ∧ 0 <= tm_mon ti < 12 ∧ 0 <= tm_mday ti < 32 ∧ 0 <= tm_hour ti < 24
  ∧ 0 <= tm_min ti < 60 ∧ 0 <= tm_sec ti <= 60.

Lemma timestamp_length ti : tm_ok ti -> length (timestamp ti) = 22%nat.
Proof.
  intros (H1 & H2 & H3 & H4 & H5 & H6). unfold timestamp. rewrite !length_app.
  rewrite (padded_length 4), !(padded_length 2) by lia. done.
Qed.

(** What a call of the logger writes.  Below the level, or without a descriptor, nothing;
    otherwise one line to the descriptor, the time, the level and the text, as long as the
    text has at most 1023 bytes.  A text of more than 1024 bytes is cut in the buffer but
    not in the length of the write, which reads past the buffer. *)
Theorem hev_logger_log_ok ts msg ti level text s :
  length ts = 32%nat -> length msg = 1024%nat -> tm_ok ti -> 0 <= level <= 4 ->
  (hev_logger_enabled level s = false -> hev_logger_log ts msg ti level text s = Some (tt, s))
  ∧ (hev_logger_enabled level s = true ->
      ((length text <= 1023)%nat -> exists t, tag level = Some t
         ∧ hev_logger_log ts msg ti level text s
           = Some (tt, mk_logger (fd s) (req_level s) (open_fds s) (written s ++ [(fd s, timestamp ti ++ t ++ text ++ [10])])))
      ∧ ((1024 < length text)%nat -> hev_logger_log ts msg ti level text s = None)).
Proof.
  intros Hts Hmsg Hti Hlv. unfold hev_logger_enabled, hev_logger_log. split.
  { intros He%bool_decide_eq_false. by rewrite decide_True by lia. }
  intros He%bool_decide_eq_true. rewrite decide_False by lia.
  destruct (snprintf_ok ts (timestamp ti)) as (b & -> & Hr); [rewrite timestamp_length by done; lia|].
  cbn [mbind option_bind]. rewrite Hr. cbn [mbind option_bind].
  assert (exists t, tag level = Some t) as [t Ht].
  { assert (level = 0 \/ level = 1 \/ level = 2 \/ level = 3 \/ level = 4) as H by lia.
    destruct H as [->|[->|[->|[->| ->]]]]; by eexists. }
  rewrite Ht. cbn [mbind option_bind]. split; intros Hl.
  - exists t. split; [done|]. destruct (snprintf_ok msg text) as (b' & -> & Hr'); [lia|]. cbn [mbind option_bind]. by rewrite Hr'.
  - destruct (snprintf_long msg text) as (b' & -> & Hr'); [by destruct msg | lia |]. cbn [mbind option_bind]. by rewrite Hr'.
Qed.

Lemma hev_logger_log_ok_witness :
  hev_logger_log (replicate 32 0) (replicate 1024 0) (mk_tm 125 0 31 23 59 60) 1 (replicate 1025 65) (mk_logger 3 1 {[ 3 ]} []) = None.
Proof.
  destruct (hev_logger_log_ok (replicate 32 0) (replicate 1024 0) (mk_tm 125 0 31 23 59 60) 1 (replicate 1025 65)
    (mk_logger 3 1 {[ 3 ]} [])) as [_ H].
  - apply length_replicate.
  - apply length_replicate.
  - unfold tm_ok. cbn. lia.
  - lia.
  - destruct H as [_ H]; [reflexivity|]. apply H. rewrite length_replicate. lia.
Defined.

End Logger.
