(* ===== verification/Socks5AddrText.v ===== *)
(** * Addresses as text: [hev_socks5_addr_into_str] of src/core/src/hev-socks5-misc.c

    The text that is logged for a destination.  The callers give the address as it was read
    or copied, and a buffer of 272 bytes. *)

From S2P Require Import Prelude Socks5Addr Logger.

Module Socks5AddrText.
Import Socks5Addr.

(** [inet_ntop] is not part of the program: the text of 4 and of 16 bytes. *)
Class Printer := { inet_ntop4 : bytes -> bytes; inet_ntop6 : bytes -> bytes }.

(** The text fits the buffers the system's headers name for it. *)
Class PrinterOk `{Printer} : Prop := {
  ntop4_text ip : cstr_ok (inet_ntop4 ip) ∧ (length (inet_ntop4 ip) < 16)%nat;
  ntop6_text ip : cstr_ok (inet_ntop6 ip) ∧ (length (inet_ntop6 ip) < 46)%nat }.

Section Text.
Context `{Printer}.

(** [sa]: the memory of the local array. *)
Definition hev_socks5_addr_into_str (sa : bytes) (addr : HevSocks5Addr) (buf : bytes) : option (option bytes) :=
  t ← atype addr;
  r ← (if decide (t = HEV_SOCKS5_ADDR_TYPE_IPV4) then
         p ← rd addr 5 2; ip ← rd addr 1 4; sa ← wr sa 0 (inet_ntop4 ip ++ [0]); Some (Some (sa, ntohs (of_le16 p)))
       else if decide (t = HEV_SOCKS5_ADDR_TYPE_IPV6) then
         p ← rd addr 17 2; ip ← rd addr 1 16; sa ← wr sa 0 (inet_ntop6 ip ++ [0]); Some (Some (sa, ntohs (of_le16 p)))
       else if decide (t = HEV_SOCKS5_ADDR_TYPE_NAME) then
         l ← domain_len addr;
         n ← rd addr 2 l; sa ← wr sa 0 n;
         sa ← wr sa l [0];
         p ← rd addr (2 + l) 2; Some (Some (sa, ntohs (of_le16 p)))
       else Some None);
  match r with
  | None => Some None
  | Some (sa, port) =>
      s ← cstr_of sa;
      '(buf, _) ← Logger.snprintf buf ([91] ++ s ++ [93; 58] ++ Logger.padded 0 port);
      Some (Some buf)
  end.

(** How an address is written. *)
Definition host_text (a : address) : bytes :=
  match a with IPv4 ip _ => inet_ntop4 ip | IPv6 ip _ => inet_ntop6 ip | Name s _ => s end.
Definition port_of (a : address) : Z := match a with IPv4 _ p | IPv6 _ p | Name _ p => p end.
Definition text (a : address) : bytes := [91] ++ host_text a ++ [93; 58] ++ Logger.padded 0 (port_of a).

(** A C string at the start of an array. *)
Lemma cstr_written sa s sa' : cstr_ok s -> wr sa 0 (s ++ [0]) = Some sa' -> cstr_of sa' = Some s.
Proof.
  intros Hs Hw. unfold wr in Hw. case_decide as Hd; [|done]. injection Hw as <-. change (Z.to_nat 0) with 0%nat.
  cbn [take app]. rewrite <- app_assoc. by apply cstr_of_app.
Qed.

Lemma wr_wr_nul sa s : (length s < length sa)%nat ->
  wr sa 0 s ≫= (fun sa => wr sa (Z.of_nat (length s)) [0]) = wr sa 0 (s ++ [0]).
Proof.
  intros Hl. rewrite wr_0 by lia. cbn [mbind option_bind].
  destruct (drop (length s) sa) as [|x rest] eqn:Hd.
  { apply (f_equal length) in Hd. rewrite length_drop in Hd. simpl in Hd. lia. }
  rewrite (wr_app s (x :: rest)) by (done || (simpl; lia)).
  rewrite wr_0 by (rewrite length_app; simpl; lia). rewrite length_app. cbn [length].
  assert (drop (length s + 1) sa = rest) as -> by (rewrite <- (drop_drop sa), Hd; done). by rewrite <- app_assoc.
Qed.

Lemma digits_length fuel v : (length (Logger.digits fuel v) <= fuel)%nat.
Proof. revert v. induction fuel as [|fuel IH]; intros v; cbn; [lia|]. case_decide; simpl; [lia|]. specialize (IH (v / 10)). lia. Qed.

Lemma text_length `{!PrinterOk} a : address_ok a -> (length (text a) <= 268)%nat.
Proof.
  intros Ha. assert (length (host_text a) <= 255)%nat as Hh.
  { destruct a as [ip p|ip p|s p]; cbn [host_text]; [destruct (ntop4_text ip); lia | destruct (ntop6_text ip); lia | destruct Ha as (_ & ? & _); lia]. }
  unfold text, Logger.padded. rewrite !length_app, length_replicate, length_reverse.
  pose proof (digits_length 10 (u32 (port_of a))). cbn [length]. lia.
Qed.

(** The text of every address that arrives or is asked for fits the buffers, and is the host in
    brackets, a colon and the port. *)
Theorem hev_socks5_addr_into_str_ok `{!PrinterOk} sa addr a buf :
  address_ok a -> starts_with addr a -> length sa = 256%nat -> length buf = 272%nat ->
  exists buf', hev_socks5_addr_into_str sa addr buf = Some (Some buf') ∧ rd buf' 0 (Z.of_nat (length (text a))) = Some (text a).
Proof.
  intros Ha [rest ->] Hsa Hbuf.
  destruct (Logger.snprintf_ok buf (text a)) as (buf' & Hb & Hr); [pose proof (text_length a Ha); lia|].
  exists buf'. split; [|done]. unfold hev_socks5_addr_into_str.
  assert (exists sa', cstr_of sa' = Some (host_text a) ∧ wr sa 0 (host_text a ++ [0]) = Some sa') as (sa' & Hc & Hw).
  { assert (cstr_ok (host_text a) ∧ (length (host_text a) <= 255)%nat) as [H1 H2].
    { destruct a as [ip p|ip p|s p]; cbn [host_text];
        [destruct (ntop4_text ip); split; [done | lia] | destruct (ntop6_text ip); split; [done | lia] | destruct Ha as (? & ? & _); split; [done | lia]]. }
    eexists. split; [|apply wr_bound; rewrite ?length_app; simpl; lia].
    eapply cstr_written; [exact H1 | apply wr_bound; rewrite ?length_app; simpl; lia]. }
  destruct a as [ip port|ip port|s port]; destruct Ha as (Hok & Hl & Hp); cbn [encode app host_text port_of] in *.
  - change (atype _) with (Some HEV_SOCKS5_ADDR_TYPE_IPV4). cbn [mbind option_bind]. rewrite decide_True by done. rewrite <- app_assoc.
    rewrite (rd_app (1 :: ip) (be16 port) rest _ 5 2) by (done || (simpl; lia)). cbn [mbind option_bind].
    rewrite (rd_app [1] ip (be16 port ++ rest) _ 1 4) by (done || lia). cbn [mbind option_bind].
    rewrite Hw. cbn [mbind option_bind]. rewrite Hc, (ntohs_of_be16 port Hp). cbn [mbind option_bind].
    unfold text in Hb. cbn [host_text port_of app] in Hb. by rewrite Hb.
  - change (atype _) with (Some HEV_SOCKS5_ADDR_TYPE_IPV6). cbn [mbind option_bind]. rewrite decide_False, decide_True by done. rewrite <- app_assoc.
    rewrite (rd_app (4 :: ip) (be16 port) rest _ 17 2) by (done || (simpl; lia)). cbn [mbind option_bind].
    rewrite (rd_app [4] ip (be16 port ++ rest) _ 1 16) by (done || lia). cbn [mbind option_bind].
    rewrite Hw. cbn [mbind option_bind]. rewrite Hc, (ntohs_of_be16 port Hp). cbn [mbind option_bind].
    unfold text in Hb. cbn [host_text port_of app] in Hb. by rewrite Hb.
  - change (atype _) with (Some HEV_SOCKS5_ADDR_TYPE_NAME). cbn [mbind option_bind]. rewrite decide_False, decide_False, decide_True by done.
    change (domain_len _) with (Some (Z.of_nat (length s))). cbn [mbind option_bind]. rewrite <- app_assoc.
    rewrite (rd_app [3; Z.of_nat (length s)] s (be16 port ++ rest) _ 2 (Z.of_nat (length s))) by (done || lia). cbn [mbind option_bind].
    pose proof (wr_wr_nul sa s ltac:(lia)) as Hn. rewrite Hw in Hn. destruct (wr sa 0 s) as [sa1|]; [|done]. cbn [mbind option_bind] in Hn |- *.
    rewrite Hn. cbn [mbind option_bind].
    rewrite (rd_app (3 :: Z.of_nat (length s) :: s) (be16 port) rest _ (2 + Z.of_nat (length s)) 2) by (done || (simpl; lia)). cbn [mbind option_bind].
    rewrite Hc, (ntohs_of_be16 port Hp). cbn [mbind option_bind].
    unfold text in Hb. cbn [host_text port_of app] in Hb. by rewrite Hb.
Qed.
End Text.

End Socks5AddrText.
