(* ===== verification/HevExec.v ===== *)
(** * Running scripts: src/misc/hev-exec.c

    A script of the configuration runs in a process of its own, which the tunnel waits for or
    not.  The processes end when they like; the kernel tells the parent with a signal, and
    two signals that come together are one. *)

From S2P Require Import Prelude.

Module HevExec.

(** ** State *)

Definition pid := positive.

(** The arguments [execl] gets: the path, and the argument list. *)
Record script := mk_script { path : bytes; argv : list bytes }.

(** [running], [zombies]: the children that run, and that ended and were not waited for;
    [pending]: SIGCHLD is pending; [handled]: a handler is installed for it; [waiting]: the
    child [hev_exec_run] waits for; [execs]: what the children were asked to run. *)
Record state := mk_state {
  running : gset pid; zombies : gset pid; pending : bool; handled : bool; waiting : option pid;
  execs : list (pid * script) }.

Definition initial : state := mk_state ∅ ∅ false false None [].

Definition set_waiting w s := mk_state (running s) (zombies s) (pending s) (handled s) w (execs s).
Definition reap p s := mk_state (running s) (zombies s ∖ {[ p ]}) (pending s) (handled s) (waiting s) (execs s).

(** ** The function *)

(** The child: [execl (script_path, script_path, tun_name, tun_index, NULL)], whose list ends
    with the first null pointer.  When it fails the child ends. *)
Definition child (script_path : bytes) (tun_name tun_index : option bytes) : script :=
  mk_script script_path
    (script_path :: match tun_name with
                    | None => []
                    | Some n => n :: match tun_index with None => [] | Some i => [i] end
                    end).

(** Until it returns, or waits.  [fork]: the new process, if there is one. *)
Definition hev_exec_run (script_path : bytes) (tun_name tun_index : option bytes) (wait : bool) (fork : option pid)
    (s : state) : option state :=
  let s := mk_state (running s) (zombies s) (pending s) true (waiting s) (execs s) in
  match fork with
  | None => Some s
  | Some p =>
      if decide (p ∈ running s ∪ zombies s) then None else
      let s := mk_state ({[ p ]} ∪ running s) (zombies s) (pending s) (handled s) (waiting s)
                 (execs s ++ [(p, child script_path tun_name tun_index)]) in
      Some (if wait then set_waiting (Some p) s else s)
  end.

(** [waitpid (-1, NULL, WNOHANG)]: one of the children that ended, if there is one. *)
Definition signal_handler (which : option pid) (s : state) : option state :=
  match which with
  | None => if decide (zombies s = ∅) then Some s else None
  | Some p => if decide (p ∈ zombies s) then Some (reap p s) else None
  end.

(** [waitpid (pid, NULL, 0)]: it returns when the child has ended, or is no child any more. *)
Definition wait_done (s : state) : option state :=
  p ← waiting s;
  if decide (p ∈ running s) then None else Some (set_waiting None (reap p s)).

(** ** Steps *)

Inductive step : state -> state -> Prop :=
  | step_run sp n i w f s s' : waiting s = None -> hev_exec_run sp n i w f s = Some s' -> step s s'
  | step_end p s : p ∈ running s ->
      step s (mk_state (running s ∖ {[ p ]}) ({[ p ]} ∪ zombies s) true (handled s) (waiting s) (execs s))
  | step_signal which s s' : pending s = true -> handled s = true ->
      signal_handler which (mk_state (running s) (zombies s) false (handled s) (waiting s) (execs s)) = Some s' -> step s s'
  | step_wait s s' : wait_done s = Some s' -> step s s'.

Definition reachable : state -> Prop := rtc step initial.

(** ** Properties *)

Record inv (s : state) : Prop := {
  iv_apart : running s ## zombies s;
  iv_handled : execs s ≠ [] -> handled s = true;
  iv_known : forall p, p ∈ running s ∪ zombies s -> p ∈ (execs s).*1;
  iv_waiting : forall p, waiting s = Some p -> p ∈ (execs s).*1;
  iv_zombies : zombies s ≠ ∅ -> execs s ≠ [] }.

Lemma exec_step_inv s s' : step s s' -> inv s -> inv s'.
Proof.
  intros Hs [Ha Hh Hk Hw Hz]. destruct Hs as [sp n i w [p|] s s' Hwt He|p s Hp|which s s' Hp Hha He|s s' He].
  - unfold hev_exec_run in He. cbn in He. case_decide as Hd; [done|]. injection He as <-.
    set (s1 := mk_state _ _ _ _ (waiting s) _).
    assert (p ∉ running s ∧ p ∉ zombies s) as [Hp1 Hp2] by set_solver.
    assert (p ∈ (execs s1).*1 ∧ forall q, q ∈ (execs s).*1 -> q ∈ (execs s1).*1) as [H1 H2].
    { unfold s1. cbn. rewrite fmap_app. split; [|intros q Hq]; apply elem_of_app; [right; apply list_elem_of_here | by left]. }
    assert (forall w0, (forall q, w0 = Some q -> q ∈ (execs s1).*1) -> inv (set_waiting w0 s1)) as Hinv.
    { intros w0 Hw0. split; cbn; [set_solver | done | | exact Hw0 | intros _; by destruct (execs s)].
      intros q [[->%elem_of_singleton|Hq]%elem_of_union|Hq]%elem_of_union; [exact H1 | apply H2, Hk; set_solver..]. }
    destruct w; [apply Hinv; by intros q [= <-]|]. apply (Hinv (waiting s)). by rewrite Hwt.
  - injection He as <-. by split.
  - split; cbn; [set_solver | done | set_solver | done |]. intros _ Hnil. rewrite Hnil in Hk. set_solver.
  - unfold signal_handler in He. destruct which as [q|]; case_decide; try done; injection He as <-; split; cbn; try done; set_solver.
  - unfold wait_done in He. destruct (waiting s) as [q|] eqn:Hq; [|done]. cbn in He. case_decide; [done|]. injection He as <-.
    split; cbn; try done; set_solver.
Qed.

Lemma exec_reachable_inv s : reachable s -> inv s.
Proof.
  intros Hr. unfold reachable in Hr. assert (forall a b, rtc step a b -> inv a -> inv b) as H.
  { induction 1; [done|]. eauto using exec_step_inv. }
  eapply H; [exact Hr|]. split; cbn; set_solver.
Qed.

(** Waiting for a script: the tunnel goes on only when the script is over, whichever of the
    handler and the wait comes first; and once the script is over, it does go on. *)
Theorem hev_exec_run_waits s p : reachable s -> waiting s = Some p ->
  (p ∈ running s -> wait_done s = None)
  ∧ (p ∉ running s -> exists s', wait_done s = Some s' ∧ waiting s' = None ∧ p ∉ running s' ∪ zombies s').
Proof.
  intros Hr Hw. unfold wait_done. rewrite Hw. cbn. split; intros Hp; [by rewrite decide_True|].
  rewrite decide_False by done. eexists. split_and!; [done | done | cbn; set_solver].
Qed.

(** Every child was asked to run its script, with a handler installed; no process is
    forgotten while it runs. *)
Theorem hev_exec_run_scripts s p : reachable s -> p ∈ running s ∪ zombies s -> handled s = true ∧ p ∈ (execs s).*1.
Proof.
  intros Hr Hp. destruct (exec_reachable_inv s Hr) as [Ha Hh Hk Hw Hz]. split; [|by apply Hk]. apply Hh.
  intros Hnil. specialize (Hk p Hp). rewrite Hnil in Hk. by apply not_elem_of_nil in Hk.
Qed.

(** Two scripts that end together leave a process behind: the signals are one, and the handler
    waits for one child. *)
Theorem signal_handler_leaves_zombie (a b : bytes) : exists s, reachable s ∧ running s = ∅ ∧ pending s = false ∧ waiting s = None ∧ zombies s ≠ ∅.
Proof.
  set (x := (1%positive, child a None None)). set (y := (2%positive, child b None None)).
  exists (mk_state ∅ {[ 2%positive ]} false true None [x; y]). split; [|by repeat split].
  eapply rtc_l; [by apply (step_run a None None false (Some 1%positive))|].
  eapply rtc_l; [apply (step_run b None None false (Some 2%positive)); [done|]; unfold hev_exec_run; cbn; rewrite decide_False by set_solver; reflexivity|].
  eapply rtc_l; [apply (step_end 1%positive); cbn; set_solver|].
  eapply rtc_l; [apply (step_end 2%positive); cbn; set_solver|].
  apply rtc_once. apply (step_signal (Some 1%positive)); [done | done |]. unfold signal_handler, reap. cbn.
  rewrite decide_True by set_solver. repeat f_equal; set_solver.
Qed.

End HevExec.
