(* ===== verification/HevJni.v ===== *)
(** * The tunnel's own JNI wrapper: src/hev-jni.c

    The application leaves this file out in favour of hev_jni.c (TunnelJni).  Here a mutex
    serialises the native methods, which any number of threads may call; the tunnel's thread
    does not take it.  The model interleaves the thread with the one that has the mutex. *)

From S2P Require Import Prelude TunnelPacket.

Module HevJni.

(** ** State *)

(** A [ThreadData], and where it and its path are allocated. *)
Record ThreadData := mk_tdata { self : loc; path : loc; fd : Z }.

(** What the owner of the mutex does: in [native_start_service] before [malloc], before
    [GetStringUTFChars], before [pthread_create]; in [native_stop_service] in the loop of
    [hev_socks5_tunnel_stop], before its write, and in [pthread_join]. *)
Inductive owner := Nobody | Starting | Allocated (tdata : loc) (fd : Z) | Named (tdata : ThreadData) | Stopping | Writing | Joining.

(** Where the tunnel's thread is, with its [ThreadData]: before it has read the file, before
    the event sockets exist, between their creation and their end, behind
    [hev_socks5_tunnel_main], gone. *)
Inductive worker :=
  | NoThread | Reading (tdata : ThreadData) | Initialising (tdata : ThreadData) | Up (tdata : ThreadData)
  | Returned (tdata : ThreadData) | Exited.

(** [memory]: the blocks that are allocated; [stop_byte]: a byte waits in the event socket;
    [joinable]: the threads that were created and not joined. *)
Record state := mk_state {
  is_working : bool; mutex : owner; memory : gset loc; thread : worker; stop_byte : bool; joinable : nat }.

Definition initial : state := mk_state false Nobody ∅ NoThread false 0.

Definition set_mutex v s := mk_state (is_working s) v (memory s) (thread s) (stop_byte s) (joinable s).
Definition set_memory v s := mk_state (is_working s) (mutex s) v (thread s) (stop_byte s) (joinable s).
Definition set_thread v s := mk_state (is_working s) (mutex s) (memory s) v (stop_byte s) (joinable s).
Definition set_byte v s := mk_state (is_working s) (mutex s) (memory s) (thread s) v (joinable s).

(** What a step comes to: it is not possible now, it goes wrong, or the next state. *)
Inductive outcome := Blocked | Crash | Next (s : state).

Definition free (l : loc) (s : state) (k : state -> outcome) : outcome :=
  if decide (l ∈ memory s) then k (set_memory (memory s ∖ {[ l ]}) s) else Crash.

(** ** The native methods *)

(** [pthread_mutex_lock], and the check of [is_working]. *)
Definition start_lock (s : state) : outcome :=
  match mutex s with
  | Nobody => Next (if is_working s then s else set_mutex Starting s)
  | _ => Blocked
  end.

(** The result of [malloc] is used without a test. *)
Definition start_malloc (new : ptr) (fd : Z) (s : state) : outcome :=
  match mutex s, new with
  | Starting, None => Crash
  | Starting, Some l => if decide (l ∈ memory s) then Blocked else Next (set_mutex (Allocated l fd) (set_memory ({[ l ]} ∪ memory s) s))
  | _, _ => Blocked
  end.

(** [str]: whether the Java string can be had; neither it nor its copy is tested, and both
    are used. *)
Definition start_path (str : bool) (new : ptr) (s : state) : outcome :=
  match mutex s with
  | Allocated t fd =>
      if negb str then Crash else
      match new with
      | None => Crash
      | Some l => if decide (l ∈ memory s) then Blocked else Next (set_mutex (Named (mk_tdata t l fd)) (set_memory ({[ l ]} ∪ memory s) s))
      end
  | _ => Blocked
  end.

(** A second thread in the tunnel's static variables is an error. *)
Definition start_create (ok : bool) (s : state) : outcome :=
  match mutex s with
  | Named d =>
      if ok then
        match thread s with
        | NoThread | Exited => Next (mk_state true Nobody (memory s) (Reading d) (stop_byte s) (S (joinable s)))
        | _ => Crash
        end
      else free (path d) s (fun s => free (self d) s (fun s => Next (set_mutex Nobody s)))
  | _ => Blocked
  end.

Definition stop_lock (s : state) : outcome :=
  match mutex s with
  | Nobody => Next (if is_working s then set_mutex Stopping s else s)
  | _ => Blocked
  end.

(** [hev_socks5_tunnel_quit]: [hev_socks5_tunnel_stop]. *)
Definition stop_poll (s : state) : outcome :=
  match mutex s, thread s with
  | Stopping, Up _ => Next (set_mutex Writing s)
  | Stopping, _ => Next s
  | _, _ => Blocked
  end.
Definition stop_write (s : state) : outcome :=
  match mutex s, thread s with
  | Writing, Up _ => Next (set_mutex Joining (set_byte true s))
  | Writing, _ => Crash
  | _, _ => Blocked
  end.

Definition stop_join (s : state) : outcome :=
  match mutex s, thread s with
  | Joining, Exited => Next (mk_state false Nobody (memory s) NoThread (stop_byte s) (pred (joinable s)))
  | _, _ => Blocked
  end.

Definition native_get_stats (io : TunnelPacket.tunnel_io) : list Z :=
  let '(tx_packets, tx_bytes, rx_packets, rx_bytes) := TunnelPacket.hev_socks5_tunnel_stats io in
  [tx_packets; tx_bytes; rx_packets; rx_bytes].

(** ** The tunnel's thread *)

(** [hev_socks5_tunnel_main] reads the path; [ok]: the configuration is accepted. *)
Definition thread_read (ok : bool) (s : state) : outcome :=
  match thread s with
  | Reading d =>
      if decide (self d ∈ memory s ∧ path d ∈ memory s) then Next (set_thread (if ok then Initialising d else Returned d) s) else Crash
  | _ => Blocked
  end.
Definition thread_init (ok : bool) (s : state) : outcome :=
  match thread s with
  | Initialising d => Next (set_thread (if ok then Up d else Returned d) s)
  | _ => Blocked
  end.
(** The tunnel ends when the byte arrives; the initialisation may also fail late. *)
Definition thread_end (late : bool) (s : state) : outcome :=
  match thread s with
  | Up d => if stop_byte s || late then Next (set_thread (Returned d) (set_byte false s)) else Blocked
  | _ => Blocked
  end.
Definition thread_exit (s : state) : outcome :=
  match thread s with
  | Returned d => free (path d) s (fun s => free (self d) s (fun s => Next (set_thread Exited s)))
  | _ => Blocked
  end.

(** ** Runs *)

Inductive label :=
  | StartLock | StartMalloc (new : ptr) (fd : Z) | StartPath (str : bool) (new : ptr) | StartCreate (ok : bool)
  | StopLock | StopPoll | StopWrite | StopJoin
  | ThreadRead (ok : bool) | ThreadInit (ok : bool) | ThreadEnd (late : bool) | ThreadExit.

Definition step (l : label) (s : state) : outcome :=
  match l with
  | StartLock => start_lock s
  | StartMalloc new fd => start_malloc new fd s
  | StartPath str new => start_path str new s
  | StartCreate ok => start_create ok s
  | StopLock => stop_lock s
  | StopPoll => stop_poll s
  | StopWrite => stop_write s
  | StopJoin => stop_join s
  | ThreadRead ok => thread_read ok s
  | ThreadInit ok => thread_init ok s
  | ThreadEnd late => thread_end late s
  | ThreadExit => thread_exit s
  end.

Inductive steps : list label -> state -> state -> Prop :=
  | steps_nil s : steps [] s s
  | steps_cons l ls s s1 s' : step l s = Next s1 -> steps ls s1 s' -> steps (l :: ls) s s'.

(** ** The invariant *)

(** There is memory, the Java string can be had, and the initialisation does not fail after
    the event sockets are made. *)
Definition sound (l : label) : Prop :=
  match l with
  | StartMalloc None _ | StartPath false _ | StartPath _ None | ThreadEnd true => False
  | _ => True
  end.

(** The blocks that belong to somebody. *)
Definition blocks (d : ThreadData) : gset loc := {[ self d; path d ]}.
Definition owned_by_mutex (m : owner) : gset loc :=
  match m with Allocated t _ => {[ t ]} | Named d => blocks d | _ => ∅ end.
Definition owned_by_thread (t : worker) : gset loc :=
  match t with Reading d | Initialising d | Up d | Returned d => blocks d | _ => ∅ end.
Definition distinct (s : state) : Prop :=
  match mutex s with Named d => self d ≠ path d | _ => True end
  ∧ match thread s with Reading d | Initialising d | Up d | Returned d => self d ≠ path d | _ => True end.

Definition mutex_inv (s : state) : Prop :=
  match mutex s with
  | Nobody => True
  | Starting | Allocated _ _ | Named _ => is_working s = false
  | Stopping => is_working s = true
  | Writing => is_working s = true ∧ stop_byte s = false ∧ exists d, thread s = Up d
  | Joining => is_working s = true ∧ ((stop_byte s = true ∧ exists d, thread s = Up d) \/ (exists d, thread s = Returned d) \/ thread s = Exited)
  end.

Record inv (s : state) : Prop := {
  iv_working : is_working s = false <-> thread s = NoThread;
  iv_joinable : joinable s = if is_working s then 1%nat else 0%nat;
  iv_memory : memory s = owned_by_mutex (mutex s) ∪ owned_by_thread (thread s);
  iv_distinct : distinct s;
  iv_mutex : mutex_inv s;
  iv_byte : stop_byte s = true -> mutex s = Joining ∧ exists d, thread s = Up d }.

Lemma service_inv_initial : inv initial.
Proof. by split; cbn. Qed.


(** The invariant without a tunnel: its thread owns nothing, and no byte waits. *)
Lemma inv_idle s : inv s -> is_working s = false -> thread s = NoThread ∧ stop_byte s = false ∧ joinable s = 0%nat
  ∧ memory s = owned_by_mutex (mutex s) ∧ match mutex s with Stopping | Writing | Joining => False | _ => True end.
Proof.
  intros [Hw Hj Hm Hd Hx Hb] Hk. rewrite Hk in *. assert (thread s = NoThread) as Ht by naive_solver.
  rewrite Ht in Hm. cbn in Hm. rewrite union_empty_r_L in Hm. split_and!; try done.
  - destruct (stop_byte s); [|done]. destruct Hb as [_ [d Hd']]; [done|]. by rewrite Ht in Hd'.
  - unfold mutex_inv in Hx. rewrite Hk in Hx. by destruct (mutex s); naive_solver.
Qed.

Lemma inv_working s : inv s -> is_working s = true -> thread s ≠ NoThread ∧ joinable s = 1%nat
  ∧ memory s = owned_by_thread (thread s) ∧ match mutex s with Starting | Allocated _ _ | Named _ => False | _ => True end.
Proof.
  intros [Hw Hj Hm Hd Hx Hb] Hk. rewrite Hk in *. split_and!; [naive_solver | done | |].
  all: unfold mutex_inv in Hx; rewrite Hk in Hx; destruct (mutex s); try done; cbn in Hm; by rewrite union_empty_l_L in Hm.
Qed.

(** What a step must come to. *)
Definition good (o : outcome) : Prop := o ≠ Crash ∧ forall s, o = Next s -> inv s.

Lemma next_good s : inv s -> good (Next s).
Proof. intros Hs. split; [done|]. by intros s' [= <-]. Qed.

Lemma blocked_good : good Blocked.
Proof. by split. Qed.

Lemma free_data d s k : memory s = blocks d -> self d ≠ path d ->
  free (path d) s (fun s => free (self d) s k) = k (set_memory ∅ s).
Proof.
  intros Hm Hd. unfold free, blocks in *. rewrite Hm, decide_True by set_solver. cbn. rewrite decide_True by set_solver.
  f_equal. unfold set_memory. cbn. f_equal. set_solver.
Qed.

(** The states without a tunnel, and those with one. *)
Definition idle_state (m : owner) : state := mk_state false m (owned_by_mutex m) NoThread false 0.
Definition working_state (m : owner) (t : worker) (b : bool) : state := mk_state true m (owned_by_thread t) t b 1.

Lemma inv_idle_state m : match m with Stopping | Writing | Joining => False | Named d => self d ≠ path d | _ => True end -> inv (idle_state m).
Proof.
  intros Hm. split; cbn; try done; [by rewrite union_empty_r_L | by split; destruct m | unfold mutex_inv; by destruct m].
Qed.

(** What the caller that has the mutex, or the byte, says of the thread. *)
Definition working_ok (m : owner) (t : worker) (b : bool) : Prop :=
  match m, t with
  | (Starting | Allocated _ _ | Named _), _ | _, NoThread => False
  | (Nobody | Stopping), _ => b = false
  | Writing, Up _ => b = false
  | Joining, Up _ => b = true
  | Joining, (Returned _ | Exited) => b = false
  | _, _ => False
  end ∧ match t with Reading d | Initialising d | Up d | Returned d => self d ≠ path d | _ => True end.

Lemma inv_working_state m t b : inv (working_state m t b) <-> working_ok m t b.
Proof.
  split.
  - intros [Hw _ _ [_ Hd] Hx Hb]. cbn in *. unfold mutex_inv in Hx. split; [|done].
    assert (b = true -> m = Joining ∧ exists d, t = Up d) as Hb' by done.
    cbn in *. destruct m, t, b; naive_solver.
  - intros [Hx Hd]. split; cbn; try done.
    + split; [done|]. intros ->. by destruct m.
    + destruct m; try done; cbn; by rewrite union_empty_l_L.
    + split; [by destruct m | done].
    + unfold mutex_inv. cbn. destruct m, t; naive_solver.
    + intros ->. destruct m, t; naive_solver.
Qed.

Lemma working_state_eq s : inv s -> is_working s = true -> s = working_state (mutex s) (thread s) (stop_byte s).
Proof. intros Hs Hk. destruct (inv_working s Hs Hk) as (Ht & Hj & Hm & Hx). destruct s. cbn in *. by subst. Qed.

Lemma start_good l s : sound l -> inv s -> is_working s = false -> good (step l s).
Proof.
  intros Hl Hs Hk. destruct (inv_idle s Hs Hk) as (Ht & Hb & Hj & Hm & Hx). pose proof (iv_distinct s Hs) as [Hd _].
  assert (s = idle_state (mutex s)) as He. { destruct s. cbn in *. by subst. }
  destruct (mutex s) as [| |t fd|d| | |] eqn:Hmu; try done; clear - He Hl Hd; subst s.
  all: destruct l as [|[new|] fd'|[] [new|]|[]| | | | |ok|ok|late|]; cbn; try done.
  - by apply next_good, (inv_idle_state Starting).
  - by apply next_good, (inv_idle_state Nobody).
  - rewrite decide_False by set_solver. rewrite union_empty_r_L. by apply next_good, (inv_idle_state (Allocated new fd')).
  - case_decide as Hn; [apply blocked_good|]. rewrite union_comm_L.
    apply next_good, (inv_idle_state (Named (mk_tdata t new fd))). cbn. set_solver.
  - by apply next_good, (inv_working_state Nobody (Reading d) false).
  - rewrite free_data by done. by apply next_good, (inv_idle_state Nobody).
Qed.

Lemma working_good l s : sound l -> inv s -> is_working s = true -> good (step l s).
Proof.
  intros Hl Hs Hk. destruct (inv_working s Hs Hk) as (Ht & Hj & Hm & Hx).
  rewrite (working_state_eq s Hs Hk) in Hs |- *. apply inv_working_state in Hs.
  set (m := mutex s) in *. set (t := thread s) in *. set (b := stop_byte s) in *. clearbody m t b. clear - Hl Hs.
  destruct Hs as [Hw Hd], m, t as [|d|d|d|d|]; try done; destruct b; try done.
  all: destruct l as [|[new|] fd'|[] [new|]|ok| | | | |[]|[]|[]|]; cbn; try done.
  all: rewrite ?free_data, ?(decide_True (P := self d ∈ blocks d ∧ path d ∈ blocks d)) by (unfold blocks; set_solver || done).
  all: first [ by apply next_good, (inv_idle_state Nobody) | apply next_good ].
  all: match goal with
       | |- inv ?x => let m := eval cbn in (mutex x) in let t := eval cbn in (thread x) in let b := eval cbn in (stop_byte x) in
           by apply (inv_working_state m t b)
       end.
Qed.

Lemma service_step_good l s : sound l -> inv s -> good (step l s).
Proof. intros Hl Hs. destruct (is_working s) eqn:Hk; auto using start_good, working_good. Qed.

Lemma service_steps_inv ls s s' : steps ls s s' -> Forall sound ls -> inv s -> inv s'.
Proof.
  induction 1 as [|l ls s s1 s' Hl Hls IH]; [done|]. intros [Hsl Hf]%Forall_cons Hs. apply IH; [done|]. by apply (service_step_good l s).
Qed.

(** ** Properties *)

(** Whatever threads call the native methods, and whatever the tunnel does meanwhile: nothing
    goes wrong, there is one tunnel at most, and between the calls without a tunnel nothing is
    left behind. *)
Theorem native_service_safe ls s : Forall sound ls -> steps ls initial s ->
  (forall l, sound l -> step l s ≠ Crash)
  ∧ (joinable s <= 1)%nat
  ∧ (is_working s = false -> mutex s = Nobody -> s = initial).
Proof.
  intros Hf Hls. pose proof (service_steps_inv ls initial s Hls Hf service_inv_initial) as Hs. split_and!.
  - intros l Hl. by apply service_step_good.
  - rewrite (iv_joinable s Hs). destruct (is_working s); lia.
  - intros Hk Hm. destruct (inv_idle s Hs Hk) as (Ht & Hb & Hj & Hmem & _). rewrite Hm in Hmem. destruct s. cbn in *. by subst.
Qed.

(** How far the thread that is joined is from its end. *)
Definition rank (s : state) : nat := match thread s with Up _ => 3 | Returned _ => 2 | _ => 1 end.

Lemma joining_working s : inv s -> mutex s = Joining -> s = working_state Joining (thread s) (stop_byte s) ∧ working_ok Joining (thread s) (stop_byte s).
Proof.
  intros Hs Hm. pose proof (iv_mutex s Hs) as Hx. unfold mutex_inv in Hx. rewrite Hm in Hx.
  assert (s = working_state Joining (thread s) (stop_byte s)) as He by (rewrite <- Hm; apply working_state_eq; naive_solver).
  split; [done|]. apply inv_working_state. by rewrite <- He.
Qed.

Lemma service_joining_step l s s' : inv s -> sound l -> mutex s = Joining -> step l s = Next s' ->
  (mutex s' = Joining ∧ rank s = S (rank s')) \/ (rank s = 1%nat ∧ s' = initial).
Proof.
  intros Hs Hl Hm Hst. destruct (joining_working s Hs Hm) as [He [Hw Hd]].
  set (t := thread s) in *. set (b := stop_byte s) in *. clearbody t b. subst s.
  destruct t as [|d|d|d|d|]; try done; subst b.
  all: destruct l as [|[new|] fd'|[] [new|]|ok| | | | |[]|[]|[]|]; cbn in Hst; try done.
  - injection Hst as <-. by left.
  - rewrite free_data in Hst by done. injection Hst as <-. by left.
  - injection Hst as <-. by right.
Qed.

Lemma service_joining_progress s : inv s -> mutex s = Joining -> exists l s', sound l ∧ step l s = Next s'.
Proof.
  intros Hs Hm. destruct (joining_working s Hs Hm) as [He [Hw Hd]]. rewrite He. clear He.
  destruct (thread s) as [|d|d|d|d|]; try done; rewrite Hw.
  - by exists (ThreadEnd false); eexists.
  - exists ThreadExit. eexists. split; [done|]. cbn. by rewrite free_data.
  - by exists StopJoin; eexists.
Qed.

Lemma service_joining_runs n : forall s, inv s -> mutex s = Joining -> rank s = n ->
  (forall ls s', Forall sound ls -> length ls = n -> steps ls s s' -> s' = initial)
  ∧ exists ls, Forall sound ls ∧ length ls = n ∧ steps ls s initial.
Proof.
  induction n as [|n IH]; intros s Hs Hm Hr; [by unfold rank in Hr; destruct (thread s)|]. split.
  - intros ls s' Hf Hn Hls. destruct Hls as [|l ls s s1 s' Hst Hls]; [done|]. apply Forall_cons in Hf as [Hl Hf].
    injection Hn as Hn. destruct (service_joining_step l s s1 Hs Hl Hm Hst) as [[Hm1 Hr1]|[Hr1 ->]].
    + eapply (IH s1); try done; [by apply (service_step_good l s) | lia].
    + assert (n = 0%nat) as -> by lia. destruct ls; [by inversion Hls | done].
  - destruct (service_joining_progress s Hs Hm) as (l & s1 & Hl & Hst).
    destruct (service_joining_step l s s1 Hs Hl Hm Hst) as [[Hm1 Hr1]|[Hr1 ->]].
    + destruct (IH s1) as [_ (ls & Hf & Hn & Hls)]; [by apply (service_step_good l s) | done | lia |].
      exists (l :: ls). split_and!; [by constructor | cbn; lia | by econstructor].
    + exists [l]. split_and!; [by constructor | cbn; lia |]. econstructor; [done | constructor].
Qed.

(** Once [native_stop_service] has woken the tunnel it returns: whatever happens, at most
    three steps are left, they can be done, and they end in the initial state, with
    everything freed. *)
Theorem native_stop_service_completes ls s : Forall sound ls -> steps ls initial s -> mutex s = Joining ->
  exists n, (n <= 3)%nat
    ∧ (forall ls' s', Forall sound ls' -> length ls' = n -> steps ls' s s' -> s' = initial)
    ∧ exists ls', Forall sound ls' ∧ length ls' = n ∧ steps ls' s initial.
Proof.
  intros Hf Hls Hm. exists (rank s). split; [unfold rank; destruct (thread s); lia|].
  apply service_joining_runs; [|done..]. by apply (service_steps_inv ls initial).
Qed.

(** The caller waits for event sockets that never come. *)
Definition hanging (s : state) : Prop := mutex s = Stopping ∧ match thread s with Returned _ | Exited => True | _ => False end.

Lemma service_hanging_steps ls s s' : steps ls s s' -> hanging s -> hanging s'.
Proof.
  induction 1 as [|l ls s s1 s' Hst Hls IH]; [done|]. intros [Hm Ht]. apply IH. clear IH Hls. destruct s as [k m me t b j]. cbn in *. subst m.
  destruct t as [|d|d|d|d|]; try done; destruct l as [|[new|] fd'|[] [new|]|ok| | | | |ok|ok|late|]; cbn in Hst; try done; try by injection Hst as <-.
  unfold free in Hst. cbn in Hst. case_decide; [|done]. cbn in Hst. case_decide; [|done]. by injection Hst as <-.
Qed.

(** When the tunnel could not start (a bad configuration is enough), [native_stop_service]
    waits for ever, with the mutex: no later call of any thread gets any further. *)
Theorem native_stop_service_hangs (fd : Z) : exists ls s, Forall sound ls ∧ steps ls initial s
  ∧ forall ls' s', steps ls' s s' -> mutex s' = Stopping ∧ step StartLock s' = Blocked ∧ step StopLock s' = Blocked.
Proof.
  set (d := mk_tdata 1 2 fd).
  exists [StartLock; StartMalloc (Some 1%positive) fd; StartPath true (Some 2%positive); StartCreate true; ThreadRead false; StopLock].
  exists (working_state Stopping (Returned d) false). split_and!; [by repeat constructor | |].
  - repeat (econstructor; [reflexivity|]). constructor.
  - intros ls' s' Hls. destruct (service_hanging_steps _ _ _ Hls) as [Hm _]; [done|]. unfold step, start_lock, stop_lock. by rewrite Hm.
Qed.

End HevJni.
