(* ===== verification/Main.v ===== *)
(** * The main program: src/hev-main.c, and src/misc/hev-utils.c

    A start of the tunnel as a whole: the configuration is read, the loggers, the task
    system and the tunnel are set up, the tunnel serves, and all is taken down again.  The
    parts are those of Config, Logger and TunnelLife. *)

From S2P Require Import Prelude Socks5Addr Socks5Io Config MappedDNS TunnelPacket TunnelLife Logger.

Module Main.
Import Config TunnelLife.

(** ** State *)

(** The process: the tunnel, which has the open descriptors; the settings; the descriptor
    and the level of either logger; the settings of the SOCKS5 library; the limits of
    descriptors, soft and hard; the pid files it wrote; its task systems; the mark that the
    tunnel runs. *)
Record process := mk_process {
  lw : world; cfg : config; log : Z * Z; slog : Z * Z; sockscfg : Socks5Io.misc_config;
  nofile : Z * Z; pids : list (bytes * bytes); contexts : Z; run : Z }.

Definition initial_process : process :=
  mk_process initial_world initial_config (-1, 0) (-1, 0) (Socks5Io.mk_misc 10000 300000 60000 (512 * 1024)) (1024, 4096) [] 0 0.

Definition set_lw v p := mk_process v (cfg p) (log p) (slog p) (sockscfg p) (nofile p) (pids p) (contexts p) (run p).
Definition set_cfg v p := mk_process (lw p) v (log p) (slog p) (sockscfg p) (nofile p) (pids p) (contexts p) (run p).
Definition set_log v p := mk_process (lw p) (cfg p) v (slog p) (sockscfg p) (nofile p) (pids p) (contexts p) (run p).
Definition set_slog v p := mk_process (lw p) (cfg p) (log p) v (sockscfg p) (nofile p) (pids p) (contexts p) (run p).
Definition set_sockscfg v p := mk_process (lw p) (cfg p) (log p) (slog p) v (nofile p) (pids p) (contexts p) (run p).
Definition set_nofile v p := mk_process (lw p) (cfg p) (log p) (slog p) (sockscfg p) v (pids p) (contexts p) (run p).
Definition set_pids v p := mk_process (lw p) (cfg p) (log p) (slog p) (sockscfg p) (nofile p) v (contexts p) (run p).
Definition set_contexts v p := mk_process (lw p) (cfg p) (log p) (slog p) (sockscfg p) (nofile p) (pids p) v (run p).
Definition set_run v p := mk_process (lw p) (cfg p) (log p) (slog p) (sockscfg p) (nofile p) (pids p) (contexts p) v.

Definition upd (f : process -> process) : M process unit := mput (fun p => Some (f p)).

(** A setting that is read as text may not be terminated. *)
Definition setting {A} (f : config -> A) : M process A := mget (fun p => Some (f (cfg p))).
Definition text {A} (f : config -> option A) : M process A := mget (fun p => f (cfg p)).

(** The parts on the whole. *)
Definition with_fds fs (w : world) : world := TunnelLife.mk_world (st w) fs (tasks w) (netifs w).
Definition on_tunnel {A} (m : M world A) : M process A := fun p =>
  match m (lw p) with Some (a, w) => Some (a, set_lw w p) | None => None end.
Definition on_config (f : config -> option (Z * config)) : M process Z := fun p =>
  match f (cfg p) with Some (res, c) => Some (res, set_cfg c p) | None => None end.
Definition on_logger {A} (part : process -> Z * Z) (put : Z * Z -> process -> process) (m : M Logger.logger A) : M process A :=
  fun p =>
    match m (Logger.mk_logger (fst (part p)) (snd (part p)) (open_fds (lw p)) []) with
    | Some (a, l) => Some (a, put (Logger.fd l, Logger.req_level l) (set_lw (with_fds (Logger.open_fds l) (lw p)) p))
    | None => None
    end.

(** ** What the environment does *)

(** The traffic between start and stop: what becomes of the mapped DNS, the policy and the
    counters, and the mark. *)
Record traffic := mk_traffic {
  tr_dns : option MappedDNS.HevMappedDNS -> option MappedDNS.HevMappedDNS; tr_io : TunnelPacket.tunnel_io; tr_run : Z }.

(** The answers: opening the two logs; the three calls on the limits; the pid file, and the
    pid behind [daemon]; [hev_task_system_init]; those of TunnelLife; the traffic. *)
Record system := mk_system {
  r_log : Logger.target -> Z; r_slog : Logger.target -> Z;
  r_getrlimit : Z; r_raise : Z; r_setrlimit : Z;
  r_pidfile : bool; r_pid : Z; r_task_system : Z; r_env : env; r_traffic : traffic }.

(** ** The setters of hev-socks5-misc.c *)

Definition hev_socks5_set_connect_timeout (v : Z) : M process unit :=
  upd (fun p => let 'Socks5Io.mk_misc _ t u b := sockscfg p in set_sockscfg (Socks5Io.mk_misc v t u b) p).
Definition hev_socks5_set_tcp_timeout (v : Z) : M process unit :=
  upd (fun p => let 'Socks5Io.mk_misc c _ u b := sockscfg p in set_sockscfg (Socks5Io.mk_misc c v u b) p).
Definition hev_socks5_set_udp_timeout (v : Z) : M process unit :=
  upd (fun p => let 'Socks5Io.mk_misc c t _ b := sockscfg p in set_sockscfg (Socks5Io.mk_misc c t v b) p).
Definition hev_socks5_set_udp_recv_buffer_size (v : Z) : M process unit :=
  upd (fun p => let 'Socks5Io.mk_misc c t u _ := sockscfg p in set_sockscfg (Socks5Io.mk_misc c t u v) p).

(** ** hev-utils.c *)

(** [fprintf (fp, "%u\n", getpid ())] *)
Definition run_as_daemon (s : system) (pid_file : bytes) : M process unit :=
  if r_pidfile s then upd (fun p => set_pids (pids p ++ [(pid_file, Logger.padded 1 (r_pid s) ++ [10])]) p) else mret tt.

(** The soft limit is raised to the hard one, then both are set. *)
Definition set_limit_nofile (s : system) (limit_nofile : Z) : M process Z :=
  if decide (r_getrlimit s < 0) then mret (-1) else
  (if decide (r_raise s < 0) then mret tt else upd (fun p => set_nofile (snd (nofile p), snd (nofile p)) p));;
  if decide (r_raise s < 0) then mret (-1) else
  (if decide (r_setrlimit s < 0) then mret tt else upd (set_nofile (u64 limit_nofile, u64 limit_nofile)));;
  mret (r_setrlimit s).

(** ** hev-socks5-tunnel.c *)

(** The tasks must be there; [hev_task_system_run] returns when they have ended. *)
Definition hev_socks5_tunnel_run (t : traffic) : M process Z :=
  e ← on_tunnel (TunnelLife.get task_event);
  i ← on_tunnel (TunnelLife.get task_lwip_io);
  m ← on_tunnel (TunnelLife.get task_lwip_timer);
  if negb (e && i && m) then mfail else
  upd (set_run 1);;
  on_tunnel (TunnelLife.upd (fun s => set_io (tr_io t) (set_dns (tr_dns t (dns s)) s)));;
  upd (set_run (tr_run t));;
  mret 0.

(** ** hev-main.c *)

Definition hev_socks5_tunnel_main_inner (s : system) (tun_fd : Z) : M process Z :=
  log_file ← text hev_config_get_misc_log_file;
  log_level ← setting hev_config_get_misc_log_level;
  res ← setting hev_config_get_misc_connect_timeout;
  hev_socks5_set_connect_timeout res;;
  res ← setting hev_config_get_misc_tcp_read_write_timeout;
  hev_socks5_set_tcp_timeout res;;
  res ← setting hev_config_get_misc_udp_read_write_timeout;
  hev_socks5_set_udp_timeout res;;
  res ← setting hev_config_get_misc_udp_recv_buffer_size;
  hev_socks5_set_udp_recv_buffer_size res;;
  res ← on_logger log set_log (Logger.hev_logger_init (r_log s) log_level log_file);
  if decide (res < 0) then mret (-2) else
  res ← on_logger slog set_slog (Logger.hev_socks5_logger_init (r_slog s) log_level log_file);
  if decide (res < 0) then mret (-3) else
  nofile ← setting hev_config_get_misc_limit_nofile;
  set_limit_nofile s nofile;;
  pid_file ← text hev_config_get_misc_pid_file;
  (match pid_file with Some f => run_as_daemon s f | None => mret tt end);;
  if decide (r_task_system s < 0) then mret (-4) else
  upd (fun p => set_contexts (contexts p + 1) p);;
  c ← setting id;
  res ← on_tunnel (hev_socks5_tunnel_init (r_env s) c tun_fd);
  if decide (res < 0) then mret (-5) else
  hev_socks5_tunnel_run (r_traffic s);;
  on_tunnel (hev_socks5_tunnel_fini c);;
  on_logger slog set_slog Logger.hev_socks5_logger_fini;;
  on_logger log set_log Logger.hev_logger_fini;;
  upd (fun p => set_cfg (hev_config_fini (cfg p)) p);;
  upd (fun p => set_contexts (contexts p - 1) p);;
  mret 0.

Section Document.
Context `{Socks5Addr.Resolver}.

(** [load]: what the YAML parser makes of the text, or of the file, if it can be opened. *)
Definition hev_socks5_tunnel_main_from_file (s : system) (opened : bool) (load : option yaml_document) (tun_fd : Z) : M process Z :=
  res ← on_config (hev_config_init_from_file opened load);
  if decide (res < 0) then mret (-1) else hev_socks5_tunnel_main_inner s tun_fd.

Definition hev_socks5_tunnel_main_from_str (s : system) (load : option yaml_document) (tun_fd : Z) : M process Z :=
  res ← on_config (hev_config_init_from_str load);
  if decide (res < 0) then mret (-1) else hev_socks5_tunnel_main_inner s tun_fd.

Definition hev_socks5_tunnel_main (s : system) (opened : bool) (load : option yaml_document) (tun_fd : Z) : M process Z :=
  hev_socks5_tunnel_main_from_file s opened load tun_fd.

End Document.

End Main.
