(* ===== verification/MainProofs.v ===== *)
(** * The main program: proofs *)

From S2P Require Import Prelude Socks5Addr Socks5Io Config ConfigProofs MappedDNS TunnelPacket TunnelLife TunnelLifeProofs Logger Main.

Module MainProofs.
Import Config ConfigProofs TunnelLife TunnelLifeProofs Main.

(** ** The parts on the whole *)

Lemma wp_on_tunnel {A} (m : M world A) p (Q : A -> process -> Prop) :
  wp m (lw p) (fun a w => Q a (set_lw w p)) -> wp (on_tunnel m) p Q.
Proof. unfold wp, on_tunnel. by destruct (m (lw p)) as [[]|]. Qed.

Lemma wp_setting {A} (f : config -> A) p (Q : A -> process -> Prop) : Q (f (cfg p)) p -> wp (setting f) p Q.
Proof. done. Qed.

Lemma wp_text {A} (f : config -> option A) p (Q : A -> process -> Prop) v : f (cfg p) = Some v -> Q v p -> wp (text f) p Q.
Proof. unfold wp, text, mget. by intros ->. Qed.

Lemma wp_upd f p (Q : unit -> process -> Prop) : Q tt (f p) -> wp (upd f) p Q.
Proof. done. Qed.

(** The tunnel and what only the main program has. *)
Record same (p p' : process) : Prop := {
  sm_lw : lw p' = lw p; sm_cfg : cfg p' = cfg p; sm_log : log p' = log p; sm_slog : slog p' = slog p;
  sm_socks : sockscfg p' = sockscfg p; sm_contexts : contexts p' = contexts p }.

Lemma wp_set_limit_nofile s n p (Q : Z -> process -> Prop) :
  (forall v p', same p p' -> Q v p') -> wp (set_limit_nofile s n) p Q.
Proof.
  intros HQ. unfold set_limit_nofile. case_decide; [by apply HQ|]. apply wp_bind. case_decide.
  - apply wp_ret. by apply HQ.
  - apply wp_upd. apply wp_bind. case_decide; apply HQ; by split.
Qed.

Lemma wp_run_as_daemon s f p (Q : unit -> process -> Prop) : (forall p', same p p' -> Q tt p') -> wp (run_as_daemon s f) p Q.
Proof. intros HQ. unfold run_as_daemon. destruct (r_pidfile s); by apply HQ. Qed.

(** The loggers share the descriptors with the tunnel. *)
Lemma wp_logger_init part put sys level path p (Q : Z -> process -> Prop) :
  let f := sys (Logger.target_of path) in
  Q (if decide (f < 0) then -1 else 0)
    (put (f, level) (set_lw (with_fds (if decide (f < 0) then open_fds (lw p) else {[ f ]} ∪ open_fds (lw p)) (lw p)) p)) ->
  wp (on_logger part put (Logger.hev_logger_init sys level path)) p Q.
Proof. done. Qed.

Lemma wp_logger_fini part put p (Q : unit -> process -> Prop) : fst (part p) ∈ open_fds (lw p) ->
  Q tt (put (part p) (set_lw (with_fds (open_fds (lw p) ∖ {[ fst (part p) ]}) (lw p)) p)) ->
  wp (on_logger part put Logger.hev_logger_fini) p Q.
Proof.
  intros Hin HQ. unfold wp, on_logger, Logger.hev_logger_fini, mput. cbn. rewrite decide_True by done. cbn.
  by destruct (part p).
Qed.

Lemma running_tasks e c ext w0 w : running e c ext w0 w ->
  task_event (st w) = true ∧ task_lwip_io (st w) = true ∧ task_lwip_timer (st w) = true.
Proof.
  intros (_ & _ & Ht & _). unfold task_count in Ht.
  destruct (task_event (st w)), (task_lwip_io (st w)), (task_lwip_timer (st w)); cbn in Ht; lia || done.
Qed.

(** ** From the start of the tunnel to the end *)

Section Serve.
Context (s : system) (c : config) (ext : Z).
Context (Hserving : serving (tr_dns (r_traffic s))) (Hread : strings_readable c).

(** The run, and the end of the tunnel. *)
Lemma wp_run_fini w0 p (Q : unit -> process -> Prop) : running (r_env s) c ext w0 (lw p) ->
  (forall w r, released w0 ∅ w -> Q tt (set_lw w (set_run r p))) ->
  wp (hev_socks5_tunnel_run (r_traffic s);; on_tunnel (hev_socks5_tunnel_fini c)) p Q.
Proof.
  intros Hr HQ. destruct (running_tasks _ _ _ _ _ Hr) as (H1 & H2 & H3). destruct Hr as (Ha & Hg & _).
  apply wp_bind. unfold hev_socks5_tunnel_run.
  do 3 (apply wp_bind, wp_on_tunnel; eapply wp_get; [reflexivity|]). cbn. rewrite H1, H2, H3. cbn.
  apply wp_bind, wp_upd. apply wp_bind, wp_on_tunnel. eapply wp_put; [done|]. apply wp_bind, wp_upd, wp_ret. cbn.
  apply wp_on_tunnel. eapply wp_mono; [apply (wp_fini c w0 ∅); [done | by apply serving_accounted |]|].
  - cbn. by rewrite Hg.
  - intros [] w [Hrel _]. by apply (HQ w (tr_run (r_traffic s))).
Qed.

(** What a start comes to once the task system is there. *)
Definition served (p : process) (v : Z) (p' : process) : Prop :=
  cfg p' = cfg p ∧ sockscfg p' = sockscfg p
  ∧ (all_up (r_env s) c ext ∧ v = 0 ∧ contexts p' = contexts p - 1
       ∧ released (with_fds (open_fds (lw p) ∖ {[ fst (slog p) ]} ∖ {[ fst (log p) ]}) (lw p)) ∅ (lw p')
     \/ ~ all_up (r_env s) c ext ∧ v = -5 ∧ contexts p' = contexts p
       ∧ released (lw p) (lost (r_env s) c ext) (lw p')).

Lemma wp_serve p : cfg p = c -> clean (lw p) -> env_ok (r_env s) (lw p) -> 0 <= hev_config_get_mapdns_cache_size c ->
  (gateway (st (lw p)) = PcbDangling -> device_up (r_env s) c ext) ->
  fst (log p) ∈ open_fds (lw p) -> fst (slog p) ∈ open_fds (lw p) -> fst (log p) ≠ fst (slog p) ->
  wp (c ← setting id;
      res ← on_tunnel (hev_socks5_tunnel_init (r_env s) c ext);
      if decide (res < 0) then mret (-5) else
      hev_socks5_tunnel_run (r_traffic s);;
      on_tunnel (hev_socks5_tunnel_fini c);;
      on_logger slog set_slog Logger.hev_socks5_logger_fini;;
      on_logger log set_log Logger.hev_logger_fini;;
      upd (fun p => set_cfg (hev_config_fini (cfg p)) p);;
      upd (fun p => set_contexts (contexts p - 1) p);;
      mret 0) p (served p).
Proof.
  intros Hcfg Hc He Hsz Hg Hl Hsl Hne. apply wp_bind, wp_setting. rewrite Hcfg. cbn [id].
  apply wp_bind, wp_on_tunnel. eapply wp_mono; [by apply wp_tunnel_init|].
  intros r w [(Hup & -> & Hrun)|(Hup & -> & Hrel)].
  2:{ rewrite decide_True by lia. apply wp_ret. split_and!; [done..|]. right. by split_and!. }
  rewrite decide_False by lia.
  eapply wp_assoc; [eapply wp_run_fini with (Q := fun _ p' => exists w r, released (lw p) ∅ w ∧ p' = set_lw w (set_run r p));
    [exact Hrun | intros w' r Hrel; exists w', r; by split] |].
  intros [] p' (w' & r & (Hcl & Hfds & Ht & Hn) & ->). rewrite union_empty_r_L in Hfds.
  apply wp_bind, wp_logger_fini; [cbn; by rewrite Hfds|].
  apply wp_bind, wp_logger_fini; [cbn; rewrite Hfds; set_solver|].
  apply wp_bind, wp_upd. apply wp_bind, wp_upd, wp_ret. split_and!; [done..|]. left. split_and!; [done..|].
  cbn. rewrite Hfds. split_and!; [destruct Hcl; by split | cbn; by rewrite union_empty_r_L | done | done].
Qed.
End Serve.

(** ** A start *)

#[local] Instance given_decision o : Decision (given o).
Proof. destruct o as [[|]|]; cbn; apply _. Defined.
#[local] Instance all_up_dec e c ext : Decision (all_up e c ext).
Proof.
  unfold all_up, mapdns_up, device_up. destruct (decide (ext >= 0)); apply _.
Defined.

Definition log_target (c : config) : Logger.target :=
  Logger.target_of (default [] (hev_config_get_misc_log_file c)).

(** The code a start returns. *)
Definition result (s : system) (rc : Z) (c : config) (ext : Z) : Z :=
  if decide (rc < 0) then -1
  else if decide (r_log s (log_target c) < 0) then -2
  else if decide (r_slog s (log_target c) < 0) then -3
  else if decide (r_task_system s < 0) then -4
  else if decide (all_up (r_env s) c ext) then 0 else -5.

(** The descriptors it leaves open. *)
Definition left_open (s : system) (c : config) (ext r : Z) : gset Z :=
  if decide (r = -3) then {[ r_log s (log_target c) ]}
  else if decide (r = -4) then {[ r_slog s (log_target c); r_log s (log_target c) ]}
  else if decide (r = -5) then {[ r_slog s (log_target c); r_log s (log_target c) ]} ∪ lost (r_env s) c ext
  else ∅.

(** The descriptors the system hands out are new and different, the traffic keeps the
    mapped DNS a cache. *)
Record answers_ok (s : system) (c : config) (w : world) : Prop := {
  ao_log : r_log s (log_target c) ∉ open_fds w;
  ao_slog : r_slog s (log_target c) ∉ {[ r_log s (log_target c) ]} ∪ open_fds w;
  ao_env : env_ok (r_env s) (with_fds ({[ r_slog s (log_target c) ]} ∪ ({[ r_log s (log_target c) ]} ∪ open_fds w)) w);
  ao_serving : serving (tr_dns (r_traffic s)) }.

(** The settings the library has after the start has read its own. *)
Definition settings (c : config) : Socks5Io.misc_config :=
  Socks5Io.mk_misc (connect_timeout (misc c)) (tcp_read_write_timeout (misc c)) (udp_read_write_timeout (misc c))
    (udp_recv_buffer_size (misc c)).

(** What a start behind the configuration leaves. *)
Record started (s : system) (c : config) (ext : Z) (p : process) (r : Z) (p' : process) : Prop := {
  sd_result : r = result s 0 c ext;
  sd_cfg : cfg p' = c; sd_settings : sockscfg p' = settings c;
  sd_clean : clean (lw p'); sd_tasks : tasks (lw p') = tasks (lw p); sd_netifs : netifs (lw p') = netifs (lw p);
  sd_fds : open_fds (lw p') = open_fds (lw p) ∪ left_open s c ext r;
  sd_contexts : contexts p' = contexts p + (if decide (r = -5) then 1 else 0) }.

(** The settings are handed over. *)
Lemma wp_settings p (k : bytes -> Z -> M process Z) (Q : Z -> process -> Prop) t :
  hev_config_get_misc_log_file (cfg p) = Some t -> wp (k t (log_level (misc (cfg p)))) (set_sockscfg (settings (cfg p)) p) Q ->
  wp (log_file ← text hev_config_get_misc_log_file;
  log_level ← setting hev_config_get_misc_log_level;
  res ← setting hev_config_get_misc_connect_timeout;
  hev_socks5_set_connect_timeout res;;
  res ← setting hev_config_get_misc_tcp_read_write_timeout;
  hev_socks5_set_tcp_timeout res;;
  res ← setting hev_config_get_misc_udp_read_write_timeout;
  hev_socks5_set_udp_timeout res;;
  res ← setting hev_config_get_misc_udp_recv_buffer_size;
  hev_socks5_set_udp_recv_buffer_size res;;
  k log_file log_level) p Q.
Proof.
  intros Ht HQ. apply wp_bind. eapply wp_text; [exact Ht|]. unfold settings in HQ.
  destruct p as [w c l sl [a b d e] n pi cx rn]. exact HQ.
Qed.

(** The limits and the pid file leave the rest alone. *)
Lemma wp_limits s p (m : M process Z) (Q : Z -> process -> Prop) f :
  hev_config_get_misc_pid_file (cfg p) = Some f -> (forall p', same p p' -> wp m p' Q) ->
  wp (nofile ← setting hev_config_get_misc_limit_nofile;
  set_limit_nofile s nofile;;
  pid_file ← text hev_config_get_misc_pid_file;
  (match pid_file with Some f => run_as_daemon s f | None => mret tt end);;
  m) p Q.
Proof.
  intros Hf Hm. apply wp_bind, wp_setting. apply wp_bind, wp_set_limit_nofile. intros _ p1 H1.
  apply wp_bind. eapply wp_text; [rewrite (sm_cfg _ _ H1); exact Hf|]. apply wp_bind.
  destruct f as [f|]; [apply wp_run_as_daemon; intros p2 H2 | apply wp_ret]; apply Hm; [|done].
  destruct H1, H2. split; congruence.
Qed.

Lemma wp_main_inner s ext p : strings_readable (cfg p) -> clean (lw p) -> answers_ok s (cfg p) (lw p) ->
  0 <= hev_config_get_mapdns_cache_size (cfg p) ->
  (gateway (st (lw p)) = PcbDangling -> device_up (r_env s) (cfg p) ext) ->
  wp (hev_socks5_tunnel_main_inner s ext) p (started s (cfg p) ext p).
Proof.
  intros Hr Hc [Hl Hsl He Hsv] Hsz Hg. pose proof Hr as (_ & _ & _ & _ & _ & [pf Hpf] & [t Ht] & _).
  unfold hev_socks5_tunnel_main_inner. eapply wp_settings; [exact Ht|].
  set (c := cfg p) in *. assert (log_target c = Logger.target_of t) as Htt by (unfold log_target; by rewrite Ht).
  assert (forall r fs, result s 0 c ext = r -> left_open s c ext r = fs -> forall w, clean w ->
    tasks w = tasks (lw p) -> netifs w = netifs (lw p) -> open_fds w = open_fds (lw p) ∪ fs ->
    forall p', lw p' = w -> cfg p' = c -> sockscfg p' = settings c -> contexts p' = contexts p + (if decide (r = -5) then 1 else 0) ->
    started s c ext p r p') as Hend.
  { intros r fs <- <- w Hw Htk Hn Hf p' <- ???. by split. }
  assert (forall fs, clean (with_fds fs (lw p))) as Hcl by (intros; destruct Hc; by split).
  unfold result in Hend. rewrite Htt in *. rewrite (decide_False (P := 0 < 0)) in Hend by lia.
  apply wp_bind, wp_logger_init. cbn [lw set_sockscfg open_fds].
  destruct (decide (r_log s (Logger.target_of t) < 0)) as [H2|H2].
  { apply wp_ret. eapply Hend; [done | done | apply Hcl | done | done | | done..|].
    - cbn. set_solver.
    - rewrite decide_False by lia. cbn. lia. }
  rewrite decide_False by lia. apply wp_bind, wp_logger_init. cbn [lw set_sockscfg set_log set_lw open_fds with_fds].
  destruct (decide (r_slog s (Logger.target_of t) < 0)) as [H3|H3].
  { apply wp_ret. eapply Hend; [done | | apply (Hcl ({[ r_log s (Logger.target_of t) ]} ∪ open_fds (lw p))) | done | done | | done..|].
    - unfold left_open. rewrite decide_True by done. rewrite Htt. reflexivity.
    - cbn. set_solver.
    - rewrite decide_False by lia. cbn. lia. }
  rewrite decide_False by lia. eapply wp_limits; [exact Hpf|]. intros p2 [T1 T2 T3 T4 T5 T6]. cbn in T1, T2, T3, T4, T5, T6.
  destruct (decide (r_task_system s < 0)) as [H4|H4].
  { apply wp_ret. eapply Hend; [done | | | | | | exact T1 | exact T2 | exact T5 |].
    - unfold left_open. rewrite decide_False, decide_True by done. rewrite Htt. reflexivity.
    - apply Hcl.
    - done.
    - done.
    - cbn. set_solver.
    - rewrite decide_False by lia. lia. }
  apply wp_bind, wp_upd. eapply wp_mono.
  - apply wp_serve; cbn; rewrite ?T1, ?T2, ?T3, ?T4; cbn; try done; [apply Hcl | set_solver..].
  - intros v p3 (U1 & U2 & U). cbn in U1, U2, U. rewrite T1, T3, T4, T6 in U. cbn in U. rewrite T2 in U1. rewrite T5 in U2.
    destruct U as [(Hup & -> & Hcx & Hcl' & Hfd & Htk & Hnf)|(Hup & -> & Hcx & Hcl' & Hfd & Htk & Hnf)]; cbn in Hfd, Htk, Hnf.
    + rewrite decide_True in Hend by done. eapply Hend; [done | done | exact Hcl' | done | done | | done..|].
      * rewrite Hfd. set_solver.
      * rewrite decide_False by lia. lia.
    + rewrite decide_False in Hend by done. eapply Hend; [done | | exact Hcl' | done | done | | done..|].
      * unfold left_open. rewrite !decide_False, decide_True by done. rewrite Htt. reflexivity.
      * rewrite Hfd. set_solver.
      * rewrite decide_True by lia. lia.
Qed.

(** ** Properties *)


(** ** A start and a stop *)

Definition example_system : system :=
  mk_system (fun _ => 10) (fun _ => 11) 0 0 0 true 4242 0 example_env (mk_traffic id initial_io 0).

Lemma example_system_ok c : answers_ok example_system c initial_world.
Proof.
  split; [set_solver | set_solver | | intros o H; exact H].
  split; cbn; [set_solver|]. intros a b [= <- <-]. split_and!; set_solver || lia.
Qed.


End MainProofs.
